(* ===== verification/_CoqProject ===== *)
-Q . S2P
Prelude.v
Float64.v
FloatFacts.v
Cost.v
Pricing.v
PriceGuarantees.v
Json.v
Usage.v
UsageGuarantees.v
Capture.v
AdmissionControl.v
AdmissionGuarantees.v
Database.v
Schema.v
QuotaMath.v
QuotaWindows.v
ModelAccess.v
RequestLogs.v
Reservation.v
Settlement.v
Requests.v
Sample.v
Subscriptions.v
Books.v
Accounting.v
SubscriptionBooks.v
Machine.v
History.v
Guarantees.v
Effects.v
RateLimits.v
RateGuarantees.v
Admitting.v
WindowSync.v
Billing.v
RequestGuarantees.v
Encoding.v
Passwords.v
DeviceGrants.v
Accounts.v
GrantSample.v
GrantGuarantees.v
AccessTokens.v
AccountRules.v
TenantRemoval.v
AccountGuarantees.v
SignIn.v
KeyGuarantees.v
WebSocket.v
WebSocketGuarantees.v
AccountSample.v
WebSocketSample.v
PriceStore.v
PriceChanges.v
PriceEffects.v
PriceSample.v
Retention.v
RetentionGuarantees.v
RetentionSample.v
Statistics.v
Heatmap.v
HeatmapGuarantees.v
ReportGuarantees.v
ReportSample.v
QuotaReport.v
QuotaReportGuarantees.v
TokenRate.v
CodexConfig.v
CodexConfigGuarantees.v
CodexUndo.v
CodexSample.v
Routing.v
RoutingGuarantees.v
