(* ===== verification/Prelude.v ===== *)
(** * RelayAPI: a verification library

    RelayAPI is a relay for language-model providers.  Tenants hold API keys;
    a request with a key is admitted, priced, paid for out of a balance or out of
    a share of an upstream subscription, forwarded, metered and settled.  This
    library models the Go code that decides who may do what and who pays how much
    (src/internal/...), and proves what its users rely on.

    ** The parts and how they meet

    A request passes the door of the public interface ([Accounts.authenticate]),
    the limits of its key ([RateLimits]), the admission control of the process
    ([AdmissionControl]), is priced ([Pricing], [Cost]), reserves its estimated
    cost ([Reservation], which asks [ModelAccess] for the subscriptions that may
    serve it), is forwarded and answered; the usage is read out of the answer
    ([Json], [Usage], [Capture]), assessed ([Requests]) and settled together with
    its log row ([Settlement], [RequestLogs]), or turn by turn if it is a WebSocket
    ([WebSocket]), or released, or reclaimed when its process dies.  The charges
    outlive their logs as daily facts ([Retention]), and both together make the
    reports ([Statistics]) and the heatmap ([Heatmap]).  Administrators set prices
    ([PriceStore]).  Beside it, upstream accounts are
    synchronised and shared out ([Subscriptions]), their quota windows are
    calibrated by what the providers report ([QuotaWindows], [QuotaMath]), users
    register and sign in ([Accounts], [Passwords]), and devices obtain tokens
    ([DeviceGrants]).

    ** The files, in the order in which they build on one another

    Foundations.
    - Prelude: 64-bit integers with their wrap-around, ASCII text, sums over
      lists and maps, the notation [r <| f := v |>] for record update, tactics.
    - Float64, FloatFacts: Go's float64 as the Standard Library's [SpecFloat].
      The conversion of an unrepresentable float to int64 is up to the machine:
      the class [FloatToInt], with amd64 and arm64 as instances.
    - Database: programs [M T A] over tables [T].  A program consults a world
      [env], which answers every clock reading, generated identifier and random
      buffer, says whether each statement fails, and orders unordered queries.
      Theorems quantify over worlds, so they cover every clock, failure and scan
      order.  [transaction] undoes its body on any error; [wp], [success] and
      [preserves] are the rules to reason about it, [keyed] says that rows are
      filed under their identifier.
    - Schema: the rows of internal/db/models.go and subscriptions.go, one table
      each, with the CHECK constraints of migrations.go.
    - Encoding: base64, base32, hexadecimal and calendar months.
    - Json: encoding/json of the standard library, as far as it is used: a scanner,
      [Valid], and the decoding of members of an object.

    Prices.
    - Cost: internal/pricing/cost.go, the saturating cost of a request.
    - Pricing: internal/pricing/pricing.go, [Compile] and [Resolve].
    - PriceGuarantees: precedence of the sources, compilation as a gate.
    - PriceStore: the price tables of internal/store/store.go, their refresh, and
      the handlers of internal/app/api.go that set and delete a price.
      PriceChanges, PriceEffects: the theorems.  PriceSample: their witnesses.

    Traffic.
    - AdmissionControl: internal/gateway/admission.go and internal/cpa/admission.go
      as a step relation over goroutines; [Breaker] is the interface in which the
      two controllers differ.
    - AdmissionGuarantees: limits, release of everything taken, termination, the
      circuit breaker.
    - RateLimits, RateGuarantees: internal/app/rate.go, limits.go,
      quota_backoff.go and the key-touch throttle of internal/store/hotpath.go.

    Requests and their bills (internal/app).
    - Usage: internal/billing, usage in JSON bodies, event streams and NDJSON, and
      the assessment of a charge.  UsageGuarantees: its theorems.
    - Capture: the buffer of inference.go that keeps both ends of a body.
    - Requests: inference.go, request_meta.go, request_logging.go, user_errors.go,
      cpa_usage.go and limits.go, from the metadata of a request to its settlement.
      RequestGuarantees: what a response is charged.
    - WebSocket: native_websocket.go, the account of a session: the generation that
      runs, those that wait, the checks on frames, the charge of a turn.
      WebSocketGuarantees: the theorems.  WebSocketSample: their witnesses.

    Money (internal/store/store.go, subscriptions.go, hotpath.go, log_units.go).
    - ModelAccess: allowlists (path.Match), entitlements, candidate subscriptions.
    - RequestLogs: request logs and daily token counters.
    - Reservation: [AdmitRequest].  Settlement: every way a request is charged or
      ends, and [Credit].
    - QuotaMath, QuotaWindows: shares, capacities, medians; observation and
      override of a window and the generations of the children's windows.
    - Subscriptions: parents, children, shared grants, missing credentials.
    - Sample: a concrete world and store, in which the witnesses run.
    - Books, Accounting, SubscriptionBooks: the invariants of the money and their
      preservation, operation by operation.
    - Machine: all those operations as the steps of one machine, with admission
      and reclaiming also cut into their single transactions so that concurrent
      calls interleave; [reachable] states start without history.  Deleting a tenant
      ([Accounts]) and retention, which remove rows for good, are not steps.
    - History, Guarantees, Effects, Admitting, WindowSync, Billing: the theorems.

    What remains of a request.
    - Retention: internal/store/retention.go, the batches, the compaction of logs
      into daily facts and the loop.  Its state is an [archive], the tables that it
      touches; [delete_archived] is what the deletion of a tenant does to them.  RetentionGuarantees: the theorems.  RetentionSample: their witnesses.
    - Statistics: [UsageReport] and [Dashboard] of internal/store/store.go.
      ReportGuarantees: what a report shows, before, after and during retention.
    - QuotaReport: [SubscriptionQuotas] of internal/store/subscription_quota.go.
      QuotaReportGuarantees: its shares are those that admission uses, and their
      windows say what admission accepts.
    - TokenRate: internal/store/token_rate.go, with its theorem.
    - Heatmap: [TokenHeatmap] of internal/store/heatmap.go and [Build] of
      internal/heatmap/heatmap.go.  HeatmapGuarantees: its sums, favourites and
      grades, and that retention does not change it.  ReportSample: the witnesses.

    The accounts behind the relay (internal/upstream).
    - Routing: native_runtime.go, native_credential.go, native_affinity.go and the
      parts of native_serve.go, native_websocket.go and native_images.go that choose
      a credential, isolate it and probe it.  Credentials are shared objects, and the
      table of routes is slices that choices write into.
    - RoutingGuarantees: the circuit of a credential is the breaker that its requests
      drive, routes list the owners of a model, what a choice may return, and two
      flaws.

    People and devices.
    - Passwords: internal/store/password.go.  Accounts: the tenants, invitations,
      keys and agent setups of internal/store/store.go and github.go, the check of
      a key (internal/app/public.go) and the doors of the console
      (internal/app/app.go).
    - DeviceGrants: internal/store/rai_authorizations.go, rai_oauth.go,
      rai_devices.go.
    - AccountRules, AccountGuarantees, TenantRemoval, SignIn, KeyGuarantees: the
      rules of accounts and the theorems; AccountSample has their witnesses.
    - GrantSample, GrantGuarantees, AccessTokens: the protocol of a grant, rotation
      of tokens, what an access token is worth.

    The client on the user's machine (internal/rai).
    - CodexConfig: codex_configure.go, codex_restore.go and codex_capabilities.go,
      the managed configuration of Codex.  A file decodes to a [document]; [disk] is
      the configuration and the journals beside it.
    - CodexConfigGuarantees: what the restoration of documents keeps.  CodexUndo: what
      installing and removing do to the files.  CodexSample: the witnesses.

    ** What the theorems show

    - Conservation: a balance is the sum of its ledger entries; the entries of a
      request add up to its recorded cost; a window reserves exactly the claims of
      the pending requests; no such operation rewrites the ledger or a request that
      has ended.
    - Decisions: who pays for an admitted request, within which share; which price
      wins; which models a key may use; when a settlement must succeed.
    - Protocols: a grant, an invitation and a refresh token work once; an access
      token, a session and a key work while, and only while, the account they
      stand for allows it.
    - Bills: a response pays for the usage it reports, once, whatever the convention
      of its provider, and nothing if it reports none; a WebSocket session pays for
      its turns while the store works for others, unless its reservation is ended
      by somebody else; retention changes no
      sum and deletes only what has expired, and reports made after it show what
      they would have shown before.
    - Reversal: taking the client's configuration out gives back the user's file,
      keeps the user's edits and sends no old secret to a new address.
    - Limits: slots, memory and queue of the admission control in every
      interleaving; requests per minute; saturation and bounds of the arithmetic.
    - Flaws: [late_log_forgets_today], [reclaim_trusts_the_scanned_row],
      [scaled_rates_stay_in_range], [alias_order_matters_only_for_twins],
      [a_new_password_keeps_sessions], [blank_names_freeze_prices],
      [equal_failures_are_one], [reports_count_moved_logs_twice],
      [killed_reconfiguration_stays], [isolated_accounts_are_forgotten],
      [unended_probes_block_their_account], [responses_pay_for_their_usage] for a success
      without usage, and the end of [administrators_set_prices] and of
      [deleted_tenants_leave_nothing] show behaviour that the code or its
      documentation does not intend.

    ** Bounds

    Five definitions run on fuel.  The parser of globs: [path_match] gives it the
    length of the pattern plus one, and more changes nothing ([parse_glob_fuel]).
    [RunRetention]: one round more than [workload] is enough ([retention_ends]).
    [restoreCodexFieldsAt]: the greater depth of the two tables is enough, since every
    step descends in one of them ([restore_undo]).  [free_provider]: one attempt more
    than there are names in use ([free_provider_ends]).  [tokenRatePoints]: the
    minutes of a day and two more, which reach the end of the window
    ([rate_counts_logs_once]).
    Integers that Go keeps in int64 wrap or saturate as the code has
    it; PostgreSQL columns reject an overflow.  Instants are nanoseconds from the
    zero time without an upper bound.

    ** Assumptions

    Code outside the repository is a parameter with its documented laws:
    SHA-256 ([Digest], no law), AES-GCM ([AEAD], [LawfulAEAD]: it opens what it
    sealed), Argon2, bcrypt and scrypt ([PasswordHashing]: the length of a key),
    the zone of the process ([TimeZone]), the zone of a database session and how its
    driver reads dates ([Session]), name-based UUIDs ([NameUUID]), and the
    weighted semaphore of golang.org/x/sync, whose promise is part of the step
    relation.  gorm's treatment of zero values in columns with a default
    ([ColumnDefault]), gjson ([GJSON]), net/url ([URLParsing]), the texts of HTTP statuses ([StatusText]),
    the JSON of a price ([PriceEncoding]) and the usage that an embedded runtime
    counts are parameters, too, and so is go-toml ([TOML], [LawfulTOML]: what it writes
    it reads back, what it has read it can write).  Nothing is assumed of the quality of the ciphers: the theorems do
    not speak about guessing secrets.

    ** Not modelled

    - Text is ASCII: letter case, spaces and printable characters of other
      alphabets are not told apart.  Identifiers are arbitrary strings; the syntax
      of uuid columns is not checked.
    - Foreign keys are not enforced, except for the cascades that deletions rely
      on; [created_at] and [updated_at] exist only where a query reads them.
    - Single transactions are atomic steps; lower isolation levels, connection
      pools and deadlocks are not modelled.  A failed COMMIT is a rollback: that the
      server commits and the client does not learn it is not modelled.
    - HTTP routing and the listings of the console, the rewriting of documents
      between provider protocols, sockets and heartbeats, the calls of the
      upstream runtime, the OAuth of its credentials and how they are stored, the
      clients of the providers' quotas, SQL percentiles and SVG,
      configuration, the rest of the command-line client, the web front end and the
      vendored adapters: input and output around the decisions modelled here.
    - The recognition of user agents, multipart bodies and the latency timeline; the
      signature and the JSON of the session cookie. *)

From Stdlib Require Export Lia ZArith Ascii.
From stdpp Require Export base gmap strings list sorting numbers.

#[export] Set Default Goal Selector "!".
#[global] Open Scope Z_scope.

Declare Scope go_scope.
Delimit Scope go_scope with go.

(** ** Signed 64-bit integers

    A Go [int64] is a [Z] in [[min_int64, max_int64]]; the language's [+], [-]
    and [*] wrap around, which [wrap64] writes out. *)

Definition max_int64 : Z := 2 ^ 63 - 1.
Definition min_int64 : Z := - 2 ^ 63.

Definition wrap64 (z : Z) : Z := (z + 2 ^ 63) mod 2 ^ 64 - 2 ^ 63.

Definition add64 (x y : Z) : Z := wrap64 (x + y).
Definition sub64 (x y : Z) : Z := wrap64 (x - y).
Definition mul64 (x y : Z) : Z := wrap64 (x * y).

Definition in_int64 (z : Z) : Prop := min_int64 ≤ z ≤ max_int64.

Notation "x +₆₄ y" := (add64 x y) (at level 50, left associativity) : go_scope.
Notation "x -₆₄ y" := (sub64 x y) (at level 50, left associativity) : go_scope.
Open Scope go_scope.

#[global] Instance in_int64_dec z : Decision (in_int64 z).
Proof. unfold in_int64. apply _. Defined.

Ltac int64_unfold :=
  unfold add64, sub64, mul64, in_int64, wrap64, max_int64, min_int64 in *.

(** [int64_lia] decides linear facts that mention the 64-bit bounds. *)
Ltac int64_lia :=
  int64_unfold; change (2 ^ 63) with 9223372036854775808 in *;
  change (2 ^ 64) with 18446744073709551616 in *; try lia.

Lemma wrap64_in_range z : in_int64 (wrap64 z).
Proof.
  int64_unfold. pose proof (Z.mod_pos_bound (z + 2 ^ 63) (2 ^ 64) ltac:(lia)). int64_lia.
Qed.

Lemma wrap64_id z : in_int64 z → wrap64 z = z.
Proof.
  intros H. int64_unfold. rewrite Z.mod_small; int64_lia.
Qed.

Lemma wrap64_mod z : ∃ k, wrap64 z = z + k * 2 ^ 64.
Proof.
  exists (- ((z + 2 ^ 63) / 2 ^ 64)). unfold wrap64.
  pose proof (Z.div_mod (z + 2 ^ 63) (2 ^ 64) ltac:(lia)). lia.
Qed.

Lemma wrap64_eq x y k : x = y + k * 2 ^ 64 → wrap64 x = wrap64 y.
Proof.
  intros ->. unfold wrap64.
  replace (y + k * 2 ^ 64 + 2 ^ 63) with (y + 2 ^ 63 + k * 2 ^ 64) by lia.
  rewrite Z.mod_add by lia. done.
Qed.

Lemma wrap64_idemp z : wrap64 (wrap64 z) = wrap64 z.
Proof. apply wrap64_id, wrap64_in_range. Qed.

Lemma wrap64_add_l x y : wrap64 (wrap64 x + y) = wrap64 (x + y).
Proof. destruct (wrap64_mod x) as [k ->]. apply (wrap64_eq _ _ k). lia. Qed.

Lemma wrap64_add_r x y : wrap64 (x + wrap64 y) = wrap64 (x + y).
Proof. destruct (wrap64_mod y) as [k ->]. apply (wrap64_eq _ _ k). lia. Qed.

Lemma wrap64_sub_r x y : wrap64 (x - wrap64 y) = wrap64 (x - y).
Proof. destruct (wrap64_mod y) as [k ->]. apply (wrap64_eq _ _ (-k)). lia. Qed.

Lemma wrap64_sub_l x y : wrap64 (wrap64 x - y) = wrap64 (x - y).
Proof. destruct (wrap64_mod x) as [k ->]. apply (wrap64_eq _ _ k). lia. Qed.

Lemma wrap64_opp x : wrap64 (- wrap64 x) = wrap64 (- x).
Proof. destruct (wrap64_mod x) as [k ->]. apply (wrap64_eq _ _ (-k)). lia. Qed.

(** The rewriting database that pushes every [wrap64] outwards. *)
Create Rewrite HintDb wrap.
#[export] Hint Rewrite wrap64_add_l wrap64_add_r wrap64_sub_l wrap64_sub_r
  wrap64_opp wrap64_idemp : wrap.

(** Congruence modulo [2 ^ 64]: inside a sum, [wrap64] can be dropped. *)
Definition eqw (x y : Z) : Prop := wrap64 x = wrap64 y.

#[global] Instance eqw_equivalence : Equivalence eqw.
Proof. unfold eqw. split; [done|by intros ?? ->|intros ???; congruence]. Qed.

#[global] Instance eqw_add : Proper (eqw ==> eqw ==> eqw) Z.add.
Proof.
  unfold eqw. intros x x' Hx y y' Hy.
  by rewrite <- wrap64_add_l, Hx, wrap64_add_l, <- wrap64_add_r, Hy, wrap64_add_r.
Qed.

#[global] Instance eqw_opp : Proper (eqw ==> eqw) Z.opp.
Proof. unfold eqw. intros x x' Hx. by rewrite <- wrap64_opp, Hx, wrap64_opp. Qed.

#[global] Instance eqw_sub : Proper (eqw ==> eqw ==> eqw) Z.sub.
Proof. intros x x' Hx y y' Hy. unfold Z.sub. by rewrite Hx, Hy. Qed.

Lemma eqw_wrap x : eqw (wrap64 x) x.
Proof. apply wrap64_idemp. Qed.

Lemma eqw_of_eq x y : x = y → eqw x y.
Proof. by intros ->. Qed.

(** [wrap_ring] proves [wrap64 x = wrap64 y] when the two sums agree without their wraps. *)
Ltac wrap_ring :=
  unfold add64, sub64;
  lazymatch goal with |- wrap64 ?x = wrap64 ?y => change (eqw x y) end;
  rewrite ?eqw_wrap; apply eqw_of_eq; lia.

Create HintDb int64 discriminated.
#[export] Hint Resolve wrap64_in_range : int64.

(** ** Strings

    Go strings are byte strings.  [strings.ToLower] and [strings.TrimSpace] are
    written out on ASCII; a byte above 127 is left as it is. *)

Definition ascii_lower (c : Ascii.ascii) : Ascii.ascii :=
  let n := Ascii.nat_of_ascii c in
  if bool_decide (65 ≤ n ∧ n ≤ 90)%nat then Ascii.ascii_of_nat (n + 32) else c.

Definition ascii_space (c : Ascii.ascii) : bool :=
  let n := Ascii.nat_of_ascii c in
  bool_decide ((9 ≤ n ∧ n ≤ 13) ∨ n = 32)%nat.

Fixpoint to_lower (s : string) : string :=
  match s with
  | EmptyString => EmptyString
  | String c s => String (ascii_lower c) (to_lower s)
  end.

Fixpoint trim_left (s : string) : string :=
  match s with
  | EmptyString => EmptyString
  | String c s' => if ascii_space c then trim_left s' else s
  end.

Fixpoint trim_right (s : string) : string :=
  match s with
  | EmptyString => EmptyString
  | String c s' =>
      match trim_right s' with
      | EmptyString => if ascii_space c then EmptyString else String c EmptyString
      | t => String c t
      end
  end.

Definition trim_space (s : string) : string := trim_right (trim_left s).

(** [strings.EqualFold] on ASCII. *)
Definition equal_fold (s t : string) : bool := bool_decide (to_lower s = to_lower t).

(** [strings.HasPrefix], [strings.TrimPrefix] and [strings.Contains]. *)
Fixpoint strip_prefix (p s : string) : option string :=
  match p, s with
  | EmptyString, _ => Some s
  | String a p', String b s' => if decide (a = b) then strip_prefix p' s' else None
  | String _ _, EmptyString => None
  end.

Definition has_prefix (s p : string) : bool := bool_decide (is_Some (strip_prefix p s)).

Definition trim_prefix (s p : string) : string := default s (strip_prefix p s).

Fixpoint contains (s sub : string) : bool :=
  has_prefix s sub ||
  match s with
  | EmptyString => false
  | String _ s' => contains s' sub
  end.

Lemma ascii_lower_idemp c : ascii_lower (ascii_lower c) = ascii_lower c.
Proof. destruct c as [[] [] [] [] [] [] [] []]; reflexivity. Qed.

Lemma to_lower_idemp s : to_lower (to_lower s) = to_lower s.
Proof. induction s as [|c s IH]; cbn; [done|]. by rewrite ascii_lower_idemp, IH. Qed.

Lemma trim_right_idemp s : trim_right (trim_right s) = trim_right s.
Proof.
  induction s as [|c s IH]; cbn; [done|].
  destruct (trim_right s) as [|d t] eqn:E.
  - destruct (ascii_space c) eqn:Hc; cbn; [done|]. by rewrite Hc.
  - cbn [trim_right] in *. by rewrite IH.
Qed.

Lemma trim_left_head s c t : trim_left s = String c t → ascii_space c = false.
Proof.
  induction s as [|d s IH]; cbn; [done|]. destruct (ascii_space d) eqn:Hd; [done|].
  intros [= <- <-]. done.
Qed.

Lemma trim_right_head c s : ascii_space c = false →
  trim_right (String c s) = String c (trim_right s).
Proof. intros Hc. cbn. destruct (trim_right s); by rewrite ?Hc. Qed.

Lemma trim_left_nonspace c s : ascii_space c = false → trim_left (String c s) = String c s.
Proof. intros Hc. cbn. by rewrite Hc. Qed.

Lemma trim_space_idemp s : trim_space (trim_space s) = trim_space s.
Proof.
  unfold trim_space. destruct (trim_left s) as [|c t] eqn:E; [done|].
  apply trim_left_head in E. rewrite (trim_right_head c t E).
  rewrite trim_left_nonspace by done. rewrite <- (trim_right_head c t E).
  apply trim_right_idemp.
Qed.

Lemma ascii_lower_space c : ascii_space (ascii_lower c) = ascii_space c.
Proof. destruct c as [[] [] [] [] [] [] [] []]; reflexivity. Qed.

Lemma trim_left_lower s : trim_left (to_lower s) = to_lower (trim_left s).
Proof. induction s as [|c s IH]; [done|]. cbn. rewrite ascii_lower_space. by destruct (ascii_space c). Qed.

Lemma trim_right_lower s : trim_right (to_lower s) = to_lower (trim_right s).
Proof.
  induction s as [|c s IH]; [done|]. cbn. rewrite IH, ascii_lower_space.
  destruct (trim_right s); [|done]. by destruct (ascii_space c).
Qed.

Lemma trim_lower s : trim_space (to_lower s) = to_lower (trim_space s).
Proof. unfold trim_space. by rewrite trim_left_lower, trim_right_lower. Qed.

Lemma trim_lower_trim s : trim_space (to_lower (trim_space s)) = to_lower (trim_space s).
Proof. by rewrite trim_lower, trim_space_idemp. Qed.

Create Rewrite HintDb gostr.
#[export] Hint Rewrite to_lower_idemp trim_space_idemp : gostr.

(** ** Lists *)

(** The number of the elements of a list that satisfy a boolean predicate, and
    the sum of a measure over a list. *)
Definition sum_by {A} (f : A → Z) (l : list A) : Z := foldr (λ x acc, f x + acc) 0 l.

Lemma sum_by_nil {A} (f : A → Z) : sum_by f [] = 0.
Proof. done. Qed.

Lemma sum_by_cons {A} (f : A → Z) x l : sum_by f (x :: l) = f x + sum_by f l.
Proof. done. Qed.

Lemma sum_by_app {A} (f : A → Z) l1 l2 : sum_by f (l1 ++ l2) = sum_by f l1 + sum_by f l2.
Proof. induction l1 as [|x l1 IH]; cbn; [done|]. unfold sum_by in *. lia. Qed.

Lemma sum_by_ext {A} (f g : A → Z) l : (∀ x, x ∈ l → f x = g x) → sum_by f l = sum_by g l.
Proof.
  induction l as [|x l IH]; intros H; [done|]. rewrite !sum_by_cons, (H x), IH; [done| |left].
  intros y Hy. apply H. by right.
Qed.

Lemma sum_by_nonneg {A} (f : A → Z) l : (∀ x, x ∈ l → 0 ≤ f x) → 0 ≤ sum_by f l.
Proof.
  induction l as [|x l IH]; intros H; [done|]. rewrite sum_by_cons.
  pose proof (H x ltac:(left)). pose proof (IH ltac:(intros; apply H; by right)). lia.
Qed.

Lemma sum_by_permutation {A} (f : A → Z) l1 l2 : l1 ≡ₚ l2 → sum_by f l1 = sum_by f l2.
Proof. induction 1; rewrite ?sum_by_cons in *; lia. Qed.

#[global] Instance sum_by_proper {A} (f : A → Z) : Proper ((≡ₚ) ==> (=)) (sum_by f).
Proof. intros l1 l2 H. by apply sum_by_permutation. Qed.

Create Rewrite HintDb sum_by.
#[export] Hint Rewrite @sum_by_nil @sum_by_cons @sum_by_app : sum_by.

(** A sum over a list with one entry replaced. *)
Lemma sum_by_fmap {A B} (f : B → Z) (g : A → B) l : sum_by f (g <$> l) = sum_by (f ∘ g) l.
Proof.
  induction l as [|x l IH]; [done|]. rewrite fmap_cons, !sum_by_cons, IH. done.
Qed.

Lemma sum_by_id {A} (f : A → Z) l : sum_by id (f <$> l) = sum_by f l.
Proof. by rewrite sum_by_fmap. Qed.

Lemma sum_by_add {A} (f g : A → Z) l : sum_by (λ x, f x + g x) l = sum_by f l + sum_by g l.
Proof. induction l as [|x l IH]; [done|]. rewrite !sum_by_cons. lia. Qed.

Lemma sum_by_zero {A} (f : A → Z) l : (∀ x, x ∈ l → f x = 0) → sum_by f l = 0.
Proof.
  intros Hf. rewrite (sum_by_ext f (λ _, 0) l Hf). clear Hf. induction l as [|x l IH]; [done|]. by rewrite sum_by_cons, IH.
Qed.

Lemma sum_by_single {K} `{EqDecision K} (k : K) (v : Z) (l : list K) :
  NoDup l → k ∈ l → sum_by (λ x, if bool_decide (k = x) then v else 0) l = v.
Proof.
  induction 1 as [|x l Hx _ IH]; [by intros ?%not_elem_of_nil|]. rewrite sum_by_cons.
  intros [->|Hk]%elem_of_cons; [|rewrite IH, bool_decide_false by (done || congruence); lia].
  rewrite bool_decide_true, sum_by_zero by (done || (intros y Hy; rewrite bool_decide_false by congruence; done)). lia.
Qed.

(** A sum by classes is the sum, if every element is of one of the classes. *)
Lemma sum_by_partition {A K} `{EqDecision K} (key : A → K) (f : A → Z) (classes : list K) (l : list A) :
  NoDup classes → (∀ x, x ∈ l → key x ∈ classes) →
  sum_by (λ k, sum_by (λ x, if bool_decide (key x = k) then f x else 0) l) classes = sum_by f l.
Proof.
  intros Hnd. induction l as [|x l IH]; intros Hin; [by apply sum_by_zero|].
  rewrite sum_by_cons, <- IH by (intros y Hy; apply Hin; by right).
  rewrite <- (sum_by_single (key x) (f x) classes Hnd) by (apply Hin; by left).
  rewrite <- sum_by_add. apply sum_by_ext. intros k _. by rewrite sum_by_cons.
Qed.

(** ** Finite maps *)

(** The sum of a measure over the values of a map. *)
Definition sum_map {K V : Type} `{Countable K} (f : V → Z) (m : gmap K V) : Z :=
  sum_by f (map_to_list m).*2.

Section sum_map.
Context {K V : Type} `{Countable K} (f : V → Z).
Implicit Types m : gmap K V.

Lemma sum_map_empty : sum_map f (∅ : gmap K V) = 0.
Proof. unfold sum_map. by rewrite map_to_list_empty. Qed.

Lemma sum_map_insert m k v : m !! k = None → sum_map f (<[k := v]> m) = f v + sum_map f m.
Proof. intros Hk. unfold sum_map. by rewrite map_to_list_insert. Qed.

Lemma sum_map_delete m k v : m !! k = Some v → sum_map f m = f v + sum_map f (delete k m).
Proof.
  intros Hk. rewrite <- (insert_delete_id m k v Hk) at 1. apply sum_map_insert, lookup_delete_eq.
Qed.

(** Replacing one row changes the sum by the difference. *)
Lemma sum_map_replace m k v v' : m !! k = Some v →
  sum_map f (<[k := v']> m) = sum_map f m - f v + f v'.
Proof.
  intros Hk. rewrite (sum_map_delete m k v Hk), <- insert_delete_eq, sum_map_insert
    by apply lookup_delete_eq. lia.
Qed.

Lemma sum_map_nonneg m : (∀ k v, m !! k = Some v → 0 ≤ f v) → 0 ≤ sum_map f m.
Proof.
  intros Hf. apply sum_by_nonneg. intros v ([k v'] & -> & Hin)%list_elem_of_fmap.
  apply elem_of_map_to_list in Hin. by apply (Hf k).
Qed.

Lemma sum_map_zero m : (∀ k v, m !! k = Some v → f v = 0) → sum_map f m = 0.
Proof.
  intros Hf. unfold sum_map. rewrite (sum_by_ext f (λ _, 0)).
  - induction (map_to_list m).*2 as [|v l IH]; [done|]. by rewrite sum_by_cons.
  - intros v ([k v'] & -> & Hin)%list_elem_of_fmap. apply elem_of_map_to_list in Hin.
    by apply (Hf k).
Qed.

Lemma sum_map_nonzero m : sum_map f m ≠ 0 → ∃ k v, m !! k = Some v ∧ f v ≠ 0.
Proof.
  intros Hne. destruct (decide (map_Forall (λ _ v, f v = 0) m)) as [Hall|Hn].
  - destruct Hne. apply sum_map_zero, Hall.
  - apply map_not_Forall in Hn as (k & v & ? & ?); [eauto|]. intros ??. apply _.
Qed.
End sum_map.

Lemma sum_map_fmap {K V W : Type} `{Countable K} (f : W → Z) (g : V → W) (m : gmap K V) :
  sum_map f (g <$> m) = sum_map (f ∘ g) m.
Proof.
  unfold sum_map. rewrite map_to_list_fmap, <- list_fmap_compose.
  replace (snd ∘ prod_map id g) with (g ∘ @snd K V) by done.
  rewrite list_fmap_compose. apply sum_by_fmap.
Qed.

Lemma sum_map_ext {K V : Type} `{Countable K} (f g : V → Z) (m : gmap K V) :
  (∀ k v, m !! k = Some v → f v = g v) → sum_map f m = sum_map g m.
Proof.
  intros Hf. apply sum_by_ext. intros v ([k v'] & -> & Hin)%list_elem_of_fmap.
  apply elem_of_map_to_list in Hin. by apply (Hf k).
Qed.

Lemma sum_map_split {K V : Type} `{Countable K} (f : V → Z) (cond : V → bool) (m : gmap K V) :
  sum_map f m = sum_map f (filter (λ kv, cond kv.2 = false) m) +
                sum_by f (filter (λ v, cond v = true) (map_to_list m).*2).
Proof.
  induction m as [|k v m Hk IH] using map_ind.
  - rewrite map_filter_empty, sum_map_empty, map_to_list_empty. done.
  - rewrite sum_map_insert, map_to_list_insert, IH by done. rewrite fmap_cons, list.filter_cons. cbn [snd].
    destruct (cond v) eqn:Hc.
    + rewrite map_filter_insert_False, delete_id by (done || by cbn; rewrite Hc).
      rewrite decide_True by done. rewrite sum_by_cons. lia.
    + rewrite map_filter_insert_True by done. rewrite sum_map_insert by (apply map_lookup_filter_None; by left).
      rewrite decide_False by done. lia.
Qed.

Lemma sum_by_filter {A} (f : A → Z) (P : A → bool) (l : list A) :
  sum_by f (filter (λ x, P x = true) l) = sum_by (λ x, if P x then f x else 0) l.
Proof.
  induction l as [|x l IH]; [done|]. rewrite list.filter_cons, sum_by_cons.
  destruct (P x); [rewrite decide_True, sum_by_cons by done|rewrite decide_False by done]; lia.
Qed.

Lemma sum_map_filter {K V : Type} `{Countable K} (f : V → Z) (cond : V → bool) (b : bool) (m : gmap K V) :
  sum_map f (filter (λ kv, cond kv.2 = b) m) = sum_map (λ v, if Bool.eqb (cond v) b then f v else 0) m.
Proof.
  induction m as [|k v m Hk IH] using map_ind; [by rewrite map_filter_empty, !sum_map_empty|].
  rewrite sum_map_insert, <- IH by done. destruct (Bool.eqb (cond v) b) eqn:Hc.
  - apply Bool.eqb_prop in Hc. rewrite map_filter_insert_True by done.
    apply sum_map_insert, map_lookup_filter_None. by left.
  - apply Bool.eqb_false_iff in Hc. rewrite map_filter_insert_False, delete_id by done. lia.
Qed.

Lemma sum_map_add {K V : Type} `{Countable K} (f g : V → Z) (m : gmap K V) :
  sum_map (λ v, f v + g v) m = sum_map f m + sum_map g m.
Proof.
  induction m as [|k v m Hk IH] using map_ind; [by rewrite !sum_map_empty|].
  rewrite !sum_map_insert by done. lia.
Qed.

Lemma sum_map_le {K V : Type} `{Countable K} (f g : V → Z) (m : gmap K V) :
  (∀ k v, m !! k = Some v → f v ≤ g v) → sum_map f m ≤ sum_map g m.
Proof.
  intros Hle. assert (0 ≤ sum_map (λ v, g v - f v) m) as Hpos.
  { apply sum_map_nonneg. intros k v Hv. specialize (Hle k v Hv). lia. }
  pose proof (sum_map_add f (λ v, g v - f v) m) as Hadd.
  rewrite (sum_map_ext (λ v, f v + (g v - f v)) g) in Hadd by (intros; lia). lia.
Qed.

(** The number of rows, as a sum. *)
Definition rows_of {K V : Type} `{Countable K} (m : gmap K V) : Z := sum_map (λ _, 1) m.

Lemma size_rows {K V : Type} `{Countable K} (m : gmap K V) : Z.of_nat (size m) = rows_of m.
Proof.
  unfold rows_of. induction m as [|k v m Hk IH] using map_ind; [by rewrite map_size_empty, sum_map_empty|].
  rewrite map_size_insert_None, sum_map_insert by done. lia.
Qed.

(** ** Tactics

    [case_if] splits the first boolean condition of the goal, turning
    [bool_decide] and the comparisons of [Z] into propositions. *)

Ltac reflect_bools :=
  repeat match goal with
  | H : bool_decide _ = true |- _ => apply bool_decide_eq_true in H
  | H : bool_decide _ = false |- _ => apply bool_decide_eq_false in H
  | H : (_ && _)%bool = true |- _ => apply andb_true_iff in H as [? ?]
  | H : (_ || _)%bool = false |- _ => apply orb_false_iff in H as [? ?]
  | H : negb _ = true |- _ => apply negb_true_iff in H
  | H : negb _ = false |- _ => apply negb_false_iff in H
  | H : (_ <? _) = true |- _ => apply Z.ltb_lt in H
  | H : (_ <? _) = false |- _ => apply Z.ltb_ge in H
  | H : (_ <=? _) = true |- _ => apply Z.leb_le in H
  | H : (_ <=? _) = false |- _ => apply Z.leb_gt in H
  | H : (_ =? _) = true |- _ => apply Z.eqb_eq in H
  | H : (_ =? _) = false |- _ => apply Z.eqb_neq in H
  end.

Ltac case_if :=
  match goal with
  | |- context [if ?b then _ else _] =>
      let E := fresh "E" in destruct b eqn:E; reflect_bools
  end.

Ltac case_if_in H :=
  match type of H with
  | context [if ?b then _ else _] =>
      let E := fresh "E" in destruct b eqn:E; reflect_bools
  end.

(** A list without a negative number. *)
Lemma no_negatives l : existsb (λ z, z <? 0) l = false ↔ Forall (λ z, 0 ≤ z) l.
Proof.
  induction l as [|z l IH]; cbn; [by split; [intros; constructor|]|].
  rewrite orb_false_iff, IH, list.Forall_cons, Z.ltb_ge. done.
Qed.

(** [vm_dec] proves a decidable proposition about closed terms by evaluation. *)
Ltac vm_dec :=
  lazymatch goal with
  | |- ?P => apply (bool_decide_eq_true_1 P); vm_compute; reflexivity
  end.

(** ** Record update

    [r <| f := v |>] is [r] with field [f] replaced.  A record type opts in with
    an [Eta] instance that rebuilds a record from its projections. *)
Class Eta (R : Type) := eta : R → R.

Ltac eta_body r :=
  let R := type of r in
  let h := constr:(@eta R _) in
  let i := lazymatch h with @eta _ ?x => x end in
  eval cbv beta delta [i eta] in (i r).

Ltac record_set1 r f v :=
  let b := eta_body r in
  let p := eval pattern (f r) in b in
  lazymatch p with ?g _ => let t := eval cbv beta in (g v) in exact t end.
Ltac record_set2 r f v f' v' :=
  let b := eta_body r in
  let p := eval pattern (f r), (f' r) in b in
  lazymatch p with ?g _ _ => let t := eval cbv beta in (g v v') in exact t end.
Ltac record_set3 r f v f' v' f'' v'' :=
  let b := eta_body r in
  let p := eval pattern (f r), (f' r), (f'' r) in b in
  lazymatch p with ?g _ _ _ => let t := eval cbv beta in (g v v' v'') in exact t end.
Ltac record_set4 r f v f' v' f'' v'' f3 v3 :=
  let b := eta_body r in
  let p := eval pattern (f r), (f' r), (f'' r), (f3 r) in b in
  lazymatch p with ?g _ _ _ _ => let t := eval cbv beta in (g v v' v'' v3) in exact t end.
Ltac record_set5 r f v f' v' f'' v'' f3 v3 f4 v4 :=
  let b := eta_body r in
  let p := eval pattern (f r), (f' r), (f'' r), (f3 r), (f4 r) in b in
  lazymatch p with ?g _ _ _ _ _ => let t := eval cbv beta in (g v v' v'' v3 v4) in exact t end.

Notation "r <| f := v |>" := (ltac:(record_set1 r f v))
  (at level 1, f at level 0, v at level 200, only parsing).
Notation "r <| f1 := v1 ; f2 := v2 |>" := (ltac:(record_set2 r f1 v1 f2 v2))
  (at level 1, f1 at level 0, v1 at level 200, f2 at level 0, v2 at level 200, only parsing).
Notation "r <| f1 := v1 ; f2 := v2 ; f3 := v3 |>" := (ltac:(record_set3 r f1 v1 f2 v2 f3 v3))
  (at level 1, f1 at level 0, v1 at level 200, f2 at level 0, v2 at level 200,
   f3 at level 0, v3 at level 200, only parsing).
Notation "r <| f1 := v1 ; f2 := v2 ; f3 := v3 ; f4 := v4 |>" :=
  (ltac:(record_set4 r f1 v1 f2 v2 f3 v3 f4 v4))
  (at level 1, f1 at level 0, v1 at level 200, f2 at level 0, v2 at level 200,
   f3 at level 0, v3 at level 200, f4 at level 0, v4 at level 200, only parsing).
Notation "r <| f1 := v1 ; f2 := v2 ; f3 := v3 ; f4 := v4 ; f5 := v5 |>" :=
  (ltac:(record_set5 r f1 v1 f2 v2 f3 v3 f4 v4 f5 v5))
  (at level 1, f1 at level 0, v1 at level 200, f2 at level 0, v2 at level 200,
   f3 at level 0, v3 at level 200, f4 at level 0, v4 at level 200,
   f5 at level 0, v5 at level 200, only parsing).
