(* ===== verification/Float64.v ===== *)
(** * IEEE 754 binary64, as Go's [float64]

    Built on the Standard Library's executable [SpecFloat] at precision 53 and
    maximal exponent 1024; rounding is to nearest, ties to even. *)

From Stdlib Require Import SpecFloat.
From S2P Require Import Prelude.

Abbreviation float64 := spec_float.

Definition f64_prec : Z := 53.
Definition f64_emax : Z := 1024.

Definition f64_mul (x y : float64) : float64 := SFmul f64_prec f64_emax x y.
Definition f64_add (x y : float64) : float64 := SFadd f64_prec f64_emax x y.
Definition f64_sub (x y : float64) : float64 := SFsub f64_prec f64_emax x y.
Definition f64_div (x y : float64) : float64 := SFdiv f64_prec f64_emax x y.
Definition f64_lt (x y : float64) : bool := SFltb x y.
Definition f64_le (x y : float64) : bool := SFleb x y.
Definition f64_eq (x y : float64) : bool := SFeqb x y.
Definition f64_abs (x : float64) : float64 := SFabs x.

(** Conversion of an integer, as [float64(value)]. *)
Definition f64_of_Z (z : Z) : float64 := binary_normalize f64_prec f64_emax z 0 false.

Definition f64_zero : float64 := S754_zero false.
Definition f64_one : float64 := f64_of_Z 1.
Definition f64_two : float64 := f64_of_Z 2.

Definition f64_is_nan (x : float64) : bool :=
  match x with S754_nan => true | _ => false end.

Definition f64_is_inf (x : float64) : bool :=
  match x with S754_infinity _ => true | _ => false end.

(** The integer nearest to [m * 2^e], ties away from zero. *)
Definition round_half_away (m : positive) (e : Z) : Z :=
  if 0 <=? e then Z.pos m * 2 ^ e
  else (2 * Z.pos m + 2 ^ (- e)) / (2 * 2 ^ (- e)).

(** [math.Round]. *)
Definition f64_round (x : float64) : float64 :=
  match x with
  | S754_finite s m e =>
      if 0 <=? e then x
      else match round_half_away m e with
           | Z0 => S754_zero s
           | n => f64_of_Z (if s then - n else n)
           end
  | _ => x
  end.

(** The mathematical integer a finite float truncates to. *)
Definition f64_trunc (x : float64) : option Z :=
  match x with
  | S754_zero _ => Some 0
  | S754_finite s m e =>
      let n := if 0 <=? e then Z.pos m * 2 ^ e else Z.pos m / 2 ^ (- e) in
      Some (if s then - n else n)
  | _ => None
  end.

(** The conversion [int64(x)] truncates towards zero.  The language leaves the
    result implementation-specific when it does not fit, so that result is an
    interface with one instance per architecture. *)
Class FloatToInt := {
  oob_int64 : float64 → Z;
  oob_int64_range : ∀ x, in_int64 (oob_int64 x)
}.

Definition f64_to_int64 `{FloatToInt} (x : float64) : Z :=
  match f64_trunc x with
  | Some n => if bool_decide (in_int64 n) then n else oob_int64 x
  | None => oob_int64 x
  end.

(** amd64 answers [0x8000000000000000] for every unrepresentable value. *)
Lemma amd64_range (x : float64) : in_int64 ((λ _, min_int64) x).
Proof. int64_lia. Qed.

Definition amd64 : FloatToInt := {| oob_int64 _ := min_int64; oob_int64_range := amd64_range |}.

(** arm64 saturates, and sends NaN to zero. *)
Definition arm64_oob (x : float64) : Z :=
  match x with
  | S754_infinity s | S754_finite s _ _ => if s then min_int64 else max_int64
  | _ => 0
  end.

Lemma arm64_range (x : float64) : in_int64 (arm64_oob x).
Proof. destruct x as [|[]| |[]]; cbn; int64_lia. Qed.

Definition arm64 : FloatToInt := {| oob_int64 := arm64_oob; oob_int64_range := arm64_range |}.

Lemma f64_to_int64_range `{FloatToInt} x : in_int64 (f64_to_int64 x).
Proof.
  unfold f64_to_int64. destruct (f64_trunc x); [case_bool_decide; [done|]|]; apply oob_int64_range.
Qed.

#[export] Hint Resolve f64_to_int64_range : int64.
