(* ===== verification/FloatFacts.v ===== *)
(** * Facts about binary64

    What the theorems on prices need: mantissas stay below 2^53, products of
    non-negative numbers are not negative, integers below 2^53 are exact, and
    multiplying by one changes nothing. *)

From Stdlib Require Import SpecFloat.
From S2P Require Import Prelude.
From S2P Require Import Float64.

(** ** Shifting right *)

Lemma shr_1_m mrs : 0 ≤ shr_m mrs → shr_m (shr_1 mrs) = shr_m mrs / 2.
Proof.
  destruct mrs as [[|[p|p|]|p] r s]; cbn; intros H; try lia; try done.
  - change (Z.pos p~1) with (2 * Z.pos p + 1). Z.div_mod_to_equations. lia.
  - change (Z.pos p~0) with (2 * Z.pos p). Z.div_mod_to_equations. lia.
Qed.

Lemma iter_pos_iter {A} (f : A → A) p x : SpecFloat.iter_pos f p x = Pos.iter f x p.
Proof.
  revert x. induction p as [p IH|p IH|]; intros x; cbn [SpecFloat.iter_pos]; [| |done].
  - rewrite !IH, Pos.xI_succ_xO, <- Pos.add_diag, Pos.iter_succ_r, Pos.iter_add. done.
  - rewrite !IH, <- (Pos.add_diag p), Pos.iter_add. done.
Qed.

Lemma iter_shr_m p mrs :
  0 ≤ shr_m mrs → shr_m (SpecFloat.iter_pos shr_1 p mrs) = shr_m mrs / 2 ^ Z.pos p.
Proof.
  rewrite iter_pos_iter. intros H. induction p as [|p IH] using Pos.peano_ind.
  - cbn [Pos.iter]. by rewrite shr_1_m.
  - rewrite Pos.iter_succ, shr_1_m, IH.
    + rewrite Z.div_div by lia. f_equal. rewrite Pos2Z.inj_succ, Z.pow_succ_r by lia. lia.
    + rewrite IH. apply Z.div_pos; lia.
Qed.

(** Dropping zeros is exact. *)
Lemma iter_shr_exact p (m : positive) :
  SpecFloat.iter_pos shr_1 p (Build_shr_record (Z.pos (Pos.iter xO m p)) false false) =
  Build_shr_record (Z.pos m) false false.
Proof.
  rewrite iter_pos_iter. induction p as [|p IH] using Pos.peano_ind; [done|].
  rewrite Pos.iter_succ_r, (Pos.iter_succ _ _ xO). cbn [shr_1 orb]. exact IH.
Qed.

Lemma digits2_bound p : Z.pos p < 2 ^ Z.pos (digits2_pos p).
Proof.
  induction p as [p IH|p IH|]; cbn [digits2_pos]; [| |done];
    rewrite Pos2Z.inj_succ, Z.pow_succ_r by lia; lia.
Qed.

Lemma digits2_lower p : 2 ^ (Z.pos (digits2_pos p) - 1) ≤ Z.pos p.
Proof.
  induction p as [p IH|p IH|]; cbn [digits2_pos]; [| |done];
    rewrite Pos2Z.inj_succ;
    replace (Z.succ (Z.pos (digits2_pos p)) - 1) with (Z.succ (Z.pos (digits2_pos p) - 1)) by lia;
    rewrite Z.pow_succ_r by lia; lia.
Qed.

Lemma Zdigits2_bound m : 0 ≤ m → m < 2 ^ Zdigits2 m.
Proof. destruct m as [|p|p]; [done| |lia]. intros _. apply digits2_bound. Qed.

Lemma digits2_small p : Z.pos p < 2 ^ 53 → Z.pos (digits2_pos p) ≤ 53.
Proof.
  intros Hp. destruct (Z.le_gt_cases (Z.pos (digits2_pos p)) 53) as [|Hgt]; [done|].
  pose proof (digits2_lower p). pose proof (Z.pow_le_mono_r 2 53 (Z.pos (digits2_pos p) - 1)).
  lia.
Qed.

Lemma digits2_shift p d : Z.pos (digits2_pos (Pos.iter xO p d)) = Z.pos (digits2_pos p) + Z.pos d.
Proof.
  induction d as [|d IH] using Pos.peano_ind; [cbn [Pos.iter digits2_pos]; lia|].
  rewrite Pos.iter_succ. cbn [digits2_pos]. lia.
Qed.

Lemma value_shift p d : Z.pos (Pos.iter xO p d) = Z.pos p * 2 ^ Z.pos d.
Proof.
  induction d as [|d IH] using Pos.peano_ind; [cbn [Pos.iter]; lia|].
  rewrite Pos.iter_succ, Pos2Z.inj_succ, Z.pow_succ_r by lia. lia.
Qed.

(** ** Rounding *)

(** The mantissa fits. *)
Definition fits (x : float64) : Prop :=
  match x with S754_finite _ m _ => Z.pos m < 2 ^ 53 | _ => True end.

(** A number, positive or zero. *)
Definition nonnegative (x : float64) : Prop :=
  match x with
  | S754_zero s | S754_infinity s | S754_finite s _ _ => s = false
  | S754_nan => False
  end.

Notation fexp64 := (fexp f64_prec f64_emax).

Lemma shr_fexp_m m e l : 0 ≤ m →
  0 ≤ shr_m (shr_fexp f64_prec f64_emax m e l).1 ∧ shr_m (shr_fexp f64_prec f64_emax m e l).1 < 2 ^ 53.
Proof.
  intros Hm. unfold shr_fexp, shr.
  assert (shr_m (shr_record_of_loc m l) = m) as Hrec by (by destruct l as [|[]]).
  pose proof (Zdigits2_bound m Hm) as Hd.
  set (n := fexp64 (Zdigits2 m + e) - e). assert (Zdigits2 m - 53 ≤ n) as Hn.
  { subst n. unfold fexp, f64_prec. lia. }
  destruct n as [|p|p] eqn:Heq; cbn [fst].
  - rewrite Hrec. split; [done|]. eapply Z.lt_le_trans; [exact Hd|]. apply Z.pow_le_mono_r; lia.
  - rewrite iter_shr_m by (by rewrite Hrec). rewrite Hrec. split; [apply Z.div_pos; lia|].
    apply Z.div_lt_upper_bound; [lia|]. rewrite <- Z.pow_add_r by lia.
    eapply Z.lt_le_trans; [exact Hd|]. apply Z.pow_le_mono_r; lia.
  - rewrite Hrec. split; [done|]. eapply Z.lt_le_trans; [exact Hd|]. apply Z.pow_le_mono_r; lia.
Qed.

Lemma round_nearest_even_nonneg m l : 0 ≤ m → 0 ≤ round_nearest_even m l.
Proof. destruct l as [|[]]; cbn; [lia| |lia|lia]. destruct (Z.even m); lia. Qed.

Lemma round_aux_ok sx m e l : 0 ≤ m →
  let x := binary_round_aux f64_prec f64_emax sx m e l in
  fits x ∧ (sx = false → nonnegative x).
Proof.
  intros Hm. cbn zeta. unfold binary_round_aux.
  destruct (shr_fexp f64_prec f64_emax m e l) as [mrs e'] eqn:H1.
  pose proof (shr_fexp_m m e l Hm) as [Hm1 _]. rewrite H1 in Hm1. cbn [fst] in Hm1.
  set (m2 := round_nearest_even (shr_m mrs) (loc_of_shr_record mrs)).
  assert (0 ≤ m2) as Hm2 by (by apply round_nearest_even_nonneg).
  destruct (shr_fexp f64_prec f64_emax m2 e' loc_Exact) as [mrs2 e2] eqn:H2.
  pose proof (shr_fexp_m m2 e' loc_Exact Hm2) as [Hlo Hhi]. rewrite H2 in Hlo, Hhi. cbn [fst] in Hlo, Hhi.
  destruct (shr_m mrs2) as [|p|p]; [done| |lia]. destruct (e2 <=? _); [|done]. by split.
Qed.

Lemma of_Z_ok z : fits (f64_of_Z z) ∧ (0 ≤ z → nonnegative (f64_of_Z z)).
Proof.
  destruct z as [|p|p]; [done| |]; cbn; unfold binary_round; destruct (shl_align _ _ _) as [m e];
    destruct (round_aux_ok false (Z.pos m) e loc_Exact ltac:(lia));
    destruct (round_aux_ok true (Z.pos m) e loc_Exact ltac:(lia)); split; auto; lia.
Qed.

Lemma mul_ok x y : fits x → fits y → fits (f64_mul x y).
Proof.
  destruct x as [|[]| |sx mx ex]; destruct y as [|[]| |sy my ey]; try done; intros _ _; cbn;
    by apply round_aux_ok.
Qed.

(** Zero times infinity apart, a product of non-negative numbers is one. *)
Lemma mul_nonnegative x y :
  nonnegative x → nonnegative y → nonnegative (f64_mul x y) ∨ f64_mul x y = S754_nan.
Proof.
  destruct x as [| | |sx mx ex]; destruct y as [| | |sy my ey]; cbn; intros Hx Hy; subst;
    try done; auto; try (left; by apply round_aux_ok).
Qed.

Lemma round_half_away_nonneg m e : 0 ≤ round_half_away m e.
Proof.
  unfold round_half_away. destruct (Z.leb_spec 0 e).
  - pose proof (Z.pow_nonneg 2 e). nia.
  - pose proof (Z.pow_pos_nonneg 2 (- e)). apply Z.div_pos; lia.
Qed.

Lemma round_ok x : fits x → nonnegative x → fits (f64_round x) ∧ nonnegative (f64_round x).
Proof.
  destruct x as [| | |s m e]; try done. cbn. intros Hm ->. destruct (0 <=? e); [done|].
  pose proof (round_half_away_nonneg m e) as Hn. destruct (round_half_away m e) as [|p|p]; [done| |lia].
  split; [apply of_Z_ok|]. by apply of_Z_ok.
Qed.

(** ** Comparison with the largest integer *)

Definition f64_two63 : float64 := f64_of_Z max_int64.

(** [float64(math.MaxInt64)] is 2^63. *)
Lemma two63_value : f64_two63 = S754_finite false 4503599627370496 11.
Proof. reflexivity. Qed.

(** A number that is not above it truncates to at most 2^63. *)
Lemma trunc_of_not_above x :
  fits x → nonnegative x → f64_lt f64_two63 x = false →
  ∃ n, f64_trunc x = Some n ∧ 0 ≤ n ≤ 2 ^ 63.
Proof.
  unfold f64_lt. rewrite two63_value. destruct x as [s|s| |s m e]; cbn [fits nonnegative]; try done.
  - intros _ _ _. exists 0. split; [done|lia].
  - intros _ ->. by intros [=].
  - intros Hm ->. unfold SFltb. cbn [SFcompare]. intros Hlt.
    assert (e < 11 ∨ e = 11 ∧ Z.pos m ≤ 4503599627370496) as Hcmp.
    { destruct (Z.compare_spec 11 e) as [He|He|He]; [|done|lia]. right. split; [done|].
      change (Pos.compare_cont Eq 4503599627370496 m) with (Pos.compare 4503599627370496 m) in Hlt.
      apply Pos2Z.pos_le_pos, Pos.le_nlt. intros Hgt. unfold Pos.lt in Hgt. by rewrite Hgt in Hlt. }
    cbn [f64_trunc]. eexists. split; [done|]. destruct (Z.leb_spec 0 e) as [He|He].
    + pose proof (Z.pow_pos_nonneg 2 e ltac:(lia) He). split; [lia|].
      destruct Hcmp as [Hlt11|[-> Hle]]; [|lia].
      change (2 ^ 63) with (2 ^ 53 * 2 ^ 10). apply Z.mul_le_mono_nonneg; [lia|lia|lia|].
      apply Z.pow_le_mono_r; lia.
    + split; [apply Z.div_pos; [lia|]; apply Z.pow_pos_nonneg; lia|].
      apply Z.div_le_upper_bound; [apply Z.pow_pos_nonneg; lia|].
      pose proof (Z.pow_pos_nonneg 2 (- e) ltac:(lia) ltac:(lia)).
      transitivity (1 * 2 ^ 63); [lia|]. apply Z.mul_le_mono_nonneg_r; lia.
Qed.

(** ** Exact integers *)

Lemma shr_fexp_still (m : positive) e :
  fexp64 (Z.pos (digits2_pos m) + e) = e →
  shr_fexp f64_prec f64_emax (Z.pos m) e loc_Exact = (Build_shr_record (Z.pos m) false false, e).
Proof. intros He. unfold shr_fexp. cbn [Zdigits2]. by rewrite He, Z.sub_diag. Qed.

Lemma round_aux_still sx (m : positive) e :
  fexp64 (Z.pos (digits2_pos m) + e) = e → e ≤ f64_emax - f64_prec →
  binary_round_aux f64_prec f64_emax sx (Z.pos m) e loc_Exact = S754_finite sx m e.
Proof.
  intros He Hmax. unfold binary_round_aux. rewrite shr_fexp_still by done. cbn [shr_m loc_of_shr_record round_nearest_even].
  rewrite shr_fexp_still by done. cbn [shr_m]. by destruct (Z.leb_spec e (f64_emax - f64_prec)); [|lia].
Qed.

Lemma round_aux_shift sx (m p : positive) e :
  fexp64 (Z.pos (digits2_pos (Pos.iter xO m p)) + e) - e = Z.pos p →
  fexp64 (Z.pos (digits2_pos m) + (e + Z.pos p)) = e + Z.pos p → e + Z.pos p ≤ f64_emax - f64_prec →
  binary_round_aux f64_prec f64_emax sx (Z.pos (Pos.iter xO m p)) e loc_Exact = S754_finite sx m (e + Z.pos p).
Proof.
  intros Hp He Hmax. unfold binary_round_aux, shr_fexp at 1. cbn [Zdigits2]. rewrite Hp. cbn [shr shr_record_of_loc].
  rewrite iter_shr_exact. cbn [shr_m loc_of_shr_record round_nearest_even].
  rewrite shr_fexp_still by done. cbn [shr_m]. by destruct (Z.leb_spec (e + Z.pos p) (f64_emax - f64_prec)); [|lia].
Qed.

(** An integer that is exactly [x]. *)
Definition exactly (x : float64) (p : positive) : Prop :=
  ∃ m d, x = S754_finite false m (- d) ∧ 0 ≤ d ≤ 52 ∧ Z.pos (digits2_pos m) = 53 ∧ Z.pos m = Z.pos p * 2 ^ d.

Lemma fexp64_53 d : 0 ≤ d ≤ 1000 → fexp64 (53 + - d) = - d.
Proof. intros Hd. unfold fexp, emin, f64_prec, f64_emax. lia. Qed.

Lemma of_Z_exact p : Z.pos p < 2 ^ 53 → exactly (f64_of_Z (Z.pos p)) p.
Proof.
  intros Hp. pose proof (digits2_small p Hp) as Hd.
  assert (fexp64 (Z.pos (digits2_pos p) + 0) = Z.pos (digits2_pos p) - 53) as Hf.
  { unfold fexp, emin, f64_prec, f64_emax. lia. }
  cbn. unfold binary_round, shl_align. rewrite Hf.
  destruct (Z.pos (digits2_pos p) - 53 - 0) as [|d|d] eqn:Hshift; [|lia|].
  - exists p, 0. rewrite round_aux_still; [|rewrite Hf; lia|unfold f64_emax, f64_prec; lia].
    split; [done|]. split_and!; lia.
  - assert (Z.pos (digits2_pos (Pos.iter xO p d)) = 53) as H53 by (rewrite digits2_shift; lia).
    assert (Z.pos (digits2_pos p) - 53 = - Z.pos d) as -> by lia.
    exists (Pos.iter xO p d), (Z.pos d). rewrite round_aux_still.
    + split; [done|]. split; [lia|]. split; [done|]. apply value_shift.
    + rewrite H53. apply fexp64_53. lia.
    + unfold f64_emax, f64_prec. lia.
Qed.

Lemma one_value : f64_one = S754_finite false 4503599627370496 (-52).
Proof. reflexivity. Qed.

(** Multiplying by one changes nothing. *)
Lemma mul_one x p : exactly x p → f64_mul x f64_one = x.
Proof.
  intros (m & d & -> & Hd & H53 & _). rewrite one_value. cbn [f64_mul SFmul xorb].
  assert (m * 4503599627370496 = Pos.iter xO m 52)%positive as ->.
  { apply Pos2Z.inj. rewrite value_shift. change (2 ^ Z.pos 52) with 4503599627370496. lia. }
  unfold f64_mul, SFmul. cbn [xorb]. rewrite round_aux_shift.
  - f_equal. lia.
  - rewrite digits2_shift, H53. unfold fexp, emin, f64_prec, f64_emax. lia.
  - rewrite H53. replace (- d + -52 + Z.pos 52) with (- d) by lia. apply fexp64_53. lia.
  - unfold f64_emax, f64_prec. lia.
Qed.

Lemma div_pow p d : 0 ≤ d → Z.pos p * 2 ^ d / 2 ^ d = Z.pos p.
Proof. intros Hd. apply Z.div_mul. pose proof (Z.pow_pos_nonneg 2 d). lia. Qed.

Lemma trunc_exactly x p : exactly x p → f64_trunc x = Some (Z.pos p).
Proof.
  intros (m & d & -> & Hd & _ & Hm). cbn [f64_trunc]. destruct (Z.leb_spec 0 (- d)).
  - assert (d = 0) as -> by lia. cbn in Hm |- *. f_equal. lia.
  - rewrite Z.opp_involutive, Hm, div_pow by lia. done.
Qed.

Lemma round_exactly x p : Z.pos p < 2 ^ 53 → exactly x p → exactly (f64_round x) p.
Proof.
  intros Hp (m & d & -> & Hd & H53 & Hm). cbn [f64_round]. destruct (Z.leb_spec 0 (- d)) as [|Hneg].
  - exists m, d. split; [done|]. split; [exact Hd|]. by split.
  - assert (round_half_away m (- d) = Z.pos p) as ->; [|by apply of_Z_exact].
    unfold round_half_away. destruct (Z.leb_spec 0 (- d)); [lia|]. rewrite Z.opp_involutive, Hm.
    pose proof (Z.pow_pos_nonneg 2 d ltac:(lia) ltac:(lia)).
    symmetry. apply (Z.div_unique _ _ _ (2 ^ d)); lia.
Qed.

Lemma exactly_not_above x p : exactly x p → f64_lt f64_two63 x = false.
Proof.
  intros (m & d & -> & Hd & _). rewrite two63_value. unfold f64_lt, SFltb. cbn [SFcompare].
  destruct (Z.compare_spec 11 (- d)); [lia|lia|done].
Qed.
