(* ===== verification/Cost.v ===== *)
(** * The cost of a request (internal/pricing/cost.go)

    The price record, the usage counters and [CostNanoUSD], the saturating
    integer cost of one request. *)

From S2P Require Import Prelude.
From S2P Require Import Float64.

(* src/internal/pricing/cost.go:5-8 Usage *)
Record Usage := {
  u_Prompt : Z; u_Completion : Z; u_Cached : Z; u_CacheWrite : Z; u_Reasoning : Z; u_Total : Z;
  u_ImageInput : Z; u_CachedImageInput : Z; u_ImageOutput : Z
}.

#[global] Instance Usage_eq_dec : EqDecision Usage.
Proof. solve_decision. Defined.

Definition zero_usage : Usage := Build_Usage 0 0 0 0 0 0 0 0 0.

(* src/internal/pricing/pricing.go:26-39 Price *)
Record Price := {
  p_Model : string;
  p_InputNanoUSDPerToken : Z;
  p_OutputNanoUSDPerToken : Z;
  p_CachedInputNanoUSDPerToken : Z;
  p_CacheWriteNanoUSDPerToken : Z;
  p_ReasoningNanoUSDPerToken : Z;
  p_ImageInputNanoUSDPerToken : Z;
  p_CachedImageInputNanoUSDPerToken : Z;
  p_ImageOutputNanoUSDPerToken : Z;
  p_Source : string;
  p_Version : string;
  p_PriceMultiplier : float64
}.

(* src/internal/pricing/pricing.go:61-67 SnapshotPrice *)
Record SnapshotPrice := {
  sp_Price : Price;
  sp_RequestedModel : string;
  sp_PricedModel : string;
  sp_MatchedBy : string;
  sp_RuleMultiplier : float64
}.

(* src/internal/pricing/cost.go:69-74 max64 *)
Definition max64 (left right : Z) : Z := if right <? left then left else right.

(* src/internal/pricing/cost.go:76-81 min64 *)
Definition min64 (left right : Z) : Z := if left <? right then left else right.

(* src/internal/pricing/cost.go:52-60 saturatingMultiply *)
Definition saturatingMultiply (left right : Z) : Z :=
  if (left <=? 0) || (right <=? 0) then 0
  else if Z.quot max_int64 right <? left then max_int64
  else mul64 left right.

(* src/internal/pricing/cost.go:62-67 saturatingAdd *)
Definition saturatingAdd (left right : Z) : Z :=
  if max_int64 -₆₄ right <=? left then max_int64 else left +₆₄ right.

(* src/internal/pricing/cost.go:45-50 reasoningIncludedInCompletion *)
Definition reasoningIncludedInCompletion (usage : Usage) : bool :=
  if u_Total usage <=? u_Prompt usage then true
  else u_Total usage -₆₄ u_Prompt usage <=? u_Completion usage.

(** The token counts [CostNanoUSD] splits the usage into. *)
Record TokenSplit := {
  uncachedText : Z; cachedText : Z; uncachedImage : Z; cachedImage : Z;
  completion : Z; imageOutput : Z; reasoning : Z
}.

(* src/internal/pricing/cost.go:14-27 CostNanoUSD *)
Definition split_tokens (usage : Usage) : TokenSplit :=
  let imageInput := min64 (max64 0 (u_ImageInput usage)) (max64 0 (u_Prompt usage)) in
  let cachedInput := min64 (max64 0 (u_Cached usage)) (max64 0 (u_Prompt usage)) in
  let cachedImage := min64 (max64 0 (u_CachedImageInput usage)) (min64 imageInput cachedInput) in
  let textInput := max64 0 (u_Prompt usage -₆₄ imageInput) in
  let cachedText := min64 textInput (max64 0 (cachedInput -₆₄ cachedImage)) in
  let uncachedText := max64 0 (textInput -₆₄ cachedText) in
  let uncachedImage := max64 0 (imageInput -₆₄ cachedImage) in
  let imageOutput := min64 (max64 0 (u_ImageOutput usage)) (max64 0 (u_Completion usage)) in
  let completion := max64 0 (u_Completion usage -₆₄ imageOutput) in
  let reasoning := max64 0 (u_Reasoning usage) in
  let completion :=
    if (0 <? reasoning) && reasoningIncludedInCompletion usage
    then max64 0 (completion -₆₄ reasoning) else completion in
  {| uncachedText := uncachedText; cachedText := cachedText; uncachedImage := uncachedImage;
     cachedImage := cachedImage; completion := completion; imageOutput := imageOutput;
     reasoning := reasoning |}.

(* src/internal/pricing/cost.go:30-39 CostNanoUSD *)
Definition cost_items (price : SnapshotPrice) (usage : Usage) : list (Z * Z) :=
  let t := split_tokens usage in
  let p := sp_Price price in
  [ (uncachedText t, p_InputNanoUSDPerToken p);
    (cachedText t, p_CachedInputNanoUSDPerToken p);
    (uncachedImage t, p_ImageInputNanoUSDPerToken p);
    (cachedImage t, p_CachedImageInputNanoUSDPerToken p);
    (completion t, p_OutputNanoUSDPerToken p);
    (imageOutput t, p_ImageOutputNanoUSDPerToken p);
    (max64 0 (u_CacheWrite usage), p_CacheWriteNanoUSDPerToken p);
    (reasoning t, p_ReasoningNanoUSDPerToken p) ].

(* src/internal/pricing/cost.go:13-43 CostNanoUSD *)
Definition CostNanoUSD (price : SnapshotPrice) (usage : Usage) : Z :=
  foldl (λ result '(count, rate), saturatingAdd result (saturatingMultiply count rate))
    0 (cost_items price usage).

(** ** Well-formed inputs *)

(** Every counter of a usage record is a Go [int64]. *)
Definition usage_int64 (u : Usage) : Prop :=
  Forall in_int64 [u_Prompt u; u_Completion u; u_Cached u; u_CacheWrite u; u_Reasoning u;
                   u_Total u; u_ImageInput u; u_CachedImageInput u; u_ImageOutput u].

Definition price_rates (p : Price) : list Z :=
  [p_InputNanoUSDPerToken p; p_OutputNanoUSDPerToken p; p_CachedInputNanoUSDPerToken p;
   p_CacheWriteNanoUSDPerToken p; p_ReasoningNanoUSDPerToken p; p_ImageInputNanoUSDPerToken p;
   p_CachedImageInputNanoUSDPerToken p; p_ImageOutputNanoUSDPerToken p].

Definition price_int64 (p : Price) : Prop := Forall in_int64 (price_rates p).

#[global] Instance usage_int64_dec u : Decision (usage_int64 u).
Proof. unfold usage_int64. apply _. Defined.
#[global] Instance price_int64_dec p : Decision (price_int64 p).
Proof. unfold price_int64. apply _. Defined.

(** The cost without saturation: the mathematical sum of the billed products. *)
Definition exact_cost (price : SnapshotPrice) (usage : Usage) : Z :=
  sum_by (λ '(count, rate), Z.max 0 count * Z.max 0 rate) (cost_items price usage).

(** ** Lemmas *)

Lemma max64_eq x y : max64 x y = Z.max x y.
Proof. unfold max64. case_if; lia. Qed.

Lemma min64_eq x y : min64 x y = Z.min x y.
Proof. unfold min64. case_if; lia. Qed.

Create Rewrite HintDb minmax.
#[export] Hint Rewrite max64_eq min64_eq : minmax.

Lemma sub64_exact x y : in_int64 (x - y) → x -₆₄ y = x - y.
Proof. apply wrap64_id. Qed.

Lemma saturatingMultiply_eq x y : in_int64 x → in_int64 y →
  saturatingMultiply x y = Z.min max_int64 (Z.max 0 x * Z.max 0 y).
Proof.
  intros Hx Hy. unfold saturatingMultiply.
  destruct (Z.leb_spec x 0); [cbn; int64_lia|].
  destruct (Z.leb_spec y 0); [cbn; int64_lia|]. cbn [orb].
  assert (Hq : max_int64 ÷ y = max_int64 / y) by (apply Z.quot_div_nonneg; int64_lia).
  rewrite Hq, !Z.max_r by lia. destruct (Z.ltb_spec (max_int64 / y) x) as [Hlt|Hge].
  - pose proof (Z.mod_pos_bound max_int64 y ltac:(lia)).
    pose proof (Z.div_mod max_int64 y ltac:(lia)). nia.
  - assert (x * y ≤ max_int64) as Hle.
    { pose proof (Z.mul_div_le max_int64 y ltac:(lia)). nia. }
    unfold mul64. rewrite wrap64_id; [lia|]. int64_unfold. split; nia.
Qed.

Lemma saturatingAdd_eq x y : 0 ≤ x ≤ max_int64 → 0 ≤ y ≤ max_int64 →
  saturatingAdd x y = Z.min max_int64 (x + y).
Proof.
  intros Hx Hy. unfold saturatingAdd. rewrite sub64_exact by int64_lia.
  case_if; [lia|]. unfold add64. rewrite wrap64_id by int64_lia. lia.
Qed.

Lemma saturating_fold l acc : Forall (λ '(n, r), in_int64 n ∧ in_int64 r) l → 0 ≤ acc →
  foldl (λ result '(count, rate), saturatingAdd result (saturatingMultiply count rate))
    (Z.min max_int64 acc) l
  = Z.min max_int64 (acc + sum_by (λ '(n, r), Z.max 0 n * Z.max 0 r) l).
Proof.
  intros Hl. revert acc. induction Hl as [|[n r] l [Hn Hr] Hl IH]; intros acc Hacc; cbn [foldl].
  - rewrite sum_by_nil. f_equal. lia.
  - rewrite sum_by_cons, saturatingMultiply_eq by done.
    assert (0 ≤ Z.max 0 n * Z.max 0 r) by nia. set (c := Z.max 0 n * Z.max 0 r) in *.
    assert (0 ≤ max_int64) by int64_lia. rewrite saturatingAdd_eq by lia.
    replace (Z.min max_int64 (Z.min max_int64 acc + Z.min max_int64 c))
      with (Z.min max_int64 (acc + c)) by lia.
    rewrite IH by lia. f_equal. lia.
Qed.

(** A clamped subtraction does not wrap. *)
Lemma clamped_sub x y : in_int64 x → 0 ≤ y ≤ Z.max 0 x → x -₆₄ y = x - y.
Proof. intros. apply sub64_exact. int64_lia. Qed.

(** The four prompt classes, for any clamped image and cache counts. *)
Lemma input_split P ii ci cimg : in_int64 P →
  0 ≤ ii ≤ Z.max 0 P → 0 ≤ ci ≤ Z.max 0 P → 0 ≤ cimg ≤ Z.min ii ci →
  let text := max64 0 (P -₆₄ ii) in
  let ctext := min64 text (max64 0 (ci -₆₄ cimg)) in
  let utext := max64 0 (text -₆₄ ctext) in
  let uimg := max64 0 (ii -₆₄ cimg) in
  utext + ctext + uimg + cimg = Z.max 0 P ∧
  0 ≤ utext ∧ 0 ≤ ctext ∧ 0 ≤ uimg ∧ ctext + cimg ≤ ci ∧ uimg + cimg = ii.
Proof.
  intros HP Hii Hci Hcimg. cbn zeta. autorewrite with minmax.
  rewrite (clamped_sub P ii) by done. rewrite (clamped_sub ci cimg) by int64_lia.
  rewrite (clamped_sub ii cimg) by int64_lia. rewrite clamped_sub by int64_lia. lia.
Qed.

(** The completion classes. *)
Lemma output_split C io r : in_int64 C → 0 ≤ io ≤ Z.max 0 C → 0 ≤ r ≤ max_int64 →
  max64 0 (max64 0 (C -₆₄ io) -₆₄ r) = Z.max 0 (Z.max 0 C - io - r) ∧
  max64 0 (C -₆₄ io) = Z.max 0 C - io.
Proof.
  intros HC Hio Hr. autorewrite with minmax. rewrite (clamped_sub C io) by done.
  rewrite sub64_exact by int64_lia. lia.
Qed.

(** The split into non-negative parts, as linear facts. *)
Lemma split_tokens_input u : usage_int64 u →
  let t := split_tokens u in
  uncachedText t + cachedText t + uncachedImage t + cachedImage t = Z.max 0 (u_Prompt u) ∧
  0 ≤ uncachedText t ∧ 0 ≤ cachedText t ∧ 0 ≤ uncachedImage t ∧ 0 ≤ cachedImage t ∧
  cachedText t + cachedImage t ≤ Z.max 0 (u_Cached u) ∧
  uncachedImage t + cachedImage t ≤ Z.max 0 (u_ImageInput u).
Proof.
  unfold usage_int64. rewrite !list.Forall_cons. intros (HP & _ & _ & _ & _ & _ & _ & _).
  cbn -[sub64 max64 min64].
  set (ii := min64 (max64 0 (u_ImageInput u)) (max64 0 (u_Prompt u))).
  set (ci := min64 (max64 0 (u_Cached u)) (max64 0 (u_Prompt u))).
  set (cimg := min64 (max64 0 (u_CachedImageInput u)) (min64 ii ci)).
  assert (Hii : 0 ≤ ii ≤ Z.max 0 (u_Prompt u) ∧ ii ≤ Z.max 0 (u_ImageInput u))
    by (unfold ii; autorewrite with minmax; lia).
  assert (Hci : 0 ≤ ci ≤ Z.max 0 (u_Prompt u) ∧ ci ≤ Z.max 0 (u_Cached u))
    by (unfold ci; autorewrite with minmax; lia).
  assert (Hcimg : 0 ≤ cimg ≤ Z.min ii ci) by (unfold cimg; autorewrite with minmax; lia).
  clearbody cimg. clearbody ii ci.
  destruct (input_split (u_Prompt u) ii ci cimg HP) as (? & ? & ? & ? & ? & ?);
    [tauto | tauto | done |].
  split_and!; [done | done | done | done | lia | lia | lia].
Qed.

Lemma split_tokens_output u : usage_int64 u →
  let t := split_tokens u in
  imageOutput t = Z.min (Z.max 0 (u_ImageOutput u)) (Z.max 0 (u_Completion u)) ∧
  reasoning t = Z.max 0 (u_Reasoning u) ∧
  completion t =
    (if (0 <? reasoning t) && reasoningIncludedInCompletion u
     then Z.max 0 (Z.max 0 (u_Completion u) - imageOutput t - reasoning t)
     else Z.max 0 (u_Completion u) - imageOutput t).
Proof.
  unfold usage_int64. rewrite !list.Forall_cons. intros (_ & HC & _ & _ & HR & _ & _ & _).
  cbn -[sub64 max64 min64 reasoningIncludedInCompletion].
  destruct (output_split (u_Completion u)
    (min64 (max64 0 (u_ImageOutput u)) (max64 0 (u_Completion u)))
    (max64 0 (u_Reasoning u)) HC) as [H1 H2];
    [autorewrite with minmax; lia | autorewrite with minmax; int64_lia |].
  rewrite H1, H2. autorewrite with minmax. split_and!; [done | done |]. by case_if.
Qed.

(** Every count of [cost_items] is a 64-bit integer. *)
Lemma cost_items_int64 price u : price_int64 (sp_Price price) → usage_int64 u →
  Forall (λ '(n, r), in_int64 n ∧ in_int64 r) (cost_items price u).
Proof.
  intros Hp Hu. pose proof (split_tokens_input u Hu) as Hin.
  destruct (split_tokens_output u Hu) as (Ho & Hr & Hc). cbn zeta in *.
  unfold price_int64, price_rates in Hp. unfold usage_int64 in Hu. rewrite !list.Forall_cons in *.
  destruct_and!. unfold cost_items. cbn zeta. rewrite !list.Forall_cons, max64_eq.
  assert (in_int64 (completion (split_tokens u))) by (rewrite Hc; case_if; int64_lia).
  set (t := split_tokens u) in *. clearbody t.
  split_and!; try apply Forall_nil_2; try done; int64_lia.
Qed.

Lemma CostNanoUSD_eq price usage : price_int64 (sp_Price price) → usage_int64 usage →
  CostNanoUSD price usage = Z.min max_int64 (exact_cost price usage).
Proof.
  intros Hp Hu. unfold CostNanoUSD, exact_cost.
  pose proof (saturating_fold (cost_items price usage) 0 (cost_items_int64 _ _ Hp Hu)
    ltac:(lia)) as H.
  replace (Z.min max_int64 0) with 0 in H by int64_lia. by rewrite Z.add_0_l in H.
Qed.

(** Text only: every token of the prompt is cached or not. *)
Lemma text_cost price prompt out cached written total :
  0 ≤ cached ≤ prompt → in_int64 prompt → 0 ≤ out → in_int64 out → 0 ≤ written →
  exact_cost price (Build_Usage prompt out cached written 0 total 0 0 0) =
  (prompt - cached) * Z.max 0 (p_InputNanoUSDPerToken (sp_Price price)) +
  cached * Z.max 0 (p_CachedInputNanoUSDPerToken (sp_Price price)) +
  out * Z.max 0 (p_OutputNanoUSDPerToken (sp_Price price)) +
  written * Z.max 0 (p_CacheWriteNanoUSDPerToken (sp_Price price)).
Proof.
  intros Hc Hp Ho Hoi Hw. unfold exact_cost, cost_items, split_tokens. cbn zeta. cbn -[sum_by max64 min64 sub64].
  rewrite !max64_eq, !min64_eq. replace (Z.max 0 0) with 0 by lia. rewrite (Z.min_l 0 (Z.max 0 prompt)) by lia.
  rewrite !(sub64_exact _ 0) by int64_lia.
  rewrite (Z.max_r 0 prompt), (Z.max_r 0 cached), (Z.min_l cached prompt) by lia.
  replace (Z.min 0 (Z.min 0 cached)) with 0 by lia. replace (Z.min 0 (Z.max 0 out)) with 0 by lia.
  change (0 <? 0) with false. cbn [andb].
  rewrite (sub64_exact cached 0), (sub64_exact out 0), !Z.sub_0_r by int64_lia.
  replace (Z.min (Z.max 0 prompt) (Z.max 0 cached)) with cached by lia.
  rewrite (sub64_exact _ cached), (sub64_exact 0 0), !sum_by_cons, sum_by_nil by int64_lia.
  replace (Z.max 0 (Z.max 0 prompt - cached)) with (prompt - cached) by lia.
  replace (Z.max 0 (Z.max 0 written)) with written by lia.
  replace (Z.max 0 (Z.max 0 (0 - 0))) with 0 by lia. replace (Z.max 0 0) with 0 by lia.
  replace (Z.max 0 cached) with cached by lia.
  replace (Z.max 0 (Z.max 0 out)) with out by lia. rewrite ?(Z.max_r 0 (prompt - cached)) by lia. lia.
Qed.

(** ** Properties *)

(** C40: [CostNanoUSD] never overflows: on 64-bit inputs it is the mathematical sum of
    token counts times rates (negative counts and rates billed as zero), saturated at the
    largest [int64].  In particular it is never negative. *)
Theorem cost_is_saturated_sum (price : SnapshotPrice) (usage : Usage) :
  price_int64 (sp_Price price) → usage_int64 usage →
  CostNanoUSD price usage = Z.min max_int64 (exact_cost price usage).
Proof.
  apply CostNanoUSD_eq.
Qed.

(** No token is billed twice and none is lost: the four prompt classes are non-negative
    and add up to the prompt; image output and text completion (with the reasoning that the
    provider counts inside the completion) add up to the completion whenever the reported
    reasoning fits beside the image output. *)
Theorem tokens_billed_once (usage : Usage) :
  usage_int64 usage →
  let t := split_tokens usage in
  let included := (0 <? reasoning t) && reasoningIncludedInCompletion usage in
  Forall (λ n, 0 ≤ n)
    [uncachedText t; cachedText t; uncachedImage t; cachedImage t; completion t;
     imageOutput t; reasoning t] ∧
  uncachedText t + cachedText t + uncachedImage t + cachedImage t = Z.max 0 (u_Prompt usage) ∧
  (reasoning t ≤ Z.max 0 (u_Completion usage) - imageOutput t →
   completion t + imageOutput t + (if included then reasoning t else 0)
   = Z.max 0 (u_Completion usage)).
Proof.
  intros Hu. pose proof (split_tokens_input usage Hu) as Hin.
  destruct (split_tokens_output usage Hu) as (Ho & Hr & Hc). cbn zeta in *.
  set (t := split_tokens usage) in *. clearbody t. destruct_and!.
  split_and!; [| done |].
  - repeat apply list.Forall_cons_2; try apply Forall_nil_2; try lia.
    rewrite Hc. case_if; lia.
  - intros. rewrite Hc. case_if; lia.
Qed.

Definition sample_price : SnapshotPrice :=
  {| sp_Price := {| p_Model := "gpt-5.6-sol"; p_InputNanoUSDPerToken := 2;
       p_OutputNanoUSDPerToken := 8; p_CachedInputNanoUSDPerToken := 1;
       p_CacheWriteNanoUSDPerToken := 3; p_ReasoningNanoUSDPerToken := 8;
       p_ImageInputNanoUSDPerToken := 10; p_CachedImageInputNanoUSDPerToken := 5;
       p_ImageOutputNanoUSDPerToken := 40; p_Source := "admin"; p_Version := "1";
       p_PriceMultiplier := f64_one |};
     sp_RequestedModel := "gpt-5.6-sol"; sp_PricedModel := "gpt-5.6-sol";
     sp_MatchedBy := "model"; sp_RuleMultiplier := f64_one |}.

Definition sample_usage : Usage := Build_Usage 1000 200 300 50 80 1200 100 40 20.

Example sample_cost : CostNanoUSD sample_price sample_usage = 4730.
Proof. vm_compute. reflexivity. Qed.

Lemma cost_is_saturated_sum_witness :
  CostNanoUSD sample_price sample_usage = Z.min max_int64 (exact_cost sample_price sample_usage).
Proof. apply (cost_is_saturated_sum sample_price sample_usage); vm_dec. Defined.

Lemma tokens_billed_once_witness :
  let t := split_tokens sample_usage in
  uncachedText t + cachedText t + uncachedImage t + cachedImage t = 1000.
Proof.
  destruct (tokens_billed_once sample_usage ltac:(vm_dec)) as (_ & H & _). exact H.
Defined.
