(* ===== verification/Pricing.v ===== *)
(** * The price of a model (internal/pricing/pricing.go)

    Administrator rows, the public catalog and the bundled prices are compiled
    into one immutable snapshot; [Resolve] picks the row of a request, applies
    the rules that match its dimensions and scales the integer prices.

    Go's [range] over a map visits it in no particular order: the aliases given
    to [Compile] are a list in the order of that visit. *)

From Stdlib Require Import SpecFloat.
From S2P Require Import Prelude.
From S2P Require Import Float64.
From S2P Require Import Cost.

(* src/internal/pricing/pricing.go:41-46 Rule *)
Record Rule := { ru_Model : string; ru_Field : string; ru_Value : string; ru_Multiplier : float64 }.

(* src/internal/pricing/pricing.go:48-59 Dimensions *)
Record Dimensions := {
  d_APIGroupKey : string;
  d_Model : string;
  d_ModelAlias : string;
  d_AuthIndex : string;
  d_ServiceTier : string;
  d_ResponseServiceTier : string;
  d_ReasoningEffort : string;
  d_Endpoint : string;
  d_ExecutorType : string;
  d_PromptTokens : Z
}.

(* src/internal/pricing/pricing.go:69-72 compiledModel *)
Record compiledModel := { cm_price : Price; cm_rules : list Rule }.

(* src/internal/pricing/pricing.go:74-79 Snapshot *)
Record Snapshot := {
  s_admin : gmap string compiledModel;
  s_catalog : gmap string compiledModel;
  s_bundled : gmap string compiledModel;
  s_aliases : gmap string string
}.

Inductive pricing_error :=
  | InvalidRule (model : string)
  | InvalidMultiplier (model : string)
  | PriceModelRequired
  | InvalidPriceMultiplier (model : string)
  | NegativePrice (model : string)
  | AliasRequired.

Notation compiled A := (sum pricing_error A).

(** ** Text *)

(* src/internal/pricing/pricing.go:404-404 clean *)
Definition clean (value : string) : string := trim_space value.

(* src/internal/pricing/pricing.go:405-407 finiteNonNegative *)
Definition finiteNonNegative (value : float64) : bool :=
  f64_le f64_zero value && negb (f64_is_nan value) && negb (f64_is_inf value).

Definition is_digit (c : ascii) : bool :=
  let n := Ascii.nat_of_ascii c in bool_decide (48 ≤ n ∧ n ≤ 57)%nat.

(** The value of a non-empty run of digits. *)
Fixpoint digits_value (acc : Z) (s : string) : option Z :=
  match s with
  | EmptyString => Some acc
  | String c s =>
      if is_digit c then digits_value (acc * 10 + (Z.of_nat (Ascii.nat_of_ascii c) - 48)) s else None
  end.

Definition unsigned_value (s : string) : option Z :=
  match s with EmptyString => None | _ => digits_value 0 s end.

(** [strconv.ParseInt(s, 10, 64)]: the value, and whether there was no error; a value out of range
    is clamped, a malformed one is 0. *)
Definition parse_int (s : string) : Z * bool :=
  let value :=
    match s with
    | String "+" s => unsigned_value s
    | String "-" s => Z.opp <$> unsigned_value s
    | _ => unsigned_value s
    end in
  match value with
  | None => (0, false)
  | Some n => if max_int64 <? n then (max_int64, false)
              else if n <? min_int64 then (min_int64, false) else (n, true)
  end.

(** [-(?:\d{6,8}|\d{4}-\d{2}-\d{2})$], after its dash. *)
Definition date_tail (s : string) : bool :=
  let chars := String.list_ascii_of_string s in
  (forallb is_digit chars && bool_decide (6 ≤ length chars ∧ length chars ≤ 8)%nat) ||
  match chars with
  | [a; b; c; d; e; f; g; h; i; j] =>
      forallb is_digit [a; b; c; d; f; g; i; j] && bool_decide (e = "-"%char) && bool_decide (h = "-"%char)
  | _ => false
  end.

(** [modelDateSuffix.ReplaceAllString(s, "")]: the leftmost match runs to the end. *)
(* src/internal/pricing/pricing.go:18-18 modelDateSuffix *)
Fixpoint strip_date (s : string) : string :=
  match s with
  | EmptyString => EmptyString
  | String c s' =>
      if bool_decide (c = "-"%char) && date_tail s' then EmptyString else String c (strip_date s')
  end.

(** [model[strings.LastIndex(model, "/")+1:]]. *)
Fixpoint after_last_slash (s : string) : option string :=
  match s with
  | EmptyString => None
  | String c s' =>
      match after_last_slash s' with
      | Some tail => Some tail
      | None => if bool_decide (c = "/"%char) then Some s' else None
      end
  end.

(** ** Rules *)

(* src/internal/pricing/pricing.go:371-379 ValidRuleField *)
Definition ValidRuleField (field : string) : bool :=
  bool_decide (to_lower (clean field) ∈
    ["api_group_key"; "model"; "model_alias"; "auth_index"; "service_tier"; "response_service_tier";
     "reasoning_effort"; "endpoint"; "executor_type"; "prompt_tokens_gte"]).

(* src/internal/pricing/pricing.go:338-344 ValidRuleValue *)
Definition ValidRuleValue (field value : string) : bool :=
  if equal_fold (clean field) "prompt_tokens_gte" then
    let '(threshold, ok) := parse_int (clean value) in ok && (0 <? threshold)
  else true.

(* src/internal/pricing/pricing.go:346-369 dimensionValue *)
Definition dimensionValue (d : Dimensions) (field : string) : string :=
  if bool_decide (field = "api_group_key") then clean (d_APIGroupKey d)
  else if bool_decide (field = "model") then clean (d_Model d)
  else if bool_decide (field = "model_alias") then clean (d_ModelAlias d)
  else if bool_decide (field = "auth_index") then clean (d_AuthIndex d)
  else if bool_decide (field = "service_tier") then clean (d_ServiceTier d)
  else if bool_decide (field = "response_service_tier") then clean (d_ResponseServiceTier d)
  else if bool_decide (field = "reasoning_effort") then clean (d_ReasoningEffort d)
  else if bool_decide (field = "endpoint") then clean (d_Endpoint d)
  else if bool_decide (field = "executor_type") then clean (d_ExecutorType d)
  else "".

(** Whether a rule applies to a request. *)
(* src/internal/pricing/pricing.go:285-289 matchingRuleMultiplier *)
Definition rule_matches (dimensions : Dimensions) (rule : Rule) : bool :=
  if bool_decide (ru_Field rule = "prompt_tokens_gte")
  then (parse_int (ru_Value rule)).1 <=? d_PromptTokens dimensions
  else bool_decide (dimensionValue dimensions (ru_Field rule) = ru_Value rule).

(* src/internal/pricing/pricing.go:282-295 matchingRuleMultiplier *)
Definition matchingRuleMultiplier (rules : list Rule) (dimensions : Dimensions) : float64 :=
  foldl (λ multiplier rule,
    if rule_matches dimensions rule then f64_mul multiplier (ru_Multiplier rule) else multiplier)
    f64_one rules.

(* src/internal/pricing/pricing.go:297-302 effectiveServiceTier *)
Definition effectiveServiceTier (dimensions : Dimensions) : string :=
  let tier := trim_space (d_ResponseServiceTier dimensions) in
  if bool_decide (tier ≠ "") then to_lower tier
  else to_lower (trim_space (d_ServiceTier dimensions)).

(* src/internal/pricing/pricing.go:304-311 hasMatchingTierRule *)
Definition hasMatchingTierRule (rules : list Rule) (dimensions : Dimensions) : bool :=
  existsb (λ rule,
    (bool_decide (ru_Field rule = "service_tier") || bool_decide (ru_Field rule = "response_service_tier")) &&
    bool_decide (dimensionValue dimensions (ru_Field rule) = ru_Value rule)) rules.

(* src/internal/pricing/pricing.go:313-320 hasPromptThresholdRule *)
Definition hasPromptThresholdRule (rules : list Rule) : bool :=
  existsb (λ rule, bool_decide (ru_Field rule = "prompt_tokens_gte")) rules.

(* src/internal/pricing/pricing.go:322-336 defaultLongContext *)
Definition defaultLongContext (model : string) (promptTokens : Z) : bool :=
  if promptTokens <? 200000 then false
  else
    let model := to_lower model in
    if contains model "/" && negb (has_prefix model "xai/") then false
    else
      let model := if contains model "/" then trim_prefix model "xai/" else model in
      existsb (has_prefix model)
        ["grok-build-0.1"; "grok-4.7"; "grok-4.6"; "grok-4.5"; "grok-4.3"; "grok-4.20"].

(** ** Prices *)

Section prices.
Context `{FloatToInt}.

Definition f64_max_int64 : float64 := f64_of_Z max_int64.

(* src/internal/pricing/pricing.go:271-280 scaleInt *)
Definition scaleInt (value : Z) (multiplier : float64) : Z :=
  if f64_eq multiplier f64_zero || (value =? 0) then 0
  else
    let scaledValue := f64_round (f64_mul (f64_of_Z value) multiplier) in
    if f64_lt f64_max_int64 scaledValue then max_int64 else f64_to_int64 scaledValue.

(* src/internal/pricing/pricing.go:233-249 scaled *)
Definition scaled (price : Price) (ruleMultiplier : float64) : Price :=
  let multiplier := p_PriceMultiplier price in
  let multiplier :=
    if f64_lt multiplier f64_zero || f64_is_nan multiplier || f64_is_inf multiplier
    then f64_one else multiplier in
  let total := f64_mul multiplier ruleMultiplier in
  {| p_Model := p_Model price;
     p_InputNanoUSDPerToken := scaleInt (p_InputNanoUSDPerToken price) total;
     p_OutputNanoUSDPerToken := scaleInt (p_OutputNanoUSDPerToken price) total;
     p_CachedInputNanoUSDPerToken := scaleInt (p_CachedInputNanoUSDPerToken price) total;
     p_CacheWriteNanoUSDPerToken := scaleInt (p_CacheWriteNanoUSDPerToken price) total;
     p_ReasoningNanoUSDPerToken := scaleInt (p_ReasoningNanoUSDPerToken price) total;
     p_ImageInputNanoUSDPerToken := scaleInt (p_ImageInputNanoUSDPerToken price) total;
     p_CachedImageInputNanoUSDPerToken := scaleInt (p_CachedImageInputNanoUSDPerToken price) total;
     p_ImageOutputNanoUSDPerToken := scaleInt (p_ImageOutputNanoUSDPerToken price) total;
     p_Source := p_Source price; p_Version := p_Version price; p_PriceMultiplier := total |}.

(* src/internal/pricing/pricing.go:251-254 hasImagePricing *)
Definition hasImagePricing (price : Price) : bool :=
  negb (p_ImageInputNanoUSDPerToken price =? 0) ||
  negb (p_CachedImageInputNanoUSDPerToken price =? 0) ||
  negb (p_ImageOutputNanoUSDPerToken price =? 0).

(* src/internal/pricing/pricing.go:265-269 hasAnyPrice *)
Definition hasAnyPrice (price : Price) : bool :=
  negb (p_InputNanoUSDPerToken price =? 0) || negb (p_OutputNanoUSDPerToken price =? 0) ||
  negb (p_CachedInputNanoUSDPerToken price =? 0) || negb (p_CacheWriteNanoUSDPerToken price =? 0) ||
  negb (p_ReasoningNanoUSDPerToken price =? 0) || hasImagePricing price.

(* src/internal/pricing/pricing.go:256-263 hasImagePriceCandidate *)
Definition hasImagePriceCandidate (models : gmap string compiledModel) (candidates : list string) : bool :=
  existsb (λ candidate, match models !! to_lower candidate with
                        | Some model => hasImagePricing (cm_price model)
                        | None => false
                        end) candidates.

(** ** Compilation *)

(** Run a fallible step over a list; the first error ends the loop. *)
Fixpoint fold_compile {A B} (step : B → A → compiled B) (acc : B) (l : list A) : compiled B :=
  match l with
  | [] => inr acc
  | x :: l => match step acc x with inl e => inl e | inr acc => fold_compile step acc l end
  end.

(* src/internal/pricing/pricing.go:88-96 Compile *)
Definition compile_rule (rule : Rule) : compiled Rule :=
  let rule := {| ru_Model := clean (ru_Model rule); ru_Field := to_lower (clean (ru_Field rule));
                 ru_Value := clean (ru_Value rule); ru_Multiplier := ru_Multiplier rule |} in
  if bool_decide (ru_Model rule = "") || bool_decide (ru_Value rule = "") ||
     negb (ValidRuleField (ru_Field rule)) || negb (ValidRuleValue (ru_Field rule) (ru_Value rule))
  then inl (InvalidRule (ru_Model rule))
  else if negb (finiteNonNegative (ru_Multiplier rule)) then inl (InvalidMultiplier (ru_Model rule))
  else inr rule.

(* src/internal/pricing/pricing.go:87-99 Compile *)
Definition add_rule (rulesByModel : gmap string (list Rule)) (rule : Rule) : compiled (gmap string (list Rule)) :=
  match compile_rule rule with
  | inl e => inl e
  | inr rule =>
      let ruleKey := to_lower (ru_Model rule) in
      inr (<[ruleKey := default [] (rulesByModel !! ruleKey) ++ [rule]]> rulesByModel)
  end.

Definition with_model (price : Price) (model : string) : Price :=
  Build_Price model (p_InputNanoUSDPerToken price) (p_OutputNanoUSDPerToken price)
    (p_CachedInputNanoUSDPerToken price) (p_CacheWriteNanoUSDPerToken price)
    (p_ReasoningNanoUSDPerToken price) (p_ImageInputNanoUSDPerToken price)
    (p_CachedImageInputNanoUSDPerToken price) (p_ImageOutputNanoUSDPerToken price)
    (p_Source price) (p_Version price) (p_PriceMultiplier price).

(* src/internal/pricing/pricing.go:102-121 Compile *)
Definition compile_price (price : Price) : compiled Price :=
  let price := with_model price (clean (p_Model price)) in
  if bool_decide (p_Model price = "") then inl PriceModelRequired
  else if negb (f64_eq (p_PriceMultiplier price) f64_zero) && negb (finiteNonNegative (p_PriceMultiplier price))
  then inl (InvalidPriceMultiplier (p_Model price))
  else if existsb (λ value, value <? 0) (price_rates price) then inl (NegativePrice (p_Model price))
  else inr price.

(* src/internal/pricing/pricing.go:101-124 Compile *)
Definition add_price (rulesByModel : gmap string (list Rule)) (destination : gmap string compiledModel)
    (price : Price) : compiled (gmap string compiledModel) :=
  match compile_price price with
  | inl e => inl e
  | inr price =>
      let key := to_lower (p_Model price) in
      inr (<[key := {| cm_price := price; cm_rules := default [] (rulesByModel !! key) |}]> destination)
  end.

(* src/internal/pricing/pricing.go:100-126 Compile *)
Definition compileSet (rulesByModel : gmap string (list Rule)) (prices : list Price)
    : compiled (gmap string compiledModel) :=
  fold_compile (add_price rulesByModel) ∅ prices.

(* src/internal/pricing/pricing.go:136-142 Compile *)
Definition add_alias (aliases : gmap string string) (entry : string * string) : compiled (gmap string string) :=
  let alias := clean entry.1 in
  let model := clean entry.2 in
  if bool_decide (alias = "") || bool_decide (model = "") then inl AliasRequired
  else inr (<[to_lower alias := model]> aliases).

Definition sum_bind {A B} (r : compiled A) (k : A → compiled B) : compiled B :=
  match r with inl e => inl e | inr a => k a end.

(* src/internal/pricing/pricing.go:81-144 Compile *)
Definition Compile (admin catalog bundled : list Price) (aliases : list (string * string))
    (rules : list Rule) : compiled Snapshot :=
  sum_bind (fold_compile add_rule ∅ rules) (λ rulesByModel,
  sum_bind (compileSet rulesByModel admin) (λ admin,
  sum_bind (compileSet rulesByModel catalog) (λ catalog,
  sum_bind (compileSet rulesByModel bundled) (λ bundled,
  sum_bind (fold_compile add_alias ∅ aliases) (λ aliases,
  inr {| s_admin := admin; s_catalog := catalog; s_bundled := bundled; s_aliases := aliases |}))))).

(** ** Resolution *)

(* src/internal/pricing/pricing.go:408-420 unique *)
Fixpoint unique_from (seen : list string) (values : list string) : list string :=
  match values with
  | [] => []
  | value :: values =>
      if bool_decide (to_lower value ∈ seen) then unique_from seen values
      else value :: unique_from (to_lower value :: seen) values
  end.

(** The provider whose catalog lists a bare model name. *)
(* src/internal/pricing/pricing.go:207-222 modelCandidates *)
Definition vendor_prefix (lower : string) : option string :=
  if has_prefix lower "grok-" then Some "xai/"
  else if has_prefix lower "claude-" then Some "anthropic/"
  else if has_prefix lower "gemini-" then Some "google/"
  else if has_prefix lower "deepseek-" then Some "deepseek/"
  else if has_prefix lower "kimi-" then Some "moonshotai/"
  else if existsb (has_prefix lower) ["gpt-"; "codex-"; "o1-"; "o3-"; "o4-"] then Some "openai/"
  else None.

(* src/internal/pricing/pricing.go:201-231 modelCandidates *)
Definition modelCandidates (model : string) : list string :=
  let model := clean model in
  let initial :=
    model :: match after_last_slash model with
             | Some tail => [tail]
             | None => match vendor_prefix (to_lower model) with
                       | Some prefix => [prefix +:+ model]
                       | None => []
                       end
             end in
  unique_from []
    (initial ++ omap (λ candidate,
       let stripped := strip_date candidate in
       if bool_decide (stripped ≠ candidate) then Some stripped else None) initial).

(** The first model name is the alias' target, when an alias is known. *)
(* src/internal/pricing/pricing.go:154-165 Snapshot.Resolve *)
Definition priced_model (s : Snapshot) (requested : string) (dimensions : Dimensions) : string * string :=
  let start := match s_aliases s !! to_lower requested with
               | Some target => (target, "alias")
               | None => (requested, "model")
               end in
  if bool_decide (d_ModelAlias dimensions ≠ "") then
    match s_aliases s !! to_lower (clean (d_ModelAlias dimensions)) with
    | Some target => (target, "upstream_model_alias")
    | None => start
    end
  else start.

(** Whether a row must not price a request because it knows no image rates and a bundled row does. *)
(* src/internal/pricing/pricing.go:177-181 Snapshot.Resolve *)
Definition passed_over_for_images (s : Snapshot) (sourceIndex : nat) (candidates : list string)
    (model : compiledModel) : bool :=
  bool_decide (sourceIndex < 2)%nat && negb (hasImagePricing (cm_price model)) &&
  hasImagePriceCandidate (s_bundled s) candidates &&
  (negb (bool_decide (sourceIndex = 0%nat)) ||
   (hasAnyPrice (cm_price model) && negb (f64_eq (p_PriceMultiplier (cm_price model)) f64_zero))).

(* src/internal/pricing/pricing.go:182-190 Snapshot.Resolve *)
Definition rule_multiplier (model : compiledModel) (dimensions : Dimensions) : float64 :=
  let ruleMultiplier := matchingRuleMultiplier (cm_rules model) dimensions in
  let ruleMultiplier :=
    if bool_decide (effectiveServiceTier dimensions = "priority") &&
       negb (hasMatchingTierRule (cm_rules model) dimensions)
    then f64_mul ruleMultiplier f64_two else ruleMultiplier in
  if defaultLongContext (p_Model (cm_price model)) (d_PromptTokens dimensions) &&
     negb (hasPromptThresholdRule (cm_rules model))
  then f64_mul ruleMultiplier f64_two else ruleMultiplier.

(** The inner loop over the candidates, then the outer one over the sources. *)
(* src/internal/pricing/pricing.go:168-181 Snapshot.Resolve *)
Fixpoint first_candidate (s : Snapshot) (sourceIndex : nat) (source : gmap string compiledModel)
    (all candidates : list string) : option compiledModel :=
  match candidates with
  | [] => None
  | candidate :: candidates =>
      match source !! to_lower candidate with
      | Some model =>
          if passed_over_for_images s sourceIndex all model
          then first_candidate s sourceIndex source all candidates
          else Some model
      | None => first_candidate s sourceIndex source all candidates
      end
  end.

(* src/internal/pricing/pricing.go:167-197 Snapshot.Resolve *)
Fixpoint first_source (s : Snapshot) (candidates : list string)
    (sources : list (nat * gmap string compiledModel)) : option compiledModel :=
  match sources with
  | [] => None
  | (sourceIndex, source) :: sources =>
      match first_candidate s sourceIndex source candidates candidates with
      | Some model => Some model
      | None => first_source s candidates sources
      end
  end.

Definition sources (s : Snapshot) : list (nat * gmap string compiledModel) :=
  [(0%nat, s_admin s); (1%nat, s_catalog s); (2%nat, s_bundled s)].

(* src/internal/pricing/pricing.go:146-199 Snapshot.Resolve *)
Definition Resolve (snapshot : option Snapshot) (dimensions : Dimensions) : option SnapshotPrice :=
  match snapshot with
  | None => None
  | Some s =>
      let requested := clean (d_Model dimensions) in
      if bool_decide (requested = "") then None
      else
        let '(priced, matchedBy) := priced_model s requested dimensions in
        match first_source s (modelCandidates priced) (sources s) with
        | None => None
        | Some model =>
            let ruleMultiplier := rule_multiplier model dimensions in
            Some {| sp_Price := scaled (cm_price model) ruleMultiplier;
                    sp_RequestedModel := requested; sp_PricedModel := p_Model (cm_price model);
                    sp_MatchedBy := matchedBy; sp_RuleMultiplier := ruleMultiplier |}
        end
  end.
End prices.
