(* ===== verification/PriceGuarantees.v ===== *)
(** * What the price resolution guarantees

    Compilation rejects every malformed row and keeps only well-formed ones;
    resolution prefers the administrator, then the catalog, then the bundled
    prices; scaled rates stay in range but for one value. *)

From Stdlib Require Import SpecFloat.
From S2P Require Import Prelude.
From S2P Require Import Float64.
From S2P Require Import FloatFacts.
From S2P Require Import Cost.
From S2P Require Import Pricing.

(** ** Scaling *)

Section scaling.
Context `{FloatToInt}.

Lemma finiteNonNegative_nonnegative m :
  finiteNonNegative m = true → f64_eq m f64_zero = false → nonnegative m.
Proof.
  destruct m as [s|s| |s m e]; unfold finiteNonNegative, f64_le, SFleb; cbn; try done.
  - by destruct s.
  - by destruct s.
Qed.

Lemma scaleInt_in_range v m : in_int64 (scaleInt v m).
Proof.
  unfold scaleInt. destruct (_ || _); [int64_lia|]. cbv zeta.
  destruct (f64_lt _ _); [int64_lia|]. apply f64_to_int64_range.
Qed.

(** Scaling a rate by a multiplier stays within the 64-bit integers, and a non-negative rate
  times a finite non-negative multiplier is never negative, with one exception: when the rounded
  product is exactly 2^63, which the comparison with the largest integer lets through and the
  conversion does not represent.  A multiplier of one is neutral: it returns every rate below
  2^53 as it was. *)
Theorem scaled_rates_stay_in_range v m :
0 ≤ v → finiteNonNegative m = true → fits m →
in_int64 (scaleInt v m) ∧
(0 ≤ scaleInt v m ∨ f64_trunc (f64_round (f64_mul (f64_of_Z v) m)) = Some (2 ^ 63)) ∧
(v < 2 ^ 53 → scaleInt v f64_one = v).
Proof.
  intros Hv Hm Hfits. split; [apply scaleInt_in_range|]. split.
  - unfold scaleInt. destruct (f64_eq m f64_zero) eqn:Hz; [by left|]. cbn [orb].
    destruct (Z.eqb_spec v 0) as [|Hv0]; [by left|]. cbv zeta.
    pose proof (finiteNonNegative_nonnegative m Hm Hz) as Hnn.
    destruct (of_Z_ok v) as [Hfv Hnv]. specialize (Hnv Hv).
    set (x := f64_mul (f64_of_Z v) m). assert (fits x) as Hfx by by apply mul_ok.
    assert (nonnegative x) as Hx.
    { destruct (mul_nonnegative _ _ Hnv Hnn) as [|Hnan]; [done|]. exfalso.
      clear -Hnan Hm Hz Hv0 Hv Hnv Hnn. destruct v as [|p|p]; [done| |lia].
      unfold f64_mul, SFmul in Hnan.
      destruct (f64_of_Z (Z.pos p)) as [?|?| |? ? ?] eqn:Hp; destruct m as [?|?| |? ? ?]; try done; try (by cbv in Hz);
        cbn in Hnv, Hnn; subst; try (by cbv in Hm).
      pose proof (round_aux_ok (xorb false false) (Z.pos (m0 * m)) (e + e0) loc_Exact ltac:(lia)) as [_ Hr].
      specialize (Hr eq_refl). by rewrite Hnan in Hr. }
    destruct (round_ok x Hfx Hx) as [Hfr Hr]. change f64_max_int64 with f64_two63.
    destruct (f64_lt f64_two63 (f64_round x)) eqn:Hlt; [left; int64_lia|].
    destruct (trunc_of_not_above _ Hfr Hr Hlt) as (n & Hn & Hlo & Hhi).
    destruct (Z.eq_dec n (2 ^ 63)) as [->|Hne]; [by right|]. left.
    unfold f64_to_int64. rewrite Hn, bool_decide_eq_true_2; [done|int64_lia].
  - intros Hsmall. destruct v as [|p|p]; [done| |lia]. unfold scaleInt.
    change (f64_eq f64_one f64_zero || (Z.pos p =? 0)) with false. cbv zeta iota.
    pose proof (of_Z_exact p Hsmall) as Hp. rewrite (mul_one _ p Hp).
    pose proof (round_exactly _ p Hsmall Hp) as Hr. change f64_max_int64 with f64_two63.
    rewrite (exactly_not_above _ p Hr). unfold f64_to_int64. rewrite (trunc_exactly _ p Hr).
    rewrite bool_decide_eq_true_2; [done|]. int64_lia.
Qed.
End scaling.

(** The exception is real: on amd64 the largest representable price, doubled by a tier rule,
    becomes the smallest integer. *)
Example price_wraps_at_the_top :
  @scaleInt amd64 (2 ^ 62) f64_two = min_int64 ∧ @scaleInt amd64 (2 ^ 62 + 1024) f64_two = max_int64.
Proof. by vm_compute. Qed.

Lemma scaled_rates_stay_in_range_witness :
let m := f64_div (f64_of_Z 3) f64_two in
@scaleInt amd64 2500 m = 3750 ∧ (0 ≤ @scaleInt amd64 2500 m ∨
  f64_trunc (f64_round (f64_mul (f64_of_Z 2500) m)) = Some (2 ^ 63)).
Proof.
  cbv zeta. split; [by vm_compute|].
  apply (@scaled_rates_stay_in_range amd64 2500 (f64_div (f64_of_Z 3) f64_two)); [lia|by vm_compute|].
  vm_compute. reflexivity.
Defined.

(** ** Resolution *)

Section resolution.
Context `{FloatToInt}.

(** Candidate number [k] of the request has a row in source number [i] that may price it. *)
Definition offers (s : Snapshot) (candidates : list string) (i k : nat) (model : compiledModel) : Prop :=
  ∃ source candidate, sources s !! i = Some (i, source) ∧ candidates !! k = Some candidate ∧
    source !! to_lower candidate = Some model ∧ passed_over_for_images s i candidates model = false.

Lemma first_candidate_spec s i source all candidates :
  match first_candidate s i source all candidates with
  | Some model => ∃ k candidate, candidates !! k = Some candidate ∧
      source !! to_lower candidate = Some model ∧ passed_over_for_images s i all model = false ∧
      ∀ k' candidate' model', (k' < k)%nat → candidates !! k' = Some candidate' →
        source !! to_lower candidate' = Some model' → passed_over_for_images s i all model' = true
  | None => ∀ k candidate model, candidates !! k = Some candidate →
      source !! to_lower candidate = Some model → passed_over_for_images s i all model = true
  end.
Proof.
  induction candidates as [|c cs IH]; cbn [first_candidate]; [by intros []|].
  destruct (source !! to_lower c) as [m|] eqn:Hm.
  - destruct (passed_over_for_images s i all m) eqn:Hp.
    + destruct (first_candidate s i source all cs) as [model|].
      * destruct IH as (k & c' & Hk & Hc & Hpass & Hbefore). exists (S k), c'.
        split; [done|]. split; [done|]. split; [done|]. intros [|k'] c'' m'' Hlt Hk' Hc''.
        -- injection Hk' as <-. congruence.
        -- eapply Hbefore; [|exact Hk'|exact Hc'']. lia.
      * intros [|k] c' m' Hk Hc'; [injection Hk as <-; congruence|by eapply IH].
    + exists 0%nat, c. split; [done|]. split; [done|]. split; [done|]. lia.
  - destruct (first_candidate s i source all cs) as [model|].
    + destruct IH as (k & c' & Hk & Hc & Hpass & Hbefore). exists (S k), c'.
      split; [done|]. split; [done|]. split; [done|]. intros [|k'] c'' m'' Hlt Hk' Hc''.
      * injection Hk' as <-. congruence.
      * eapply Hbefore; [|exact Hk'|exact Hc'']. lia.
    + intros [|k] c' m' Hk Hc'; [injection Hk as <-; congruence|by eapply IH].
Qed.

(** The winner: no candidate of an earlier source, and no earlier candidate of its own, may price
    the request. *)
Definition wins (s : Snapshot) (candidates : list string) (i k : nat) (model : compiledModel) : Prop :=
  offers s candidates i k model ∧
  ∀ i' k' model', offers s candidates i' k' model' → (i < i')%nat ∨ (i = i' ∧ k ≤ k')%nat.

Lemma offers_source s candidates i k model :
  offers s candidates i k model ↔ ∃ source candidate,
    (i = 0%nat ∧ source = s_admin s ∨ i = 1%nat ∧ source = s_catalog s ∨ i = 2%nat ∧ source = s_bundled s) ∧
    candidates !! k = Some candidate ∧ source !! to_lower candidate = Some model ∧
    passed_over_for_images s i candidates model = false.
Proof.
  split; intros (source & candidate & Hs & Hrest); exists source, candidate; (split; [|exact Hrest]).
  - destruct i as [|[|[|i]]]; cbn in Hs; naive_solver.
  - destruct Hs as [[-> ->]|[[-> ->]|[-> ->]]]; done.
Qed.

(** Candidate [k] of source [i] wins if it is the first one there and the earlier sources have none. *)
Lemma wins_intro s candidates i source model :
  sources s !! i = Some (i, source) →
  first_candidate s i source candidates candidates = Some model →
  (∀ j source', (j < i)%nat → sources s !! j = Some (j, source') →
     first_candidate s j source' candidates candidates = None) →
  ∃ k, wins s candidates i k model.
Proof.
  intros Hi Hfirst Hearlier. pose proof (first_candidate_spec s i source candidates candidates) as Hspec.
  rewrite Hfirst in Hspec. destruct Hspec as (k & c & Hk & Hc & Hpass & Hbefore).
  exists k. split; [by exists source, c|]. intros i' k' m' (source' & c' & Hi' & Hk' & Hc' & Hp').
  destruct (Nat.lt_trichotomy i i') as [|[<-|Hlt]]; [by left| |].
  - right. split; [done|]. destruct (Nat.le_gt_cases k k') as [|Hlt]; [done|]. exfalso.
    assert (source' = source) as -> by congruence.
    by rewrite (Hbefore _ _ _ Hlt Hk' Hc') in Hp'.
  - exfalso. pose proof (first_candidate_spec s i' source' candidates candidates) as Hnone.
    rewrite (Hearlier i' source' Hlt Hi') in Hnone. by rewrite (Hnone _ _ _ Hk' Hc') in Hp'.
Qed.

Lemma first_source_spec s candidates :
  match first_source s candidates (sources s) with
  | Some model => ∃ i k, wins s candidates i k model
  | None => ∀ i k model, ¬ offers s candidates i k model
  end.
Proof.
  cbn [first_source sources].
  destruct (first_candidate s 0 (s_admin s) candidates candidates) as [m0|] eqn:H0.
  { exists 0%nat. apply (wins_intro s candidates 0 (s_admin s)); [done|done|lia]. }
  destruct (first_candidate s 1 (s_catalog s) candidates candidates) as [m1|] eqn:H1.
  { exists 1%nat. apply (wins_intro s candidates 1 (s_catalog s)); [done|done|].
    intros [|j] source' Hj Hs; [by injection Hs as <-|lia]. }
  destruct (first_candidate s 2 (s_bundled s) candidates candidates) as [m2|] eqn:H2.
  { exists 2%nat. apply (wins_intro s candidates 2 (s_bundled s)); [done|done|].
    intros [|[|j]] source' Hj Hs; [by injection Hs as <-|by injection Hs as <-|lia]. }
  intros i k m (source & c & Hs & Hk & Hc & Hp)%offers_source.
  pose proof (first_candidate_spec s 0 (s_admin s) candidates candidates) as S0. rewrite H0 in S0.
  pose proof (first_candidate_spec s 1 (s_catalog s) candidates candidates) as S1. rewrite H1 in S1.
  pose proof (first_candidate_spec s 2 (s_bundled s) candidates candidates) as S2. rewrite H2 in S2.
  destruct Hs as [[-> ->]|[[-> ->]|[-> ->]]]; [specialize (S0 _ _ _ Hk Hc)|specialize (S1 _ _ _ Hk Hc)|
    specialize (S2 _ _ _ Hk Hc)]; congruence.
Qed.

(** C38: The price of a request comes from the row that has the right to set it.  The name asked
    for, after the aliases, is tried with its provider prefixes and without its date; among all
    rows that bear one of these names and are not set aside for lack of image rates, the row of
    the administrator wins over the catalog's and the catalog's over the bundled one, and within a
    source the earlier name wins.  The answer is that row's price scaled by its multiplier and the
    rules that match; there is no answer exactly when the name is empty or no row qualifies. *)
Theorem resolution_follows_precedence s dimensions :
  let requested := clean (d_Model dimensions) in
  let '(priced, matchedBy) := priced_model s requested dimensions in
  let candidates := modelCandidates priced in
  match Resolve (Some s) dimensions with
  | Some sp => requested ≠ "" ∧ ∃ i k model, wins s candidates i k model ∧
      sp_Price sp = scaled (cm_price model) (rule_multiplier model dimensions) ∧
      sp_RuleMultiplier sp = rule_multiplier model dimensions ∧
      sp_RequestedModel sp = requested ∧ sp_PricedModel sp = p_Model (cm_price model) ∧
      sp_MatchedBy sp = matchedBy
  | None => requested = "" ∨ ∀ i k model, ¬ offers s candidates i k model
  end.
Proof.
  cbv zeta. cbn [Resolve]. case_bool_decide as Hempty.
  - destruct (priced_model _ _ _) as [priced matchedBy]. by left.
  - destruct (priced_model _ _ _) as [priced matchedBy].
    pose proof (first_source_spec s (modelCandidates priced)) as Hspec.
    destruct (first_source s (modelCandidates priced) (sources s)) as [model|]; [|by right].
    destruct Hspec as (i & k & Hw). split; [done|]. exists i, k, model. by split_and!.
Qed.

Lemma wins_unique s candidates i k m i' k' m' :
  wins s candidates i k m → wins s candidates i' k' m' → m = m'.
Proof.
  intros [Ho Hmin] [Ho' Hmin'].
  assert (i = i' ∧ k = k') as [<- <-] by (destruct (Hmin _ _ _ Ho'), (Hmin' _ _ _ Ho); lia).
  destruct Ho as (src & c & Hs & Hk & Hc & _), Ho' as (src' & c' & Hs' & Hk' & Hc' & _). congruence.
Qed.

(** No rates, no cost. *)
Lemma no_rates_no_cost sp usage :
  Forall (λ rate, rate = 0) (price_rates (sp_Price sp)) → CostNanoUSD sp usage = 0.
Proof.
  unfold price_rates. rewrite !list.Forall_cons. intros (H1 & H2 & H3 & H4 & H5 & H6 & H7 & H8 & _).
  unfold CostNanoUSD, cost_items. rewrite H1, H2, H3, H4, H5, H6, H7, H8. cbn [foldl].
  assert (∀ n, saturatingMultiply n 0 = 0) as Hm by (intros n; unfold saturatingMultiply; by rewrite orb_true_r).
  rewrite !Hm. reflexivity.
Qed.

Lemma scaled_rates price ruleMultiplier :
  price_rates (scaled price ruleMultiplier) =
  (λ rate, scaleInt rate (p_PriceMultiplier (scaled price ruleMultiplier))) <$> price_rates price.
Proof. reflexivity. Qed.

Lemma scale_zero_rate m : scaleInt 0 m = 0.
Proof. unfold scaleInt. by rewrite orb_true_r. Qed.

Lemma scale_by_zero v m : f64_eq m f64_zero = true → scaleInt v m = 0.
Proof. intros Hm. unfold scaleInt. by rewrite Hm. Qed.

(** Zero times a finite number is zero. *)
Lemma zero_multiplier price r :
  f64_eq (p_PriceMultiplier price) f64_zero = true → f64_is_nan r = false → f64_is_inf r = false →
  f64_eq (p_PriceMultiplier (scaled price r)) f64_zero = true.
Proof.
  unfold scaled. cbn [p_PriceMultiplier].
  destruct (p_PriceMultiplier price) as [x|[]| |[] m e]; try done. intros _ Hn Hi.
  change (f64_lt (S754_zero x) f64_zero || f64_is_nan (S754_zero x) || f64_is_inf (S754_zero x)) with false.
  destruct r as [y|y| |y m e]; done.
Qed.

(** A free model is free.  When the row that prices a request has no rates, or a multiplier of
    zero under a finite product of rules, the resolved price costs nothing for any usage. *)
Theorem free_models_cost_nothing s dimensions sp usage i k model :
  Resolve (Some s) dimensions = Some sp →
  wins s (modelCandidates (priced_model s (clean (d_Model dimensions)) dimensions).1) i k model →
  Forall (λ rate, rate = 0) (price_rates (cm_price model)) ∨
    f64_eq (p_PriceMultiplier (cm_price model)) f64_zero = true ∧
    f64_is_nan (sp_RuleMultiplier sp) = false ∧ f64_is_inf (sp_RuleMultiplier sp) = false →
  CostNanoUSD sp usage = 0.
Proof.
  intros Hres Hwins Hfree. pose proof (first_source_spec s
    (modelCandidates (priced_model s (clean (d_Model dimensions)) dimensions).1)) as Hspec.
  cbn [Resolve] in Hres. case_bool_decide; [done|].
  destruct (priced_model s (clean (d_Model dimensions)) dimensions) as [priced matchedBy]. cbn [fst] in *.
  destruct (first_source s (modelCandidates priced) (sources s)) as [model'|]; [|done].
  destruct Hspec as (i' & k' & Hwins'). assert (model' = model) as -> by by eapply wins_unique.
  injection Hres as <-. cbn [sp_RuleMultiplier] in Hfree. apply no_rates_no_cost. cbn [sp_Price].
  rewrite scaled_rates. apply Forall_fmap. destruct Hfree as [Hzero|(Hm & Hn & Hi)].
  - eapply list.Forall_impl; [exact Hzero|]. cbn. intros rate ->. apply scale_zero_rate.
  - apply Forall_true. intros rate. cbn. by apply scale_by_zero, zero_multiplier.
Qed.
End resolution.

(** ** Compilation *)

(** A rule as the compiler keeps it. *)
Definition rule_ok (key : string) (rule : Rule) : Prop :=
  to_lower (ru_Model rule) = key ∧ ru_Value rule ≠ "" ∧ ValidRuleField (ru_Field rule) = true ∧
  ValidRuleValue (ru_Field rule) (ru_Value rule) = true ∧ finiteNonNegative (ru_Multiplier rule) = true.

(** A row as the compiler keeps it, under the lower-cased name of its model. *)
Definition row_ok (key : string) (row : compiledModel) : Prop :=
  key = to_lower (p_Model (cm_price row)) ∧ p_Model (cm_price row) ≠ "" ∧
  finiteNonNegative (p_PriceMultiplier (cm_price row)) = true ∧
  Forall (λ rate, 0 ≤ rate) (price_rates (cm_price row)) ∧
  Forall (rule_ok key) (cm_rules row).

Definition snapshot_ok (s : Snapshot) : Prop :=
  map_Forall row_ok (s_admin s) ∧ map_Forall row_ok (s_catalog s) ∧ map_Forall row_ok (s_bundled s) ∧
  map_Forall (λ alias model, alias ≠ "" ∧ model ≠ "") (s_aliases s).

Lemma fold_compile_invariant {A B} (I : B → Prop) (step : B → A → compiled B) acc l result :
  I acc → (∀ b x b', I b → x ∈ l → step b x = inr b' → I b') →
  fold_compile step acc l = inr result → I result.
Proof.
  revert acc. induction l as [|x l IH]; intros acc HI Hstep; cbn; [by intros [= <-]|].
  destruct (step acc x) as [e|acc'] eqn:Hx; [done|]. apply IH.
  - eapply Hstep; [exact HI|left|exact Hx].
  - intros b y b' Hb Hy. apply Hstep; [done|by right].
Qed.

Lemma to_lower_nil s : to_lower s = "" → s = "".
Proof. by destruct s. Qed.

Lemma compile_rule_ok rule rule' :
  compile_rule rule = inr rule' → rule_ok (to_lower (ru_Model rule')) rule'.
Proof.
  unfold compile_rule. cbv zeta.
  match goal with |- (if ?b then _ else _) = _ → _ => destruct b eqn:Hb; [done|] end.
  match goal with |- (if ?b then _ else _) = _ → _ => destruct b eqn:Hm; [done|] end.
  intros [= <-]. cbn in *. reflect_bools. unfold rule_ok. cbn.
  by split_and!.
Qed.

Lemma compile_price_ok price price' :
  compile_price price = inr price' →
  p_Model price' ≠ "" ∧ finiteNonNegative (p_PriceMultiplier price') = true ∧
  Forall (λ rate, 0 ≤ rate) (price_rates price').
Proof.
  unfold compile_price. cbv zeta. case_bool_decide as Hne; [done|].
  match goal with |- (if ?b then _ else _) = _ → _ => destruct b eqn:Hm; [done|] end.
  match goal with |- (if ?b then _ else _) = _ → _ => destruct b eqn:Hr; [done|] end.
  intros [= <-]. split; [done|]. split.
  - cbn in Hm |- *. apply andb_false_iff in Hm as [Hm|Hm]; apply negb_false_iff in Hm; [|done].
    by destruct (p_PriceMultiplier price) as [[]|[]| |[] m e].
  - by apply no_negatives in Hr.
Qed.

Lemma rules_ok rules rulesByModel :
  fold_compile add_rule ∅ rules = inr rulesByModel → map_Forall (λ key l, Forall (rule_ok key) l) rulesByModel.
Proof.
  apply fold_compile_invariant; [apply map_Forall_empty|]. intros b rule b' Hb _. unfold add_rule.
  destruct (compile_rule rule) as [e|rule'] eqn:Hrule; [done|]. intros [= <-].
  apply compile_rule_ok in Hrule. apply map_Forall_insert_2; [|done]. apply Forall_app. split.
  - destruct (b !! to_lower (ru_Model rule')) as [l|] eqn:Hl; [|apply Forall_nil_2]. by apply (Hb _ _ Hl).
  - by apply list.Forall_singleton.
Qed.

Lemma compileSet_ok rulesByModel prices set :
  map_Forall (λ key l, Forall (rule_ok key) l) rulesByModel →
  compileSet rulesByModel prices = inr set → map_Forall row_ok set.
Proof.
  intros Hrules. apply fold_compile_invariant; [apply map_Forall_empty|]. intros b price b' Hb _.
  unfold add_price. destruct (compile_price price) as [e|price'] eqn:Hprice; [done|]. intros [= <-].
  apply compile_price_ok in Hprice as (Hne & Hm & Hr). apply map_Forall_insert_2; [|done].
  split; [done|]. split; [done|]. split; [done|]. split; [done|]. cbn.
  destruct (rulesByModel !! to_lower (p_Model price')) as [l|] eqn:Hl; [|apply Forall_nil_2].
  by apply (Hrules _ _ Hl).
Qed.

Lemma aliases_ok aliases m :
  fold_compile add_alias ∅ aliases = inr m → map_Forall (λ alias model, alias ≠ "" ∧ model ≠ "") m.
Proof.
  apply fold_compile_invariant; [apply map_Forall_empty|]. intros b entry b' Hb _. unfold add_alias.
  cbv zeta. destruct (_ || _) eqn:Hne; [done|]. intros [= <-]. reflect_bools.
  apply map_Forall_insert_2; [|done]. split; [|done]. intros Hnil%to_lower_nil. done.
Qed.

(** Success is the success of every step. *)
Lemma fold_compile_succeeds {A B} (step : B → A → compiled B) (good : A → Prop) acc l :
  (∀ b x, x ∈ l → (∃ b', step b x = inr b') ↔ good x) →
  (∃ b, fold_compile step acc l = inr b) ↔ Forall good l.
Proof.
  revert acc. induction l as [|x l IH]; intros acc Hstep; cbn.
  - split; [intros; apply Forall_nil_2|eauto].
  - rewrite list.Forall_cons. pose proof (Hstep acc x ltac:(left)) as Hx.
    destruct (step acc x) as [e|acc'].
    + split; [by intros [b [=]]|]. intros [Hg _]. apply Hx in Hg as [b' [=]].
    + rewrite IH; [|intros b y Hy; apply Hstep; by right]. naive_solver.
Qed.

Definition rule_accepted (rule : Rule) : Prop := ∃ rule', compile_rule rule = inr rule'.
Definition price_accepted (price : Price) : Prop := ∃ price', compile_price price = inr price'.
Definition alias_accepted (entry : string * string) : Prop := clean entry.1 ≠ "" ∧ clean entry.2 ≠ "".

Lemma compileSet_succeeds rulesByModel prices :
  (∃ set, compileSet rulesByModel prices = inr set) ↔ Forall price_accepted prices.
Proof.
  apply fold_compile_succeeds. intros b price _. unfold add_price, price_accepted.
  destruct (compile_price price); naive_solver.
Qed.

(** What the compiler accepts, it accepts row by row. *)
Lemma Compile_accepts admin catalog bundled aliases rules :
  (∃ s, Compile admin catalog bundled aliases rules = inr s) ↔
  Forall rule_accepted rules ∧ Forall price_accepted (admin ++ catalog ++ bundled) ∧
  Forall alias_accepted aliases.
Proof.
  assert (Hrules : (∃ m, fold_compile add_rule ∅ rules = inr m) ↔ Forall rule_accepted rules).
  { apply fold_compile_succeeds. intros b rule _. unfold add_rule, rule_accepted.
    destruct (compile_rule rule); naive_solver. }
  assert (Haliases : (∃ m, fold_compile add_alias ∅ aliases = inr m) ↔ Forall alias_accepted aliases).
  { apply fold_compile_succeeds. intros b entry _. unfold add_alias, alias_accepted. cbv zeta.
    destruct (_ || _) eqn:Hne; [|reflect_bools; naive_solver].
    split; [by intros [? [=]]|]. intros [H1 H2].
    apply orb_true_iff in Hne as [Hne|Hne]; by apply bool_decide_eq_true in Hne. }
  rewrite !Forall_app, <- Hrules, <- Haliases. unfold Compile.
  destruct (fold_compile add_rule ∅ rules) as [e|rulesByModel]; cbn [sum_bind]; [naive_solver|].
  rewrite <- !(compileSet_succeeds rulesByModel).
  destruct (compileSet rulesByModel admin); cbn [sum_bind]; [naive_solver|].
  destruct (compileSet rulesByModel catalog); cbn [sum_bind]; [naive_solver|].
  destruct (compileSet rulesByModel bundled); cbn [sum_bind]; [naive_solver|].
  destruct (fold_compile add_alias ∅ aliases); cbn [sum_bind]; naive_solver.
Qed.

(** The five parts of a compilation. *)
Lemma Compile_parts admin catalog bundled aliases rules s :
  Compile admin catalog bundled aliases rules = inr s → ∃ rulesByModel,
    fold_compile add_rule ∅ rules = inr rulesByModel ∧
    compileSet rulesByModel admin = inr (s_admin s) ∧ compileSet rulesByModel catalog = inr (s_catalog s) ∧
    compileSet rulesByModel bundled = inr (s_bundled s) ∧ fold_compile add_alias ∅ aliases = inr (s_aliases s).
Proof.
  unfold Compile. intros Hs.
  destruct (fold_compile add_rule ∅ rules) as [e|r]; cbn [sum_bind] in Hs; [done|]. exists r.
  destruct (compileSet r admin); cbn [sum_bind] in Hs; [done|].
  destruct (compileSet r catalog); cbn [sum_bind] in Hs; [done|].
  destruct (compileSet r bundled); cbn [sum_bind] in Hs; [done|].
  destruct (fold_compile add_alias ∅ aliases); cbn [sum_bind] in Hs; [done|]. by injection Hs as <-.
Qed.

(** Compilation is a gate.  It succeeds exactly when every rule, every price of every source
    and every alias is well-formed on its own - so one bad row refuses the whole snapshot
    - and then every row of the snapshot is filed under its lower-cased model name, has
    non-negative rates and a finite non-negative multiplier, and carries only rules of that model
    with a known field, a usable value and a finite non-negative multiplier. *)
Theorem compilation_is_a_gate admin catalog bundled aliases rules :
  ((∃ s, Compile admin catalog bundled aliases rules = inr s) ↔
   Forall rule_accepted rules ∧ Forall price_accepted (admin ++ catalog ++ bundled) ∧
   Forall alias_accepted aliases) ∧
  (∀ s, Compile admin catalog bundled aliases rules = inr s → snapshot_ok s).
Proof.
  split; [apply Compile_accepts|]. intros s (r & Hr & Ha & Hc & Hb & Hm)%Compile_parts. apply rules_ok in Hr.
  split; [by eapply compileSet_ok|]. split; [by eapply compileSet_ok|].
  split; [by eapply compileSet_ok|]. by eapply aliases_ok.
Qed.

(** The key an alias is filed under. *)
Definition alias_key (entry : string * string) : string := to_lower (clean entry.1).

Lemma add_alias_swap acc x y :
  alias_key x ≠ alias_key y →
  sum_bind (add_alias acc x) (λ acc, add_alias acc y) = sum_bind (add_alias acc y) (λ acc, add_alias acc x).
Proof.
  unfold alias_key, add_alias. cbv zeta. intros Hne.
  destruct (bool_decide (clean x.1 = "") || bool_decide (clean x.2 = ""));
    destruct (bool_decide (clean y.1 = "") || bool_decide (clean y.2 = "")); cbn [sum_bind]; try done.
  f_equal. by apply insert_insert_ne.
Qed.

Lemma fold_alias_permutation l l' acc :
  l ≡ₚ l' → NoDup (alias_key <$> l) → fold_compile add_alias acc l = fold_compile add_alias acc l'.
Proof.
  intros Hp. revert acc. induction Hp as [|x l l' _ IH|x y l|l1 l2 l3 H1 IH1 _ IH2]; intros acc Hnd.
  - done.
  - cbn. destruct (add_alias acc x); [done|]. apply IH. rewrite fmap_cons in Hnd. by apply list.NoDup_cons in Hnd as [_ ?].
  - rewrite !fmap_cons, !list.NoDup_cons in Hnd. destruct Hnd as (Hy & _).
    assert (alias_key y ≠ alias_key x) as Hne by (intros Heq; apply Hy; rewrite Heq; left).
    pose proof (add_alias_swap acc y x Hne) as Hswap. cbn.
    destruct (add_alias acc y) as [ey|accy] eqn:Hay; destruct (add_alias acc x) as [ex|accx] eqn:Hax;
      cbn [sum_bind] in Hswap; [congruence|by rewrite <- Hswap|by rewrite Hswap|by rewrite Hswap].
  - rewrite IH1 by done. apply IH2. by rewrite <- H1.
Qed.

(** The order in which Go visits the alias map does not matter as long as the aliases stay
    distinct after trimming and lower-casing; when two of them differ only in case, the visit
    order decides which model they name, so the same table can price a request in two ways. *)
Theorem alias_order_matters_only_for_twins admin catalog bundled rules :
  (∀ aliases aliases', aliases ≡ₚ aliases' → NoDup (alias_key <$> aliases) →
     Compile admin catalog bundled aliases rules = Compile admin catalog bundled aliases' rules) ∧
  (∀ s s', Compile admin catalog bundled [("fast", "gpt-5"); ("Fast", "gpt-4")] rules = inr s →
     Compile admin catalog bundled [("Fast", "gpt-4"); ("fast", "gpt-5")] rules = inr s' →
     s_aliases s !! "fast" = Some "gpt-4" ∧ s_aliases s' !! "fast" = Some "gpt-5").
Proof.
  unfold Compile. split.
  - intros aliases aliases' Hp Hnd. by rewrite (fold_alias_permutation _ _ _ Hp Hnd).
  - intros s s'. destruct (fold_compile add_rule ∅ rules) as [e|r]; cbn [sum_bind]; [done|].
    destruct (compileSet r admin) as [e|a]; cbn [sum_bind]; [done|].
    destruct (compileSet r catalog) as [e|c]; cbn [sum_bind]; [done|].
    destruct (compileSet r bundled) as [e|b]; cbn [sum_bind]; [done|].
    cbn. by intros [= <-] [= <-].
Qed.

(** ** A small catalog *)

Definition row (model : string) (rate : Z) (multiplier : float64) : Price :=
  Build_Price model rate rate rate rate rate 0 0 0 "catalog" "1" multiplier.

Definition small_snapshot : Snapshot :=
  match Compile [row "Kimi-K2" 7 f64_zero] [row "moonshotai/kimi-k2" 5 f64_one; row "openai/gpt-5" 10 f64_one] []
          [("fast", "gpt-5")] [{| ru_Model := "openai/gpt-5"; ru_Field := "service_tier"; ru_Value := "flex";
                                  ru_Multiplier := f64_div f64_one f64_two |}] with
  | inr s => s
  | inl _ => Build_Snapshot ∅ ∅ ∅ ∅
  end.

Definition ask_price (model tier : string) : Dimensions := Build_Dimensions "" model "" "" tier "" "" "" "" 0.

Example prices_of_small_snapshot :
  (p_InputNanoUSDPerToken ∘ sp_Price <$> @Resolve amd64 (Some small_snapshot) (ask_price "Fast" "flex")) = Some 5 ∧
  (p_InputNanoUSDPerToken ∘ sp_Price <$> @Resolve amd64 (Some small_snapshot) (ask_price "gpt-5-20250807" "priority"))
    = Some 20.
Proof. by vm_compute. Qed.

Lemma free_models_cost_nothing_witness :
  ∃ sp, @Resolve amd64 (Some small_snapshot) (ask_price "kimi-k2" "") = Some sp ∧ CostNanoUSD sp sample_usage = 0.
Proof.
  assert (∃ sp, @Resolve amd64 (Some small_snapshot) (ask_price "kimi-k2" "") = Some sp ∧
    f64_is_nan (sp_RuleMultiplier sp) = false ∧ f64_is_inf (sp_RuleMultiplier sp) = false) as (sp & Hsp & Hn & Hi)
    by (eexists; split; [by vm_compute|by vm_compute]).
  exists sp. split; [exact Hsp|].
  eapply (@free_models_cost_nothing amd64 small_snapshot (ask_price "kimi-k2" "") sp sample_usage 0 0
    {| cm_price := row "Kimi-K2" 7 f64_zero; cm_rules := [] |} Hsp).
  - split.
    + exists (s_admin small_snapshot), "kimi-k2". split; [exact eq_refl|].
      split; [vm_compute; exact eq_refl|]. split; vm_compute; exact eq_refl.
    + intros. lia.
  - right. split; [by vm_compute|]. by split.
Defined.
