(* ===== verification/Json.v ===== *)
(** * JSON documents (encoding/json)

    [json.Unmarshal] into an [any]: a scanner that reads one character at a time
    and keeps the open arrays and objects on a stack, as Go's does, so it needs
    no fuel.  Numbers are the nearest float64; strings are byte strings, and
    escapes of code points are written in UTF-8. *)

From Stdlib Require Import SpecFloat.
From S2P Require Import Prelude.
From S2P Require Import Float64.

Inductive json :=
  | JNull
  | JBool (b : bool)
  | JNumber (f : float64)
  | JString (s : string)
  | JArray (items : list json)
  | JObject (members : list (string * json)).

(** A Go map keeps the last value of a repeated key. *)
Fixpoint member (key : string) (members : list (string * json)) : option json :=
  match members with
  | [] => None
  | (k, v) :: members =>
      match member key members with
      | Some v => Some v
      | None => if bool_decide (k = key) then Some v else None
      end
  end.

(** ** Numbers

    [strconv.ParseFloat] of [m * 10^e]: the quotient is computed with more bits
    than a float64 has, the last of which says whether anything was cut off. *)

Definition f64_of_ratio (n d : Z) : float64 :=
  let shift := Z.max 0 (Z.log2 d - Z.log2 n + 70) in
  let scaled := Z.shiftl n shift in
  let quotient := scaled / d in
  let sticky := if scaled mod d =? 0 then 0 else 1 in
  binary_normalize f64_prec f64_emax (2 * quotient + sticky) (- shift - 1) false.

(** Beyond 400 digits on either side the outcome is an infinity or a zero. *)
Definition f64_of_decimal (m e : Z) : float64 :=
  if m =? 0 then S754_zero false
  else
    let magnitude := Z.log2 m / 3 + e in
    if 400 <? e + Z.log2 m / 4 then S754_infinity false
    else if magnitude <? -400 then S754_zero false
    else if 0 <=? e then f64_of_Z (m * 10 ^ e)
    else f64_of_ratio m (10 ^ (- e)).

Record number_text := { nt_negative : bool; nt_mantissa : Z; nt_exponent : Z; nt_exp_negative : bool; nt_exp : Z }.

Definition number_value (n : number_text) : float64 :=
  let e := nt_exponent n + (if nt_exp_negative n then - nt_exp n else nt_exp n) in
  let f := f64_of_decimal (nt_mantissa n) e in
  if nt_negative n then SFopp f else f.

(** ** Characters *)

Definition json_space (c : ascii) : bool :=
  bool_decide (Ascii.nat_of_ascii c ∈ [9; 10; 13; 32]%nat).

Definition digit_of (c : ascii) : option Z :=
  let n := Ascii.nat_of_ascii c in
  if bool_decide (48 ≤ n ∧ n ≤ 57)%nat then Some (Z.of_nat n - 48) else None.

Definition hex_digit (c : ascii) : option Z :=
  let n := Ascii.nat_of_ascii c in
  if bool_decide (48 ≤ n ∧ n ≤ 57)%nat then Some (Z.of_nat n - 48)
  else if bool_decide (97 ≤ n ∧ n ≤ 102)%nat then Some (Z.of_nat n - 87)
  else if bool_decide (65 ≤ n ∧ n ≤ 70)%nat then Some (Z.of_nat n - 55)
  else None.

Definition byte_char (z : Z) : string := String (Ascii.ascii_of_nat (Z.to_nat z)) "".

(** The UTF-8 encoding of a code point. *)
Definition utf8 (code : Z) : string :=
  if code <? 128 then byte_char code
  else if code <? 2048 then byte_char (192 + code / 64) +:+ byte_char (128 + code mod 64)
  else if code <? 65536 then
    byte_char (224 + code / 4096) +:+ byte_char (128 + code / 64 mod 64) +:+ byte_char (128 + code mod 64)
  else
    byte_char (240 + code / 262144) +:+ byte_char (128 + code / 4096 mod 64) +:+
    byte_char (128 + code / 64 mod 64) +:+ byte_char (128 + code mod 64).

Definition replacement : string := utf8 65533.

(** ** The scanner *)

(** What a number may continue with. *)
Inductive number_phase := NegSign | LeadingZero | IntDigits | DecimalPoint | FractionDigits
  | ExpMark | ExpSign | ExpDigits.

Definition number_complete (p : number_phase) : bool :=
  match p with LeadingZero | IntDigits | FractionDigits | ExpDigits => true | _ => false end.

(** Inside a string: its text so far, the first half of a surrogate pair, and the escape begun. *)
Inductive escape := NoEscape | Backslash | Unicode (digits : nat) (code : Z).
Record string_state := { ss_text : string; ss_high : option Z; ss_escape : escape }.

Inductive frame :=
  | InArray (items : list json)
  | InObject (members : list (string * json)) (key : option string).

Inductive mode :=
  | WantValue (or_close : bool)
  | WantKey (or_close : bool)
  | WantColon
  | AfterValue
  | InString (s : string_state)
  | InNumber (n : number_text) (p : number_phase)
  | InLiteral (rest : string) (v : json).

Record scanner := { sc_mode : mode; sc_stack : list frame; sc_result : option json; sc_range_error : bool }.

Definition maxNestingDepth : nat := 10000.

Definition with_mode (s : scanner) (m : mode) : scanner :=
  {| sc_mode := m; sc_stack := sc_stack s; sc_result := sc_result s; sc_range_error := sc_range_error s |}.

Definition push (s : scanner) (f : frame) (m : mode) : option scanner :=
  if bool_decide (maxNestingDepth ≤ length (sc_stack s))%nat then None
  else Some {| sc_mode := m; sc_stack := f :: sc_stack s; sc_result := sc_result s;
               sc_range_error := sc_range_error s |}.

(** A complete value goes into the innermost open container; lists are reversed meanwhile. *)
Definition put_value (s : scanner) (v : json) : scanner :=
  match sc_stack s with
  | [] => {| sc_mode := AfterValue; sc_stack := []; sc_result := Some v; sc_range_error := sc_range_error s |}
  | InArray items :: stack =>
      {| sc_mode := AfterValue; sc_stack := InArray (v :: items) :: stack; sc_result := None;
         sc_range_error := sc_range_error s |}
  | InObject members key :: stack =>
      {| sc_mode := AfterValue; sc_stack := InObject ((default "" key, v) :: members) None :: stack;
         sc_result := None; sc_range_error := sc_range_error s |}
  end.

Definition close (s : scanner) : option scanner :=
  match sc_stack s with
  | InArray items :: stack =>
      Some (put_value {| sc_mode := AfterValue; sc_stack := stack; sc_result := None;
                         sc_range_error := sc_range_error s |} (JArray (rev items)))
  | InObject members _ :: stack =>
      Some (put_value {| sc_mode := AfterValue; sc_stack := stack; sc_result := None;
                         sc_range_error := sc_range_error s |} (JObject (rev members)))
  | [] => None
  end.

(** A number out of the range of float64 is an error, but the scan goes on. *)
Definition finish_number (s : scanner) (n : number_text) : scanner :=
  let f := number_value n in
  put_value {| sc_mode := sc_mode s; sc_stack := sc_stack s; sc_result := sc_result s;
               sc_range_error := sc_range_error s || f64_is_inf f |} (JNumber f).

Definition no_number : number_text := Build_number_text false 0 0 false 0.

Definition add_int (n : number_text) (d : Z) : number_text :=
  Build_number_text (nt_negative n) (nt_mantissa n * 10 + d) (nt_exponent n) (nt_exp_negative n) (nt_exp n).
Definition add_fraction (n : number_text) (d : Z) : number_text :=
  Build_number_text (nt_negative n) (nt_mantissa n * 10 + d) (nt_exponent n - 1) (nt_exp_negative n) (nt_exp n).
Definition add_exp (n : number_text) (d : Z) : number_text :=
  Build_number_text (nt_negative n) (nt_mantissa n) (nt_exponent n) (nt_exp_negative n) (nt_exp n * 10 + d).
Definition exp_sign (n : number_text) (negative : bool) : number_text :=
  Build_number_text (nt_negative n) (nt_mantissa n) (nt_exponent n) negative (nt_exp n).

(** The next phase of a number on a character, if the character continues it. *)
Definition continue_number (n : number_text) (p : number_phase) (c : ascii) : option (number_text * number_phase) :=
  match digit_of c with
  | Some d =>
      match p with
      | NegSign => Some (add_int n d, if d =? 0 then LeadingZero else IntDigits)
      | IntDigits => Some (add_int n d, IntDigits)
      | DecimalPoint | FractionDigits => Some (add_fraction n d, FractionDigits)
      | ExpMark | ExpSign | ExpDigits => Some (add_exp n d, ExpDigits)
      | LeadingZero => None
      end
  | None =>
      if bool_decide (c = "."%char) then
        match p with LeadingZero | IntDigits => Some (n, DecimalPoint) | _ => None end
      else if bool_decide (c = "e"%char ∨ c = "E"%char) then
        match p with LeadingZero | IntDigits | FractionDigits => Some (n, ExpMark) | _ => None end
      else if bool_decide (c = "+"%char ∨ c = "-"%char) then
        match p with ExpMark => Some (exp_sign n (bool_decide (c = "-"%char)), ExpSign) | _ => None end
      else None
  end.

(** The first character of a value. *)
Definition begin_value (s : scanner) (c : ascii) : option scanner :=
  if bool_decide (c = "{"%char) then push s (InObject [] None) (WantKey true)
  else if bool_decide (c = "["%char) then push s (InArray []) (WantValue true)
  else if bool_decide (c = Ascii.ascii_of_nat 34) then
    Some (with_mode s (InString {| ss_text := ""; ss_high := None; ss_escape := NoEscape |}))
  else if bool_decide (c = "-"%char) then
    Some (with_mode s (InNumber (Build_number_text true 0 0 false 0) NegSign))
  else if bool_decide (c = "t"%char) then Some (with_mode s (InLiteral "rue" (JBool true)))
  else if bool_decide (c = "f"%char) then Some (with_mode s (InLiteral "alse" (JBool false)))
  else if bool_decide (c = "n"%char) then Some (with_mode s (InLiteral "ull" JNull))
  else match digit_of c with
       | Some d => Some (with_mode s (InNumber (add_int no_number d) (if d =? 0 then LeadingZero else IntDigits)))
       | None => None
       end.

(** After a value: the end of its container or the next element. *)
Definition after_value (s : scanner) (c : ascii) : option scanner :=
  if json_space c then Some (with_mode s AfterValue)
  else match sc_stack s with
       | InArray _ :: _ =>
           if bool_decide (c = ","%char) then Some (with_mode s (WantValue false))
           else if bool_decide (c = "]"%char) then close s else None
       | InObject _ _ :: _ =>
           if bool_decide (c = ","%char) then Some (with_mode s (WantKey false))
           else if bool_decide (c = "}"%char) then close s else None
       | [] => None
       end.

(** Half a surrogate pair that stays alone is replaced. *)
Definition flush_high (st : string_state) : string :=
  match ss_high st with Some _ => ss_text st +:+ replacement | None => ss_text st end.

Definition add_text (st : string_state) (text : string) : string_state :=
  {| ss_text := flush_high st +:+ text; ss_high := None; ss_escape := NoEscape |}.

Definition add_code (st : string_state) (code : Z) : string_state :=
  if (55296 <=? code) && (code <? 56320) then
    {| ss_text := flush_high st; ss_high := Some code; ss_escape := NoEscape |}
  else if (56320 <=? code) && (code <? 57344) then
    match ss_high st with
    | Some high => {| ss_text := ss_text st +:+ utf8 (65536 + (high - 55296) * 1024 + (code - 56320));
                      ss_high := None; ss_escape := NoEscape |}
    | None => add_text st replacement
    end
  else add_text st (utf8 code).

(** A character inside a string; [None] for a malformed one, and whether the string ends. *)
Definition string_char (st : string_state) (c : ascii) : option (string_state + string) :=
  let n := Ascii.nat_of_ascii c in
  match ss_escape st with
  | NoEscape =>
      if bool_decide (n = 34)%nat then Some (inr (flush_high st))
      else if bool_decide (n = 92)%nat then
        Some (inl {| ss_text := ss_text st; ss_high := ss_high st; ss_escape := Backslash |})
      else if bool_decide (n < 32)%nat then None
      else Some (inl (add_text st (String c "")))
  | Backslash =>
      let plain z := Some (inl (add_text st (byte_char z))) in
      match n with
      | 34%nat => plain 34
      | 92%nat => plain 92
      | 47%nat => plain 47
      | 98%nat => plain 8
      | 102%nat => plain 12
      | 110%nat => plain 10
      | 114%nat => plain 13
      | 116%nat => plain 9
      | 117%nat => Some (inl {| ss_text := ss_text st; ss_high := ss_high st; ss_escape := Unicode 0 0 |})
      | _ => None
      end
  | Unicode digits code =>
      match hex_digit c with
      | None => None
      | Some d =>
          let code := code * 16 + d in
          if bool_decide (digits = 3)%nat then Some (inl (add_code st code))
          else Some (inl {| ss_text := ss_text st; ss_high := ss_high st; ss_escape := Unicode (S digits) code |})
      end
  end.

(** A byte that belongs to no UTF-8 encoding of a code point is replaced; with
    [merge], a whole run of such bytes at once. *)
Definition continuation (c : ascii) : bool :=
  let n := Ascii.nat_of_ascii c in bool_decide (128 ≤ n ∧ n < 192)%nat.

Fixpoint utf8_text (merge bad : bool) (text : string) : string :=
  match text with
  | EmptyString => ""
  | String a rest =>
      let n := Ascii.nat_of_ascii a in
      let between lo hi := bool_decide (lo ≤ n ∧ n ≤ hi)%nat in
      let second lo hi b := let m := Ascii.nat_of_ascii b in bool_decide (lo ≤ m ∧ m ≤ hi)%nat in
      let invalid (_ : unit) := (if merge && bad then "" else replacement) +:+ utf8_text merge true rest in
      if between 0%nat 127%nat then String a (utf8_text merge false rest)
      else
        match rest with
        | String b rest1 =>
            if between 194%nat 223%nat && continuation b then String a (String b (utf8_text merge false rest1))
            else
              match rest1 with
              | String c rest2 =>
                  let wide := if bool_decide (n = 224)%nat then second 160%nat 191%nat b
                              else if bool_decide (n = 237)%nat then second 128%nat 159%nat b
                              else continuation b in
                  if between 224%nat 239%nat && wide && continuation c then
                    String a (String b (String c (utf8_text merge false rest2)))
                  else
                    match rest2 with
                    | String d rest3 =>
                        let wide := if bool_decide (n = 240)%nat then second 144%nat 191%nat b
                                    else if bool_decide (n = 244)%nat then second 128%nat 143%nat b
                                    else continuation b in
                        if between 240%nat 244%nat && wide && continuation c && continuation d then
                          String a (String b (String c (String d (utf8_text merge false rest3))))
                        else invalid tt
                    | EmptyString => invalid tt
                    end
              | EmptyString => invalid tt
              end
        | EmptyString => invalid tt
        end
  end.

(** A decoder replaces every such byte, [strings.ToValidUTF8] every run of them. *)
Definition valid_utf8 : string → string := utf8_text false false.
Definition ToValidUTF8 : string → string := utf8_text true false.

(** The end of a string: a key in front of its colon, or a value. *)
Definition finish_string (s : scanner) (text : string) : scanner :=
  match sc_stack s with
  | InObject members None :: stack =>
      {| sc_mode := WantColon; sc_stack := InObject members (Some text) :: stack; sc_result := sc_result s;
         sc_range_error := sc_range_error s |}
  | _ => put_value s (JString text)
  end.

Definition scan_char (s : scanner) (c : ascii) : option scanner :=
  match sc_mode s with
  | WantValue or_close =>
      if json_space c then Some s
      else if or_close && bool_decide (c = "]"%char) then close s
      else begin_value s c
  | WantKey or_close =>
      if json_space c then Some s
      else if or_close && bool_decide (c = "}"%char) then close s
      else if bool_decide (c = Ascii.ascii_of_nat 34) then
        Some (with_mode s (InString {| ss_text := ""; ss_high := None; ss_escape := NoEscape |}))
      else None
  | WantColon =>
      if json_space c then Some s
      else if bool_decide (c = ":"%char) then Some (with_mode s (WantValue false)) else None
  | AfterValue => after_value s c
  | InString st =>
      match string_char st c with
      | None => None
      | Some (inl st) => Some (with_mode s (InString st))
      | Some (inr text) => Some (finish_string s (valid_utf8 text))
      end
  | InNumber n p =>
      match continue_number n p c with
      | Some (n, p) => Some (with_mode s (InNumber n p))
      | None => if number_complete p then after_value (finish_number s n) c else None
      end
  | InLiteral rest v =>
      match rest with
      | String r EmptyString => if bool_decide (c = r) then Some (put_value s v) else None
      | String r rest => if bool_decide (c = r) then Some (with_mode s (InLiteral rest v)) else None
      | EmptyString => None
      end
  end.

Fixpoint scan (s : scanner) (text : string) : option scanner :=
  match text with
  | EmptyString => Some s
  | String c text =>
      match scan_char s c with
      | Some s => scan s text
      | None => None
      end
  end.

Definition start : scanner := {| sc_mode := WantValue false; sc_stack := []; sc_result := None; sc_range_error := false |}.

(** At the end of the text a number at the top is complete.  The flag says that a
    number of the document does not fit a float64. *)
Definition scanned (s : scanner) : option (json * bool) :=
  let s := match sc_mode s with
           | InNumber n p => if number_complete p then finish_number s n else s
           | _ => s
           end in
  match sc_mode s, sc_stack s with
  | AfterValue, [] => (λ v, (v, sc_range_error s)) <$> sc_result s
  | _, _ => None
  end.

Definition parse (text : string) : option (json * bool) := scan start text ≫= scanned.

(** [json.Valid(data)]. *)
Definition valid (text : string) : bool := bool_decide (is_Some (parse text)).

(** [json.Unmarshal(data, &v)] for an [any] v: [None] is an error. *)
Definition unmarshal (text : string) : option json :=
  match parse text with Some (v, false) => Some v | _ => None end.

(** The same for a [map[string]any]: [null] leaves it empty, no other value fits. *)
Definition unmarshal_object (text : string) : option (list (string * json)) :=
  match unmarshal text with
  | Some (JObject members) => Some members
  | Some JNull => Some []
  | _ => None
  end.

(** The same for a struct whose only field is the string [name]: keys match in
    any letter case, the last one wins, [null] changes nothing, another type is an
    error, and what the struct does not mention is skipped. *)
Fixpoint string_field (name : string) (members : list (string * json)) (value : string) : option string :=
  match members with
  | [] => Some value
  | (k, v) :: members =>
      if equal_fold k name then
        match v with
        | JString s => string_field name members s
        | JNull => string_field name members value
        | _ => None
        end
      else string_field name members value
  end.

Definition unmarshal_field (name text : string) : option string :=
  match parse text with
  | Some (JObject members, _) => string_field name members ""
  | Some (JNull, _) => Some ""
  | _ => None
  end.
