(* ===== verification/Usage.v ===== *)
(** * The usage of a response (internal/billing, internal/app/cpa_usage.go)

    What a response says about the tokens it took: [ParseResponse] reads a JSON
    document or a stream of server-sent events, [Assess] decides what is charged
    for it. *)

From S2P Require Import Prelude.
From S2P Require Import Float64.
From S2P Require Import Cost.
From S2P Require Import Json.

(* src/internal/billing/usage.go:14-23 Result *)
Record Result := {
  br_RequestID : string;
  br_Model : string;
  br_ResponseServiceTier : string;
  br_Usage : Usage;
  br_Found : bool;
  br_UsageQuality : string
}.
#[export] Instance Result_eta : Eta Result := λ r, Build_Result (br_RequestID r) (br_Model r)
  (br_ResponseServiceTier r) (br_Usage r) (br_Found r) (br_UsageQuality r).

#[global] Instance Result_eq_dec : EqDecision Result.
Proof. solve_decision. Defined.

Definition empty_result : Result := Build_Result "" "" "" zero_usage false "".

(* src/internal/billing/usage.go:25-25 NonGenerated *)
Definition NonGenerated (r : Result) : bool := bool_decide (br_UsageQuality r = "not_generated").

(** ** Counters *)

Definition members := list (string * json).

Section usage.
Context `{FloatToInt}.

(** [value["key"]] of an untyped object, as an object or nothing. *)
Definition object_in (m : members) (key : string) : option members :=
match member key m with Some (JObject o) => Some o | _ => None end.

(* src/internal/billing/usage.go:159-162 stringValue *)
Definition stringValue (value : option json) : string :=
match value with Some (JString text) => trim_space text | _ => "" end.

(** Numbers arrive as float64: the decoder is not asked for [json.Number]. *)
(* src/internal/billing/usage.go:163-176 number *)
Definition number (value : option json) : Z :=
match value with
| Some (JNumber v) => if f64_lt f64_zero v then f64_to_int64 v else 0
| _ => 0
end.

(** A lookup in a missing object finds nothing. *)
(* src/internal/billing/usage.go:177-180 nestedNumber *)
Definition nestedNumber (value : members) (key child : string) : Z :=
number (member child (default [] (object_in value key))).

(* src/internal/billing/usage.go:181-184 nestedNestedNumber *)
Definition nestedNestedNumber (value : members) (key child grandchild : string) : Z :=
nestedNumber (default [] (object_in value key)) child grandchild.

(* src/internal/billing/usage.go:185-192 hasAnyKey *)
Definition hasAnyKey (value : members) (keys : list string) : bool :=
existsb (λ key, bool_decide (is_Some (member key value))) keys.

(* src/internal/billing/usage.go:193-205 saturatingSum *)
Fixpoint saturatingSum_from (result : Z) (values : list Z) : Z :=
match values with
| [] => result
| value :: values =>
    if value <=? 0 then saturatingSum_from result values
    else if max_int64 -₆₄ value <? result then max_int64
    else saturatingSum_from (result +₆₄ value) values
end.
Definition saturatingSum (values : list Z) : Z := saturatingSum_from 0 values.

(* src/internal/billing/usage.go:206-214 maxInt *)
Definition maxInt (values : list Z) : Z :=
foldl (λ result value, if result <? value then value else result) 0 values.

(* src/internal/billing/usage.go:149-157 imageGenerationUsage *)
Definition imageGenerationUsage (usage : members) : bool :=
match object_in usage "input_tokens_details" with
| None => false
| Some details => hasAnyKey details ["image_tokens"] || hasAnyKey details ["text_tokens"]
end.

(* src/internal/billing/usage.go:98-147 readUsage *)
Definition readUsage (raw : option json) (result : Result) : Result :=
match raw with
| Some (JObject usage) =>
    let num key := number (member key usage) in
    let inputTokens := maxInt [num "input_tokens"; num "prompt_tokens"] in
    let cacheReadTokens := maxInt [num "cached_tokens"; num "cache_read_input_tokens";
      nestedNumber usage "input_tokens_details" "cached_tokens";
      nestedNumber usage "prompt_tokens_details" "cached_tokens"] in
    let cacheWriteTokens := maxInt [num "cache_creation_input_tokens"; num "cache_write_tokens";
      nestedNumber usage "input_tokens_details" "cache_write_tokens";
      nestedNumber usage "prompt_tokens_details" "cache_write_tokens"] in
    let inputTokens :=
      if hasAnyKey usage ["cache_read_input_tokens"; "cache_creation_input_tokens"]
      then saturatingSum [inputTokens; cacheReadTokens] else inputTokens in
    let imageOutput := maxInt [num "output_image_tokens";
      nestedNumber usage "output_tokens_details" "image_tokens"] in
    let imageOutput :=
      if (imageOutput =? 0) && imageGenerationUsage usage then num "output_tokens" else imageOutput in
    let u := br_Usage result in
    result <| br_Found := true; br_Usage :=
      {| u_Prompt := maxInt [u_Prompt u; inputTokens];
         u_Completion := maxInt [u_Completion u; num "output_tokens"; num "completion_tokens"];
         u_Cached := maxInt [u_Cached u; cacheReadTokens];
         u_CacheWrite := maxInt [u_CacheWrite u; cacheWriteTokens];
         u_Reasoning := maxInt [u_Reasoning u; num "reasoning_tokens";
           nestedNumber usage "output_tokens_details" "reasoning_tokens"];
         u_Total := maxInt [u_Total u; num "total_tokens"];
         u_ImageInput := maxInt [u_ImageInput u; num "input_image_tokens";
           nestedNumber usage "input_tokens_details" "image_tokens"];
         u_CachedImageInput := maxInt [u_CachedImageInput u; num "cached_image_tokens";
           nestedNumber usage "input_tokens_details" "cached_image_tokens";
           nestedNestedNumber usage "input_tokens_details" "cached_tokens_details" "image_tokens"];
         u_ImageOutput := maxInt [u_ImageOutput u; imageOutput] |} |>
| _ => result
end.

(** ** Documents *)

(** The identity a document or a part of it carries. *)
(* src/internal/billing/usage.go:34-39 ParseResponse *)
Definition read_identity (m : members) (result : Result) : Result :=
let id := stringValue (member "id" m) in
let model := stringValue (member "model" m) in
let result := if bool_decide (id = "") then result else result <| br_RequestID := id |> in
if bool_decide (model = "") then result else result <| br_Model := model |>.

(* src/internal/billing/usage.go:48-54 ParseResponse *)
Definition read_tier (m : members) (result : Result) : Result :=
let tier := stringValue (member "service_tier" m) in
if bool_decide (tier = "") then result else result <| br_ResponseServiceTier := tier |>.

(** The message of a Kimi stream, the data of an event. *)
(* src/internal/billing/usage.go:58-75 ParseResponse *)
Definition read_part (part : option members) (result : Result) : Result :=
match part with
| None => result
| Some m => readUsage (member "usage" m) (read_identity m result)
end.

(* src/internal/billing/usage.go:29-76 ParseResponse *)
Definition consume (result : Result) (data : string) : Result :=
match unmarshal_object data with
| None => result
| Some value =>
    let result := read_identity value result in
    let result :=
      match object_in value "response" with
      | None => result
      | Some response =>
          read_tier response (readUsage (member "usage" response) (read_identity response result))
      end in
    let result := readUsage (member "usage" value) (read_tier value result) in
    let result := read_part (object_in value "message") result in
    read_part (object_in value "data") result
end.

(** [bufio.Scanner] with a buffer of 2 MiB: a line that does not fit ends the
  scan.  A carriage return at the end of a line is trimmed with the spaces. *)
Definition max_line : N := 2097152.

Fixpoint scan_lines (line : string) (room : N) (text : string) : list string :=
match text with
| EmptyString => if bool_decide (line = "") then [] else [line]
| String c text =>
    if bool_decide (c = Ascii.ascii_of_nat 10) then line :: scan_lines "" max_line text
    else if bool_decide (room = 1%N) then []
    else scan_lines (line +:+ String c "") (N.pred room) text
end.

(* src/internal/billing/usage.go:81-87 ParseResponse *)
Definition event_data (line : string) : option string :=
let line := trim_space line in
if has_prefix line "data:" then
  let data := trim_space (trim_prefix line "data:") in
  if bool_decide (data = "[DONE]") then None else Some data
else None.

(** The documents of a payload: itself, and the data of every event in it. *)
(* src/internal/billing/usage.go:77-88 ParseResponse *)
Definition documents (payload : string) : list string :=
payload :: omap event_data (scan_lines "" max_line payload).

(* src/internal/billing/usage.go:92-94 ParseResponse *)
Definition total_at_least_parts (u : Usage) : Usage :=
{| u_Prompt := u_Prompt u; u_Completion := u_Completion u; u_Cached := u_Cached u;
   u_CacheWrite := u_CacheWrite u; u_Reasoning := u_Reasoning u;
   u_Total := maxInt [u_Total u; saturatingSum [u_Prompt u; u_CacheWrite u; u_Completion u]];
   u_ImageInput := u_ImageInput u; u_CachedImageInput := u_CachedImageInput u;
   u_ImageOutput := u_ImageOutput u |}.

(* src/internal/billing/usage.go:27-96 ParseResponse *)
Definition ParseResponse (payload : string) : Result :=
let result := foldl consume empty_result (documents payload) in
result <| br_Usage := total_at_least_parts (br_Usage result) |>.
End usage.

(** ** What is charged *)

(** The program's two usage records have the same fields. *)
(* src/internal/billing/usage.go:216-222 Cost *)
Definition Cost (price : SnapshotPrice) (usage : Usage) : Z := CostNanoUSD price usage.

(* src/internal/billing/usage.go:226-228 UsageComplete *)
Definition UsageComplete (price : SnapshotPrice) (usage : Usage) : bool :=
  (p_ImageOutputNanoUSDPerToken (sp_Price price) =? 0) || (0 <? u_ImageOutput usage).

(* src/internal/billing/settlement.go:7-10 Assessment *)
Record Assessment := { as_CostNanoUSD : Z; as_Complete : bool }.

(* src/internal/billing/settlement.go:12-26 Assess *)
Definition Assess (result : Result) (price : option SnapshotPrice) : Assessment :=
  let quality := br_UsageQuality result in
  if NonGenerated result then Build_Assessment 0 true
  else if bool_decide (quality ≠ "") && bool_decide (quality ≠ "complete") then Build_Assessment 0 false
  else if br_Found result && bool_decide (br_Usage result = zero_usage) then Build_Assessment 0 true
  else
    match price with
    | Some price =>
        if br_Found result && UsageComplete price (br_Usage result)
        then Build_Assessment (Cost price (br_Usage result)) true
        else Build_Assessment 0 false
    | None => Build_Assessment 0 false
    end.
