(* ===== verification/UsageGuarantees.v ===== *)
(** * What is charged for a response

    The usage of a response is the largest report of every counter (and of the total,
    or the sum of its parts): events may be repeated or come in any order.  Providers that count cached tokens into the
    input and providers that count them apart are billed alike, and nothing is
    charged on incomplete evidence. *)

From Stdlib Require Import SpecFloat.
From S2P Require Import Prelude.
From S2P Require Import Float64.
From S2P Require Import FloatFacts.
From S2P Require Import Cost.
From S2P Require Import Json.
From S2P Require Import Usage.

(** ** Maxima *)

Definition counters (u : Usage) : list Z :=
  [u_Prompt u; u_Completion u; u_Cached u; u_CacheWrite u; u_Reasoning u; u_Total u;
   u_ImageInput u; u_CachedImageInput u; u_ImageOutput u].

Definition usage_nonneg (u : Usage) : Prop := Forall (λ z, 0 ≤ z) (counters u).

Definition usage_max (u v : Usage) : Usage :=
  {| u_Prompt := u_Prompt u `max` u_Prompt v; u_Completion := u_Completion u `max` u_Completion v;
     u_Cached := u_Cached u `max` u_Cached v; u_CacheWrite := u_CacheWrite u `max` u_CacheWrite v;
     u_Reasoning := u_Reasoning u `max` u_Reasoning v; u_Total := u_Total u `max` u_Total v;
     u_ImageInput := u_ImageInput u `max` u_ImageInput v;
     u_CachedImageInput := u_CachedImageInput u `max` u_CachedImageInput v;
     u_ImageOutput := u_ImageOutput u `max` u_ImageOutput v |}.

Definition most (us : list Usage) : Usage := foldr usage_max zero_usage us.
Arguments most : simpl never.

Lemma foldr_max_nonneg values : 0 ≤ foldr Z.max 0 values.
Proof. induction values; cbn; lia. Qed.

Lemma most_cons u us : most (u :: us) = usage_max u (most us).
Proof. done. Qed.

Lemma maxInt_eq values : maxInt values = foldr Z.max 0 values.
Proof.
  unfold maxInt.
  assert (∀ r, 0 ≤ r → foldl (λ result value, if result <? value then value else result) r values
                        = r `max` foldr Z.max 0 values) as E.
  - induction values as [|v values IH]; intros r Hr; cbn; [lia|].
    destruct (Z.ltb_spec r v); rewrite IH by lia; lia.
  - rewrite E by lia. pose proof (foldr_max_nonneg values). lia.
Qed.

Lemma maxInt_nonneg values : 0 ≤ maxInt values.
Proof. rewrite maxInt_eq. apply foldr_max_nonneg. Qed.

Lemma maxInt_le values m : 0 ≤ m → Forall (λ v, v ≤ m) values → maxInt values ≤ m.
Proof. intros Hm Hv. rewrite maxInt_eq. induction Hv; cbn; lia. Qed.

Lemma saturatingSum_from_range values r :
  0 ≤ r ≤ max_int64 → Forall (λ v, v ≤ max_int64) values → 0 ≤ saturatingSum_from r values ≤ max_int64.
Proof.
  intros Hr Hv. revert r Hr. induction Hv as [|v values Hv _ IH]; intros r Hr; cbn [saturatingSum_from]; [done|].
  destruct (Z.leb_spec v 0); [by apply IH|].
  unfold sub64, add64. rewrite (wrap64_id (max_int64 - v)) by int64_lia.
  destruct (Z.ltb_spec (max_int64 - v) r); [int64_lia|].
  rewrite wrap64_id by int64_lia. apply IH. lia.
Qed.

Definition in_range (z : Z) : Prop := 0 ≤ z ≤ max_int64.

Lemma maxInt_range values : Forall (λ v, v ≤ max_int64) values → in_range (maxInt values).
Proof. intros Hv. split; [apply maxInt_nonneg|by apply maxInt_le]. Qed.

Lemma saturatingSum_range values : Forall (λ v, v ≤ max_int64) values → in_range (saturatingSum values).
Proof. intros Hv. by apply saturatingSum_from_range. Qed.

Lemma saturatingSum_from_eq values r :
  0 ≤ r ≤ max_int64 → Forall (λ v, 0 ≤ v ≤ max_int64) values → saturatingSum_from r values = max_int64 `min` (r + foldr Z.add 0 values).
Proof.
  intros Hr Hv. revert r Hr. induction Hv as [|v values Hv Hvs IH]; intros r Hr; cbn [saturatingSum_from foldr]; [lia|].
  assert (0 ≤ foldr Z.add 0 values) by (clear IH; induction Hvs; cbn; lia).
  destruct (Z.leb_spec v 0); [rewrite IH by lia; lia|]. unfold sub64, add64. rewrite (wrap64_id (max_int64 - v)) by int64_lia.
  destruct (Z.ltb_spec (max_int64 - v) r); [lia|]. rewrite wrap64_id by int64_lia. rewrite IH by lia. lia.
Qed.

Lemma saturatingSum_three x y z :
  0 ≤ x ≤ max_int64 → 0 ≤ y ≤ max_int64 → 0 ≤ z ≤ max_int64 → saturatingSum [x; y; z] = max_int64 `min` (x + y + z).
Proof.
  intros Hx Hy Hz. unfold saturatingSum. rewrite saturatingSum_from_eq; [cbn [foldr]; lia|split; [done|int64_lia]|].
  repeat (apply list.Forall_cons_2; [lia|]). apply list.Forall_nil_2.
Qed.

Lemma maxInt_le64 values : Forall (λ v, v ≤ max_int64) values → maxInt values ≤ max_int64.
Proof. apply maxInt_range. Qed.
Lemma saturatingSum_le64 values : Forall (λ v, v ≤ max_int64) values → saturatingSum values ≤ max_int64.
Proof. apply saturatingSum_range. Qed.
Lemma zero_le64 : 0 ≤ max_int64.
Proof. int64_lia. Qed.

Lemma usage_ext u v : counters u = counters v → u = v.
Proof. destruct u, v; cbn. by intros [= -> -> -> -> -> -> -> -> ->]. Qed.

Ltac usage_cases :=
  intros; apply usage_ext; unfold counters; cbn; rewrite ?maxInt_eq; cbn; repeat (apply (f_equal2 cons); [lia|]); done.

#[global] Instance usage_max_assoc : Assoc (=) usage_max.
Proof. intros u v w. usage_cases. Qed.
#[global] Instance usage_max_comm : Comm (=) usage_max.
Proof. intros u v. usage_cases. Qed.

Ltac nonneg_in H := unfold usage_nonneg, counters in H; rewrite !list.Forall_cons in H; destruct_and!.

Lemma usage_max_idemp u : usage_max u u = u.
Proof. usage_cases. Qed.

Lemma usage_nonneg_zero u : usage_nonneg u → usage_max u zero_usage = u.
Proof.
  intros Hu. nonneg_in Hu. usage_cases.
Qed.

Lemma most_app us vs : usage_nonneg (most vs) → most (us ++ vs) = usage_max (most us) (most vs).
Proof.
  intros Hv. induction us as [|u us IH]; cbn [app].
  - by rewrite (comm usage_max), usage_nonneg_zero.
  - by rewrite !most_cons, <- (assoc usage_max), IH.
Qed.

Lemma most_nonneg us : usage_nonneg (most us).
Proof.
  induction us as [|u us IH]; [by repeat constructor|].
  nonneg_in IH. rewrite most_cons. repeat constructor; cbn; lia.
Qed.

(** A maximum absorbs its arguments, so only the set of them matters. *)
Lemma most_absorbs u us : u ∈ us → usage_max u (most us) = most us.
Proof.
  induction 1 as [us|u v us _ IH]; rewrite most_cons.
  - by rewrite (assoc usage_max), usage_max_idemp.
  - by rewrite (assoc usage_max), (comm usage_max u), <- (assoc usage_max), IH.
Qed.

Lemma most_of_part us vs : us ⊆ vs → usage_max (most us) (most vs) = most vs.
Proof.
  induction us as [|u us IH]; intros Hsub; rewrite ?most_cons.
  - rewrite (comm usage_max). apply usage_nonneg_zero, most_nonneg.
  - rewrite <- (assoc usage_max), IH by (intros x Hx; apply Hsub; by right).
    apply most_absorbs, Hsub. left.
Qed.

Lemma most_of_set us vs : (∀ u, u ∈ us ↔ u ∈ vs) → most us = most vs.
Proof.
  intros Hset. rewrite <- (most_of_part us vs) by (intros u; apply Hset).
  rewrite (comm usage_max). symmetry. apply most_of_part. intros u; apply Hset.
Qed.

(** ** The reports of a payload *)

Section reports.
Context `{FloatToInt}.

Definition object_of (v : option json) : list members :=
match v with Some (JObject o) => [o] | _ => [] end.

(** The usage objects of a document: of the response, of the document itself, of
  its message and of its data. *)
Definition reports_of (data : string) : list members :=
match unmarshal_object data with
| None => []
| Some value =>
    let usage_of part := object_of (member "usage" part) in
    (default [] (usage_of <$> object_in value "response")) ++ usage_of value ++
    (default [] (usage_of <$> object_in value "message")) ++
    (default [] (usage_of <$> object_in value "data"))
end.

Definition reports (payload : string) : list members := documents payload ≫= reports_of.

(** What one usage object says. *)
Definition report_usage (report : members) : Usage :=
br_Usage (readUsage (Some (JObject report)) empty_result).

(** [r'] is [r] after the reports [l]. *)
Definition after_reports (r : Result) (l : list members) (r' : Result) : Prop :=
br_Usage r' = usage_max (br_Usage r) (most (report_usage <$> l)) ∧
br_Found r' = br_Found r || negb (bool_decide (l = [])) ∧
br_UsageQuality r' = br_UsageQuality r.

Lemma after_trans r l r' l' r'' :
after_reports r l r' → after_reports r' l' r'' → after_reports r (l ++ l') r''.
Proof.
intros (Hu & Hf & Hq) (Hu' & Hf' & Hq'). split_and!.
- by rewrite Hu', Hu, fmap_app, most_app, (assoc usage_max) by apply most_nonneg.
- rewrite Hf', Hf, <- orb_assoc. f_equal. by destruct l, l'.
- congruence.
Qed.

Lemma after_nothing r r' : usage_nonneg (br_Usage r) →
br_Usage r' = br_Usage r → br_Found r' = br_Found r → br_UsageQuality r' = br_UsageQuality r →
after_reports r [] r'.
Proof. intros Hr Hu Hf Hq. split_and!; [by rewrite Hu, usage_nonneg_zero|by rewrite Hf, orb_false_r|done]. Qed.

Lemma usage_max_nonneg u v : usage_nonneg u → usage_nonneg (usage_max u v).
Proof. intros Hu. nonneg_in Hu. repeat constructor; cbn; lia. Qed.

Lemma after_nonneg r l r' : usage_nonneg (br_Usage r) → after_reports r l r' → usage_nonneg (br_Usage r').
Proof. intros Hr [-> _]. by apply usage_max_nonneg. Qed.

Lemma after_readUsage v r : usage_nonneg (br_Usage r) → after_reports r (object_of v) (readUsage v r).
Proof.
intros Hr. destruct v as [[]|]; try by apply after_nothing.
cbn [object_of]. split; [|by rewrite orb_true_r].
cbn [fmap list_fmap]. rewrite most_cons, usage_nonneg_zero; [|repeat constructor; apply maxInt_nonneg].
nonneg_in Hr. unfold report_usage, readUsage. cbn -[maxInt foldr usage_max].
apply usage_ext; unfold counters; cbn -[maxInt]. rewrite !maxInt_eq. cbn.
repeat (apply (f_equal2 cons); [lia|]). done.
Qed.

Lemma read_identity_keeps m r :
br_Usage (read_identity m r) = br_Usage r ∧ br_Found (read_identity m r) = br_Found r ∧
br_UsageQuality (read_identity m r) = br_UsageQuality r.
Proof. unfold read_identity. by repeat case_bool_decide. Qed.

Lemma read_tier_keeps m r :
br_Usage (read_tier m r) = br_Usage r ∧ br_Found (read_tier m r) = br_Found r ∧
br_UsageQuality (read_tier m r) = br_UsageQuality r.
Proof. unfold read_tier. by repeat case_bool_decide. Qed.

Lemma after_identity m r : usage_nonneg (br_Usage r) → after_reports r [] (read_identity m r).
Proof. intros Hr. apply after_nothing; [done|apply read_identity_keeps..]. Qed.

Lemma after_tier m r : usage_nonneg (br_Usage r) → after_reports r [] (read_tier m r).
Proof. intros Hr. apply after_nothing; [done|apply read_tier_keeps..]. Qed.

(** Reading steps in sequence. *)
Lemma after_then r l r' l' f :
usage_nonneg (br_Usage r) → after_reports r l r' →
(∀ r, usage_nonneg (br_Usage r) → after_reports r l' (f r)) → after_reports r (l ++ l') (f r').
Proof. intros Hr H1 H2. apply (after_trans r l r'); [done|]. eapply H2, after_nonneg; done. Qed.

Lemma after_part part r : usage_nonneg (br_Usage r) →
after_reports r (default [] ((λ m, object_of (member "usage" m)) <$> part)) (read_part part r).
Proof.
intros Hr. destruct part as [m|]; cbn; [|by apply after_nothing].
apply (after_then r [] _ _ (readUsage _)); [done|by apply after_identity|].
intros. by apply after_readUsage.
Qed.

Lemma after_consume data r :
usage_nonneg (br_Usage r) → after_reports r (reports_of data) (consume r data).
Proof.
intros Hr. unfold consume, reports_of. destruct (unmarshal_object data) as [value|]; [|by apply after_nothing].
cbn zeta. rewrite !(assoc app).
apply (after_then r _ _ _ (read_part _)); [done| |intros; by apply after_part].
apply (after_then r _ _ _ (read_part _)); [done| |intros; by apply after_part].
apply (after_then r _ _ _ (readUsage _)); [done| |intros; by apply after_readUsage].
rewrite <- (app_nil_r (default _ _)).
apply (after_then r _ _ _ (read_tier _)); [done| |intros; by apply after_tier].
apply (after_then r [] _ _ (λ r, match object_in value "response" with
  | None => r
  | Some m => read_tier m (readUsage (member "usage" m) (read_identity m r)) end)); [done|by apply after_identity|].
intros r' Hr'. destruct (object_in value "response") as [m|]; cbn; [|by apply after_nothing].
rewrite <- (app_nil_r (object_of _)).
apply (after_then r' _ _ _ (read_tier _)); [done| |intros; by apply after_tier].
apply (after_then r' [] _ _ (readUsage _)); [done|by apply after_identity|intros; by apply after_readUsage].
Qed.

Lemma after_documents docs r :
usage_nonneg (br_Usage r) → after_reports r (docs ≫= reports_of) (foldl consume r docs).
Proof.
revert r. induction docs as [|d docs IH]; intros r Hr; cbn; [by apply after_nothing|].
apply (after_then r _ _ _ (λ r, foldl consume r docs)); [done|by apply after_consume|done].
Qed.

Lemma parsed payload : let r := ParseResponse payload in
br_Usage r = total_at_least_parts (most (report_usage <$> reports payload)) ∧
br_Found r = negb (bool_decide (reports payload = [])) ∧ br_UsageQuality r = "".
Proof.
cbn zeta. unfold ParseResponse.
destruct (after_documents (documents payload) empty_result) as (Hu & Hf & Hq); [by repeat constructor|].
fold (reports payload) in Hu, Hf. cbn [br_Usage br_Found br_UsageQuality]. rewrite Hu, Hf, Hq. split; [|done]. f_equal.
rewrite (comm usage_max). apply usage_nonneg_zero, most_nonneg.
Qed.

(** Every counter that is read fits an int64. *)
Lemma number_le v : number v ≤ max_int64.
Proof.
destruct v as [[| |v| | |]|]; cbn; try int64_lia.
case_match; [pose proof (f64_to_int64_range v)|]; int64_lia.
Qed.

Hint Resolve number_le maxInt_le64 saturatingSum_le64 zero_le64 list.Forall_cons_2 list.Forall_nil_2
  maxInt_range : counters.

Lemma report_range report : Forall in_range (counters (report_usage report)).
Proof.
unfold report_usage, counters, readUsage, nestedNestedNumber, nestedNumber.
cbn [br_Usage u_Prompt u_Completion u_Cached u_CacheWrite u_Reasoning u_Total u_ImageInput
     u_CachedImageInput u_ImageOutput empty_result zero_usage].
destruct (hasAnyKey _ _), (_ && imageGenerationUsage _); auto 20 with counters.
Qed.

Lemma most_range us : Forall (λ u, Forall in_range (counters u)) us → Forall in_range (counters (most us)).
Proof.
induction 1 as [|u us Hu _ IH]; [by repeat constructor; vm_dec|].
unfold counters, in_range in *. rewrite !list.Forall_cons in Hu, IH. destruct_and!.
rewrite most_cons. repeat constructor; cbn; lia.
Qed.

Lemma parsed_range payload : Forall in_range (counters (br_Usage (ParseResponse payload))).
Proof.
destruct (parsed payload) as (-> & _).
assert (Forall in_range (counters (most (report_usage <$> reports payload)))) as Hmost.
{ apply most_range, list.Forall_fmap, list.Forall_forall. intros. apply report_range. }
unfold counters, total_at_least_parts, in_range in *. rewrite !list.Forall_cons in Hmost. destruct_and!.
cbn [u_Prompt u_Completion u_Cached u_CacheWrite u_Reasoning u_Total u_ImageInput u_CachedImageInput u_ImageOutput].
rewrite !list.Forall_cons. split_and!; try done; try lia; try apply maxInt_nonneg; try apply Forall_nil_2.
apply maxInt_le64. auto 10 with counters.
Qed.

(** The largest value of a counter among reports. *)
Definition largest (counter : Usage → Z) (l : list members) : Z := foldr Z.max 0 ((λ report, counter (report_usage report)) <$> l).

(** The counters of a report, the total apart. *)
Definition parts : list (Usage → Z) :=
[u_Prompt; u_Completion; u_Cached; u_CacheWrite; u_Reasoning; u_ImageInput; u_CachedImageInput; u_ImageOutput].

Lemma most_largest counter l : counter ∈ u_Total :: parts → counter (most (report_usage <$> l)) = largest counter l.
Proof.
intros Hc. induction l as [|report l IH]; cbn [fmap list_fmap].
- unfold most, largest. cbn. unfold parts in Hc. rewrite !elem_of_cons, elem_of_nil in Hc.
  by destruct Hc as [->|[->|[->|[->|[->|[->|[->|[->|[->|[]]]]]]]]]].
- rewrite most_cons. unfold largest. cbn [fmap list_fmap foldr]. fold (largest counter l). rewrite <- IH.
  unfold parts in Hc. rewrite !elem_of_cons, elem_of_nil in Hc.
  by destruct Hc as [->|[->|[->|[->|[->|[->|[->|[->|[->|[]]]]]]]]]].
Qed.

Lemma largest_of_set counter l l' : (∀ report, report ∈ l ↔ report ∈ l') → largest counter l = largest counter l'.
Proof.
assert (∀ l l', (∀ report, report ∈ l → report ∈ l') → largest counter l ≤ largest counter l') as Hle.
{ intros k k' Hk. induction k as [|report k IH]; [apply foldr_max_nonneg|]. unfold largest. cbn [fmap list_fmap foldr].
  fold (largest counter k). apply Z.max_lub; [|apply IH; intros; apply Hk; by right].
  specialize (Hk report ltac:(by left)). clear IH k. induction Hk as [k'|x y k' _ IH]; unfold largest; cbn [fmap list_fmap foldr]; [lia|].
  unfold largest in IH. lia. }
intros Hl. apply Z.le_antisymm; apply Hle; naive_solver.
Qed.

(** C21: The usage of a response is made of its reports alone.  Every counter but the total is the
  largest value that any report gives it; the total is the largest total, or the sum of prompt, cache writes
  and completion if that is more.  So two payloads that make the same reports have the same usage, however the
  events are ordered, repeated or divided into documents; and usage is found exactly if there is a report. *)
Theorem reports_count_once p q :
(∀ report, report ∈ reports p ↔ report ∈ reports q) →
let usage := br_Usage (ParseResponse p) in
(∀ counter, counter ∈ parts → counter usage = largest counter (reports p)) ∧
u_Total usage = largest u_Total (reports p) `max` (max_int64 `min` (u_Prompt usage + u_CacheWrite usage + u_Completion usage)) ∧
br_Usage (ParseResponse q) = usage ∧
br_Found (ParseResponse q) = br_Found (ParseResponse p) ∧
(br_Found (ParseResponse p) = true ↔ reports p ≠ []).
Proof.
intros Hset usage. pose proof (parsed_range p) as Hrange. fold usage in Hrange. unfold counters, in_range in Hrange.
rewrite !list.Forall_cons in Hrange. destruct_and!.
assert (∀ counter, counter ∈ parts → counter usage = largest counter (reports p)) as Hparts.
{ intros counter Hc. rewrite <- most_largest by by right. unfold usage. rewrite (proj1 (parsed p)). unfold parts in Hc.
  rewrite !elem_of_cons, elem_of_nil in Hc. by destruct Hc as [->|[->|[->|[->|[->|[->|[->|[->|[]]]]]]]]]. }
split_and!; [done|..].
- assert (u_Total usage = maxInt [u_Total (most (report_usage <$> reports p)); saturatingSum [u_Prompt usage; u_CacheWrite usage; u_Completion usage]]) as ->
    by (unfold usage; by rewrite (proj1 (parsed p))).
  rewrite maxInt_eq, most_largest, saturatingSum_three by (lia || by left). cbn [foldr].
  pose proof (foldr_max_nonneg ((λ report, u_Total (report_usage report)) <$> reports p)) as Hnn. fold (largest u_Total (reports p)) in Hnn. lia.
- unfold usage. rewrite (proj1 (parsed p)), (proj1 (parsed q)). f_equal. apply most_of_set. intros u. rewrite !list_elem_of_fmap.
  by setoid_rewrite Hset.
- destruct (parsed p) as (_ & -> & _), (parsed q) as (_ & -> & _). f_equal. apply bool_decide_ext.
  assert (∀ l l' : list members, (∀ x, x ∈ l ↔ x ∈ l') → l = [] → l' = []) as Hnil.
  { intros l l' Hl ->. destruct l' as [|x l']; [done|]. exfalso. by apply (not_elem_of_nil x), Hl, elem_of_cons; left. }
  split; apply Hnil; [|done]. intros x. by rewrite Hset.
- rewrite (proj1 (proj2 (parsed p))), negb_true_iff, bool_decide_eq_false. done.
Qed.
End reports.

(** ** Two conventions *)

(** Cached tokens counted into the prompt, and counted apart. *)
Definition counted_in (prompt cached out : float64) : members :=
  [("prompt_tokens", JNumber prompt); ("completion_tokens", JNumber out);
   ("prompt_tokens_details", JObject [("cached_tokens", JNumber cached)])].

Definition counted_apart (fresh cached out : float64) : members :=
  [("input_tokens", JNumber fresh); ("cache_read_input_tokens", JNumber cached);
   ("output_tokens", JNumber out)].

Lemma number_of_Z `{FloatToInt} n : 0 ≤ n < 2 ^ 53 → number (Some (JNumber (f64_of_Z n))) = n.
Proof.
  intros [H0 Hn]. destruct n as [|p|p]; [done| |lia].
  pose proof (of_Z_exact p Hn) as Hx. pose proof (trunc_exactly _ _ Hx) as Ht.
  cbn [number]. destruct Hx as (m & d & Hx & _). rewrite Hx in Ht |- *.
  unfold f64_lt, SFltb. cbn [SFcompare f64_zero]. unfold f64_to_int64. rewrite Ht.
  rewrite bool_decide_true; [done|]. int64_lia.
Qed.

Lemma saturatingSum_pair x y : 0 ≤ x → 0 ≤ y → x + y ≤ max_int64 → saturatingSum [x; y] = x + y.
Proof.
  intros Hx Hy Hsum. unfold saturatingSum. cbn [saturatingSum_from].
  destruct (Z.leb_spec x 0), (Z.leb_spec y 0); unfold sub64, add64; rewrite ?wrap64_id by int64_lia;
    repeat match goal with |- context [?a <? ?b] => destruct (Z.ltb_spec a b); try int64_lia end;
    rewrite ?wrap64_id by int64_lia; int64_lia.
Qed.

Definition tokens (fresh cached out : Z) : Usage :=
  Build_Usage (fresh + cached) out cached 0 0 0 0 0 0.

Section conventions.
Context `{FloatToInt}.

Lemma counted_in_usage p c o :
let n x := number (Some (JNumber x)) in
report_usage (counted_in p c o) =
{| u_Prompt := maxInt [0; maxInt [0; n p]]; u_Completion := maxInt [0; 0; n o];
   u_Cached := maxInt [0; maxInt [0; 0; 0; n c]]; u_CacheWrite := 0; u_Reasoning := 0; u_Total := 0;
   u_ImageInput := 0; u_CachedImageInput := 0; u_ImageOutput := 0 |}.
Proof. reflexivity. Qed.

Lemma counted_apart_usage f c o :
let n x := number (Some (JNumber x)) in
report_usage (counted_apart f c o) =
{| u_Prompt := maxInt [0; saturatingSum [maxInt [n f; 0]; maxInt [0; n c; 0; 0]]];
   u_Completion := maxInt [0; n o; 0];
   u_Cached := maxInt [0; maxInt [0; n c; 0; 0]]; u_CacheWrite := 0; u_Reasoning := 0; u_Total := 0;
   u_ImageInput := 0; u_CachedImageInput := 0; u_ImageOutput := 0 |}.
Proof. reflexivity. Qed.

(** A report of plain text is charged token by token. *)
Lemma text_charge p report fresh cached out price :
reports p = [report] → report_usage report = tokens fresh cached out →
0 ≤ fresh → 0 ≤ cached → fresh + cached < 2 ^ 53 → 0 ≤ out < 2 ^ 53 →
price_int64 (sp_Price price) → p_ImageOutputNanoUSDPerToken (sp_Price price) = 0 →
Assess (ParseResponse p) (Some price) =
  Build_Assessment (Z.min max_int64
    (fresh * Z.max 0 (p_InputNanoUSDPerToken (sp_Price price)) +
     cached * Z.max 0 (p_CachedInputNanoUSDPerToken (sp_Price price)) +
     out * Z.max 0 (p_OutputNanoUSDPerToken (sp_Price price)))) true.
Proof.
intros Hp Hr Hf Hc Hsum Ho Hprice Himage.
destruct (parsed p) as (Hu & Hfound & Hq). pose proof (parsed_range p) as Hrange.
rewrite Hp in Hu, Hfound. cbn [fmap list_fmap] in Hu.
rewrite most_cons, Hr, usage_nonneg_zero in Hu by (repeat constructor; cbn; lia).
unfold total_at_least_parts, tokens in Hu.
cbn [u_Prompt u_Completion u_Cached u_CacheWrite u_Reasoning u_Total u_ImageInput u_CachedImageInput u_ImageOutput] in Hu.
set (total := maxInt _) in Hu. clearbody total. rewrite Hu in Hrange.
unfold Assess, NonGenerated, UsageComplete, Cost. rewrite Hq, Hfound, Hu, Himage.
change (bool_decide ("" = "not_generated")) with false. change (bool_decide (""%string ≠ "")) with false. clear Hfound. cbn -[CostNanoUSD].
case_bool_decide as Hzero.
- unfold zero_usage in Hzero. injection Hzero as H1 H2 H3 _. assert (fresh = 0 ∧ cached = 0) as [-> ->] by lia. subst out.
  f_equal; int64_lia.
- unfold counters, in_range in Hrange. cbn in Hrange. rewrite !list.Forall_cons in Hrange. destruct_and!.
  rewrite CostNanoUSD_eq, text_cost; [f_equal; f_equal; lia|try int64_lia..|exact Hprice|].
  unfold usage_int64. repeat constructor; cbn; int64_lia.
Qed.

(** Providers that count cached tokens into the prompt and providers that
  count them apart are charged alike: every token once, fresh, cached and
  generated ones at their own rates. *)
Theorem conventions_bill_alike p q fresh cached out price :
0 ≤ fresh → 0 ≤ cached → fresh + cached < 2 ^ 53 → 0 ≤ out < 2 ^ 53 →
price_int64 (sp_Price price) → p_ImageOutputNanoUSDPerToken (sp_Price price) = 0 →
reports p = [counted_in (f64_of_Z (fresh + cached)) (f64_of_Z cached) (f64_of_Z out)] →
reports q = [counted_apart (f64_of_Z fresh) (f64_of_Z cached) (f64_of_Z out)] →
let charge := Build_Assessment (Z.min max_int64
  (fresh * Z.max 0 (p_InputNanoUSDPerToken (sp_Price price)) +
   cached * Z.max 0 (p_CachedInputNanoUSDPerToken (sp_Price price)) +
   out * Z.max 0 (p_OutputNanoUSDPerToken (sp_Price price)))) true in
Assess (ParseResponse p) (Some price) = charge ∧ Assess (ParseResponse q) (Some price) = charge.
Proof.
intros Hf Hc Hsum Ho Hprice Himage Hp Hq.
split; [apply (text_charge p _ _ _ _ _ Hp)|apply (text_charge q _ _ _ _ _ Hq)]; try done.
- rewrite counted_in_usage, !number_of_Z by lia. unfold tokens. rewrite !maxInt_eq. cbn. f_equal; lia.
- rewrite counted_apart_usage, !number_of_Z by lia. unfold tokens. rewrite !maxInt_eq. cbn [foldr].
  rewrite saturatingSum_pair by int64_lia. f_equal; lia.
Qed.
End conventions.

(** ** Examples *)

(** Apostrophes stand for the quotation marks of JSON. *)
Fixpoint json_text (s : string) : string :=
  match s with
  | EmptyString => ""
  | String c s => String (if bool_decide (c = "'"%char) then Ascii.ascii_of_nat 34 else c) (json_text s)
  end.

Definition newline : string := String (Ascii.ascii_of_nat 10) "".

Definition start_event : string := json_text
  "data: {'type':'message_start','message':{'model':'k2','usage':{'input_tokens':10,'cache_read_input_tokens':90}}}".
Definition delta_event : string := json_text "data: {'type':'message_delta','usage':{'output_tokens':7}}".

Definition stream (events : list string) : string := foldr (λ e s, e +:+ newline +:+ newline +:+ s) "" events.

Example stream_usage : br_Usage (@ParseResponse amd64 (stream [start_event; delta_event; "data: [DONE]"]))
  = Build_Usage 100 7 90 0 0 107 0 0 0.
Proof. vm_compute. reflexivity. Qed.

Lemma reports_count_once_witness :
  let p := stream [start_event; delta_event] in
  let q := stream [delta_event; start_event; delta_event] in
  br_Usage (@ParseResponse amd64 q) = br_Usage (@ParseResponse amd64 p) ∧ u_Total (br_Usage (@ParseResponse amd64 p)) = 107.
Proof.
  destruct (@reports_count_once amd64 (stream [start_event; delta_event])
    (stream [delta_event; start_event; delta_event])) as (_ & Htotal & Hsame & _).
  - assert (∃ a b, reports (stream [start_event; delta_event]) = [a; b] ∧
      reports (stream [delta_event; start_event; delta_event]) = [b; a; b]) as (a & b & -> & ->).
    { eexists _, _. split; vm_compute; reflexivity. }
    intros report. rewrite !elem_of_cons. naive_solver.
  - split; [exact Hsame|]. rewrite Htotal. vm_compute. reflexivity.
Defined.

Definition text_price : SnapshotPrice :=
  {| sp_Price := Build_Price "gpt-5.6-sol" 2 8 1 3 8 10 5 0 "admin" "1" f64_one;
     sp_RequestedModel := "gpt-5.6-sol"; sp_PricedModel := "gpt-5.6-sol";
     sp_MatchedBy := "model"; sp_RuleMultiplier := f64_one |}.

Definition body_counted_in : string := json_text
  "{'usage':{'prompt_tokens':100,'completion_tokens':7,'prompt_tokens_details':{'cached_tokens':90}}}".
Definition body_counted_apart : string := json_text
  "{'usage':{'input_tokens':10,'cache_read_input_tokens':90,'output_tokens':7}}".

Lemma conventions_bill_alike_witness :
  Assess (@ParseResponse amd64 body_counted_in) (Some text_price) = Build_Assessment (10 * 2 + 90 * 1 + 7 * 8) true.
Proof.
  apply (@conventions_bill_alike amd64 body_counted_in body_counted_apart 10 90 7 text_price);
    try vm_dec; vm_compute; reflexivity.
Defined.
