(* ===== verification/Capture.v ===== *)
(** * The capture of a response (internal/app/inference.go)

    A response is streamed to its client and kept for billing only in part: its
    beginning, for the request log, and its end, in a ring buffer.  The theorem
    says that the ring buffer is exactly the end of the response, however the
    response was cut into writes. *)

From S2P Require Import Prelude.

Definition bytes := list ascii.

(* src/internal/app/request_logging.go:20-20 requestLogDetailLimit *)
Definition requestLogDetailLimit : nat := 32 * 1024.

(* src/internal/app/inference.go:15-22 rollingCapture *)
Record rollingCapture := {
  rc_buf : bytes;
  rc_detail : bytes;
  rc_max : nat;
  rc_total : Z;
  rc_bufStart : nat;
  rc_bufFull : bool
}.
#[export] Instance rollingCapture_eta : Eta rollingCapture := λ r, Build_rollingCapture (rc_buf r)
  (rc_detail r) (rc_max r) (rc_total r) (rc_bufStart r) (rc_bufFull r).

Definition new_capture (max : nat) : rollingCapture := Build_rollingCapture [] [] max 0 0 false.

(** [copy(dst[at:], src)] writes what fits. *)
Definition copy_at (dst : bytes) (at_ : nat) (src : bytes) : bytes :=
  let n := (length src `min` (length dst - at_))%nat in
  take at_ dst ++ take n src ++ drop (at_ + n) dst.

(** The beginning of the response is kept up to its limit. *)
(* src/internal/app/inference.go:24-32 Write *)
Definition write_detail (c : rollingCapture) (p : bytes) : rollingCapture :=
  let c := c <| rc_total := rc_total c +₆₄ Z.of_nat (length p) |> in
  if bool_decide (length (rc_detail c) < requestLogDetailLimit)%nat then
    let remaining := (requestLogDetailLimit - length (rc_detail c))%nat in
    let remaining := if bool_decide (length p < remaining)%nat then length p else remaining in
    c <| rc_detail := rc_detail c ++ take remaining p |>
  else c.

(** A full buffer is overwritten in a circle. *)
(* src/internal/app/inference.go:57-61 Write *)
Definition write_ring (c : rollingCapture) (p : bytes) : rollingCapture :=
  let first := (length p `min` (rc_max c - rc_bufStart c))%nat in
  let buf := copy_at (rc_buf c) (rc_bufStart c) (take first p) in
  let buf := copy_at buf 0 (drop first p) in
  c <| rc_buf := buf; rc_bufStart := ((rc_bufStart c + length p) mod rc_max c)%nat |>.

(** A write as long as the buffer replaces it; what a reused buffer held before is
    overwritten. *)
(* src/internal/app/inference.go:24-65 rollingCapture.Write *)
Definition Write (c : rollingCapture) (p : bytes) : rollingCapture :=
  let c := write_detail c p in
  if bool_decide (rc_max c = 0%nat) || bool_decide (length p = 0%nat) then c
  else if bool_decide (rc_max c ≤ length p)%nat then
    c <| rc_buf := copy_at (replicate (rc_max c) Ascii.zero) 0 (drop (length p - rc_max c) p);
         rc_bufStart := 0%nat; rc_bufFull := true |>
  else if negb (rc_bufFull c) then
    let remaining := (rc_max c - length (rc_buf c))%nat in
    if bool_decide (length p ≤ remaining)%nat then
      let buf := rc_buf c ++ p in
      c <| rc_buf := buf; rc_bufFull := bool_decide (length buf = rc_max c) |>
    else
      write_ring (c <| rc_buf := rc_buf c ++ take remaining p; rc_bufFull := true; rc_bufStart := 0%nat |>)
        (drop remaining p)
  else write_ring c p.

(* src/internal/app/inference.go:66-74 Bytes *)
Definition Bytes (c : rollingCapture) : bytes :=
  if negb (rc_bufFull c) || bool_decide (rc_bufStart c = 0%nat) then rc_buf c
  else
    let result := copy_at (replicate (length (rc_buf c)) Ascii.zero) 0 (drop (rc_bufStart c) (rc_buf c)) in
    let at_ := length (drop (rc_bufStart c) (rc_buf c)) in
    copy_at result at_ (take (rc_bufStart c) (rc_buf c)).

(* src/internal/app/inference.go:75-77 Info *)
Definition Info (c : rollingCapture) : bytes * bool * Z :=
  (rc_detail c, Z.of_nat (length (rc_detail c)) <? rc_total c, rc_total c).

(** ** Correctness *)

(** The last [n] bytes. *)
Definition last_bytes (n : nat) (l : bytes) : bytes := drop (length l - n) l.

Lemma last_bytes_short n l : (length l ≤ n)%nat → last_bytes n l = l.
Proof. intros Hl. unfold last_bytes. by replace (length l - n)%nat with 0%nat by lia. Qed.

Lemma last_bytes_length n l : (n ≤ length l)%nat → length (last_bytes n l) = n.
Proof. intros Hl. unfold last_bytes. rewrite length_drop. lia. Qed.

Lemma last_bytes_app n l p : (length p ≤ n)%nat → (n ≤ length l)%nat →
  last_bytes n (l ++ p) = drop (length p) (last_bytes n l) ++ p.
Proof.
  intros Hp Hl. unfold last_bytes. rewrite length_app, drop_drop, drop_app_le by lia.
  f_equal. f_equal. lia.
Qed.

Lemma last_bytes_long n l p : (n ≤ length p)%nat → last_bytes n (l ++ p) = last_bytes n p.
Proof. intros Hp. unfold last_bytes. rewrite length_app, drop_app_ge by lia. f_equal. lia. Qed.

Lemma last_bytes_fill n l p : (length l ≤ n)%nat → (n ≤ length (l ++ p))%nat →
  last_bytes n (l ++ p) =
  last_bytes n ((l ++ take (n - length l) p) ++ drop (n - length l) p).
Proof. intros. by rewrite <- (assoc app), take_drop. Qed.

Lemma copy_all dst src : length src = length dst → copy_at dst 0 src = src.
Proof.
  intros Hl. unfold copy_at. rewrite take_0, Hl, Nat.sub_0_r, Nat.min_id. cbn.
  rewrite drop_ge by lia. rewrite app_nil_r. apply take_ge. lia.
Qed.

Lemma copy_inside dst at_ src : (at_ + length src ≤ length dst)%nat →
  copy_at dst at_ src = take at_ dst ++ src ++ drop (at_ + length src) dst.
Proof.
  intros Hl. unfold copy_at. rewrite Nat.min_l by lia. by rewrite (take_ge src) by lia.
Qed.

Lemma copy_prefix dst src : (length src ≤ length dst)%nat →
  copy_at dst 0 src = src ++ drop (length src) dst.
Proof. intros Hl. by rewrite copy_inside by (cbn; lia). Qed.

Lemma copy_suffix dst pre src : (length pre + length src = length (pre ++ dst))%nat →
  copy_at (pre ++ dst) (length pre) src = pre ++ src.
Proof.
  intros Hl. rewrite copy_inside by lia. rewrite take_app_length, drop_ge by lia. by rewrite app_nil_r.
Qed.

Lemma copy_nothing dst : copy_at dst 0 [] = dst.
Proof. unfold copy_at. cbn. by rewrite take_0, drop_0. Qed.

(** What a capture knows after the bytes [h]. *)
Record captured (c : rollingCapture) (h : bytes) : Prop := {
  cp_detail : rc_detail c = take requestLogDetailLimit h;
  cp_total : rc_total c = wrap64 (Z.of_nat (length h));
  cp_tail : if rc_bufFull c
    then length (rc_buf c) = rc_max c ∧ (rc_bufStart c < rc_max c)%nat ∧ (rc_max c ≤ length h)%nat ∧
         drop (rc_bufStart c) (rc_buf c) ++ take (rc_bufStart c) (rc_buf c) = last_bytes (rc_max c) h
    else rc_bufStart c = 0%nat ∧ rc_buf c = h ∧ (length h < rc_max c)%nat
}.

(** The ring: overwriting the oldest bytes keeps the order around the circle. *)
Lemma ring_turns n s (b p : bytes) : length b = n → (s < n)%nat → (length p < n)%nat →
  let first := (length p `min` (n - s))%nat in
  let b' := copy_at (copy_at b s (take first p)) 0 (drop first p) in
  let s' := ((s + length p) mod n)%nat in
  length b' = n ∧ (s' < n)%nat ∧
  drop s' b' ++ take s' b' = drop (length p) (drop s b ++ take s b) ++ p.
Proof.
  intros Hb Hs Hp. cbn zeta. destruct (decide (s + length p < n)%nat) as [Hfit|Hwrap].
  - rewrite Nat.min_l, (take_ge p), (drop_ge p), Nat.mod_small, (copy_inside b) by lia.
    assert (length (take s b) = s) as Ht by (rewrite length_take; lia).
    rewrite copy_nothing. split; [rewrite !length_app, Ht, length_drop; lia|]. split; [lia|].
    rewrite (assoc app), drop_app_length', take_app_length' by (rewrite length_app; lia).
    rewrite drop_app_le, drop_drop, (assoc app) by (rewrite length_drop; lia). done.
  - rewrite Nat.min_r by lia.
    assert ((s + length p) mod n = s + length p - n)%nat as ->.
    { symmetry. apply (Nat.mod_unique _ _ 1); lia. }
    rewrite (copy_inside b) by (rewrite length_take; lia). rewrite length_take, (drop_ge b), app_nil_r by lia.
    set (p1 := take (n - s) p). set (p2 := drop (n - s) p).
    assert (length p1 = n - s)%nat as H1 by (unfold p1; rewrite length_take; lia).
    assert (length p2 = s + length p - n)%nat as H2 by (unfold p2; rewrite length_drop; lia).
    assert (length (take s b) = s) as Ht by (rewrite length_take; lia).
    rewrite copy_inside by (rewrite !length_app, Ht; lia). rewrite take_0, Nat.add_0_l, <- H2. cbn [app].
    split; [rewrite !length_app, length_drop, length_app; lia|]. split; [lia|].
    rewrite drop_app_length, take_app_length, drop_app_le, <- (assoc app) by lia.
    unfold p1, p2 at 2. rewrite take_drop, drop_app_ge, length_drop by (rewrite length_drop; lia).
    f_equal. f_equal. lia.
Qed.

Section capture.
Context (max : nat) (Hmax : (0 < max)%nat).

(** The capture of a sequence of writes. *)
Definition capture (writes : list bytes) : rollingCapture := foldl Write (new_capture max) writes.

Lemma captured_new : captured (new_capture max) [].
Proof. by split; cbn; [| |split]. Qed.

Lemma write_detail_spec c p h : captured c h →
let c' := write_detail c p in
rc_detail c' = take requestLogDetailLimit (h ++ p) ∧ rc_total c' = wrap64 (Z.of_nat (length (h ++ p))) ∧
rc_buf c' = rc_buf c ∧ rc_max c' = rc_max c ∧ rc_bufStart c' = rc_bufStart c ∧ rc_bufFull c' = rc_bufFull c.
Proof.
intros [Hd Ht _]. unfold write_detail. cbn zeta. cbn [rc_detail rc_total].
assert (rc_total c +₆₄ Z.of_nat (length p) = wrap64 (Z.of_nat (length (h ++ p)))) as Htotal.
{ unfold add64. rewrite Ht, wrap64_add_l, length_app, Nat2Z.inj_add. done. }
assert (length (rc_detail c) = requestLogDetailLimit `min` length h)%nat as Hl by by rewrite Hd, length_take.
case_bool_decide as Hroom; cbn [rc_detail rc_total rc_buf rc_max rc_bufStart rc_bufFull]; split_and!; try done.
- assert (take requestLogDetailLimit h = h) as Hh by (apply take_ge; lia).
  rewrite Hd in Hl |- *. rewrite Hh in Hl |- *. rewrite take_app_ge by lia. f_equal.
  case_bool_decide; [|done]. rewrite !take_ge; [done|lia..].
- rewrite Hd, take_app_le by lia. done.
Qed.

(** A full buffer turns, a buffer that fills starts to turn. *)
Lemma captured_ring c h p : length (rc_buf c) = max → (rc_bufStart c < max)%nat → (max ≤ length h)%nat →
(length p < max)%nat → rc_max c = max → rc_bufFull c = true →
drop (rc_bufStart c) (rc_buf c) ++ take (rc_bufStart c) (rc_buf c) = last_bytes max h →
rc_detail c = take requestLogDetailLimit (h ++ p) → rc_total c = wrap64 (Z.of_nat (length (h ++ p))) →
captured (write_ring c p) (h ++ p) ∧ rc_max (write_ring c p) = max.
Proof.
intros Hb Hs Hh Hp Hm Hf Hrot Hd Ht. unfold write_ring. rewrite Hm. split; [|done].
destruct (ring_turns max (rc_bufStart c) (rc_buf c) p) as (Hb' & Hs' & Hrot'); [done..|].
split; cbn; [done..|]. rewrite Hf, ?Hm, Hrot', Hrot, length_app. split_and!; try done; [lia|].
by rewrite last_bytes_app by lia.
Qed.

Lemma captured_write c h p : captured c h → rc_max c = max →
captured (Write c p) (h ++ p) ∧ rc_max (Write c p) = max.
Proof.
intros Hc Hm. destruct (write_detail_spec c p h Hc) as (Hd & Ht & Hb & Hm' & Hs & Hf).
pose proof (cp_tail _ _ Hc) as Htail. rewrite Hm in Htail, Hm'. unfold Write. cbn zeta.
set (c1 := write_detail c p) in *. clearbody c1. rewrite Hm'.
rewrite (bool_decide_false (max = 0%nat)) by lia. cbn [orb].
case_bool_decide as Hempty.
{ destruct p; [|done]. rewrite app_nil_r in *. split; [|done]. split; [done..|]. by rewrite Hf, Hb, Hs, ?Hm'. }
case_bool_decide as Hlong.
{ split; [|done]. split; cbn; [done..|]. rewrite drop_0, take_0, app_nil_r.
  rewrite copy_all by (rewrite length_drop, length_replicate; lia).
  rewrite last_bytes_long by done. rewrite length_drop, length_app. split_and!; [lia..|done]. }
rewrite Hf. destruct (rc_bufFull c); cbn [negb].
{ destruct Htail as (? & ? & ? & ?). apply captured_ring; rewrite ?Hb, ?Hs; done || lia. }
destruct Htail as (H0 & Hbuf & Hh). rewrite Hb, Hbuf.
case_bool_decide as Hroom.
- split; [|done]. split; cbn; [done..|]. rewrite Hs, H0, length_app. case_bool_decide as Hfull.
  + rewrite drop_0, take_0, app_nil_r. split_and!; [done|done|lia|].
    by rewrite last_bytes_short by (rewrite length_app; lia).
  + split_and!; [done..|lia].
- assert (length (h ++ take (max - length h) p) = max) as Hfill by (rewrite length_app, length_take; lia).
  assert (h ++ p = (h ++ take (max - length h) p) ++ drop (max - length h) p) as Hsplit.
  { by rewrite <- (assoc app), take_drop. }
  rewrite Hsplit in Hd, Ht |- *.
  apply captured_ring; cbn [rc_buf rc_bufStart rc_bufFull rc_max rc_detail rc_total]; rewrite ?Hfill; try done.
  + rewrite length_drop. lia.
  + rewrite drop_0, take_0, app_nil_r. by rewrite last_bytes_short by lia.
Qed.

Lemma captured_capture writes : captured (capture writes) (concat writes) ∧ rc_max (capture writes) = max.
Proof.
unfold capture. rewrite <- (app_nil_l (concat writes)).
assert (captured (new_capture max) [] ∧ rc_max (new_capture max) = max) as [Hc Hm] by (split; [apply captured_new|done]).
revert Hc Hm. generalize (new_capture max) ([] : bytes). induction writes as [|p writes IH]; intros c h Hc Hm; cbn.
- by rewrite app_nil_r.
- rewrite (assoc app). destruct (captured_write c h p Hc Hm). by apply IH.
Qed.

(** Billing sees the end of a response, byte for byte, and the log its beginning:
  whatever the sizes of the writes, the ring buffer reads as the last [max] bytes
  written and the detail as the first 32 KiB, and the log is told whether that is
  all. *)
Theorem capture_keeps_both_ends writes :
Z.of_nat (length (concat writes)) ≤ max_int64 →
Bytes (capture writes) = last_bytes max (concat writes) ∧
Info (capture writes) =
  (take requestLogDetailLimit (concat writes),
   bool_decide (requestLogDetailLimit < length (concat writes))%nat,
   Z.of_nat (length (concat writes))).
Proof.
intros Hlen. destruct (captured_capture writes) as [[Hd Ht Htail] Hm]. set (c := capture writes) in *.
rewrite Hm in Htail. split.
- unfold Bytes. destruct (rc_bufFull c); cbn [negb orb].
  + destruct Htail as (Hb & Hs & Hh & <-). case_bool_decide as H0.
    * by rewrite H0, drop_0, take_0, app_nil_r.
    * rewrite copy_prefix by (rewrite length_drop, length_replicate; lia).
      by rewrite copy_suffix by (rewrite length_app, !length_drop, length_replicate, length_take; lia).
  + destruct Htail as (_ & -> & Hh). by rewrite last_bytes_short by lia.
- unfold Info. rewrite Hd, Ht, wrap64_id, length_take by int64_lia. f_equal. f_equal.
  destruct (Z.ltb_spec (Z.of_nat (requestLogDetailLimit `min` length (concat writes))) (Z.of_nat (length (concat writes))));
    symmetry; [apply bool_decide_eq_true|apply bool_decide_eq_false]; lia.
Qed.
End capture.

Definition chunks : list bytes := String.list_ascii_of_string <$> ["ab"; "cdefg"; ""; "h"; "ijk"].

Lemma capture_keeps_both_ends_witness :
  Bytes (capture 4 chunks) = String.list_ascii_of_string "hijk".
Proof.
  destruct (capture_keeps_both_ends 4 ltac:(lia) chunks ltac:(vm_dec)) as [-> _].
  vm_compute. reflexivity.
Defined.
