(* ===== verification/AdmissionControl.v ===== *)
(** * Admission control (internal/gateway/admission.go, internal/cpa/admission.go)

    A process admits a bounded number of requests: a request takes a slot, waits
    in a bounded queue when there is none, takes its share of the memory budget,
    and gives both back when its lease is released.  A circuit breaker refuses
    everything for a while after too many failures, then lets one probe through.

    Every goroutine is a program counter; one step of [advance] is one atomic
    operation of the code (a channel operation, an atomic addition, a section
    under the mutex), so that the runs of the model are the interleavings of the
    goroutines.  The weighted semaphore of golang.org/x/sync is used through its
    documentation: it never lends more than its size, and an attempt may fail. *)

From S2P Require Import Prelude.

(** Instants are nanoseconds since the zero time. *)
(* src/internal/gateway/client.go:14-21 Options *)
Record limits := {
  maxInFlight : nat;
  maxQueue : nat;
  maxRequestBytes : Z;
  queueTimeout : Z;
  failureThreshold : Z;
  openDuration : Z
}.

(* src/internal/gateway/admission.go:13-16 ErrOverloaded *)
Inductive admission_error := ErrOverloaded | ErrCircuitOpen | ErrContext.

(** ** The circuit breaker *)

Record breaker := { consecutiveFailures : Z; openUntil : Z; probeActive : bool }.

(* src/internal/gateway/admission.go:42-46 admissionController *)
Definition new_breaker : breaker := {| consecutiveFailures := 0; openUntil := 0; probeActive := false |}.

(** Two controllers differ in their breaker only: [allow] answers whether the request is a probe. *)
Class Breaker := {
  br_allow : limits → breaker → Z → option bool * breaker;
  br_record : limits → breaker → bool → Z → breaker
}.

(** The part of [allow] that both share. *)
(* src/internal/cpa/admission.go:161-175 admissionController.allow *)
Definition cpa_allow (l : limits) (a : breaker) (now : Z) : option bool * breaker :=
  if now <? openUntil a then (None, a)
  else if negb (openUntil a =? 0) then
    if probeActive a then (None, a)
    else (Some true, {| consecutiveFailures := consecutiveFailures a; openUntil := openUntil a;
                        probeActive := true |})
  else (Some false, a).

(* src/internal/gateway/admission.go:161-178 admissionController.allow *)
Definition gateway_allow (l : limits) (a : breaker) (now : Z) : option bool * breaker :=
  if failureThreshold l <=? 0 then (Some false, a) else cpa_allow l a now.

(* src/internal/cpa/admission.go:186-199 admissionController.recordTransportResult *)
Definition recordTransportResult (l : limits) (a : breaker) (ok : bool) (now : Z) : breaker :=
  if ok then {| consecutiveFailures := 0; openUntil := 0; probeActive := false |}
  else
    let failures := consecutiveFailures a +₆₄ 1 in
    {| consecutiveFailures := failures;
       openUntil := if failureThreshold l <=? failures then now + openDuration l else openUntil a;
       probeActive := false |}.

(* src/internal/gateway/admission.go:189-205 admissionController.recordOutcome *)
Definition recordOutcome (l : limits) (a : breaker) (ok : bool) (now : Z) : breaker :=
  if failureThreshold l <=? 0 then a else recordTransportResult l a ok now.

#[export] Instance gateway_breaker : Breaker := {| br_allow := gateway_allow; br_record := recordOutcome |}.
Definition cpa_breaker : Breaker := {| br_allow := cpa_allow; br_record := recordTransportResult |}.

(* src/internal/gateway/admission.go:180-187 admissionController.cancelProbe *)
Definition cancelProbe (a : breaker) (probe : bool) : breaker :=
  if probe then {| consecutiveFailures := consecutiveFailures a; openUntil := openUntil a;
                   probeActive := false |}
  else a.

(** ** The controller *)

(** The lengths of the two channels, the semaphore and the counters. *)
(* src/internal/gateway/admission.go:31-46 admissionController *)
Record controller := {
  slots : nat;
  waiters : nat;
  body : Z;
  bodyInFlight : Z;
  rejected : Z;
  circuit : breaker
}.

(* src/internal/gateway/admission.go:55-61 newAdmissionController *)
Definition newAdmissionController : controller :=
  {| slots := 0; waiters := 0; body := 0; bodyInFlight := 0; rejected := 0; circuit := new_breaker |}.

Definition set_slots (a : controller) (n : nat) : controller :=
  {| slots := n; waiters := waiters a; body := body a; bodyInFlight := bodyInFlight a;
     rejected := rejected a; circuit := circuit a |}.
Definition set_waiters (a : controller) (n : nat) : controller :=
  {| slots := slots a; waiters := n; body := body a; bodyInFlight := bodyInFlight a;
     rejected := rejected a; circuit := circuit a |}.
Definition set_body (a : controller) (w : Z) : controller :=
  {| slots := slots a; waiters := waiters a; body := w; bodyInFlight := bodyInFlight a;
     rejected := rejected a; circuit := circuit a |}.
Definition set_bytes (a : controller) (w : Z) : controller :=
  {| slots := slots a; waiters := waiters a; body := body a; bodyInFlight := w;
     rejected := rejected a; circuit := circuit a |}.
Definition set_circuit (a : controller) (b : breaker) : controller :=
  {| slots := slots a; waiters := waiters a; body := body a; bodyInFlight := bodyInFlight a;
     rejected := rejected a; circuit := b |}.
Definition count_rejected (a : controller) : controller :=
  {| slots := slots a; waiters := waiters a; body := body a; bodyInFlight := bodyInFlight a;
     rejected := (rejected a + 1) mod 2 ^ 64; circuit := circuit a |}.

(** ** A goroutine *)

(** The operations that the ends of [acquire] and [Release] are made of. *)
Inductive action :=
  | AddBytes (weight : Z)
  | ReturnBody (weight : Z)
  | SubtractBytes (weight : Z)
  | ReturnSlot
  | CancelProbe (probe : bool)
  | CountRejected
  | LeaveQueue.

Inductive outcome :=
  | Leased (probe : bool) (weight : Z)
  | Refused (e : admission_error)
  | Returned.

(** Where a goroutine is between a call of [acquire] and the end of its [Release]; [queued] says
    that the deferred receive from the queue is pending. *)
Inductive place :=
  | Calling (expectedBodyBytes : Z)
  | Allowed (probe : bool) (expectedBodyBytes : Z)
  | Queued (probe : bool) (expectedBodyBytes : Z)
  | Holding (probe queued : bool) (expectedBodyBytes : Z)
  | AwaitingBody (probe queued : bool) (weight : Z)
  | Doing (todo : list action) (next : outcome).

(** What a step depends on beside the state: the clock, whether an attempt at the semaphore
    succeeds, the deadline of the queue, the cancellation of the request, a call of [Release]. *)
Inductive event :=
  | Clock (now : Z)
  | TakeSlot
  | TakeBody
  | BodyBusy
  | Deadline
  | Cancel
  | Perform
  | Release.

Definition leave (queued : bool) : list action := if queued then [LeaveQueue] else [].

(* src/internal/gateway/admission.go:120-126 admissionController.acquire *)
Definition body_weight (l : limits) (expectedBodyBytes : Z) : Z :=
  let bodyWeight := if expectedBodyBytes <? 1 then 1 else expectedBodyBytes in
  if maxRequestBytes l <? bodyWeight then maxRequestBytes l else bodyWeight.

(** One operation of an end. *)
(* src/internal/gateway/admission.go:149-159 Lease.Release *)
Definition perform (a : controller) (act : action) : option controller :=
  match act with
  | AddBytes w => Some (set_bytes a (bodyInFlight a +₆₄ w))
  | ReturnBody w => Some (set_body a (body a - w))
  | SubtractBytes w => Some (set_bytes a (bodyInFlight a -₆₄ w))
  | ReturnSlot => if bool_decide (slots a = 0%nat) then None else Some (set_slots a (slots a - 1))
  | CancelProbe probe => Some (set_circuit a (cancelProbe (circuit a) probe))
  | CountRejected => Some (count_rejected a)
  | LeaveQueue => if bool_decide (waiters a = 0%nat) then None else Some (set_waiters a (waiters a - 1))
  end.

(** The refusal of a request that holds neither slot nor memory. *)
Definition overloaded (probe queued : bool) : place :=
  Doing ([CancelProbe probe; CountRejected] ++ leave queued) (Refused ErrOverloaded).

(** The refusal of a request that gives its slot back. *)
Definition overloaded_holding (probe queued : bool) : place :=
  Doing ([ReturnSlot; CancelProbe probe; CountRejected] ++ leave queued) (Refused ErrOverloaded).

Definition leased (probe queued : bool) (weight : Z) : place :=
  Doing (AddBytes weight :: leave queued) (Leased probe weight).

Section advance.
Context `{Breaker} (l : limits).

(** Grants of the semaphore stay within its size. *)
Definition take_body (a : controller) (probe queued : bool) (weight : Z) : option (controller * place) :=
  if body a + weight <=? maxRequestBytes l
  then Some (set_body a (body a + weight), leased probe queued weight) else None.

(* src/internal/gateway/admission.go:75-147 admissionController.acquire *)
Definition advance (a : controller) (p : place) (e : event) : option (controller * place) :=
  match p, e with
  | Calling expected, Clock now =>
      match br_allow l (circuit a) now with
      | (None, b) => Some (set_circuit a b, Doing [CountRejected] (Refused ErrCircuitOpen))
      | (Some probe, b) => Some (set_circuit a b, Allowed probe expected)
      end
  | Allowed probe expected, TakeSlot =>
      if bool_decide (slots a < maxInFlight l)%nat
      then Some (set_slots a (slots a + 1), Holding probe false expected)
      else if (0 <? queueTimeout l) && bool_decide (0 < maxQueue l)%nat then
        if bool_decide (waiters a < maxQueue l)%nat
        then Some (set_waiters a (waiters a + 1), Queued probe expected)
        else Some (a, overloaded probe false)
      else Some (a, overloaded probe false)
  | Queued probe expected, TakeSlot =>
      if bool_decide (slots a < maxInFlight l)%nat
      then Some (set_slots a (slots a + 1), Holding probe true expected) else None
  | Queued probe expected, Deadline => Some (a, overloaded probe true)
  | Queued probe expected, Cancel =>
      Some (a, Doing [CancelProbe probe; LeaveQueue] (Refused ErrContext))
  | Holding probe queued expected, TakeBody => take_body a probe queued (body_weight l expected)
  | Holding probe queued expected, BodyBusy =>
      if queueTimeout l =? 0 then Some (a, overloaded_holding probe queued)
      else Some (a, AwaitingBody probe queued (body_weight l expected))
  | AwaitingBody probe queued weight, TakeBody => take_body a probe queued weight
  | AwaitingBody probe queued weight, Deadline =>
      if 0 <? queueTimeout l then Some (a, overloaded_holding probe queued) else None
  | AwaitingBody probe queued weight, Cancel =>
      Some (a, Doing ([ReturnSlot; CancelProbe probe] ++ leave queued) (Refused ErrContext))
  | Doing (act :: todo) next, Perform =>
      match perform a act with Some a => Some (a, Doing todo next) | None => None end
  | Doing [] (Leased probe weight), Release =>
      Some (a, Doing [ReturnBody weight; SubtractBytes weight; ReturnSlot; CancelProbe probe] Returned)
  | Doing todo Returned, Release => Some (a, Doing todo Returned)
  | _, _ => None
  end.

(** The process: the controller and its goroutines. *)
Record process := { gate : controller; goroutines : gmap nat place }.

(** A goroutine starts, advances, or someone reports how a request ended. *)
Inductive step : process → process → Prop :=
  | step_call s i expected :
      goroutines s !! i = None →
      step s {| gate := gate s; goroutines := <[i := Calling expected]> (goroutines s) |}
  | step_advance s i p e a p' :
      goroutines s !! i = Some p → advance (gate s) p e = Some (a, p') →
      step s {| gate := a; goroutines := <[i := p']> (goroutines s) |}
  | step_outcome s ok now :
      step s {| gate := set_circuit (gate s) (br_record l (circuit (gate s)) ok now);
                goroutines := goroutines s |}.

Definition start : process := {| gate := newAdmissionController; goroutines := ∅ |}.

Inductive running : process → Prop :=
  | running_start : running start
  | running_step s s' : running s → step s s' → running s'.
End advance.

(** The controller of the embedded executor differs in its breaker only. *)
(* src/internal/cpa/admission.go:75-147 admissionController.acquire *)
Definition cpa_advance : limits → controller → place → event → option (controller * place) :=
  @advance cpa_breaker.

(** ** Status *)

(* src/internal/gateway/admission.go:18-29 AdmissionStatus *)
Record AdmissionStatus := {
  as_InFlight : nat;
  as_MaxInFlight : nat;
  as_QueueDepth : nat;
  as_MaxQueue : nat;
  as_RequestBytes : Z;
  as_MaxRequestBytes : Z;
  as_Rejected : Z;
  as_ConsecutiveFailure : Z;
  as_Circuit : string;
  as_RetryAfterMS : Z
}.

(* src/internal/gateway/admission.go:207-222 admissionController.status *)
Definition status (l : limits) (a : controller) (now : Z) : AdmissionStatus :=
  let until := openUntil (circuit a) in
  {| as_InFlight := slots a; as_MaxInFlight := maxInFlight l; as_QueueDepth := waiters a;
     as_MaxQueue := maxQueue l; as_RequestBytes := bodyInFlight a; as_MaxRequestBytes := maxRequestBytes l;
     as_Rejected := rejected a; as_ConsecutiveFailure := consecutiveFailures (circuit a);
     as_Circuit := if now <? until then "open" else if negb (until =? 0) then "half_open" else "closed";
     as_RetryAfterMS := if now <? until then Z.quot (Z.min max_int64 (until - now)) 1000000 else 0 |}.

(** ** Options *)

(* src/internal/gateway/client.go:14-21 Options *)
Record Options := {
  op_MaxInFlight : Z;
  op_MaxQueue : Z;
  op_MaxRequestBytesInFlight : Z;
  op_QueueTimeout : Z;
  op_CircuitFailureThreshold : Z;
  op_CircuitOpenDuration : Z
}.

(* src/internal/gateway/client.go:23-45 New *)
Definition New (options : Options) : limits :=
  {| maxInFlight := Z.to_nat (if op_MaxInFlight options <=? 0 then 16 else op_MaxInFlight options);
     maxQueue := Z.to_nat (if op_MaxQueue options <? 0 then 0 else op_MaxQueue options);
     maxRequestBytes := if op_MaxRequestBytesInFlight options <=? 0 then Z.shiftl 8 30
                        else op_MaxRequestBytesInFlight options;
     queueTimeout := if op_QueueTimeout options <? 0 then 0 else op_QueueTimeout options;
     failureThreshold := if op_CircuitFailureThreshold options <? 0 then 0
                         else op_CircuitFailureThreshold options;
     openDuration := if op_CircuitOpenDuration options <=? 0 then 15 * 1000000000
                     else op_CircuitOpenDuration options |}.

(* src/internal/cpa/client.go:44-61 NewWithOptions *)
Definition NewWithOptions (options : Options) : limits :=
  {| maxInFlight := Z.to_nat (if op_MaxInFlight options <=? 0 then 16 else op_MaxInFlight options);
     maxQueue := Z.to_nat (if op_MaxQueue options <? 0 then 0 else op_MaxQueue options);
     maxRequestBytes := if op_MaxRequestBytesInFlight options <=? 0 then Z.shiftl 8 30
                        else op_MaxRequestBytesInFlight options;
     queueTimeout := if op_QueueTimeout options <? 0 then 0 else op_QueueTimeout options;
     failureThreshold := if op_CircuitFailureThreshold options <=? 0 then 3
                         else op_CircuitFailureThreshold options;
     openDuration := if op_CircuitOpenDuration options <=? 0 then 15 * 1000000000
                     else op_CircuitOpenDuration options |}.
