(* ===== verification/AdmissionGuarantees.v ===== *)
(** * What admission control guarantees

    In every interleaving the limits hold, whatever was taken is given back, and
    no request waits without a deadline; the breaker opens after the configured
    failures and closes after one success. *)

From S2P Require Import Prelude.
From S2P Require Import AdmissionControl.

(** ** Who holds what *)

Definition slots_to_return (act : action) : Z := match act with ReturnSlot => 1 | _ => 0 end.
Definition queue_to_leave (act : action) : Z := match act with LeaveQueue => 1 | _ => 0 end.
Definition body_to_return (act : action) : Z := match act with ReturnBody w => w | _ => 0 end.
Definition bytes_to_subtract (act : action) : Z :=
  match act with SubtractBytes w => w | AddBytes w => - w | _ => 0 end.

Definition lease_count (o : outcome) : Z := match o with Leased _ _ => 1 | _ => 0 end.
Definition lease_weight (o : outcome) : Z := match o with Leased _ w => w | _ => 0 end.

Definition slots_held (p : place) : Z :=
  match p with
  | Holding _ _ _ | AwaitingBody _ _ _ => 1
  | Doing todo next => sum_by slots_to_return todo + lease_count next
  | _ => 0
  end.

Definition queue_held (p : place) : Z :=
  match p with
  | Queued _ _ | Holding _ true _ | AwaitingBody _ true _ => 1
  | Doing todo _ => sum_by queue_to_leave todo
  | _ => 0
  end.

Definition body_held (p : place) : Z :=
  match p with
  | Doing todo next => sum_by body_to_return todo + lease_weight next
  | _ => 0
  end.

Definition bytes_held (p : place) : Z :=
  match p with
  | Doing todo next => sum_by bytes_to_subtract todo + lease_weight next
  | _ => 0
  end.

(** A request between the grant of its lease and the start of its release. *)
Definition is_leased (p : place) : Z := match p with Doing _ (Leased _ _) => 1 | _ => 0 end.
Definition leased_weight (p : place) : Z := match p with Doing _ (Leased _ w) => w | _ => 0 end.

(** ** Well-formed places *)

Definition action_ok (act : action) : Prop := match act with ReturnBody w => 0 ≤ w | _ => True end.

Definition place_ok (l : limits) (p : place) : Prop :=
  match p with
  | Queued _ _ => 0 < queueTimeout l
  | AwaitingBody _ _ w => 0 < queueTimeout l ∧ 1 ≤ w
  | Doing todo next => Forall action_ok todo ∧ match next with Leased _ w => 1 ≤ w | _ => True end
  | _ => True
  end.

Definition limits_ok (l : limits) : Prop := 1 ≤ maxRequestBytes l ∧ 0 ≤ queueTimeout l.

#[export] Instance limits_ok_dec l : Decision (limits_ok l).
Proof. unfold limits_ok. apply _. Defined.

Lemma body_weight_bounds l expected :
  1 ≤ maxRequestBytes l → 1 ≤ body_weight l expected ≤ maxRequestBytes l.
Proof. unfold body_weight. repeat case_if; lia. Qed.

Section guarantees.
Context `{Breaker} (l : limits).

(** What one step of a goroutine does to the shared state. *)
Definition accounted (a a' : controller) (p p' : place) : Prop :=
  Z.of_nat (slots a') - Z.of_nat (slots a) = slots_held p' - slots_held p ∧
  Z.of_nat (waiters a') - Z.of_nat (waiters a) = queue_held p' - queue_held p ∧
  body a' - body a = body_held p' - body_held p ∧
  (∀ z, bodyInFlight a = wrap64 z → bodyInFlight a' = wrap64 (z + bytes_held p' - bytes_held p)) ∧
  (Z.of_nat (slots a) ≤ Z.of_nat (maxInFlight l) → Z.of_nat (slots a') ≤ Z.of_nat (maxInFlight l)) ∧
  (Z.of_nat (waiters a) ≤ Z.of_nat (maxQueue l) → Z.of_nat (waiters a') ≤ Z.of_nat (maxQueue l)) ∧
  (body a ≤ maxRequestBytes l → body a' ≤ maxRequestBytes l) ∧ place_ok l p'.

Ltac account :=
  unfold accounted; cbn [slots waiters body bodyInFlight set_slots set_waiters set_body set_bytes
    set_circuit count_rejected slots_held queue_held body_held bytes_held overloaded overloaded_holding
    leased leave app place_ok];
  rewrite ?sum_by_cons, ?sum_by_nil;
  cbn [slots_to_return queue_to_leave body_to_return bytes_to_subtract lease_count lease_weight];
  split_and!; try assumption; try lia; try (intros z ->; first [wrap_ring|f_equal; lia]);
  try (repeat constructor; cbn; lia).

Lemma perform_accounts a a' act todo next :
  place_ok l (Doing (act :: todo) next) → perform a act = Some a' →
  accounted a a' (Doing (act :: todo) next) (Doing todo next).
Proof.
  intros [Hok Hnext]. apply list.Forall_cons in Hok as [Hact Htodo].
  destruct act; cbn [perform action_ok] in *; try case_bool_decide; intros Hp; try discriminate;
    injection Hp as <-; account.
Qed.

Lemma take_body_accounts a a' p p' probe (queued : bool) w :
  1 ≤ w → slots_held p = 1 → body_held p = 0 → bytes_held p = 0 → queue_held p = (if queued then 1 else 0) →
  take_body l a probe queued w = Some (a', p') → accounted a a' p p'.
Proof.
  intros Hw H1 H2 H3 H4. unfold take_body. destruct (Z.leb_spec (body a + w) (maxRequestBytes l)); [|done].
  intros [= <- <-]. unfold accounted. rewrite H1, H2, H3, H4. destruct queued; account.
Qed.

Lemma advance_accounts a p e a' p' :
  limits_ok l → place_ok l p → advance l a p e = Some (a', p') → accounted a a' p p'.
Proof.
  intros [Hmax Htime] Hok. destruct p as [ex|pr ex|pr ex|pr q ex|pr q w|todo next].
  - destruct e; try done. cbn [advance]. destruct (br_allow l (circuit a) now) as [[pr|] b];
      intros [= <- <-]; account.
  - destruct e; try done. cbn [advance]. case_bool_decide; [intros [= <- <-]; account|].
    destruct ((0 <? queueTimeout l) && bool_decide (0 < maxQueue l)%nat) eqn:Hq; reflect_bools;
      [|intros [= <- <-]; account]. case_bool_decide; intros [= <- <-]; account.
  - destruct e; try done; cbn [advance]; cbn in Hok; [case_bool_decide; [|done]| |];
      intros [= <- <-]; account.
  - destruct e; try done; cbn [advance].
    + apply take_body_accounts; [pose proof (body_weight_bounds l ex Hmax); lia|done|done|done|by destruct q].
    + destruct (Z.eqb_spec (queueTimeout l) 0); intros [= <- <-]; destruct q; account;
        pose proof (body_weight_bounds l ex Hmax); lia.
  - destruct Hok as [Ht Hw]. destruct e; try done; cbn [advance].
    + apply take_body_accounts; [done|done|done|done|by destruct q].
    + destruct (0 <? queueTimeout l); [|done]. intros [= <- <-]; destruct q; account.
    + intros [= <- <-]; destruct q; account.
  - destruct todo as [|act todo].
    + destruct next as [pr w|err|]; destruct e; try done; cbn [advance]; intros [= <- <-].
      * destruct Hok as [_ Hw]. account.
      * account.
    + assert (advance l a (Doing (act :: todo) next) Perform =
        match perform a act with Some a => Some (a, Doing todo next) | None => None end) as Hperform
        by by destruct next.
      destruct e; try (by destruct next).
      * rewrite Hperform. destruct (perform a act) as [a1|] eqn:Hp; [|done]. intros [= <- <-].
        by apply perform_accounts.
      * destruct next; try done. intros [= <- <-]. destruct Hok as [Hf Hn].
        unfold accounted. split_and!; try lia; try done. intros z ->. f_equal. lia.
Qed.

(** The books of a process. *)
Record balanced (s : process) : Prop := {
  bal_slots : Z.of_nat (slots (gate s)) = sum_map slots_held (goroutines s);
  bal_queue : Z.of_nat (waiters (gate s)) = sum_map queue_held (goroutines s);
  bal_body : body (gate s) = sum_map body_held (goroutines s);
  bal_bytes : bodyInFlight (gate s) = wrap64 (sum_map bytes_held (goroutines s));
  bal_max_slots : Z.of_nat (slots (gate s)) ≤ Z.of_nat (maxInFlight l);
  bal_max_queue : Z.of_nat (waiters (gate s)) ≤ Z.of_nat (maxQueue l);
  bal_max_body : body (gate s) ≤ maxRequestBytes l;
  bal_places : map_Forall (λ _ p, place_ok l p) (goroutines s)
}.

Lemma balanced_start : limits_ok l → balanced start.
Proof.
  intros [Hmax _]. split; cbn; rewrite ?sum_map_empty; try lia; [done|apply map_Forall_empty].
Qed.

Lemma balanced_step s s' : limits_ok l → balanced s → step l s s' → balanced s'.
Proof.
  intros Hl Hbal Hstep. destruct Hstep as [s i ex Hi|s i p e a p' Hi Ha|s ok now].
  - destruct Hbal. split; cbn [gate goroutines]; rewrite ?sum_map_insert by done; cbn [slots_held queue_held
      body_held bytes_held]; rewrite ?Z.add_0_l; try done. by apply map_Forall_insert_2.
  - destruct Hbal as [Hs Hq Hb Hy Hms Hmq Hmb Hp]. pose proof (Hp _ _ Hi) as Hok.
    destruct (advance_accounts _ _ _ _ _ Hl Hok Ha) as (H1 & H2 & H3 & H4 & H5 & H6 & H7 & Hok').
    split; cbn [gate goroutines]; rewrite ?(sum_map_replace _ _ _ _ _ Hi); try lia.
    + rewrite (H4 _ Hy). f_equal. lia.
    + by apply map_Forall_insert_2.
  - by destruct Hbal; split.
Qed.

Lemma running_balanced s : limits_ok l → running l s → balanced s.
Proof.
  intros Hl. induction 1 as [|s s' _ IH Hstep]; [by apply balanced_start|].
  by eapply balanced_step.
Qed.

(** ** Sums over goroutines *)

Lemma sum_by_actions_nonneg f todo : (∀ act, act ∈ todo → 0 ≤ f act) → 0 ≤ sum_by (A := action) f todo.
Proof. apply sum_by_nonneg. Qed.

Lemma slots_held_nonneg p : 0 ≤ slots_held p.
Proof.
  destruct p as [| | | | |todo next]; cbn; try lia.
  assert (0 ≤ sum_by slots_to_return todo) by (apply sum_by_nonneg; by intros []).
  destruct next; cbn; lia.
Qed.

Lemma is_leased_slots p : is_leased p ≤ slots_held p.
Proof.
  destruct p as [| | | | |todo next]; cbn; try lia.
  assert (0 ≤ sum_by slots_to_return todo) by (apply sum_by_nonneg; by intros []).
  destruct next; cbn; lia.
Qed.

Lemma leased_weight_body p : place_ok l p → leased_weight p ≤ body_held p.
Proof.
  destruct p as [| | | | |todo next]; cbn; try lia. intros [Hf Hn].
  assert (0 ≤ sum_by body_to_return todo).
  { apply sum_by_nonneg. intros act Hact. rewrite list.Forall_forall in Hf. specialize (Hf _ Hact).
    destruct act; cbn in *; lia. }
  destruct next; cbn; lia.
Qed.

(** ** The guarantees *)

(** C19: In every interleaving of requests, releases, timeouts, cancellations and reported
  outcomes, the limits of admission control hold at every instant: no more requests run at once
  than there are slots, no more wait than the queue holds, the memory lent to running requests
  stays within the budget, and each channel and counter agrees exactly with what the goroutines
  still owe. *)
Theorem admission_respects_its_limits s :
limits_ok l → running l s →
sum_map is_leased (goroutines s) ≤ Z.of_nat (slots (gate s)) ≤ Z.of_nat (maxInFlight l) ∧
sum_map leased_weight (goroutines s) ≤ body (gate s) ≤ maxRequestBytes l ∧
Z.of_nat (waiters (gate s)) = sum_map queue_held (goroutines s) ∧
Z.of_nat (waiters (gate s)) ≤ Z.of_nat (maxQueue l) ∧
bodyInFlight (gate s) = wrap64 (sum_map bytes_held (goroutines s)).
Proof.
  intros Hl Hs. destruct (running_balanced s Hl Hs) as [H1 H2 H3 H4 H5 H6 H7 H8].
  split_and!; try done.
  - rewrite H1. apply sum_map_le. intros k p _. apply is_leased_slots.
  - rewrite H3. apply sum_map_le. intros k p Hp. by apply leased_weight_body, (H8 k).
Qed.

(** A goroutine that has been refused or has released its lease. *)
Definition finished (p : place) : Prop :=
  p = Doing [] Returned ∨ ∃ e, p = Doing [] (Refused e).

(** Nothing leaks: once every request has been refused, cancelled or released - whatever
  happened on the way, and in particular if it was refused while it held a slot - all slots, all
  places of the queue and the whole memory budget are free again, and the gauge of request bytes
  is back at zero. *)
Theorem admission_returns_everything s :
limits_ok l → running l s → map_Forall (λ _ p, finished p) (goroutines s) →
slots (gate s) = 0%nat ∧ waiters (gate s) = 0%nat ∧ body (gate s) = 0 ∧ bodyInFlight (gate s) = 0.
Proof.
  intros Hl Hs Hfin. destruct (running_balanced s Hl Hs) as [H1 H2 H3 H4 _ _ _ _].
  rewrite sum_map_zero in H1, H2, H3, H4;
    try (by intros k p Hp; destruct (Hfin k p Hp) as [->|[e ->]]).
  split_and!; try lia. by rewrite H4.
Qed.

(** The steps a goroutine has left before it is refused, leased or done. *)
Definition rank (p : place) : nat :=
  match p with
  | Calling _ => 9
  | Allowed _ _ => 8
  | Queued _ _ => 7
  | Holding _ _ _ => 6
  | AwaitingBody _ _ _ => 5
  | Doing todo _ => length todo
  end.

(** C35: Admission never hangs.  A request that is not yet refused, leased or done can always take
  its next step without waiting for another request to finish - at worst its own queue deadline
  fires - and every step but the call of Release brings it closer to the end: after at most nine
  steps of its own it is refused or has its lease, and a release takes four. *)
Theorem admission_always_ends s i p :
limits_ok l → running l s → goroutines s !! i = Some p →
(rank p ≠ 0%nat → ∃ e a' p', e ≠ Cancel ∧ e ≠ Release ∧ advance l (gate s) p e = Some (a', p')) ∧
(∀ e a' p', e ≠ Release → advance l (gate s) p e = Some (a', p') → (rank p' < rank p)%nat) ∧
(rank p = 0%nat → finished p ∨ ∃ probe w, p = Doing [] (Leased probe w)).
Proof.
  intros Hl Hs Hi. destruct (running_balanced s Hl Hs) as [H1 H2 _ _ _ _ _ H8].
  pose proof (H8 _ _ Hi) as Hok. split_and!.
  - intros Hr. destruct p as [ex|pr ex|pr ex|pr q ex|pr q w|todo next].
    + destruct (br_allow l (circuit (gate s)) 0) as [[pr|] b] eqn:Hb;
        eexists (Clock 0), _, _; cbn [advance]; by rewrite Hb.
    + exists TakeSlot. cbn [advance]. repeat case_match; eauto 10.
    + exists Deadline. eauto 10.
    + exists BodyBusy. cbn [advance]. case_match; eauto 10.
    + exists Deadline. cbn [advance]. destruct Hok as [Ht _]. destruct (Z.ltb_spec 0 (queueTimeout l)); [|lia].
      eauto 10.
    + destruct todo as [|act todo]; [done|]. exists Perform. cbn [advance].
      assert (∃ a', perform (gate s) act = Some a') as [a' ->]; [|by destruct next; eauto 10].
      assert (Hge : ∀ f, (∀ q, 0 ≤ f q) → f (Doing (act :: todo) next) ≤ sum_map f (goroutines s)).
      { intros f Hf. rewrite (sum_map_delete _ _ _ _ Hi).
        pose proof (sum_map_nonneg f (delete i (goroutines s)) ltac:(intros; apply Hf)). lia. }
      destruct act; cbn [perform]; eauto; rewrite bool_decide_eq_false_2; eauto.
      * intros Hz. pose proof (Hge slots_held slots_held_nonneg) as Hslot. cbn [slots_held] in Hslot.
        rewrite sum_by_cons in Hslot. cbn [slots_to_return] in Hslot.
        pose proof (slots_held_nonneg (Doing todo next)) as Hnn. cbn [slots_held] in Hnn. lia.
      * intros Hz. assert (Hq : ∀ q, 0 ≤ queue_held q).
        { intros [| | |? [] ?|? [] ?|td nx]; cbn; try lia. apply sum_by_nonneg. by intros []. }
        pose proof (Hge queue_held Hq) as Hslot. cbn [queue_held] in Hslot.
        rewrite sum_by_cons in Hslot. cbn [queue_to_leave] in Hslot.
        pose proof (Hq (Doing todo next)) as Hnn. cbn [queue_held] in Hnn. lia.
  - intros e a' p' He Hadv. destruct p as [ex|pr ex|pr ex|pr q ex|pr q w|todo next]; destruct e; try done;
      cbn [advance] in Hadv; unfold take_body, overloaded, overloaded_holding, leased in Hadv;
      repeat case_match; simplify_eq; cbn; try lia;
      match goal with |- context [leave ?q] => destruct q; cbn; lia end.
  - destruct p as [| | | | |[|act todo] [pr w|e|]]; try done; intros _; [right; eauto|left; right; eauto|left; by left].
Qed.
End guarantees.

(** ** The breaker *)

(** Reports of how requests ended: success or failure, and when. *)
Definition record_all (l : limits) (b : breaker) (reports : list (bool * Z)) : breaker :=
  foldl (λ b report, recordOutcome l b report.1 report.2) b reports.

Lemma record_failures l b reports :
  0 < failureThreshold l → Forall (λ report, report.1 = false) reports →
  0 ≤ consecutiveFailures b → consecutiveFailures b + Z.of_nat (length reports) ≤ max_int64 →
  consecutiveFailures (record_all l b reports) = consecutiveFailures b + Z.of_nat (length reports).
Proof.
  intros Hl Hall. revert b. induction reports as [|[ok now] reports IH]; intros b Hb Hmax.
  - cbn. lia.
  - apply list.Forall_cons in Hall as [Hok Hall]. cbn in Hok. subst ok. cbn [length] in Hmax.
    assert (consecutiveFailures (recordOutcome l b false now) = consecutiveFailures b + 1) as Hstep.
    { unfold recordOutcome. destruct (Z.leb_spec (failureThreshold l) 0); [lia|]. cbn.
      unfold add64. apply wrap64_id. int64_lia. }
    cbn [record_all foldl]. change (foldl _ ?b0 reports) with (record_all l b0 reports).
    cbn [fst snd]. rewrite IH; [|done|lia|lia]. cbn [length]. lia.
Qed.

(** The breaker opens when it should and recovers.  After as many failures in a row as the
    threshold, it refuses every request until the open period after the last failure has passed;
    then it lets exactly one probe through and refuses the next request while the probe is out;
    one success closes it for everybody, and a cancelled probe makes room for another one. *)
Theorem breaker_opens_and_recovers l b failures last :
  0 < failureThreshold l → 0 < openDuration l → 0 ≤ last →
  0 ≤ consecutiveFailures b → consecutiveFailures b + Z.of_nat (length failures) < max_int64 →
  Forall (λ report, report.1 = false) failures →
  failureThreshold l ≤ Z.of_nat (length failures) + 1 →
  let tripped := record_all l b (failures ++ [(false, last)]) in
  (∀ now, now < last + openDuration l → gateway_allow l tripped now = (None, tripped)) ∧
  (∀ now, last + openDuration l ≤ now →
     let '(probe, out) := gateway_allow l tripped now in
     probe = Some true ∧ (gateway_allow l out now).1 = None ∧
     (gateway_allow l (cancelProbe out true) now).1 = Some true) ∧
  (∀ now now', 0 ≤ now' → gateway_allow l (recordOutcome l tripped true now) now' =
     (Some false, recordOutcome l tripped true now)).
Proof.
  intros Hl Hopen Hlast Hb Hmax Hall Hmany. cbv zeta.
  assert (record_all l b (failures ++ [(false, last)]) =
    recordTransportResult l (record_all l b failures) false last) as ->.
  { unfold record_all. rewrite foldl_app. cbn. unfold recordOutcome.
    by destruct (Z.leb_spec (failureThreshold l) 0); [lia|]. }
  pose proof (record_failures l b failures Hl Hall Hb ltac:(lia)) as Hcount.
  set (f := consecutiveFailures (record_all l b failures)) in *.
  assert (f +₆₄ 1 = f + 1) as Hadd by (unfold add64; apply wrap64_id; int64_lia).
  unfold gateway_allow, recordOutcome. destruct (Z.leb_spec (failureThreshold l) 0) as [|_]; [lia|].
  unfold recordTransportResult. fold f. rewrite Hadd.
  destruct (Z.leb_spec (failureThreshold l) (f + 1)); [|lia].
  unfold cpa_allow. cbn. split_and!.
  - intros now Hnow. by destruct (Z.ltb_spec now (last + openDuration l)); [|lia].
  - intros now Hnow. destruct (Z.ltb_spec now (last + openDuration l)); [lia|].
    destruct (Z.eqb_spec (last + openDuration l) 0) as [|Hne]; [lia|]. cbn.
    destruct (Z.ltb_spec now (last + openDuration l)); [lia|].
    destruct (Z.eqb_spec (last + openDuration l) 0) as [|Hne']; [lia|]. done.
  - intros now now' Hnow'. by destruct (Z.ltb_spec now' 0); [lia|].
Qed.

(** ** A run with one slot *)

Definition one_slot : limits :=
  {| maxInFlight := 1; maxQueue := 1; maxRequestBytes := 1000; queueTimeout := 2000000000;
     failureThreshold := 3; openDuration := 15000000000 |}.

(** Call or advance a goroutine. *)
Fixpoint follow (s : process) (trace : list (nat * (Z + event))) : option process :=
  match trace with
  | [] => Some s
  | (i, inl expected) :: trace =>
      match goroutines s !! i with
      | None => follow {| gate := gate s; goroutines := <[i := Calling expected]> (goroutines s) |} trace
      | Some _ => None
      end
  | (i, inr e) :: trace =>
      p ← goroutines s !! i; ap ← advance one_slot (gate s) p e;
      follow {| gate := ap.1; goroutines := <[i := ap.2]> (goroutines s) |} trace
  end.

Lemma follow_running s s' trace : running one_slot s → follow s trace = Some s' → running one_slot s'.
Proof.
  revert s. induction trace as [|[i [ex|e]] trace IH]; intros s Hs; cbn; [by intros [= <-]| |].
  - destruct (goroutines s !! i) eqn:Hi; [done|]. apply IH. eapply running_step; [exact Hs|].
    by apply step_call.
  - destruct (goroutines s !! i) as [p|] eqn:Hi; [|done]. cbn.
    destruct (advance one_slot (gate s) p e) as [[a p']|] eqn:Ha; [|done]. cbn. apply IH.
    eapply running_step; [exact Hs|]. by eapply step_advance.
Qed.

(** The first request runs while the second waits in the queue; then the second times out and
    the first is released. *)
Definition busy : list (nat * (Z + event)) :=
  [(0%nat, inl 10); (0%nat, inr (Clock 1)); (0%nat, inr TakeSlot); (0%nat, inr TakeBody); (0%nat, inr Perform);
   (1%nat, inl 5000); (1%nat, inr (Clock 2)); (1%nat, inr TakeSlot)].

Definition idle : list (nat * (Z + event)) :=
  busy ++ [(1%nat, inr Deadline); (1%nat, inr Perform); (1%nat, inr Perform); (1%nat, inr Perform); (0%nat, inr Release);
           (0%nat, inr Perform); (0%nat, inr Perform); (0%nat, inr Perform); (0%nat, inr Perform)].

Definition busy_process : process := default start (follow start busy).
Definition idle_process : process := default start (follow start idle).

Lemma running_busy : running one_slot busy_process.
Proof. apply (follow_running start _ busy); [apply running_start|vm_compute; reflexivity]. Qed.

Lemma running_idle : running one_slot idle_process.
Proof. apply (follow_running start _ idle); [apply running_start|vm_compute; reflexivity]. Qed.

Lemma admission_respects_its_limits_witness :
slots (gate busy_process) = 1%nat ∧ waiters (gate busy_process) = 1%nat ∧
sum_map is_leased (goroutines busy_process) ≤ Z.of_nat (slots (gate busy_process)) ≤ 1 ∧
sum_map leased_weight (goroutines busy_process) ≤ body (gate busy_process) ≤ 1000.
Proof.
  destruct (admission_respects_its_limits one_slot busy_process ltac:(vm_dec) running_busy)
    as (H1 & H2 & _).
  split; [vm_compute; reflexivity|]. split; [vm_compute; reflexivity|]. split; [exact H1|exact H2].
Defined.

Lemma admission_returns_everything_witness :
size (goroutines idle_process) = 2%nat ∧
slots (gate idle_process) = 0%nat ∧ waiters (gate idle_process) = 0%nat ∧ body (gate idle_process) = 0.
Proof.
  assert (Hfin : map_Forall (λ _ p, finished p) (goroutines idle_process)).
  { assert (∀ m : gmap nat place, m = <[0%nat := Doing [] Returned]> (<[1%nat := Doing [] (Refused ErrOverloaded)]> ∅) →
      map_Forall (λ _ p, finished p) m) as Hm.
    { intros m ->. apply map_Forall_insert_2; [by left|]. apply map_Forall_insert_2; [right; by eexists|].
      apply map_Forall_empty. }
    apply Hm. vm_compute. reflexivity. }
  destruct (admission_returns_everything one_slot idle_process ltac:(vm_dec) running_idle Hfin)
    as (H1 & H2 & H3 & _).
  split; [vm_compute; reflexivity|]. split; [exact H1|]. split; [exact H2|exact H3].
Defined.

Lemma admission_always_ends_witness :
∃ e a' p', e ≠ Cancel ∧ e ≠ Release ∧
  advance one_slot (gate busy_process) (Queued false 5000) e = Some (a', p').
Proof.
  assert (Hi : goroutines busy_process !! 1%nat = Some (Queued false 5000)) by (vm_compute; reflexivity).
  destruct (admission_always_ends one_slot busy_process 1%nat (Queued false 5000) ltac:(vm_dec)
    running_busy Hi) as (H1 & _).
  apply H1. done.
Defined.

Lemma breaker_opens_and_recovers_witness :
gateway_allow one_slot (record_all one_slot new_breaker [(false, 1); (false, 2); (false, 3)]) 4 =
  (None, record_all one_slot new_breaker [(false, 1); (false, 2); (false, 3)]).
Proof.
  destruct (breaker_opens_and_recovers one_slot new_breaker [(false, 1); (false, 2)] 3) as [Hopen _];
    [done|done|done|done|done|by repeat constructor|done|].
  by apply Hopen.
Defined.
