(* ===== verification/Database.v ===== *)
(** * Transactions over tables

    The store runs Go code against PostgreSQL through gorm.  A program of type
    [M T A] is that code: it reads and writes tables [T], consults the outside
    world [env], and returns a value or an [error].  The world answers, in
    order, every call of [time.Now()], every generated identifier and random
    buffer, whether each database statement fails, and in which order an unordered [SELECT] lists
    its rows, so a theorem about all worlds covers every clock, every
    interruption and every scan order.  Transactions run one at a time: the
    code takes row locks ([FOR UPDATE]) for that purpose. *)

From S2P Require Import Prelude.

(** ** Errors *)

(* src/internal/store/subscriptions.go:23-29 ErrSubscriptionRequired *)
Inductive error :=
  | ErrRecordNotFound
  | ErrDuplicatedKey
  | ErrCheckConstraint
  | ErrConnection (detail : string)
  | ErrNotFound
  | ErrKeyNotRecoverable
  | ErrSubscriptionRequired
  | ErrSubscriptionUnavailable
  | ErrSubscriptionExhausted
  | ErrSubscriptionPrice
  | ErrInsufficientBalance
  | ErrAuthorizationPending
  | ErrAuthorizationDenied
  | ErrAuthorizationExpired
  | ErrInvalidGrant
  | ErrMessage (text : string).

#[global] Instance error_eq_dec : EqDecision error.
Proof. solve_decision. Defined.

Inductive result (A : Type) :=
  | Ok (a : A)
  | Err (e : error).
Arguments Ok {A} a.
Arguments Err {A} e.

#[global] Instance result_eq_dec `{EqDecision A} : EqDecision (result A).
Proof. solve_decision. Defined.

(** ** The outside world *)

Record env := {
  env_now : nat → Z;
  env_fault : nat → option string;
  env_id : nat → string;
  env_random : nat → list ascii;
  env_order : nat → list nat
}.

(** A program starts at some point [n] of the world's answers and reports how
    many of them it consumed. *)
Definition M (T A : Type) : Type := env → T → nat → result A * T * nat.

#[global] Instance M_ret T : MRet (M T) := λ A a E t n, (Ok a, t, 0%nat).
#[global] Instance M_bind T : MBind (M T) := λ A B k m E t n,
  match m E t n with
  | (Ok a, t', c) => let '(r, t'', c') := k a E t' (n + c)%nat in (r, t'', (c + c')%nat)
  | (Err e, t', c) => (Err e, t', c)
  end.

Definition fail {T A} (e : error) : M T A := λ E t n, (Err e, t, 0%nat).

(** [time.Now()]. *)
Definition time_now {T} : M T Z := λ E t n, (Ok (env_now E n), t, 1%nat).

(** [identity.NewID()]: a fresh random identifier. *)
Definition new_id {T} : M T string := λ E t n, (Ok (env_id E n), t, 1%nat).

(** [rand.Read] of a buffer of [k] bytes. *)
Definition random_bytes {T} (k : nat) : M T (list ascii) := λ E t n,
  (Ok (resize k Ascii.zero (env_random E n)), t, 1%nat).

(** One round trip to the database, which may fail. *)
Definition statement {T} : M T unit := λ E t n,
  match env_fault E n with
  | Some detail => (Err (ErrConnection detail), t, 1%nat)
  | None => (Ok (), t, 1%nat)
  end.

Definition gets {T A} (f : T → A) : M T A := λ E t n, (Ok (f t), t, 0%nat).
Definition modify {T} (f : T → T) : M T unit := λ E t n, (Ok (), f t, 0%nat).

(** The rows of an unordered query, in the order this world returns them: the
    position list is read as insertion indices, so every permutation arises. *)
Fixpoint shuffle {A} (code : list nat) (l : list A) : list A :=
  match l with
  | [] => []
  | x :: l' =>
      let rest := shuffle (tail code) l' in
      let i := default 0%nat (head code) in
      take i rest ++ x :: drop i rest
  end.

Definition any_order {T A} (l : list A) : M T (list A) := λ E t n,
  (Ok (shuffle (env_order E n) l), t, 1%nat).

(** [err := m; ...]: run [m] and hand its error to the code that inspects it. *)
Definition attempt {T A} (m : M T A) : M T (result A) := λ E t n,
  let '(r, t', c) := m E t n in (Ok r, t', c).

(** Did the world fail a statement among the [c] answers from [n] on? *)
Definition faulty (E : env) (n c : nat) : bool :=
  existsb (λ i, bool_decide (is_Some (env_fault E i))) (seq n c).

(** [db.Transaction(body)]: begin, body, commit.  An error of the body rolls
    back.  PostgreSQL aborts a transaction at its first failing statement: what
    the body does after that is rolled back too, and COMMIT reports it.  A COMMIT
    that fails is taken to have rolled back: the case that the server commits and
    the connection is lost before it can say so is not modelled. *)
Definition transaction {T A} (body : M T A) : M T A := λ E t n,
  let '(r, t', c) := (statement;; a ← body; statement;; mret a) E t n in
  match r with
  | Ok a =>
      if faulty E n c then (Err (ErrConnection "transaction aborted"), t, c) else (Ok a, t', c)
  | Err e => (Err e, t, c)
  end.

Definition guard_that {T} (b : bool) (e : error) : M T unit :=
  if b then mret () else fail e.

(** Run a program for each element, stopping at the first error. *)
Fixpoint for_each {T A B} (f : A → M T B) (l : list A) : M T (list B) :=
  match l with
  | [] => mret []
  | x :: l' => y ← f x; ys ← for_each f l'; mret (y :: ys)
  end.

(** ** Tables

    A table is a finite map from primary keys to rows, with the CHECK
    constraint that the migrations put on it. *)
Record table (T K V : Type) `{Countable K} := Table {
  tb_get : T → gmap K V;
  tb_set : gmap K V → T → T;
  tb_check : V → bool
}.
Arguments Table {T K V _ _} _ _ _.
Arguments tb_get {T K V _ _} _ _.
Arguments tb_set {T K V _ _} _ _ _.
Arguments tb_check {T K V _ _} _ _.

(** The two halves of a table agree. *)
Class LawfulTable `{Countable K} {T V} (tb : table T K V) := {
  tb_get_set : ∀ m t, tb_get tb (tb_set tb m t) = m;
  tb_set_set : ∀ m m' t, tb_set tb m (tb_set tb m' t) = tb_set tb m t
}.

Section table_operations.
Context {T K V : Type} `{Countable K} (tb : table T K V).

(** [tx.First(&row, "pk = ?", k)]. *)
Definition first (k : K) : M T V :=
  statement;;
  rows ← gets (tb_get tb);
  match rows !! k with
  | Some v => mret v
  | None => fail ErrRecordNotFound
  end.

(** [tx.First(&row, "pk = ? AND cond", k)]. *)
Definition first_where (k : K) (cond : V → bool) : M T V :=
  v ← first k;
  if cond v then mret v else fail ErrRecordNotFound.

(** [tx.Where(cond).Find(&rows)]. *)
Definition find (cond : V → bool) : M T (list V) :=
  statement;;
  rows ← gets (tb_get tb);
  any_order (filter (λ v, cond v = true) ((map_to_list rows).*2)).

(** [tx.Create(&row)]. *)
Definition create (k : K) (v : V) : M T unit :=
  statement;;
  rows ← gets (tb_get tb);
  match rows !! k with
  | Some _ => fail ErrDuplicatedKey
  | None =>
      guard_that (tb_check tb v) ErrCheckConstraint;;
      modify (tb_set tb (<[k := v]> rows))
  end.

(** [tx.Create(&row)] on a table with a second unique index: no row may [clash]. *)
Definition create_unique (k : K) (v : V) (clash : V → bool) : M T unit :=
  statement;;
  rows ← gets (tb_get tb);
  guard_that (bool_decide (map_Forall (λ _ w, clash w = false) rows)) ErrDuplicatedKey;;
  match rows !! k with
  | Some _ => fail ErrDuplicatedKey
  | None =>
      guard_that (tb_check tb v) ErrCheckConstraint;;
      modify (tb_set tb (<[k := v]> rows))
  end.

(** [tx.Create(&rows)]: one statement that inserts all rows or none; no two rows may [clash]. *)
Fixpoint insert_batch (clash : V → V → bool) (rows : gmap K V) (l : list (K * V)) : result (gmap K V) :=
  match l with
  | [] => Ok rows
  | (k, v) :: l =>
      if bool_decide (is_Some (rows !! k)) ||
         negb (bool_decide (map_Forall (λ _ w, clash v w = false) rows)) then Err ErrDuplicatedKey
      else if tb_check tb v then insert_batch clash (<[k := v]> rows) l
      else Err ErrCheckConstraint
  end.

Definition create_batch (clash : V → V → bool) (l : list (K * V)) : M T unit :=
  statement;;
  rows ← gets (tb_get tb);
  match insert_batch clash rows l with
  | Ok rows => modify (tb_set tb rows)
  | Err e => fail e
  end.

(** [INSERT ... ON CONFLICT DO NOTHING]; answers RowsAffected > 0. *)
Definition create_do_nothing (k : K) (v : V) : M T bool :=
  statement;;
  rows ← gets (tb_get tb);
  match rows !! k with
  | Some _ => mret false
  | None =>
      guard_that (tb_check tb v) ErrCheckConstraint;;
      modify (tb_set tb (<[k := v]> rows));;
      mret true
  end.

(** [INSERT ... ON CONFLICT (pk) DO UPDATE]: [merge old new]. *)
Definition upsert (k : K) (v : V) (merge : V → V → V) : M T unit :=
  statement;;
  rows ← gets (tb_get tb);
  let w := match rows !! k with Some old => merge old v | None => v end in
  guard_that (tb_check tb w) ErrCheckConstraint;;
  modify (tb_set tb (<[k := w]> rows)).

(** [UPDATE ... WHERE pk = k AND cond]; answers RowsAffected > 0. *)
Definition update_where (k : K) (cond : V → bool) (f : V → V) : M T bool :=
  statement;;
  rows ← gets (tb_get tb);
  match rows !! k with
  | Some v =>
      if cond v then
        guard_that (tb_check tb (f v)) ErrCheckConstraint;;
        modify (tb_set tb (<[k := f v]> rows));;
        mret true
      else mret false
  | None => mret false
  end.

Definition update (k : K) (f : V → V) : M T bool := update_where k (λ _, true) f.

(** [UPDATE ... WHERE cond], any number of rows; answers RowsAffected. *)
Definition update_all (cond : V → bool) (f : V → V) : M T Z :=
  statement;;
  rows ← gets (tb_get tb);
  guard_that (bool_decide (map_Forall (λ _ v, cond v = true → tb_check tb (f v) = true) rows))
    ErrCheckConstraint;;
  modify (tb_set tb ((λ v, if cond v then f v else v) <$> rows));;
  mret (Z.of_nat (size (filter (λ kv : K * V, cond kv.2 = true) rows))).

(** [DELETE ... WHERE cond]; answers RowsAffected. *)
Definition delete_where (cond : V → bool) : M T Z :=
  statement;;
  rows ← gets (tb_get tb);
  modify (tb_set tb (filter (λ kv, cond kv.2 = false) rows));;
  mret (Z.of_nat (size rows - size (filter (λ kv : K * V, cond kv.2 = false) rows))).

(** [UPDATE ... WHERE pk = k AND cond] of columns with a unique index: the new row must not
    [clash] with another one. *)
Definition update_unique (k : K) (cond : V → bool) (f : V → V) (clash : V → V → bool) : M T bool :=
  statement;;
  rows ← gets (tb_get tb);
  match rows !! k with
  | Some v =>
      if cond v then
        guard_that (bool_decide (map_Forall (λ k' w, k' = k ∨ clash (f v) w = false) rows))
          ErrDuplicatedKey;;
        guard_that (tb_check tb (f v)) ErrCheckConstraint;;
        modify (tb_set tb (<[k := f v]> rows));;
        mret true
      else mret false
  | None => mret false
  end.

(** [DELETE ... WHERE cond] where the condition mentions the primary key. *)
Definition delete_rows (cond : K → V → bool) : M T unit :=
  statement;;
  rows ← gets (tb_get tb);
  modify (tb_set tb (filter (λ kv, cond kv.1 kv.2 = false) rows)).

(** What [ON DELETE CASCADE] removes together with the rows of another table. *)
Definition cascade (cond : V → bool) : M T unit :=
  rows ← gets (tb_get tb);
  modify (tb_set tb (filter (λ kv, cond kv.2 = false) rows)).
End table_operations.

(** A batch adds exactly its rows, under keys that were free. *)
Lemma insert_batch_rows {T K V : Type} `{Countable K} (tb : table T K V) clash rows l rows' k v :
  insert_batch tb clash rows l = Ok rows' → rows' !! k = Some v ↔ rows !! k = Some v ∨ (k, v) ∈ l.
Proof.
  revert rows. induction l as [|[k' v'] l IH]; intros rows; cbn.
  - intros [= <-]. split; [by left|]. intros [|Hin]; [done|]. by apply not_elem_of_nil in Hin.
  - destruct (bool_decide (is_Some (rows !! k'))) eqn:Hk; [done|]. cbn [orb].
    destruct (negb _); [done|]. destruct (tb_check tb v'); [|done]. intros Hb. rewrite (IH _ Hb).
    apply bool_decide_eq_false, eq_None_not_Some in Hk. rewrite elem_of_cons.
    destruct (decide (k = k')) as [->|Hne].
    + rewrite lookup_insert_eq, Hk. naive_solver.
    + rewrite lookup_insert_ne by done. naive_solver.
Qed.

(** It succeeds when its rows keep out of each other's way and of the rows that are there. *)
Lemma insert_batch_ok {T K V : Type} `{Countable K} (tb : table T K V) clash rows l :
  (∀ v, tb_check tb v = true) → NoDup l.*1 → (∀ k v, (k, v) ∈ l → rows !! k = None) →
  (∀ k v w, (k, v) ∈ l → (∃ j, rows !! j = Some w) → clash v w = false) →
  (∀ i j kv kw, l !! i = Some kv → l !! j = Some kw → i ≠ j → clash kv.2 kw.2 = false) →
  ∃ rows', insert_batch tb clash rows l = Ok rows'.
Proof.
  intros Hcheck. revert rows. induction l as [|[k v] l IH]; intros rows Hnd Hfree Hrows Hpairs; cbn; [eauto|].
  apply list.NoDup_cons in Hnd as [Hk Hnd]. rewrite (Hfree k v) by left.
  rewrite bool_decide_eq_false_2 by (by intros [? [=]]). cbn [orb].
  rewrite bool_decide_eq_true_2.
  2: { intros j w Hw. apply (Hrows k v); [left|eauto]. }
  cbn [negb]. rewrite Hcheck. apply IH; [done| | |].
  - intros k' v' Hin. rewrite lookup_insert_ne; [apply (Hfree k' v'); by right|]. intros ->.
    apply Hk, list_elem_of_fmap. by exists (k', v').
  - intros k' v' w Hin [j Hj]. apply lookup_insert_Some in Hj as [[<- <-]|[_ Hj]].
    + apply list_elem_of_lookup in Hin as [i Hi].
      exact (Hpairs (S i) 0%nat (k', v') (k, v) Hi eq_refl ltac:(lia)).
    + apply (Hrows k' v'); [by right|eauto].
  - intros i j kv kw Hi Hj Hne. apply (Hpairs (S i) (S j)); [done|done|lia].
Qed.

(** ** Weakest preconditions

    [wp x E m t Q]: from tables [t], in world [E] and at any point of it, [m]
    ends with a result and tables that satisfy [Q].  Inside a transaction
    ([x = InTx]) the runs in which a statement failed are left to the
    transaction, which undoes them. *)
Inductive mode := Direct | InTx.

Definition wp {T A} (x : mode) (E : env) (m : M T A) (t : T) (Q : result A → T → Prop) : Prop :=
  ∀ n, let '(r, t', c) := m E t n in (x = InTx ∧ faulty E n c = true) ∨ Q r t'.

(** A world in which every statement succeeds. *)
Definition quiet (E : env) : Prop := ∀ i, env_fault E i = None.

(** What a weakest precondition says of a run. *)
Lemma wp_direct {T A} E (m : M T A) (t : T) n r t' c Q :
  wp Direct E m t Q → m E t n = (r, t', c) → Q r t'.
Proof. intros Hm Heq. specialize (Hm n). rewrite Heq in Hm. by destruct Hm as [[? _]|]. Qed.

Section wp_rules.
Context {T : Type} (x : mode) (E : env).
Implicit Types t : T.

Lemma faulty_app n c c' : faulty E n (c + c') = faulty E n c || faulty E (n + c) c'.
Proof. unfold faulty. by rewrite seq_app, existsb_app. Qed.

Lemma wp_mono {A} (m : M T A) t (P Q : result A → T → Prop) :
  wp x E m t P → (∀ r t', P r t' → Q r t') → wp x E m t Q.
Proof. intros H HPQ n. specialize (H n). destruct (m E t n) as [[r t'] n']. intuition auto. Qed.

Lemma wp_and {A} (m : M T A) t (P Q : result A → T → Prop) :
  wp x E m t P → wp x E m t Q → wp x E m t (λ r t', P r t' ∧ Q r t').
Proof.
  intros H1 H2 n. specialize (H1 n). specialize (H2 n). destruct (m E t n) as [[r t'] c]. tauto.
Qed.

Lemma wp_ret {A} (a : A) t (Q : result A → T → Prop) : Q (Ok a) t → wp x E (mret a) t Q.
Proof. intros H n. by right. Qed.

Lemma wp_fail {A} e t (Q : result A → T → Prop) : Q (Err e) t → wp x E (fail e) t Q.
Proof. intros H n. by right. Qed.

Lemma wp_bind {A B} (m : M T A) (k : A → M T B) t (Q : result B → T → Prop) :
  wp x E m t (λ r t', match r with Ok a => wp x E (k a) t' Q | Err e => Q (Err e) t' end) →
  wp x E (m ≫= k) t Q.
Proof.
  intros H n. specialize (H n). unfold mbind, M_bind.
  destruct (m E t n) as [[[a|e] t'] c]; [|exact H].
  destruct H as [[-> Hf]|H].
  - destruct (k a E t' (n + c)%nat) as [[r t''] c']. left. by rewrite faulty_app, Hf.
  - specialize (H (n + c)%nat). destruct (k a E t' (n + c)%nat) as [[r t''] c'].
    rewrite faulty_app. destruct H as [[-> Hf]|H]; [left|by right].
    by rewrite Hf, orb_true_r.
Qed.

Lemma wp_now t (Q : result Z → T → Prop) : (∀ z, Q (Ok z) t) → wp x E time_now t Q.
Proof. intros H n. right. apply H. Qed.

Lemma wp_new_id t (Q : result string → T → Prop) : (∀ s, Q (Ok s) t) → wp x E new_id t Q.
Proof. intros H n. right. apply H. Qed.

Lemma wp_random_bytes k t (Q : result (list ascii) → T → Prop) :
  (∀ l, length l = k → Q (Ok l) t) → wp x E (random_bytes k) t Q.
Proof. intros H n. right. apply H, length_resize. Qed.

Lemma wp_statement t (Q : result unit → T → Prop) :
  Q (Ok ()) t → (x = Direct → ¬ quiet E → ∀ d, Q (Err (ErrConnection d)) t) → wp x E statement t Q.
Proof.
  intros H1 H2 n. unfold statement. destruct (env_fault E n) eqn:Hn; [|by right].
  destruct x; [right; apply H2; [done|intros Hq; by rewrite Hq in Hn] | left]. split; [done|]. cbn. by rewrite Hn.
Qed.

Lemma wp_gets {A} (f : T → A) t (Q : result A → T → Prop) : Q (Ok (f t)) t → wp x E (gets f) t Q.
Proof. intros H n. by right. Qed.

Lemma wp_modify f t (Q : result unit → T → Prop) : Q (Ok ()) (f t) → wp x E (modify f) t Q.
Proof. intros H n. by right. Qed.

Lemma wp_attempt {A} (m : M T A) t (Q : result (result A) → T → Prop) :
  wp x E m t (λ r t', Q (Ok r) t') → wp x E (attempt m) t Q.
Proof.
  intros H n. specialize (H n). unfold attempt. destruct (m E t n) as [[r t'] n']. exact H.
Qed.

Lemma wp_guard b e t (Q : result unit → T → Prop) :
  (b = true → Q (Ok ()) t) → (b = false → Q (Err e) t) → wp x E (guard_that b e) t Q.
Proof. destruct b; intros H1 H2 n; right; cbn; auto. Qed.

Lemma shuffle_permutation {A} code (l : list A) : shuffle code l ≡ₚ l.
Proof.
  revert code. induction l as [|y l IH]; intros code; cbn; [done|].
  rewrite <- Permutation_middle, take_drop. by rewrite IH.
Qed.

Lemma wp_any_order {A} (l : list A) t (Q : result (list A) → T → Prop) :
  (∀ l', l' ≡ₚ l → Q (Ok l') t) → wp x E (any_order l) t Q.
Proof. intros H n. right. apply H, shuffle_permutation. Qed.

(** A loop over rows: an invariant indexed by what is left to do. *)
Lemma wp_for_each {A B} (f : A → M T B) (l : list A) (I : list A → list B → T → Prop)
    (R : error → T → Prop) t :
  I l [] t →
  (∀ y l' done' t', I (y :: l') done' t' →
     wp x E (f y) t' (λ r t'', match r with
                             | Ok z => I l' (done' ++ [z]) t''
                             | Err e => R e t'' end)) →
  wp x E (for_each f l) t (λ r t', match r with Ok ys => I [] ys t' | Err e => R e t' end).
Proof.
  intros HI Hstep.
  cut (∀ acc, I l acc t → wp x E (for_each f l) t
    (λ r t', match r with Ok ys => I [] (acc ++ ys) t' | Err e => R e t' end)).
  { intros Hc. apply (Hc [] HI). }
  clear HI. revert t. induction l as [|y l IH]; intros t acc HI; cbn [for_each].
  - apply wp_ret. by rewrite app_nil_r.
  - apply wp_bind. eapply wp_mono; [by apply Hstep|]. intros [z|e] t' H; [|done].
    apply wp_bind. eapply wp_mono; [by apply IH|]. intros [ys|e] t'' H'; [|done].
    apply wp_ret. by rewrite <- app_assoc in H'.
Qed.

Section tables.
Context {K V : Type} `{Countable K} (tb : table T K V).

Lemma wp_first k t (Q : result V → T → Prop) :
  (∀ v, tb_get tb t !! k = Some v → Q (Ok v) t) →
  (tb_get tb t !! k = None → Q (Err ErrRecordNotFound) t) →
  (x = Direct → ¬ quiet E → ∀ d, Q (Err (ErrConnection d)) t) →
  wp x E (first tb k) t Q.
Proof.
  intros H1 H2 H3. apply wp_bind, wp_statement; [|done]. apply wp_bind, wp_gets.
  destruct (tb_get tb t !! k); [apply wp_ret | apply wp_fail]; auto.
Qed.

Lemma wp_first_where k cond t (Q : result V → T → Prop) :
  (∀ v, tb_get tb t !! k = Some v → cond v = true → Q (Ok v) t) →
  ((∀ v, tb_get tb t !! k = Some v → cond v = false) → Q (Err ErrRecordNotFound) t) →
  (x = Direct → ¬ quiet E → ∀ d, Q (Err (ErrConnection d)) t) →
  wp x E (first_where tb k cond) t Q.
Proof.
  intros H1 H2 H3. apply wp_bind, wp_first; [|intros Hn; apply H2; naive_solver|done].
  intros v Hv. destruct (cond v) eqn:Hc; [apply wp_ret; auto | apply wp_fail, H2].
  naive_solver.
Qed.

Lemma wp_find (cond : V → bool) t (Q : result (list V) → T → Prop) :
  (∀ l, l ≡ₚ filter (λ v, cond v = true) ((map_to_list (tb_get tb t)).*2) → Q (Ok l) t) →
  (x = Direct → ¬ quiet E → ∀ d, Q (Err (ErrConnection d)) t) →
  wp x E (find tb cond) t Q.
Proof.
  intros H1 H2. apply wp_bind, wp_statement; [|done]. apply wp_bind, wp_gets.
  by apply wp_any_order.
Qed.

Lemma wp_create k v t (Q : result unit → T → Prop) :
  (tb_get tb t !! k = None → tb_check tb v = true →
   Q (Ok ()) (tb_set tb (<[k := v]> (tb_get tb t)) t)) →
  (is_Some (tb_get tb t !! k) → Q (Err ErrDuplicatedKey) t) →
  (tb_check tb v = false → Q (Err ErrCheckConstraint) t) →
  (x = Direct → ¬ quiet E → ∀ d, Q (Err (ErrConnection d)) t) →
  wp x E (create tb k v) t Q.
Proof.
  intros H1 H2 H3 H4. apply wp_bind, wp_statement; [|done]. apply wp_bind, wp_gets.
  destruct (tb_get tb t !! k) eqn:Hk; [apply wp_fail; eauto|].
  apply wp_bind, wp_guard; [|done]. intros Hc. apply wp_modify. auto.
Qed.

Lemma wp_create_unique k v clash t (Q : result unit → T → Prop) :
  (tb_get tb t !! k = None → tb_check tb v = true →
   map_Forall (λ _ w, clash w = false) (tb_get tb t) →
   Q (Ok ()) (tb_set tb (<[k := v]> (tb_get tb t)) t)) →
  Q (Err ErrDuplicatedKey) t →
  (tb_check tb v = false → Q (Err ErrCheckConstraint) t) →
  (x = Direct → ¬ quiet E → ∀ d, Q (Err (ErrConnection d)) t) →
  wp x E (create_unique tb k v clash) t Q.
Proof.
  intros H1 H2 H3 H4. apply wp_bind, wp_statement; [|done]. apply wp_bind, wp_gets.
  apply wp_bind, wp_guard; [|done]. intros Hu%bool_decide_eq_true.
  destruct (tb_get tb t !! k) eqn:Hk; [by apply wp_fail|].
  apply wp_bind, wp_guard; [|done]. intros Hc. apply wp_modify. auto.
Qed.

Lemma wp_create_batch clash l t (Q : result unit → T → Prop) :
  (∀ rows, insert_batch tb clash (tb_get tb t) l = Ok rows → Q (Ok ()) (tb_set tb rows t)) →
  (∀ e, insert_batch tb clash (tb_get tb t) l = Err e → Q (Err e) t) →
  (x = Direct → ¬ quiet E → ∀ d, Q (Err (ErrConnection d)) t) →
  wp x E (create_batch tb clash l) t Q.
Proof.
  intros H1 H2 H3. apply wp_bind, wp_statement; [|done]. apply wp_bind, wp_gets.
  destruct (insert_batch tb clash (tb_get tb t) l) as [rows|e]; [apply wp_modify|apply wp_fail]; auto.
Qed.

Lemma wp_create_do_nothing k v t (Q : result bool → T → Prop) :
  (tb_get tb t !! k = None → tb_check tb v = true →
   Q (Ok true) (tb_set tb (<[k := v]> (tb_get tb t)) t)) →
  (is_Some (tb_get tb t !! k) → Q (Ok false) t) →
  (tb_check tb v = false → Q (Err ErrCheckConstraint) t) →
  (x = Direct → ¬ quiet E → ∀ d, Q (Err (ErrConnection d)) t) →
  wp x E (create_do_nothing tb k v) t Q.
Proof.
  intros H1 H2 H3 H4. apply wp_bind, wp_statement; [|done]. apply wp_bind, wp_gets.
  destruct (tb_get tb t !! k) eqn:Hk; [apply wp_ret; eauto|].
  apply wp_bind, wp_guard; [|done]. intros Hc. apply wp_bind, wp_modify, wp_ret. auto.
Qed.

Lemma wp_upsert k v merge t (Q : result unit → T → Prop) :
  (let w := match tb_get tb t !! k with Some old => merge old v | None => v end in
   tb_check tb w = true → Q (Ok ()) (tb_set tb (<[k := w]> (tb_get tb t)) t)) →
  Q (Err ErrCheckConstraint) t →
  (x = Direct → ¬ quiet E → ∀ d, Q (Err (ErrConnection d)) t) →
  wp x E (upsert tb k v merge) t Q.
Proof.
  intros H1 H2 H3. apply wp_bind, wp_statement; [|done]. apply wp_bind, wp_gets.
  apply wp_bind, wp_guard; [|done]. intros Hc. by apply wp_modify, H1.
Qed.

(** The same for a row that passes the check. *)
Lemma wp_upsert_ok k v merge t (Q : result unit → T → Prop) :
  (let w := match tb_get tb t !! k with Some old => merge old v | None => v end in
   tb_check tb w = true ∧ Q (Ok ()) (tb_set tb (<[k := w]> (tb_get tb t)) t)) →
  (x = Direct → ¬ quiet E → ∀ d, Q (Err (ErrConnection d)) t) →
  wp x E (upsert tb k v merge) t Q.
Proof.
  intros H1 H2. apply wp_bind, wp_statement; [|done]. apply wp_bind, wp_gets.
  destruct H1 as [Hc HQ]. apply wp_bind, wp_guard; [intros _; by apply wp_modify|congruence].
Qed.

Lemma wp_update_where k cond f t (Q : result bool → T → Prop) :
  (∀ v, tb_get tb t !! k = Some v → cond v = true → tb_check tb (f v) = true →
     Q (Ok true) (tb_set tb (<[k := f v]> (tb_get tb t)) t)) →
  ((∀ v, tb_get tb t !! k = Some v → cond v = false) → Q (Ok false) t) →
  (∀ v, tb_get tb t !! k = Some v → tb_check tb (f v) = false →
     Q (Err ErrCheckConstraint) t) →
  (x = Direct → ¬ quiet E → ∀ d, Q (Err (ErrConnection d)) t) →
  wp x E (update_where tb k cond f) t Q.
Proof.
  intros H1 H2 H3 H4. apply wp_bind, wp_statement; [|done]. apply wp_bind, wp_gets.
  destruct (tb_get tb t !! k) as [v|] eqn:Hk; [|apply wp_ret, H2; naive_solver].
  destruct (cond v) eqn:Hc; [|apply wp_ret, H2; naive_solver].
  apply wp_bind, wp_guard; [|eauto]. intros Hf. apply wp_bind, wp_modify, wp_ret. auto.
Qed.

Lemma wp_update k f t (Q : result bool → T → Prop) :
  (∀ v, tb_get tb t !! k = Some v → tb_check tb (f v) = true →
     Q (Ok true) (tb_set tb (<[k := f v]> (tb_get tb t)) t)) →
  (tb_get tb t !! k = None → Q (Ok false) t) →
  (∀ v, tb_get tb t !! k = Some v → tb_check tb (f v) = false →
     Q (Err ErrCheckConstraint) t) →
  (x = Direct → ¬ quiet E → ∀ d, Q (Err (ErrConnection d)) t) →
  wp x E (update tb k f) t Q.
Proof.
  intros H1 H2 H3 H4. apply wp_update_where; [auto| |done|done]. intros Hn. apply H2.
  destruct (tb_get tb t !! k) eqn:Hk; [|done]. by specialize (Hn _ eq_refl).
Qed.

Lemma wp_update_all cond f t (Q : result Z → T → Prop) :
  ((∀ k v, tb_get tb t !! k = Some v → cond v = true → tb_check tb (f v) = true) →
   ∀ z, Q (Ok z) (tb_set tb ((λ v, if cond v then f v else v) <$> tb_get tb t) t)) →
  Q (Err ErrCheckConstraint) t →
  (x = Direct → ¬ quiet E → ∀ d, Q (Err (ErrConnection d)) t) →
  wp x E (update_all tb cond f) t Q.
Proof.
  intros H1 H2 H3. apply wp_bind, wp_statement; [|done]. apply wp_bind, wp_gets.
  apply wp_bind, wp_guard; [|done]. intros Hc%bool_decide_eq_true.
  apply wp_bind, wp_modify, wp_ret, H1. intros k v Hv. by apply (Hc k v).
Qed.

Lemma wp_delete_where cond t (Q : result Z → T → Prop) :
  (∀ z, Q (Ok z) (tb_set tb (filter (λ kv, cond kv.2 = false) (tb_get tb t)) t)) →
  (x = Direct → ¬ quiet E → ∀ d, Q (Err (ErrConnection d)) t) →
  wp x E (delete_where tb cond) t Q.
Proof.
  intros H1 H2. apply wp_bind, wp_statement; [|done]. apply wp_bind, wp_gets.
  apply wp_bind, wp_modify, wp_ret. auto.
Qed.

(** The same with the number of rows it answers. *)
Lemma wp_delete_count cond t (Q : result Z → T → Prop) :
  (let rest := filter (λ kv : K * V, cond kv.2 = false) (tb_get tb t) in
   Q (Ok (Z.of_nat (size (tb_get tb t) - size rest))) (tb_set tb rest t)) →
  (x = Direct → ¬ quiet E → ∀ d, Q (Err (ErrConnection d)) t) →
  wp x E (delete_where tb cond) t Q.
Proof.
  intros H1 H2. apply wp_bind, wp_statement; [|done]. apply wp_bind, wp_gets.
  by apply wp_bind, wp_modify, wp_ret.
Qed.

Lemma wp_update_unique k cond f clash t (Q : result bool → T → Prop) :
  (∀ v, tb_get tb t !! k = Some v → cond v = true → tb_check tb (f v) = true →
     (∀ k' w, tb_get tb t !! k' = Some w → k' ≠ k → clash (f v) w = false) →
     Q (Ok true) (tb_set tb (<[k := f v]> (tb_get tb t)) t)) →
  ((∀ v, tb_get tb t !! k = Some v → cond v = false) → Q (Ok false) t) →
  (∀ v, tb_get tb t !! k = Some v → cond v = true → Q (Err ErrDuplicatedKey) t) →
  (∀ v, tb_get tb t !! k = Some v → tb_check tb (f v) = false → Q (Err ErrCheckConstraint) t) →
  (x = Direct → ¬ quiet E → ∀ d, Q (Err (ErrConnection d)) t) →
  wp x E (update_unique tb k cond f clash) t Q.
Proof.
  intros H1 H2 H3 H4 H5. apply wp_bind, wp_statement; [|done]. apply wp_bind, wp_gets.
  destruct (tb_get tb t !! k) as [v|] eqn:Hk; [|apply wp_ret, H2; naive_solver].
  destruct (cond v) eqn:Hc; [|apply wp_ret, H2; naive_solver].
  apply wp_bind, wp_guard; [intros Hu%bool_decide_eq_true|eauto].
  apply wp_bind, wp_guard; [|eauto]. intros Hf. apply wp_bind, wp_modify, wp_ret, H1; auto.
  intros k' w Hw Hne. by destruct (Hu _ _ Hw).
Qed.

Lemma wp_delete_rows cond t (Q : result unit → T → Prop) :
  Q (Ok ()) (tb_set tb (filter (λ kv, cond kv.1 kv.2 = false) (tb_get tb t)) t) →
  (x = Direct → ¬ quiet E → ∀ d, Q (Err (ErrConnection d)) t) →
  wp x E (delete_rows tb cond) t Q.
Proof.
  intros H1 H2. apply wp_bind, wp_statement; [|done]. apply wp_bind, wp_gets. by apply wp_modify.
Qed.

Lemma wp_cascade cond t (Q : result unit → T → Prop) :
  Q (Ok ()) (tb_set tb (filter (λ kv, cond kv.2 = false) (tb_get tb t)) t) →
  wp x E (cascade tb cond) t Q.
Proof. intros H1. apply wp_bind, wp_gets. by apply wp_modify. Qed.
End tables.
End wp_rules.


Lemma quiet_not_faulty E n c : quiet E → faulty E n c = false.
Proof.
  intros Hq. unfold faulty. apply not_true_is_false. intros (i & _ & Hi)%existsb_exists.
  apply bool_decide_eq_true in Hi. rewrite Hq in Hi. by destruct Hi.
Qed.

Lemma quiet_wp {T A} E (m : M T A) t Q : quiet E → wp InTx E m t Q → wp Direct E m t Q.
Proof.
  intros Hq H n. specialize (H n). destruct (m E t n) as [[r t'] c]. right.
  destruct H as [[_ Hf]|H]; [|done]. by rewrite quiet_not_faulty in Hf.
Qed.

Section transactions.
Context {T A : Type} (x : mode) (E : env).
Implicit Types t : T.

(** The rule that makes transactions worth having: the body may assume that
    no statement fails, and an error speaks about the tables as they were. *)
Lemma wp_transaction (body : M T A) t (Q : result A → T → Prop) :
  wp InTx E body t (λ r t', match r with Ok a => Q (Ok a) t' | Err e => Q (Err e) t end) →
  (¬ quiet E → ∀ e, Q (Err e) t) →
  wp x E (transaction body) t Q.
Proof.
  intros H Hd n. unfold transaction.
  assert (Hw : wp InTx E (statement;; a ← body; statement;; mret a) t
    (λ r t', match r with Ok a => Q (Ok a) t' | Err e => Q (Err e) t end)).
  { apply wp_bind, wp_statement; [|done]. apply wp_bind. eapply wp_mono; [exact H|].
    intros [a|e] t' Ha; [|done]. apply wp_bind, wp_statement; [|done]. by apply wp_ret. }
  specialize (Hw n).
  destruct ((statement;; a ← body; statement;; mret a) E t n) as [[r t'] c].
  destruct (faulty E n c) eqn:Hf.
  - assert (¬ quiet E) as Hq by (intros Hq; by rewrite quiet_not_faulty in Hf).
    destruct r; right; by apply Hd.
  - destruct Hw as [[_ ?]|Hw]; [done|]. destruct r; by right.
Qed.

(** An error leaves the tables unchanged, whatever the body does. *)
Lemma transaction_error (body : M T A) t n e t' c :
  transaction body E t n = (Err e, t', c) → t' = t.
Proof.
  unfold transaction.
  destruct ((statement;; a ← body; statement;; mret a) E t n) as [[[a|e'] t1] c1];
    [destruct (faulty E n c1)|]; by intros [= <- <- <-].
Qed.
End transactions.

(** ** What a transaction establishes when it commits

    [success E m t P]: when no statement of the body [m] fails and [m] returns
    a value, the value and the tables satisfy [P].  This is all that matters of
    the body of a transaction, because every other run leaves no trace. *)
Definition success {T A} (E : env) (m : M T A) (t : T) (P : A → T → Prop) : Prop :=
  wp InTx E m t (λ r t', match r with Ok a => P a t' | Err _ => True end).

Section success_rules.
Context {T : Type} (E : env).
Implicit Types t : T.

Lemma success_mono {A} (m : M T A) t (P Q : A → T → Prop) :
  success E m t P → (∀ a t', P a t' → Q a t') → success E m t Q.
Proof. intros H HPQ. eapply wp_mono; [exact H|]. intros [a|e] t'; auto. Qed.

Lemma success_true {A} (m : M T A) t : success E m t (λ _ _, True).
Proof. intros n. destruct (m E t n) as [[[a|e] t'] c]; by right. Qed.

Lemma success_and {A} (m : M T A) t (P Q : A → T → Prop) :
  success E m t P → success E m t Q → success E m t (λ a t', P a t' ∧ Q a t').
Proof.
  intros H1 H2 n. specialize (H1 n). specialize (H2 n).
  destruct (m E t n) as [[[a|e] t'] c]; tauto.
Qed.

Lemma success_ret {A} (a : A) t (P : A → T → Prop) : P a t → success E (mret a) t P.
Proof. apply (wp_ret _ _ _ _ (λ r t', match r with Ok a => P a t' | Err _ => True end)). Qed.

Lemma success_fail {A} e t (P : A → T → Prop) : success E (fail e) t P.
Proof. by apply wp_fail. Qed.

Lemma success_bind {A B} (m : M T A) (k : A → M T B) t (P : B → T → Prop) :
  success E m t (λ a t', success E (k a) t' P) → success E (m ≫= k) t P.
Proof. intros H. apply wp_bind. eapply wp_mono; [exact H|]. by intros [a|e] t'. Qed.

Lemma success_now t (P : Z → T → Prop) : (∀ z, P z t) → success E time_now t P.
Proof. intros H. by apply wp_now. Qed.

Lemma success_new_id t (P : string → T → Prop) : (∀ s, P s t) → success E new_id t P.
Proof. intros H. by apply wp_new_id. Qed.

Lemma success_random_bytes k t (P : list ascii → T → Prop) :
  (∀ l, length l = k → P l t) → success E (random_bytes k) t P.
Proof. intros H. by apply wp_random_bytes. Qed.

Lemma success_gets {A} (f : T → A) t (P : A → T → Prop) : P (f t) t → success E (gets f) t P.
Proof. intros H. by apply wp_gets. Qed.

Lemma success_modify f t (P : unit → T → Prop) : P () (f t) → success E (modify f) t P.
Proof. intros H. by apply wp_modify. Qed.

Lemma success_guard b e t (P : unit → T → Prop) :
  (b = true → P () t) → success E (guard_that b e) t P.
Proof. intros H. by apply wp_guard. Qed.

Lemma success_for_each {A B} (f : A → M T B) (l : list A) (I : list A → list B → T → Prop) t :
  I l [] t →
  (∀ y l' done' t', I (y :: l') done' t' →
     success E (f y) t' (λ z t'', I l' (done' ++ [z]) t'')) →
  success E (for_each f l) t (λ ys t', I [] ys t').
Proof. intros H1 H2. by apply (wp_for_each InTx E f l I (λ _ _, True)). Qed.

Section tables.
Context {K V : Type} `{Countable K} (tb : table T K V).

Lemma success_first k t (P : V → T → Prop) :
  (∀ v, tb_get tb t !! k = Some v → P v t) → success E (first tb k) t P.
Proof. intros H1. by apply wp_first. Qed.

Lemma success_first_where k cond t (P : V → T → Prop) :
  (∀ v, tb_get tb t !! k = Some v → cond v = true → P v t) →
  success E (first_where tb k cond) t P.
Proof. intros H1. by apply wp_first_where. Qed.

(** A lookup whose error is inspected. *)
Lemma success_attempt_first k t (P : result V → T → Prop) :
  (∀ v, tb_get tb t !! k = Some v → P (Ok v) t) →
  (tb_get tb t !! k = None → P (Err ErrRecordNotFound) t) →
  success E (attempt (first tb k)) t P.
Proof. intros H1 H2. apply wp_attempt. by apply wp_first. Qed.

Lemma success_attempt_first_where k cond t (P : result V → T → Prop) :
  (∀ v, tb_get tb t !! k = Some v → cond v = true → P (Ok v) t) →
  ((∀ v, tb_get tb t !! k = Some v → cond v = false) → P (Err ErrRecordNotFound) t) →
  success E (attempt (first_where tb k cond)) t P.
Proof. intros H1 H2. apply wp_attempt. by apply wp_first_where. Qed.

Lemma success_find cond t (P : list V → T → Prop) :
  (∀ l, l ≡ₚ filter (λ v, cond v = true) ((map_to_list (tb_get tb t)).*2) → P l t) →
  success E (find tb cond) t P.
Proof. intros H1. by apply wp_find. Qed.

Lemma success_create k v t (P : unit → T → Prop) :
  (tb_get tb t !! k = None → tb_check tb v = true →
   P () (tb_set tb (<[k := v]> (tb_get tb t)) t)) →
  success E (create tb k v) t P.
Proof. intros H1. by apply wp_create. Qed.

Lemma success_create_unique k v clash t (P : unit → T → Prop) :
  (tb_get tb t !! k = None → tb_check tb v = true →
   map_Forall (λ _ w, clash w = false) (tb_get tb t) →
   P () (tb_set tb (<[k := v]> (tb_get tb t)) t)) →
  success E (create_unique tb k v clash) t P.
Proof. intros H1. by apply wp_create_unique. Qed.

Lemma success_create_batch clash l t (P : unit → T → Prop) :
  (∀ rows, insert_batch tb clash (tb_get tb t) l = Ok rows → P () (tb_set tb rows t)) →
  success E (create_batch tb clash l) t P.
Proof. intros H1. by apply wp_create_batch. Qed.

Lemma success_create_do_nothing k v t (P : bool → T → Prop) :
  (tb_get tb t !! k = None → tb_check tb v = true →
   P true (tb_set tb (<[k := v]> (tb_get tb t)) t)) →
  (is_Some (tb_get tb t !! k) → P false t) →
  success E (create_do_nothing tb k v) t P.
Proof. intros H1 H2. by apply wp_create_do_nothing. Qed.

Lemma success_upsert k v merge t (P : unit → T → Prop) :
  (let w := match tb_get tb t !! k with Some old => merge old v | None => v end in
   tb_check tb w = true → P () (tb_set tb (<[k := w]> (tb_get tb t)) t)) →
  success E (upsert tb k v merge) t P.
Proof. intros H1. by apply wp_upsert. Qed.

Lemma success_update_where k cond f t (P : bool → T → Prop) :
  (∀ v, tb_get tb t !! k = Some v → cond v = true → tb_check tb (f v) = true →
     P true (tb_set tb (<[k := f v]> (tb_get tb t)) t)) →
  ((∀ v, tb_get tb t !! k = Some v → cond v = false) → P false t) →
  success E (update_where tb k cond f) t P.
Proof. intros H1 H2. by apply wp_update_where. Qed.

Lemma success_update k f t (P : bool → T → Prop) :
  (∀ v, tb_get tb t !! k = Some v → tb_check tb (f v) = true →
     P true (tb_set tb (<[k := f v]> (tb_get tb t)) t)) →
  (tb_get tb t !! k = None → P false t) →
  success E (update tb k f) t P.
Proof. intros H1 H2. by apply wp_update. Qed.

Lemma success_update_all cond f t (P : Z → T → Prop) :
  ((∀ k v, tb_get tb t !! k = Some v → cond v = true → tb_check tb (f v) = true) →
   ∀ z, P z (tb_set tb ((λ v, if cond v then f v else v) <$> tb_get tb t) t)) →
  success E (update_all tb cond f) t P.
Proof. intros H1. by apply wp_update_all. Qed.

Lemma success_delete_where cond t (P : Z → T → Prop) :
  (∀ z, P z (tb_set tb (filter (λ kv, cond kv.2 = false) (tb_get tb t)) t)) →
  success E (delete_where tb cond) t P.
Proof. intros H1. by apply wp_delete_where. Qed.

Lemma success_update_unique k cond f clash t (P : bool → T → Prop) :
  (∀ v, tb_get tb t !! k = Some v → cond v = true → tb_check tb (f v) = true →
     (∀ k' w, tb_get tb t !! k' = Some w → k' ≠ k → clash (f v) w = false) →
     P true (tb_set tb (<[k := f v]> (tb_get tb t)) t)) →
  ((∀ v, tb_get tb t !! k = Some v → cond v = false) → P false t) →
  success E (update_unique tb k cond f clash) t P.
Proof. intros H1 H2. by apply wp_update_unique. Qed.

Lemma success_delete_rows cond t (P : unit → T → Prop) :
  P () (tb_set tb (filter (λ kv, cond kv.1 kv.2 = false) (tb_get tb t)) t) →
  success E (delete_rows tb cond) t P.
Proof. intros H1. by apply wp_delete_rows. Qed.

Lemma success_cascade cond t (P : unit → T → Prop) :
  P () (tb_set tb (filter (λ kv, cond kv.2 = false) (tb_get tb t)) t) →
  success E (cascade tb cond) t P.
Proof. intros H1. by apply wp_cascade. Qed.
End tables.

Lemma success_transaction x {A} (body : M T A) t (P : A → T → Prop) :
  success E body t P →
  wp x E (transaction body) t (λ r t', match r with Ok a => P a t' | Err _ => t' = t end).
Proof.
  intros H. apply wp_transaction; [|done]. eapply wp_mono; [exact H|]. by intros [a|e].
Qed.

(** A transaction keeps every predicate that its body keeps on success. *)
Lemma transaction_preserves x {A} (I : T → Prop) (body : M T A) t :
  I t → success E body t (λ _ t', I t') → wp x E (transaction body) t (λ _ t', I t').
Proof.
  intros HI H. eapply wp_mono; [by apply success_transaction|]. intros [a|e] t'; cbn; congruence.
Qed.
End success_rules.

(** [step_success]: run the first statement of a transaction's body. *)
Ltac step_success :=
  lazymatch goal with
  | |- success _ (mbind _ _) _ _ => apply success_bind
  | |- success _ (mret _) _ _ => apply success_ret
  | |- success _ (fail _) _ _ => apply success_fail
  | |- success _ time_now _ _ => apply success_now; intros ?
  | |- success _ new_id _ _ => apply success_new_id; intros ?
  | |- success _ (random_bytes _) _ _ => apply success_random_bytes
  | |- success _ (gets _) _ _ => apply success_gets
  | |- success _ (modify _) _ _ => apply success_modify
  | |- success _ (guard_that _ _) _ _ => apply success_guard; intros ?; reflect_bools
  | |- success _ (first _ _) _ _ => apply success_first
  | |- success _ (first_where _ _ _) _ _ => apply success_first_where
  | |- success _ (attempt (first _ _)) _ _ =>
      apply success_attempt_first
  | |- success _ (attempt (first_where _ _ _)) _ _ =>
      apply success_attempt_first_where
  | |- success _ (find _ _) _ _ => apply success_find
  | |- success _ (create _ _ _) _ _ => apply success_create
  end; cbv beta iota.

(** ** Ordered queries *)

(** [ORDER BY]: rows sorted by the given order, rows that tie in any order. *)
Definition find_ordered {T K V : Type} `{Countable K} (tb : table T K V) (cond : V → bool)
    (le : relation V) `{∀ x y, Decision (le x y)} : M T (list V) :=
  rows ← find tb cond;
  mret (merge_sort le rows).

(** [ORDER BY ... LIMIT 1]. *)
Definition first_ordered {T K V : Type} `{Countable K} (tb : table T K V) (cond : V → bool)
    (le : relation V) `{∀ x y, Decision (le x y)} : M T V :=
  rows ← find_ordered tb cond le;
  match rows with
  | [] => fail ErrRecordNotFound
  | v :: _ => mret v
  end.

Lemma wp_find_ordered {T K V : Type} `{Countable K} x E (tb : table T K V) (cond : V → bool)
    (le : relation V) `{∀ x y, Decision (le x y)} t (Q : result (list V) → T → Prop) :
  (∀ l, l ≡ₚ filter (λ v, cond v = true) ((map_to_list (tb_get tb t)).*2) →
        Q (Ok (merge_sort le l)) t) →
  (x = Direct → ¬ quiet E → ∀ d, Q (Err (ErrConnection d)) t) →
  wp x E (find_ordered tb cond le) t Q.
Proof. intros H1 H2. apply wp_bind, wp_find; [|done]. intros l Hl. by apply wp_ret, H1. Qed.

(** Membership in the result of a query. *)
Lemma elem_of_rows {T K V : Type} `{Countable K} (tb : table T K V) (cond : V → bool) t l v :
  l ≡ₚ filter (λ v, cond v = true) ((map_to_list (tb_get tb t)).*2) →
  v ∈ l ↔ cond v = true ∧ ∃ k, tb_get tb t !! k = Some v.
Proof.
  intros Hl. rewrite Hl, list_elem_of_filter, list_elem_of_fmap. split.
  - intros [Hc [[k v'] [-> Hin%elem_of_map_to_list]]]. eauto.
  - intros [Hc [k Hk]]. split; [done|]. exists (k, v). by rewrite elem_of_map_to_list.
Qed.

(** ** Rows indexed by their key *)

(** Every row is stored under its own identifier. *)
Definition keyed {K V : Type} `{Countable K} (id : V → K) (rows : gmap K V) : Prop :=
  map_Forall (λ k v, id v = k) rows.

Section keyed.
Context {K V : Type} `{Countable K} (id : V → K).
Implicit Types rows : gmap K V.

Lemma keyed_lookup rows k v : keyed id rows → rows !! k = Some v → id v = k.
Proof. intros Hk Hv. exact (Hk _ _ Hv). Qed.

Lemma keyed_insert rows k v : keyed id rows → id v = k → keyed id (<[k := v]> rows).
Proof. intros Hk Hv. by apply map_Forall_insert_2. Qed.

Lemma keyed_filter (P : K * V → Prop) `{∀ kv, Decision (P kv)} rows :
  keyed id rows → keyed id (filter P rows).
Proof. intros Hk k v [Hv _]%map_lookup_filter_Some. exact (Hk _ _ Hv). Qed.

Lemma keyed_ids rows : keyed id rows → id <$> (map_to_list rows).*2 = (map_to_list rows).*1.
Proof.
  intros Hk. rewrite <- list_fmap_compose. apply list_fmap_ext.
  intros i [k v] Hi%list_elem_of_lookup_2%elem_of_map_to_list. exact (Hk _ _ Hi).
Qed.

(** A map built from queried rows finds what the table holds. *)
Lemma index_rows (P : V → Prop) `{∀ v, Decision (P v)} rows l k :
  keyed id rows → l ≡ₚ filter P ((map_to_list rows).*2) →
  (∀ v, rows !! k = Some v → P v) →
  (list_to_map ((λ v, (id v, v)) <$> l) : gmap K V) !! k = rows !! k.
Proof.
  intros Hk Hl HP.
  assert (Hnd : NoDup ((λ v, (id v, v)) <$> l).*1).
  { rewrite <- list_fmap_compose. change (NoDup (id <$> l)). rewrite Hl.
    eapply sublist_NoDup; [|apply fmap_sublist, sublist_filter].
    rewrite keyed_ids by done. apply NoDup_fst_map_to_list. }
  assert (Hin : ∀ v, (k, v) ∈ ((λ v, (id v, v)) <$> l) ↔ rows !! k = Some v).
  { intros v. rewrite list_elem_of_fmap. split.
    - intros (v' & [= -> ->] & Hv'). rewrite Hl, list_elem_of_filter, list_elem_of_fmap in Hv'.
      destruct Hv' as (_ & [k' v''] & -> & Hv'%elem_of_map_to_list). cbn in *.
      by rewrite (Hk _ _ Hv').
    - intros Hv. exists v. split; [by rewrite (Hk _ _ Hv)|].
      rewrite Hl, list_elem_of_filter, list_elem_of_fmap. split; [by apply HP|].
      exists (k, v). by rewrite elem_of_map_to_list. }
  apply option_eq. intros v. rewrite <- Hin. symmetry. by apply elem_of_list_to_map.
Qed.
End keyed.

(** ** What a program never changes

    [preserves I m]: whatever the world does, [m] keeps [I].  Programs that write
    only tables that [I] does not mention are dealt with by [preserve]. *)
Definition preserves {T A} (x : mode) (E : env) (I : T → Prop) (m : M T A) : Prop :=
  ∀ t, I t → wp x E m t (λ _ t', I t').

(** [I] does not depend on the table [tb]. *)
Class Ignores {T K V : Type} `{Countable K} (tb : table T K V) (I : T → Prop) : Prop :=
  ignores : ∀ m t, I t → I (tb_set tb m t).

Section preserves.
Context {T : Type} (x : mode) (E : env) (I : T → Prop).

Lemma preserves_ret {A} (a : A) : preserves x E I (mret a).
Proof. intros t Ht. by apply wp_ret. Qed.

Lemma preserves_fail {A} e : preserves x E I (fail e : M T A).
Proof. intros t Ht. by apply wp_fail. Qed.

Lemma preserves_bind {A B} (m : M T A) (k : A → M T B) :
  preserves x E I m → (∀ a, preserves x E I (k a)) → preserves x E I (m ≫= k).
Proof.
  intros Hm Hk t Ht. apply wp_bind. eapply wp_mono; [by apply Hm|].
  intros [a|e] t' Ht'; [by apply Hk|done].
Qed.

Lemma preserves_now : preserves x E I time_now.
Proof. intros t Ht. by apply wp_now. Qed.

Lemma preserves_new_id : preserves x E I new_id.
Proof. intros t Ht. by apply wp_new_id. Qed.

Lemma preserves_random_bytes k : preserves x E I (random_bytes k).
Proof. intros t Ht. by apply wp_random_bytes. Qed.

Lemma preserves_statement : preserves x E I statement.
Proof. intros t Ht. by apply wp_statement. Qed.

Lemma preserves_gets {A} (f : T → A) : preserves x E I (gets f).
Proof. intros t Ht. by apply wp_gets. Qed.

Lemma preserves_modify f : (∀ t, I t → I (f t)) → preserves x E I (modify f).
Proof. intros Hf t Ht. by apply wp_modify, Hf. Qed.

Lemma preserves_guard b e : preserves x E I (guard_that b e).
Proof. intros t Ht. by apply wp_guard. Qed.

Lemma preserves_attempt {A} (m : M T A) : preserves x E I m → preserves x E I (attempt m).
Proof. intros Hm t Ht. apply wp_attempt. by apply Hm. Qed.

Lemma preserves_for_each {A B} (f : A → M T B) l :
  (∀ a, preserves x E I (f a)) → preserves x E I (for_each f l).
Proof.
  intros Hf t Ht. eapply wp_mono.
  - apply (wp_for_each x E f l (λ _ _, I) (λ _, I)); [done|]. intros a l' bs t' Ht'.
    eapply wp_mono; [by apply Hf|]. by intros [b|e] t''.
  - by intros [bs|e] t'.
Qed.

Lemma preserves_transaction {A} (body : M T A) :
  preserves InTx E I body → preserves x E I (transaction body).
Proof.
  intros H t Ht. apply wp_transaction; [|done]. eapply wp_mono; [by apply H|]. by intros [a|e].
Qed.

Section tables.
Context {K V : Type} `{Countable K} (tb : table T K V).

Lemma preserves_first k : preserves x E I (first tb k).
Proof. intros t Ht. by apply wp_first. Qed.

Lemma preserves_first_where k cond : preserves x E I (first_where tb k cond).
Proof. intros t Ht. by apply wp_first_where. Qed.

Lemma preserves_find cond : preserves x E I (find tb cond).
Proof. intros t Ht. by apply wp_find. Qed.

Lemma preserves_find_ordered cond le `{∀ v w, Decision (le v w)} :
  preserves x E I (find_ordered tb cond le).
Proof. intros t Ht. by apply wp_find_ordered. Qed.

Lemma preserves_first_ordered cond le `{∀ v w, Decision (le v w)} :
  preserves x E I (first_ordered tb cond le).
Proof.
  apply preserves_bind; [apply preserves_find_ordered|].
  intros [|v l]; [apply preserves_fail|apply preserves_ret].
Qed.

Context `{!Ignores tb I}.

Lemma preserves_create k v : preserves x E I (create tb k v).
Proof. intros t Ht. apply wp_create; auto. Qed.

Lemma preserves_create_unique k v clash : preserves x E I (create_unique tb k v clash).
Proof. intros t Ht. apply wp_create_unique; auto. Qed.

Lemma preserves_create_batch clash l : preserves x E I (create_batch tb clash l).
Proof. intros t Ht. apply wp_create_batch; auto. Qed.

Lemma preserves_create_do_nothing k v : preserves x E I (create_do_nothing tb k v).
Proof. intros t Ht. apply wp_create_do_nothing; auto. Qed.

Lemma preserves_upsert k v merge : preserves x E I (upsert tb k v merge).
Proof. intros t Ht. apply wp_upsert; auto. Qed.

Lemma preserves_update_where k cond f : preserves x E I (update_where tb k cond f).
Proof. intros t Ht. apply wp_update_where; auto. Qed.

Lemma preserves_update k f : preserves x E I (update tb k f).
Proof. apply preserves_update_where. Qed.

Lemma preserves_update_all cond f : preserves x E I (update_all tb cond f).
Proof. intros t Ht. apply wp_update_all; auto. Qed.

Lemma preserves_delete_where cond : preserves x E I (delete_where tb cond).
Proof. intros t Ht. apply wp_delete_where; auto. Qed.

Lemma preserves_update_unique k cond f clash : preserves x E I (update_unique tb k cond f clash).
Proof. intros t Ht. apply wp_update_unique; auto. Qed.

Lemma preserves_delete_rows cond : preserves x E I (delete_rows tb cond).
Proof. intros t Ht. apply wp_delete_rows; auto. Qed.

Lemma preserves_cascade cond : preserves x E I (cascade tb cond).
Proof. intros t Ht. apply wp_cascade; auto. Qed.
End tables.
End preserves.

(** What a program preserves holds when it succeeds. *)
Lemma success_preserves {T A} (E : env) (I : T → Prop) (m : M T A) t :
  preserves InTx E I m → I t → success E m t (λ _ t', I t').
Proof. intros Hm Ht. eapply wp_mono; [by apply Hm|]. by intros [a|e]. Qed.

Create HintDb preserves discriminated.
#[export] Hint Resolve preserves_ret preserves_fail preserves_now preserves_new_id preserves_random_bytes preserves_create_unique
  preserves_statement preserves_gets preserves_guard preserves_first preserves_first_where
  preserves_find preserves_find_ordered preserves_first_ordered preserves_create
  preserves_create_batch preserves_create_do_nothing preserves_upsert preserves_update_where preserves_update
  preserves_update_all preserves_delete_where preserves_update_unique preserves_delete_rows
  preserves_cascade : preserves.

(** [preserve]: walk through a program whose writes [I] ignores; later files add the
    combinators they define to [preserve_more]. *)
Ltac preserve_more := fail.
Ltac preserve :=
  repeat first
    [ progress intros
    | lazymatch goal with
      | |- preserves ?x ?E ?I (let y := ?a in @?f y) =>
          cut (∀ v, preserves x E I (f v)); [intros Hc; exact (Hc a)|intros ?; cbv beta]
      | |- preserves _ _ _ (mbind _ _) => apply preserves_bind
      | |- preserves _ _ _ (attempt _) => apply preserves_attempt
      | |- preserves _ _ _ (transaction _) => apply preserves_transaction
      | |- preserves _ _ _ (for_each _ _) => apply preserves_for_each
      | |- preserves _ _ _ (match ?r with _ => _ end) => destruct r
      end
    | preserve_more
    | solve [auto with preserves typeclass_instances] ].
