(* ===== verification/Schema.v ===== *)
(** * The accounting tables (internal/db)

    One record per row type, with the columns that the modelled code reads or
    writes, and one [table] per gorm model with the CHECK constraint of the
    migrations.  A [time.Time] is a count of nanoseconds from the zero time, so
    [IsZero] is [= 0]; a nullable column is an [option]; a [jsonb] column is
    held decoded.  The audit columns [created_at] and [updated_at] are kept only
    where a query reads them. *)

From S2P Require Import Prelude.
From S2P Require Import Float64.
From S2P Require Import Cost.
From S2P Require Import Database.

(** ** Time *)

(** [t.Sub(u)] saturates at the bounds of a [Duration]. *)
Definition time_sub (t u : Z) : Z := Z.max min_int64 (Z.min max_int64 (t - u)).

Definition second : Z := 1000000000.
Definition minute : Z := 60 * second.

(** ** Constants *)

(* src/internal/db/subscriptions.go:11-12 ParentCapacityUnmetered *)
Inductive CapacityMode := ParentCapacityUnmetered | ParentCapacityObserved.

#[global] Instance CapacityMode_eq_dec : EqDecision CapacityMode.
Proof. solve_decision. Defined.

(* src/internal/db/subscriptions.go:15-18 ReservationActive *)
Inductive ReservationStatus :=
  | ReservationActive | ReservationSettled | ReservationReleased | ReservationExpired.

#[global] Instance ReservationStatus_eq_dec : EqDecision ReservationStatus.
Proof. solve_decision. Defined.

(* src/internal/store/log_units.go:3-7 LogUnitStep *)
Inductive LogUnit := LogUnitUnset | LogUnitStep | LogUnitPrewarm | LogUnitConnection.

#[global] Instance LogUnit_eq_dec : EqDecision LogUnit.
Proof. solve_decision. Defined.

(** Which side paid for a request ([billing_source]). *)
Inductive BillingSource := SourceUnset | SourceBalance | SourceSubscription.

#[global] Instance BillingSource_eq_dec : EqDecision BillingSource.
Proof. solve_decision. Defined.

(** ** Rows *)

(* src/internal/db/models.go:9-31 Tenant *)
Record Tenant := {
  t_ID : string;
  t_Name : string;
  t_OwnerEmail : string;
  t_PasswordHash : string;
  t_MustChangePassword : bool;
  t_PasswordVersion : Z;
  t_Enabled : bool;
  t_IsAdmin : bool;
  t_BalanceNanoUSD : Z;
  t_RateLimitPerMinute : option Z;
  t_TokenLimitDaily : option Z;
  t_TokensUsedToday : Z;
  t_TokensUsedOn : option Z;
  t_ModelAllowlist : list string;
  t_ExpiresAt : option Z;
  t_GitHubID : option Z;
  t_GitHubLogin : string;
  t_HeatmapShareToken : option string
}.
#[export] Instance Tenant_eta : Eta Tenant := λ r, Build_Tenant (t_ID r) (t_Name r)
  (t_OwnerEmail r) (t_PasswordHash r) (t_MustChangePassword r) (t_PasswordVersion r)
  (t_Enabled r) (t_IsAdmin r) (t_BalanceNanoUSD r) (t_RateLimitPerMinute r)
  (t_TokenLimitDaily r) (t_TokensUsedToday r) (t_TokensUsedOn r) (t_ModelAllowlist r)
  (t_ExpiresAt r) (t_GitHubID r) (t_GitHubLogin r) (t_HeatmapShareToken r).

(* src/internal/db/models.go:33-56 APIKey *)
Record APIKey := {
  k_ID : string;
  k_TenantID : string;
  k_Name : string;
  k_Source : string;
  k_DeviceName : string;
  k_DeviceOS : string;
  k_DeviceArch : string;
  k_RAIVersion : string;
  k_KeyHash : string;
  k_KeyCiphertext : option string;
  k_Prefix : string;
  k_Enabled : bool;
  k_RateLimitPerMinute : option Z;
  k_TokenLimitDaily : option Z;
  k_TokensUsedToday : Z;
  k_TokensUsedOn : option Z;
  k_ModelAllowlist : list string;
  k_ExpiresAt : option Z
}.
#[export] Instance APIKey_eta : Eta APIKey := λ r, Build_APIKey (k_ID r) (k_TenantID r)
  (k_Name r) (k_Source r) (k_DeviceName r) (k_DeviceOS r) (k_DeviceArch r) (k_RAIVersion r)
  (k_KeyHash r) (k_KeyCiphertext r) (k_Prefix r) (k_Enabled r) (k_RateLimitPerMinute r)
  (k_TokenLimitDaily r) (k_TokensUsedToday r) (k_TokensUsedOn r) (k_ModelAllowlist r)
  (k_ExpiresAt r).

Inductive LedgerKind := LedgerReservation | LedgerSettlement | LedgerRefund | LedgerCredit.

#[global] Instance LedgerKind_eq_dec : EqDecision LedgerKind.
Proof. solve_decision. Defined.

(* src/internal/db/models.go:134-143 BillingLedger *)
Record BillingLedger := {
  l_ID : string;
  l_TenantID : string;
  l_RequestID : option string;
  l_Kind : LedgerKind;
  l_AmountNanoUSD : Z;
  l_BalanceAfterNanoUSD : Z;
  l_Note : string
}.

(** The part of the decoded [quota_snapshot] document that the store reads. *)
(* src/internal/store/subscriptions.go:1231-1236 claudeQuotaWindowIdle *)
Record SnapshotWindow := {
  sw_Kind : string;
  sw_Used : option float64;
  sw_Reset : option Z;
  sw_Enforceable : bool
}.
#[export] Instance SnapshotWindow_eta : Eta SnapshotWindow := λ r, Build_SnapshotWindow
  (sw_Kind r) (sw_Used r) (sw_Reset r) (sw_Enforceable r).

(* src/internal/store/subscriptions.go:1227-1237 claudeQuotaWindowIdle *)
Record QuotaSnapshot := {
  qs_Source : string;
  qs_Supported : bool;
  qs_Observed : Z;
  qs_Windows : list SnapshotWindow
}.
#[export] Instance QuotaSnapshot_eta : Eta QuotaSnapshot := λ r, Build_QuotaSnapshot
  (qs_Source r) (qs_Supported r) (qs_Observed r) (qs_Windows r).

(** [ps_QuotaSnapshot] is [None] for a document that does not decode; [ps_Metadata] holds
    the string members of the metadata object, [None] when it is not an object. *)
(* src/internal/db/subscriptions.go:25-49 ParentSubscription *)
Record ParentSubscription := {
  ps_ID : string;
  ps_UpstreamCredentialID : string;
  ps_UpstreamAuthIndex : string;
  ps_UpstreamCredentialName : string;
  ps_Name : string;
  ps_Provider : string;
  ps_PlanType : string;
  ps_Status : string;
  ps_UpstreamUnavailable : bool;
  ps_CapacityMode : CapacityMode;
  ps_AllocationLimitPPM : Z;
  ps_Enabled : bool;
  ps_UpstreamModelAllowlist : list string;
  ps_ModelAllowlist : list string;
  ps_LastSyncedAt : option Z;
  ps_QuotaSupported : bool;
  ps_QuotaProbeStatus : string;
  ps_QuotaProbeError : string;
  ps_QuotaObservedAt : option Z;
  ps_QuotaSnapshot : option QuotaSnapshot;
  ps_Metadata : option (gmap string string);
  ps_CreatedAt : Z
}.
#[export] Instance ParentSubscription_eta : Eta ParentSubscription := λ r,
  Build_ParentSubscription (ps_ID r) (ps_UpstreamCredentialID r) (ps_UpstreamAuthIndex r)
  (ps_UpstreamCredentialName r) (ps_Name r) (ps_Provider r) (ps_PlanType r) (ps_Status r)
  (ps_UpstreamUnavailable r) (ps_CapacityMode r) (ps_AllocationLimitPPM r) (ps_Enabled r)
  (ps_UpstreamModelAllowlist r) (ps_ModelAllowlist r) (ps_LastSyncedAt r) (ps_QuotaSupported r)
  (ps_QuotaProbeStatus r) (ps_QuotaProbeError r) (ps_QuotaObservedAt r) (ps_QuotaSnapshot r)
  (ps_Metadata r) (ps_CreatedAt r).

(* src/internal/db/subscriptions.go:51-61 ParentQuotaWindow *)
Record ParentQuotaWindow := {
  pw_ParentSubscriptionID : string;
  pw_Kind : string;
  pw_LimitNanoUSD : Z;
  pw_ResetsAt : Z;
  pw_Source : string;
  pw_ObservedUsedPercent : option float64;
  pw_ObservedAt : option Z
}.
#[export] Instance ParentQuotaWindow_eta : Eta ParentQuotaWindow := λ r, Build_ParentQuotaWindow
  (pw_ParentSubscriptionID r) (pw_Kind r) (pw_LimitNanoUSD r) (pw_ResetsAt r) (pw_Source r)
  (pw_ObservedUsedPercent r) (pw_ObservedAt r).

(* src/internal/db/subscriptions.go:63-75 ParentQuotaObservation *)
Record ParentQuotaObservation := {
  po_ID : string;
  po_ParentSubscriptionID : string;
  po_Kind : string;
  po_UsedPercent : float64;
  po_ResetsAt : Z;
  po_ObservedAt : Z;
  po_CostSincePrevious : Z;
  po_EstimatedLimit : option Z;
  po_Accepted : bool;
  po_Reason : string
}.
#[export] Instance ParentQuotaObservation_eta : Eta ParentQuotaObservation := λ r,
  Build_ParentQuotaObservation (po_ID r) (po_ParentSubscriptionID r) (po_Kind r)
  (po_UsedPercent r) (po_ResetsAt r) (po_ObservedAt r) (po_CostSincePrevious r)
  (po_EstimatedLimit r) (po_Accepted r) (po_Reason r).

(* src/internal/db/subscriptions.go:79-85 ParentQuotaReset *)
Record ParentQuotaReset := {
  pr_ParentSubscriptionID : string;
  pr_Kind : string;
  pr_ResetAt : Z;
  pr_ObservedAt : Z;
  pr_NextResetsAt : Z
}.
#[export] Instance ParentQuotaReset_eta : Eta ParentQuotaReset := λ r, Build_ParentQuotaReset
  (pr_ParentSubscriptionID r) (pr_Kind r) (pr_ResetAt r) (pr_ObservedAt r) (pr_NextResetsAt r).

(* src/internal/db/subscriptions.go:87-100 ChildSubscription *)
Record ChildSubscription := {
  c_ID : string;
  c_TenantID : string;
  c_ParentSubscriptionID : string;
  c_Name : string;
  c_AllocationPPM : Z;
  c_Priority : Z;
  c_Enabled : bool;
  c_ModelAllowlist : list string;
  c_StartsAt : Z;
  c_ExpiresAt : option Z;
  c_CreatedAt : Z
}.
#[export] Instance ChildSubscription_eta : Eta ChildSubscription := λ r, Build_ChildSubscription
  (c_ID r) (c_TenantID r) (c_ParentSubscriptionID r) (c_Name r) (c_AllocationPPM r)
  (c_Priority r) (c_Enabled r) (c_ModelAllowlist r) (c_StartsAt r) (c_ExpiresAt r)
  (c_CreatedAt r).

(* src/internal/db/subscriptions.go:102-112 ChildQuotaWindow *)
Record ChildQuotaWindow := {
  w_ChildSubscriptionID : string;
  w_Kind : string;
  w_StartedAt : Z;
  w_ResetsAt : Z;
  w_LimitNanoUSD : Z;
  w_SettledNanoUSD : Z;
  w_ReservedNanoUSD : Z
}.
#[export] Instance ChildQuotaWindow_eta : Eta ChildQuotaWindow := λ r, Build_ChildQuotaWindow
  (w_ChildSubscriptionID r) (w_Kind r) (w_StartedAt r) (w_ResetsAt r) (w_LimitNanoUSD r)
  (w_SettledNanoUSD r) (w_ReservedNanoUSD r).

(** The element of the [quota_windows] column. *)
(* src/internal/store/subscriptions.go:94-97 quotaWindowReservation *)
Record quotaWindowReservation := {
  qr_Kind : string;
  qr_ResetsAt : Z
}.
#[export] Instance quotaWindowReservation_eta : Eta quotaWindowReservation := λ r,
  Build_quotaWindowReservation (qr_Kind r) (qr_ResetsAt r).

(* src/internal/db/subscriptions.go:116-135 RequestReservation *)
Record RequestReservation := {
  r_RequestID : string;
  r_TenantID : string;
  r_APIKeyID : string;
  r_ChildSubscriptionID : option string;
  r_ParentSubscriptionID : option string;
  r_UpstreamCredentialID : string;
  r_UpstreamAuthIndex : string;
  r_Model : string;
  r_BalanceReservedNanoUSD : Z;
  r_QuotaReservedNanoUSD : Z;
  r_ActualNanoUSD : option Z;
  r_PricingComplete : bool;
  r_PriceSnapshot : string;
  r_QuotaWindows : list quotaWindowReservation;
  r_Status : ReservationStatus;
  r_ExpiresAt : Z;
  r_SettledAt : option Z
}.
#[export] Instance RequestReservation_eta : Eta RequestReservation := λ r,
  Build_RequestReservation (r_RequestID r) (r_TenantID r) (r_APIKeyID r)
  (r_ChildSubscriptionID r) (r_ParentSubscriptionID r) (r_UpstreamCredentialID r)
  (r_UpstreamAuthIndex r) (r_Model r) (r_BalanceReservedNanoUSD r) (r_QuotaReservedNanoUSD r)
  (r_ActualNanoUSD r) (r_PricingComplete r) (r_PriceSnapshot r) (r_QuotaWindows r) (r_Status r)
  (r_ExpiresAt r) (r_SettledAt r).

(** The nine token columns are the fields of one [Usage]. *)
(* src/internal/db/subscriptions.go:140-161 WebSocketTurn *)
Record WebSocketTurn := {
  wt_RequestID : string;
  wt_TurnID : string;
  wt_Model : string;
  wt_Usage : Usage;
  wt_CostNanoUSD : Z;
  wt_PricingComplete : bool;
  wt_RequestBodyBytes : Z;
  wt_ResponseBodyBytes : Z;
  wt_LatencyMS : Z;
  wt_StartedAt : Z;
  wt_CompletedAt : Z;
  wt_CreatedAt : Z
}.
#[export] Instance WebSocketTurn_eta : Eta WebSocketTurn := λ r, Build_WebSocketTurn
  (wt_RequestID r) (wt_TurnID r) (wt_Model r) (wt_Usage r) (wt_CostNanoUSD r)
  (wt_PricingComplete r) (wt_RequestBodyBytes r) (wt_ResponseBodyBytes r) (wt_LatencyMS r)
  (wt_StartedAt r) (wt_CompletedAt r) (wt_CreatedAt r).

(** The descriptive fields that [LogInput] and [RequestLog] share. *)
(* src/internal/store/store.go:81-97 LogInput *)
Record LogTexts := {
  lt_UsageQuality : string;
  lt_Provider : string;
  lt_AuthIndex : string;
  lt_Method : string;
  lt_Path : string;
  lt_UpstreamTraceID : string;
  lt_UpstreamExecutionID : string;
  lt_RequestedModel : string;
  lt_UpstreamModel : string;
  lt_ModelAlias : string;
  lt_ExecutorType : string;
  lt_AuthType : string;
  lt_ServiceTier : string;
  lt_ResponseServiceTier : string;
  lt_ReasoningEffort : string;
  lt_TenantName : string;
  lt_APIKeyName : string;
  lt_APIKeyPrefix : string;
  lt_RequestType : string;
  lt_ClientName : string;
  lt_ClientVersion : string;
  lt_UserAgent : string;
  lt_ErrorCode : string;
  lt_ErrorMessage : string;
  lt_StageTimings : string;
  lt_Stream : bool;
  lt_FirstTokenMS : option Z;
  lt_TTFTMS : option Z;
  lt_ForwardedBodyBytes : Z
}.
#[export] Instance LogTexts_eta : Eta LogTexts := λ r, Build_LogTexts (lt_UsageQuality r)
  (lt_Provider r) (lt_AuthIndex r) (lt_Method r) (lt_Path r) (lt_UpstreamTraceID r)
  (lt_UpstreamExecutionID r) (lt_RequestedModel r) (lt_UpstreamModel r) (lt_ModelAlias r)
  (lt_ExecutorType r) (lt_AuthType r) (lt_ServiceTier r) (lt_ResponseServiceTier r)
  (lt_ReasoningEffort r) (lt_TenantName r) (lt_APIKeyName r) (lt_APIKeyPrefix r)
  (lt_RequestType r) (lt_ClientName r) (lt_ClientVersion r) (lt_UserAgent r) (lt_ErrorCode r)
  (lt_ErrorMessage r) (lt_StageTimings r) (lt_Stream r) (lt_FirstTokenMS r) (lt_TTFTMS r)
  (lt_ForwardedBodyBytes r).

(* src/internal/store/store.go:101-107 LogDetailInput *)
Record LogDetailInput := {
  ld_RequestHeaders : string;
  ld_RequestBody : string;
  ld_ForwardedHeaders : string;
  ld_ForwardedBody : string;
  ld_UpstreamHeaders : string;
  ld_UpstreamBody : string;
  ld_RequestBodyTruncated : bool;
  ld_ForwardedBodyTruncated : bool;
  ld_UpstreamBodyTruncated : bool;
  ld_RequestBodyBytes : Z;
  ld_ForwardedBodyBytes : Z;
  ld_UpstreamBodyBytes : Z;
  ld_UpstreamStatus : Z;
  ld_ErrorName : string;
  ld_ErrorMessage : string;
  ld_ErrorStack : string;
  ld_ErrorCause : string;
  ld_ErrorDetail : string;
  ld_StageTimings : string
}.
#[export] Instance LogDetailInput_eta : Eta LogDetailInput := λ r, Build_LogDetailInput
  (ld_RequestHeaders r) (ld_RequestBody r) (ld_ForwardedHeaders r) (ld_ForwardedBody r)
  (ld_UpstreamHeaders r) (ld_UpstreamBody r) (ld_RequestBodyTruncated r)
  (ld_ForwardedBodyTruncated r) (ld_UpstreamBodyTruncated r) (ld_RequestBodyBytes r)
  (ld_ForwardedBodyBytes r) (ld_UpstreamBodyBytes r) (ld_UpstreamStatus r) (ld_ErrorName r)
  (ld_ErrorMessage r) (ld_ErrorStack r) (ld_ErrorCause r) (ld_ErrorDetail r)
  (ld_StageTimings r).

(* src/internal/store/store.go:80-99 LogInput *)
Record LogInput := {
  li_BillingSource : BillingSource;
  li_LogUnit : LogUnit;
  li_ID : string;
  li_TenantID : string;
  li_APIKeyID : string;
  li_ReservationRequestID : string;
  li_UpstreamRequestID : string;
  li_Model : string;
  li_ActualModel : string;
  li_ParentSubscriptionID : string;
  li_ChildSubscriptionID : string;
  li_StatusCode : Z;
  li_PricingComplete : bool;
  li_Settled : bool;
  li_Usage : Usage;
  li_CostNanoUSD : option Z;
  li_Price : option SnapshotPrice;
  li_ReservedNanoUSD : Z;
  li_LatencyMS : Z;
  li_RequestBodyBytes : Z;
  li_ResponseBodyBytes : Z;
  li_StartedAt : Z;
  li_CompletedAt : Z;
  li_Texts : LogTexts;
  li_Detail : option LogDetailInput
}.
#[export] Instance LogInput_eta : Eta LogInput := λ r, Build_LogInput (li_BillingSource r)
  (li_LogUnit r) (li_ID r) (li_TenantID r) (li_APIKeyID r) (li_ReservationRequestID r)
  (li_UpstreamRequestID r) (li_Model r) (li_ActualModel r) (li_ParentSubscriptionID r)
  (li_ChildSubscriptionID r) (li_StatusCode r) (li_PricingComplete r) (li_Settled r)
  (li_Usage r) (li_CostNanoUSD r) (li_Price r) (li_ReservedNanoUSD r) (li_LatencyMS r)
  (li_RequestBodyBytes r) (li_ResponseBodyBytes r) (li_StartedAt r) (li_CompletedAt r)
  (li_Texts r) (li_Detail r).

(** [rl_Price] stands for the eleven price columns; [None] leaves them at their defaults. *)
(* src/internal/db/models.go:169-248 RequestLog *)
Record RequestLog := {
  rl_ID : string;
  rl_LogUnit : LogUnit;
  rl_TenantID : string;
  rl_APIKeyID : string;
  rl_ReservationRequestID : option string;
  rl_UpstreamRequestID : string;
  rl_Model : string;
  rl_ActualModel : string;
  rl_ParentSubscriptionID : option string;
  rl_ChildSubscriptionID : option string;
  rl_ParentSubscriptionName : string;
  rl_ChildSubscriptionName : string;
  rl_ChannelID : string;
  rl_ChannelName : string;
  rl_CredentialID : string;
  rl_CredentialName : string;
  rl_CredentialEmail : string;
  rl_StatusCode : Z;
  rl_PricingComplete : bool;
  rl_Settled : bool;
  rl_BillingSource : BillingSource;
  rl_Usage : Usage;
  rl_CostNanoUSD : option Z;
  rl_Price : option SnapshotPrice;
  rl_ReservedNanoUSD : Z;
  rl_LatencyMS : Z;
  rl_RequestBodyBytes : Z;
  rl_ResponseBodyBytes : Z;
  rl_StartedAt : Z;
  rl_CompletedAt : Z;
  rl_Texts : LogTexts
}.
#[export] Instance RequestLog_eta : Eta RequestLog := λ r, Build_RequestLog (rl_ID r)
  (rl_LogUnit r) (rl_TenantID r) (rl_APIKeyID r) (rl_ReservationRequestID r)
  (rl_UpstreamRequestID r) (rl_Model r) (rl_ActualModel r) (rl_ParentSubscriptionID r)
  (rl_ChildSubscriptionID r) (rl_ParentSubscriptionName r) (rl_ChildSubscriptionName r)
  (rl_ChannelID r) (rl_ChannelName r) (rl_CredentialID r) (rl_CredentialName r)
  (rl_CredentialEmail r) (rl_StatusCode r) (rl_PricingComplete r) (rl_Settled r)
  (rl_BillingSource r) (rl_Usage r) (rl_CostNanoUSD r) (rl_Price r) (rl_ReservedNanoUSD r)
  (rl_LatencyMS r) (rl_RequestBodyBytes r) (rl_ResponseBodyBytes r) (rl_StartedAt r)
  (rl_CompletedAt r) (rl_Texts r).

(* src/internal/db/models.go:307-316 Invitation *)
Record Invitation := {
  i_ID : string;
  i_TokenHash : string;
  i_Email : string;
  i_ExpiresAt : Z;
  i_UsedAt : option Z;
  i_UsedByTenantID : option string;
  i_RevokedAt : option Z;
  i_CreatedAt : Z
}.
#[export] Instance Invitation_eta : Eta Invitation := λ r, Build_Invitation (i_ID r)
  (i_TokenHash r) (i_Email r) (i_ExpiresAt r) (i_UsedAt r) (i_UsedByTenantID r) (i_RevokedAt r)
  (i_CreatedAt r).

(** A name a key gives to a model. *)
(* src/internal/db/models.go:61-66 APIKeyModelAlias *)
Record APIKeyModelAlias := {
  ma_ID : string;
  ma_APIKeyID : string;
  ma_Alias : string;
  ma_Model : string
}.
#[export] Instance APIKeyModelAlias_eta : Eta APIKeyModelAlias := λ r, Build_APIKeyModelAlias
  (ma_ID r) (ma_APIKeyID r) (ma_Alias r) (ma_Model r).

(* src/internal/db/models.go:320-326 AgentSetup *)
Record AgentSetup := {
  as_TokenHash : string;
  as_TenantID : string;
  as_PayloadCiphertext : string;
  as_ExpiresAt : Z;
  as_CreatedAt : Z
}.
#[export] Instance AgentSetup_eta : Eta AgentSetup := λ r, Build_AgentSetup (as_TokenHash r)
  (as_TenantID r) (as_PayloadCiphertext r) (as_ExpiresAt r) (as_CreatedAt r).

(* src/internal/db/models.go:331-349 RAIAuthorization *)
Record RAIAuthorizationRow := {
  a_UserCodeHash : option string;
  a_Purpose : string;
  a_DeviceOS : string;
  a_DeviceArch : string;
  a_RAIVersion : string;
  a_ID : string;
  a_TenantID : option string;
  a_DeviceName : string;
  a_CodeChallenge : string;
  a_CodeChallengeMethod : string;
  a_Status : string;
  a_APIKeyID : option string;
  a_APIKeyCiphertext : option string;
  a_CreatedAt : Z;
  a_ExpiresAt : Z;
  a_ApprovedAt : option Z;
  a_ConsumedAt : option Z
}.
#[export] Instance RAIAuthorizationRow_eta : Eta RAIAuthorizationRow := λ r,
  Build_RAIAuthorizationRow (a_UserCodeHash r) (a_Purpose r) (a_DeviceOS r) (a_DeviceArch r)
  (a_RAIVersion r) (a_ID r) (a_TenantID r) (a_DeviceName r) (a_CodeChallenge r)
  (a_CodeChallengeMethod r) (a_Status r) (a_APIKeyID r) (a_APIKeyCiphertext r) (a_CreatedAt r)
  (a_ExpiresAt r) (a_ApprovedAt r) (a_ConsumedAt r).

(* src/internal/db/models.go:352-365 RAIOAuthSession *)
Record RAIOAuthSession := {
  os_ID : string;
  os_TenantID : string;
  os_Purpose : string;
  os_APIKeyID : option string;
  os_RefreshTokenHash : string;
  os_PasswordVersion : Z;
  os_DeviceName : string;
  os_DeviceOS : string;
  os_DeviceArch : string;
  os_RAIVersion : string;
  os_CreatedAt : Z;
  os_ExpiresAt : Z
}.
#[export] Instance RAIOAuthSession_eta : Eta RAIOAuthSession := λ r, Build_RAIOAuthSession
  (os_ID r) (os_TenantID r) (os_Purpose r) (os_APIKeyID r) (os_RefreshTokenHash r)
  (os_PasswordVersion r) (os_DeviceName r) (os_DeviceOS r) (os_DeviceArch r) (os_RAIVersion r)
  (os_CreatedAt r) (os_ExpiresAt r).

(** ** The database

    The ledger is kept in insertion order, because its entries are only ever
    appended. *)
Record tables := {
  tb_key_aliases : gmap string APIKeyModelAlias;
  tb_agent_setups : gmap string AgentSetup;
  tb_tenants : gmap string Tenant;
  tb_api_keys : gmap string APIKey;
  tb_ledger : list BillingLedger;
  tb_parents : gmap string ParentSubscription;
  tb_parent_windows : gmap (string * string) ParentQuotaWindow;
  tb_observations : gmap string ParentQuotaObservation;
  tb_resets : gmap (string * string * Z) ParentQuotaReset;
  tb_children : gmap string ChildSubscription;
  tb_child_windows : gmap (string * string) ChildQuotaWindow;
  tb_reservations : gmap string RequestReservation;
  tb_turns : gmap (string * string) WebSocketTurn;
  tb_request_logs : gmap string RequestLog;
  tb_log_details : gmap string LogDetailInput;
  tb_invitations : gmap string Invitation;
  tb_authorizations : gmap string RAIAuthorizationRow;
  tb_sessions : gmap string RAIOAuthSession
}.
#[export] Instance tables_eta : Eta tables := λ r, Build_tables (tb_key_aliases r)
  (tb_agent_setups r) (tb_tenants r) (tb_api_keys r)
  (tb_ledger r) (tb_parents r) (tb_parent_windows r) (tb_observations r) (tb_resets r)
  (tb_children r) (tb_child_windows r) (tb_reservations r) (tb_turns r) (tb_request_logs r)
  (tb_log_details r) (tb_invitations r) (tb_authorizations r) (tb_sessions r).

(** The CHECK constraints of [child_quota_windows] and of the allocation columns. *)
(* src/internal/db/migrations.go:30-37 child_quota_limit_check *)
Definition child_window_check (w : ChildQuotaWindow) : bool :=
  (0 <? w_LimitNanoUSD w) && (0 <=? w_SettledNanoUSD w) && (0 <=? w_ReservedNanoUSD w).

Definition parent_window_check (w : ParentQuotaWindow) : bool := 0 <? pw_LimitNanoUSD w.
Definition child_check (c : ChildSubscription) : bool := 0 <? c_AllocationPPM c.
Definition parent_check (p : ParentSubscription) : bool := 0 <? ps_AllocationLimitPPM p.

Definition tenants : table tables string Tenant :=
  Table tb_tenants (λ m t, t <| tb_tenants := m |>) (λ _, true).
Definition api_keys : table tables string APIKey :=
  Table tb_api_keys (λ m t, t <| tb_api_keys := m |>) (λ _, true).
Definition parents : table tables string ParentSubscription :=
  Table tb_parents (λ m t, t <| tb_parents := m |>) parent_check.
Definition parent_windows : table tables (string * string) ParentQuotaWindow :=
  Table tb_parent_windows (λ m t, t <| tb_parent_windows := m |>) parent_window_check.
Definition observations : table tables string ParentQuotaObservation :=
  Table tb_observations (λ m t, t <| tb_observations := m |>) (λ _, true).
Definition resets : table tables (string * string * Z) ParentQuotaReset :=
  Table tb_resets (λ m t, t <| tb_resets := m |>) (λ _, true).
Definition children : table tables string ChildSubscription :=
  Table tb_children (λ m t, t <| tb_children := m |>) child_check.
Definition child_windows : table tables (string * string) ChildQuotaWindow :=
  Table tb_child_windows (λ m t, t <| tb_child_windows := m |>) child_window_check.
Definition reservations : table tables string RequestReservation :=
  Table tb_reservations (λ m t, t <| tb_reservations := m |>) (λ _, true).
Definition turns : table tables (string * string) WebSocketTurn :=
  Table tb_turns (λ m t, t <| tb_turns := m |>) (λ _, true).
Definition request_logs : table tables string RequestLog :=
  Table tb_request_logs (λ m t, t <| tb_request_logs := m |>) (λ _, true).
Definition log_details : table tables string LogDetailInput :=
  Table tb_log_details (λ m t, t <| tb_log_details := m |>) (λ _, true).
Definition invitations : table tables string Invitation :=
  Table tb_invitations (λ m t, t <| tb_invitations := m |>) (λ _, true).
Definition authorizations : table tables string RAIAuthorizationRow :=
  Table tb_authorizations (λ m t, t <| tb_authorizations := m |>) (λ _, true).
Definition sessions : table tables string RAIOAuthSession :=
  Table tb_sessions (λ m t, t <| tb_sessions := m |>) (λ _, true).

Definition key_aliases : table tables string APIKeyModelAlias :=
  Table tb_key_aliases (λ m t, t <| tb_key_aliases := m |>) (λ _, true).
Definition agent_setups : table tables string AgentSetup :=
  Table tb_agent_setups (λ m t, t <| tb_agent_setups := m |>) (λ _, true).

#[export] Instance tenants_lawful : LawfulTable tenants.
Proof. by split. Qed.
#[export] Instance api_keys_lawful : LawfulTable api_keys.
Proof. by split. Qed.
#[export] Instance parents_lawful : LawfulTable parents.
Proof. by split. Qed.
#[export] Instance parent_windows_lawful : LawfulTable parent_windows.
Proof. by split. Qed.
#[export] Instance observations_lawful : LawfulTable observations.
Proof. by split. Qed.
#[export] Instance resets_lawful : LawfulTable resets.
Proof. by split. Qed.
#[export] Instance children_lawful : LawfulTable children.
Proof. by split. Qed.
#[export] Instance child_windows_lawful : LawfulTable child_windows.
Proof. by split. Qed.
#[export] Instance reservations_lawful : LawfulTable reservations.
Proof. by split. Qed.
#[export] Instance turns_lawful : LawfulTable turns.
Proof. by split. Qed.
#[export] Instance request_logs_lawful : LawfulTable request_logs.
Proof. by split. Qed.
#[export] Instance log_details_lawful : LawfulTable log_details.
Proof. by split. Qed.
#[export] Instance invitations_lawful : LawfulTable invitations.
Proof. by split. Qed.
#[export] Instance authorizations_lawful : LawfulTable authorizations.
Proof. by split. Qed.
#[export] Instance key_aliases_lawful : LawfulTable key_aliases.
Proof. by split. Qed.
#[export] Instance agent_setups_lawful : LawfulTable agent_setups.
Proof. by split. Qed.
#[export] Instance sessions_lawful : LawfulTable sessions.
Proof. by split. Qed.

Definition empty_tables : tables :=
  Build_tables ∅ ∅ ∅ ∅ [] ∅ ∅ ∅ ∅ ∅ ∅ ∅ ∅ ∅ ∅ ∅ ∅ ∅.

Definition DB (A : Type) : Type := M tables A.

(** [tx.Create(&db.BillingLedger{...})]. *)
Definition create_ledger (entry : BillingLedger) : DB unit :=
  statement;;
  entries ← gets tb_ledger;
  guard_that (negb (existsb (λ e, bool_decide (l_ID e = l_ID entry)) entries)) ErrDuplicatedKey;;
  modify (λ t, t <| tb_ledger := entries ++ [entry] |>).

(** [notFound(err)]. *)
(* src/internal/store/store.go:113-118 notFound *)
Definition notFound (e : error) : error :=
  if bool_decide (e = ErrRecordNotFound) then ErrNotFound else e.

(** [if err := m; err != nil { return f(err) }]. *)
Definition map_error {T A} (f : error → error) (m : M T A) : M T A :=
  r ← attempt m;
  match r with
  | Ok a => mret a
  | Err e => fail (f e)
  end.

Lemma wp_map_error {T A} x E f (m : M T A) t Q :
  wp x E m t (λ r t', match r with Ok a => Q (Ok a) t' | Err e => Q (Err (f e)) t' end) →
  wp x E (map_error f m) t Q.
Proof.
  intros H. apply wp_bind, wp_attempt. eapply wp_mono; [exact H|].
  intros [a|e] t' H'; [by apply wp_ret | by apply wp_fail].
Qed.

Lemma wp_create_ledger x E entry t (Q : result unit → tables → Prop) :
  Q (Ok ()) (t <| tb_ledger := tb_ledger t ++ [entry] |>) →
  Q (Err ErrDuplicatedKey) t →
  (x = Direct → ¬ quiet E → ∀ d, Q (Err (ErrConnection d)) t) →
  wp x E (create_ledger entry) t Q.
Proof.
  intros H1 H2 H3. apply wp_bind, wp_statement; [|done]. apply wp_bind, wp_gets.
  apply wp_bind, wp_guard; [|done]. intros _. by apply wp_modify.
Qed.

Lemma success_map_error {T A} E f (m : M T A) t (P : A → T → Prop) :
  success E m t P → success E (map_error f m) t P.
Proof. intros H. apply wp_map_error. eapply wp_mono; [exact H|]. by intros [a|e] t'. Qed.

Lemma success_create_ledger E entry t (P : unit → tables → Prop) :
  P () (t <| tb_ledger := tb_ledger t ++ [entry] |>) → success E (create_ledger entry) t P.
Proof. intros H. by apply wp_create_ledger. Qed.

(** A predicate that does not depend on the ledger. *)
Class IgnoresLedger (I : tables → Prop) : Prop :=
  ignores_ledger : ∀ l t, I t → I (t <| tb_ledger := l |>).

Lemma preserves_create_ledger x E I `{!IgnoresLedger I} entry : preserves x E I (create_ledger entry).
Proof. unfold create_ledger. preserve. apply preserves_modify. intros t. apply ignores_ledger. Qed.

Lemma preserves_map_error {T A} x E (I : T → Prop) f (m : M T A) :
  preserves x E I m → preserves x E I (map_error f m).
Proof. intros Hm. unfold map_error. preserve. Qed.

#[export] Hint Resolve preserves_create_ledger : preserves.
Ltac preserve_more ::=
  lazymatch goal with |- preserves _ _ _ (map_error _ _) => apply preserves_map_error end.
