(* ===== verification/QuotaMath.v ===== *)
(** * Quota arithmetic (internal/store/subscriptions.go)

    The share of a parent window that a child owns, the capacity estimated
    from an upstream percentage, and the median that smooths the estimates.
    [big.Int] is [Z]; its [Div] by a positive number is [Z.div]. *)

From S2P Require Import Prelude.

(** [result.Int64()] when it fits, otherwise the largest [int64]. *)
Definition clamp_int64 (r : Z) : Z := if bool_decide (in_int64 r) then r else max_int64.

(* src/internal/store/subscriptions.go:1632-1642 fraction *)
Definition fraction (value ppm : Z) : Z :=
  if (value <=? 0) || (ppm <=? 0) then 0
  else clamp_int64 (value * ppm / 1000000).

(* src/internal/store/subscriptions.go:1644-1654 percentageCapacity *)
Definition percentageCapacity (costNanoUSD deltaMicros : Z) : Z :=
  if (costNanoUSD <=? 0) || (deltaMicros <=? 0) then 0
  else clamp_int64 (costNanoUSD * 100000000 / deltaMicros).

(* src/internal/store/subscriptions.go:1656-1673 medianInt64 *)
Definition medianInt64 (values : list Z) : Z :=
  if bool_decide (length values = 0%nat) then 0
  else
    let items := merge_sort Z.le values in
    let middle := Nat.div (length items) 2 in
    if bool_decide (Nat.modulo (length items) 2 = 1%nat) then items !!! middle
    else clamp_int64 ((items !!! (middle - 1)%nat + items !!! middle) / 2).

(** ** Lemmas *)

Lemma clamp_int64_nonneg r : 0 ≤ r → clamp_int64 r = Z.min max_int64 r.
Proof. intros. unfold clamp_int64. case_bool_decide; int64_lia. Qed.

Lemma fraction_eq value ppm : 0 < value → 0 < ppm →
  fraction value ppm = Z.min max_int64 (value * ppm / 1000000).
Proof.
  intros. unfold fraction. rewrite !(proj2 (Z.leb_gt _ _)) by lia. cbn [orb].
  apply clamp_int64_nonneg, Z.div_pos; lia.
Qed.

Lemma fraction_nonpos value ppm : value ≤ 0 ∨ ppm ≤ 0 → fraction value ppm = 0.
Proof. intros. unfold fraction. case_if; [done|]. lia. Qed.

Lemma fraction_range value ppm : 0 ≤ fraction value ppm ≤ max_int64.
Proof.
  destruct (decide (0 < value ∧ 0 < ppm)) as [[? ?]|?].
  - rewrite fraction_eq by done. pose proof (Z.div_pos (value * ppm) 1000000). int64_lia.
  - rewrite fraction_nonpos by lia. int64_lia.
Qed.

(** The share never exceeds the exact rational share. *)
Lemma fraction_le value ppm : 0 ≤ value → 0 ≤ ppm → fraction value ppm * 1000000 ≤ value * ppm.
Proof.
  intros Hv Hp. destruct (decide (0 < value ∧ 0 < ppm)) as [[? ?]|?].
  - rewrite fraction_eq by done. pose proof (Z.mul_div_le (value * ppm) 1000000). lia.
  - rewrite fraction_nonpos by lia. nia.
Qed.

#[export] Hint Resolve fraction_range : int64.

Lemma sorted_le_lookup (l : list Z) i j x y : Sorted Z.le l → (i ≤ j)%nat →
  l !! i = Some x → l !! j = Some y → x ≤ y.
Proof.
  intros Hs%Sorted_StronglySorted; [|intros ???; lia].
  intros Hij Hi Hj. revert i j Hij Hi Hj.
  induction Hs as [|z l Hs IH Hall]; intros i j Hij Hi Hj; [done|].
  destruct i as [|i], j as [|j]; cbn in *; simplify_eq; try lia.
  - rewrite list.Forall_forall in Hall. apply Hall. by eapply list_elem_of_lookup_2.
  - apply (IH i j); [lia|done|done].
Qed.

Lemma count_take_sorted (P : Z → Prop) `{∀ x, Decision (P x)} (l : list Z) :
  ∀ n, (∀ i x, (i < n)%nat → l !! i = Some x → P x) → (n ≤ length l)%nat →
  (n ≤ length (filter P l))%nat.
Proof.
  induction l as [|y l IH]; intros n HP Hn; [cbn in *; lia|]. destruct n as [|n]; [lia|].
  rewrite filter_cons_True by (apply (HP 0%nat); [lia|done]). cbn in *.
  apply le_n_S, IH; [|lia]. intros i x Hi Hx. apply (HP (S i)); [lia|done].
Qed.

Lemma filter_length_permutation (P : Z → Prop) `{∀ x, Decision (P x)} (l l' : list Z) :
  l ≡ₚ l' → length (filter P l) = length (filter P l').
Proof. intros Hl. by rewrite Hl. Qed.

Section median.
Context (values : list Z) (Hne : values ≠ []) (Hrange : Forall in_int64 values).

Let items := merge_sort Z.le values.
Let middle := Nat.div (length items) 2.

Lemma items_permutation : items ≡ₚ values.
Proof. apply merge_sort_Permutation. Qed.

Lemma items_sorted : Sorted Z.le items.
Proof. apply Sorted_merge_sort; [intros ??; lia]. Qed.

Lemma items_length : (0 < length items)%nat.
Proof. rewrite items_permutation. destruct values; [done|cbn; lia]. Qed.

(** The median lies between the middle items. *)
Lemma median_between : ∃ lo hi,
  items !! (length items - 1 - middle)%nat = Some lo ∧ items !! middle = Some hi ∧
  lo ≤ medianInt64 values ≤ hi.
Proof.
  pose proof items_length as Hlen. pose proof items_sorted as Hs.
  pose proof (Nat.div_mod_eq (length items) 2) as Hdm.
  pose proof (Nat.mod_upper_bound (length items) 2 ltac:(lia)) as Hmod.
  assert (Hin : ∀ i x, items !! i = Some x → in_int64 x).
  { intros i x Hx%list_elem_of_lookup_2. rewrite items_permutation in Hx.
    rewrite list.Forall_forall in Hrange. by apply Hrange. }
  destruct (lookup_lt_is_Some_2 items middle) as [hi Hhi]; [unfold middle; lia|].
  destruct (lookup_lt_is_Some_2 items (length items - 1 - middle)%nat) as [lo Hlo]; [lia|].
  exists lo, hi. split_and!; [done|done|..].
  all: pose proof (sorted_le_lookup items _ _ _ _ Hs
         (ltac:(unfold middle; lia) : (length items - 1 - middle ≤ middle)%nat) Hlo Hhi).
  all: pose proof (Hin _ _ Hlo); pose proof (Hin _ _ Hhi).
  all: unfold medianInt64; fold items; fold middle.
  all: rewrite (bool_decide_eq_false_2 (length values = 0%nat))
         by (destruct values; [done|cbn; lia]); case_bool_decide as Hodd.
  all: rewrite ?(list_lookup_total_correct _ _ _ Hhi).
  - replace (length items - 1 - middle)%nat with middle in Hlo by (unfold middle; lia).
    simplify_eq. lia.
  - replace (length items - 1 - middle)%nat with (middle - 1)%nat in Hlo by (unfold middle; lia).
    rewrite (list_lookup_total_correct _ _ _ Hlo). unfold clamp_int64.
    rewrite bool_decide_eq_true_2; [|int64_unfold; split]; apply Z.div_le_lower_bound || apply Z.div_le_upper_bound; int64_lia.
  - lia.
  - replace (length items - 1 - middle)%nat with (middle - 1)%nat in Hlo by (unfold middle; lia).
    rewrite (list_lookup_total_correct _ _ _ Hlo). unfold clamp_int64.
    rewrite bool_decide_eq_true_2; [|int64_unfold; split]; apply Z.div_le_lower_bound || apply Z.div_le_upper_bound; int64_lia.
Qed.
End median.

(** ** Properties *)

(** As long as the allocations of the children of a parent add up to at most one
    million parts, the shares that [fraction] hands out add up to at most the parent's limit:
    rounding never oversubscribes the upstream account. *)
Theorem shares_within_parent_limit (value : Z) (allocations : list Z) :
  0 ≤ value → Forall (λ ppm, 0 ≤ ppm) allocations → sum_by id allocations ≤ 1000000 →
  sum_by (fraction value) allocations ≤ value.
Proof.
  intros Hv Hall Hsum.
  enough (sum_by (fraction value) allocations * 1000000 ≤ value * sum_by id allocations) by nia.
  clear Hsum. induction Hall as [|ppm l Hppm _ IH]; rewrite ?sum_by_nil, ?sum_by_cons; [lia|].
  pose proof (fraction_le value ppm Hv Hppm). unfold id at 1. lia.
Qed.

Lemma shares_within_parent_limit_witness :
  sum_by (fraction 1000) [333333; 333333; 333334] ≤ 1000.
Proof.
  apply (shares_within_parent_limit 1000); [lia | repeat constructor; lia | vm_compute; congruence].
Defined.

(** The capacity estimated from a cost and an upstream percentage step is the largest
    integer capacity of which that step costs no more than was observed, unless it saturates at
    the largest [int64]; without a positive cost and step the estimate is zero. *)
Theorem percentageCapacity_spec (costNanoUSD deltaMicros : Z) :
  let capacity := percentageCapacity costNanoUSD deltaMicros in
  0 ≤ capacity ≤ max_int64 ∧
  (costNanoUSD ≤ 0 ∨ deltaMicros ≤ 0 → capacity = 0) ∧
  (0 < costNanoUSD → 0 < deltaMicros →
   capacity * deltaMicros ≤ costNanoUSD * 100000000 ∧
   (capacity < max_int64 → costNanoUSD * 100000000 < (capacity + 1) * deltaMicros)).
Proof.
  cbn zeta. unfold percentageCapacity.
  destruct (decide (0 < costNanoUSD ∧ 0 < deltaMicros)) as [[Hc Hd]|Hn].
  - rewrite !(proj2 (Z.leb_gt _ _)) by lia. cbn [orb].
    pose proof (Z.div_pos (costNanoUSD * 100000000) deltaMicros ltac:(lia) Hd) as Hpos.
    rewrite clamp_int64_nonneg by done.
    pose proof (Z.div_mod (costNanoUSD * 100000000) deltaMicros ltac:(lia)).
    pose proof (Z.mod_pos_bound (costNanoUSD * 100000000) deltaMicros Hd).
    assert (0 ≤ max_int64) by int64_lia. split_and!; [lia | lia | lia |]. intros _ _.
    split; [nia|]. intros. rewrite Z.min_r by lia. nia.
  - assert (0 ≤ max_int64) by int64_lia.
    destruct (Z.leb_spec costNanoUSD 0), (Z.leb_spec deltaMicros 0); cbn [orb]; lia.
Qed.

(** [medianInt64] is a median: it does not depend on the order of the samples, and at
    least half of the samples (rounded up) lie at or below it and at least half at or above. *)
Theorem median_splits_samples (values values' : list Z) :
  values ≠ [] → Forall in_int64 values → values' ≡ₚ values →
  medianInt64 values' = medianInt64 values ∧
  (length values ≤ 2 * length (filter (λ v, (v ≤ medianInt64 values)%Z) values))%nat ∧
  (length values ≤ 2 * length (filter (λ v, (medianInt64 values ≤ v)%Z) values))%nat.
Proof.
  intros Hne Hrange Hperm.
  assert (Hsort : merge_sort Z.le values' = merge_sort Z.le values).
  { apply (Sorted_unique Z.le); [apply Sorted_merge_sort; intros ??; lia..|].
    by rewrite !merge_sort_Permutation. }
  split; [unfold medianInt64; by rewrite Hsort, (Permutation_length Hperm)|].
  destruct (median_between values Hne Hrange) as (lo & hi & Hlo & Hhi & Hm).
  pose proof (items_permutation values) as Hp. pose proof (items_sorted values) as Hs.
  set (items := merge_sort Z.le values) in *. set (m := medianInt64 values) in *.
  set (k := Nat.div (length items) 2) in *.
  pose proof (lookup_lt_Some _ _ _ Hhi) as Hk. pose proof (lookup_lt_Some _ _ _ Hlo) as Hk'.
  pose proof (Nat.div_mod_eq (length items) 2) as Hdm.
  pose proof (Nat.mod_upper_bound (length items) 2 ltac:(lia)) as Hmod.
  rewrite <- !(filter_length_permutation _ items values) by done.
  rewrite <- (Permutation_length Hp). split.
  - assert (length items - k ≤ length (filter (λ v, (v ≤ m)%Z) items))%nat; [|unfold k in *; lia].
    apply count_take_sorted; [|lia]. intros i y Hi Hy.
    assert (y ≤ lo)%Z by (eapply sorted_le_lookup; [exact Hs| |exact Hy|exact Hlo]; lia). lia.
  - rewrite <- (length_reverse items), <- (filter_length_permutation _ (reverse items) items)
      by apply reverse_Permutation.
    assert (length items - k ≤ length (filter (λ v, (m ≤ v)%Z) (reverse items)))%nat;
      [|rewrite length_reverse; unfold k in *; lia].
    apply count_take_sorted; [|rewrite length_reverse; lia]. intros i y Hi Hy.
    rewrite reverse_lookup in Hy by lia.
    assert (hi ≤ y)%Z by (eapply sorted_le_lookup; [exact Hs| |exact Hhi|exact Hy]; lia). lia.
Qed.

Lemma median_splits_samples_witness :
  medianInt64 [40; 10; 20; 30] = medianInt64 [10; 20; 30; 40] ∧
  (4 ≤ 2 * length (filter (λ v, v ≤ 25) [10; 20; 30; 40])%Z)%nat.
Proof.
  destruct (median_splits_samples [10; 20; 30; 40] [40; 10; 20; 30]) as (H & H' & _).
  - done.
  - vm_dec.
  - by apply (Permutation_cons_append [10; 20; 30] 40).
  - split; [exact H | exact H'].
Defined.
