(* ===== verification/QuotaWindows.v ===== *)
(** * Quota windows of a parent subscription (internal/store/subscriptions.go)

    An upstream account meters itself in windows ("5h", "weekly", ...).  The
    store learns the capacity of a window from observed percentages and from
    what was charged meanwhile, lets an administrator override it, and makes the
    windows of the children follow the generation of the parent's. *)

From Stdlib Require Import SpecFloat.
From S2P Require Import Prelude.
From S2P Require Import Float64.
From S2P Require Import Database.
From S2P Require Import Schema.
From S2P Require Import QuotaMath.

(* src/internal/store/subscriptions.go:34-34 quotaResetJitterTolerance *)
Definition quotaResetJitterTolerance : Z := minute.

(* src/internal/store/subscriptions.go:40-40 quotaCalibrationMinDeltaMicros *)
Definition quotaCalibrationMinDeltaMicros : Z := 100000.

(* src/internal/store/subscriptions.go:41-41 quotaEstimateSampleLimit *)
Definition quotaEstimateSampleLimit : nat := 21.

Definition ParentQuotaSourceManualConversion : string := "manual_conversion".
Definition ParentQuotaSourceObserved : string := "observed".

(** Two reset times within a minute are one generation. *)
Definition within_jitter (delta : Z) : bool :=
  (- quotaResetJitterTolerance <=? delta) && (delta <=? quotaResetJitterTolerance).

(** ** The children follow the parent *)

(* src/internal/store/subscriptions.go:594-619 syncChildQuotaWindowGeneration *)
Definition sync_child (kind : string) (parentLimit resetsAt startedAt : Z)
    (child : ChildSubscription) : DB unit :=
  let limit := fraction parentLimit (c_AllocationPPM child) in
  current ← attempt (first child_windows (c_ID child, kind));
  match current with
  | Err ErrRecordNotFound =>
      create child_windows (c_ID child, kind)
        {| w_ChildSubscriptionID := c_ID child; w_Kind := kind; w_StartedAt := startedAt;
           w_ResetsAt := resetsAt; w_LimitNanoUSD := limit;
           w_SettledNanoUSD := 0; w_ReservedNanoUSD := 0 |}
  | Err e => fail e
  | Ok current =>
      let key := (w_ChildSubscriptionID current, w_Kind current) in
      if w_ResetsAt current =? resetsAt then
        update child_windows key (λ w, w <| w_LimitNanoUSD := limit |>);;
        mret ()
      else if w_ResetsAt current <? resetsAt then
        update child_windows key (λ w,
          w <| w_StartedAt := startedAt; w_ResetsAt := resetsAt; w_LimitNanoUSD := limit;
               w_SettledNanoUSD := 0; w_ReservedNanoUSD := 0 |>);;
        mret ()
      else mret ()
  end.

(* src/internal/store/subscriptions.go:588-621 syncChildQuotaWindowGeneration *)
Definition syncChildQuotaWindowGeneration (parentID kind : string)
    (parentLimit resetsAt startedAt : Z) : DB unit :=
  rows ← find children (λ c, bool_decide (c_ParentSubscriptionID c = parentID));
  for_each (sync_child kind parentLimit resetsAt startedAt) rows;;
  mret ().

(** ** Learning the capacity *)

Definition observation_of (parentID kind : string) (o : ParentQuotaObservation) : bool :=
  bool_decide (po_ParentSubscriptionID o = parentID) && bool_decide (po_Kind o = kind).

(** [ORDER BY observed_at DESC]. *)
Definition newest_first (o o' : ParentQuotaObservation) : Prop := po_ObservedAt o' ≤ po_ObservedAt o.
#[export] Instance newest_first_dec o o' : Decision (newest_first o o').
Proof. unfold newest_first. apply _. Defined.

(* src/internal/store/subscriptions.go:542-552 quotaCalibrationBaseline *)
Definition quotaCalibrationBaseline (parentID kind : string) (resetsAt : Z)
    (fallback : ParentQuotaObservation) : DB ParentQuotaObservation :=
  baseline ← attempt (first_ordered observations (λ o,
    observation_of parentID kind o && (po_ResetsAt o =? resetsAt) &&
    (po_Accepted o ||
     bool_decide (po_Reason o ∈ ["initial_sample"; "window_reset"; "percentage_decreased"])))
    newest_first);
  match baseline with
  | Ok baseline => mret baseline
  | Err ErrRecordNotFound => mret fallback
  | Err e => fail e
  end.

(* src/internal/store/subscriptions.go:554-564 quotaGenerationEstimate *)
Definition quotaGenerationEstimate (parentID kind : string) (resetsAt : Z) : DB Z :=
  rows ← find_ordered observations (λ o,
    observation_of parentID kind o && (po_ResetsAt o =? resetsAt) && po_Accepted o &&
    bool_decide (is_Some (po_EstimatedLimit o))) newest_first;
  let estimates := omap po_EstimatedLimit (take quotaEstimateSampleLimit rows) in
  mret (medianInt64 estimates).

(** The answer is the limit and the observation, when a limit was learned. *)
(* src/internal/store/subscriptions.go:566-581 learnedQuotaWindow *)
Definition learnedQuotaWindow (parentID kind : string)
    : DB (option (Z * ParentQuotaObservation)) :=
  latest ← attempt (first_ordered observations (observation_of parentID kind) newest_first);
  match latest with
  | Err ErrRecordNotFound => mret None
  | Err e => fail e
  | Ok latest =>
      now ← time_now;
      if negb (now <? po_ResetsAt latest) then mret None
      else
        limit ← quotaGenerationEstimate parentID kind (po_ResetsAt latest);
        mret (if 0 <? limit then Some (limit, latest) else None)
  end.

(** The columns an upsert of a parent window overwrites. *)
Definition assign_parent_window (old new : ParentQuotaWindow) : ParentQuotaWindow :=
  old <| pw_LimitNanoUSD := pw_LimitNanoUSD new; pw_ResetsAt := pw_ResetsAt new;
         pw_Source := pw_Source new; pw_ObservedUsedPercent := pw_ObservedUsedPercent new;
         pw_ObservedAt := pw_ObservedAt new |>.

Definition invalid_window : error := ErrMessage "invalid parent quota window".

(** One administrator override. *)
(* src/internal/store/subscriptions.go:311-343 SetParentQuotaWindows *)
Definition set_window (parentID : string) (window : ParentQuotaWindow) : DB string :=
  now ← time_now;
  let window := window <| pw_ParentSubscriptionID := parentID;
                          pw_Kind := trim_space (pw_Kind window) |> in
  guard_that (negb (bool_decide (pw_Kind window = "") || (pw_LimitNanoUSD window <=? 0) ||
                    negb (now <? pw_ResetsAt window))) invalid_window;;
  let window := window <| pw_Source := if bool_decide (pw_Source window = "")
                                       then ParentQuotaSourceManualConversion
                                       else pw_Source window |> in
  let key := (parentID, pw_Kind window) in
  existing ← attempt (first parent_windows key);
  resetsAt ←
    match existing with
    | Ok existing =>
        let delta := time_sub (pw_ResetsAt window) (pw_ResetsAt existing) in
        if within_jitter delta then mret (pw_ResetsAt existing)
        else if delta <? 0 then fail (ErrMessage "quota window resets_at cannot move backwards")
        else mret (pw_ResetsAt window)
    | Err ErrRecordNotFound => mret (pw_ResetsAt window)
    | Err e => fail e
    end;
  let window := window <| pw_ResetsAt := resetsAt |> in
  upsert parent_windows key window assign_parent_window;;
  startedAt ← time_now;
  syncChildQuotaWindowGeneration parentID (pw_Kind window) (pw_LimitNanoUSD window)
    (pw_ResetsAt window) startedAt;;
  mret (pw_Kind window).

(** A cleared override gives way to the learned estimate. *)
(* src/internal/store/subscriptions.go:358-380 SetParentQuotaWindows *)
Definition reveal_window (parentID : string) (kinds : list string) (existing : ParentQuotaWindow)
    : DB unit :=
  if bool_decide (pw_Kind existing ∈ kinds) then mret ()
  else
    learned ← learnedQuotaWindow parentID (pw_Kind existing);
    match learned with
    | None => mret ()
    | Some (limit, observed) =>
        create parent_windows (parentID, pw_Kind existing)
          {| pw_ParentSubscriptionID := parentID; pw_Kind := pw_Kind existing;
             pw_LimitNanoUSD := limit; pw_ResetsAt := po_ResetsAt observed;
             pw_Source := ParentQuotaSourceObserved;
             pw_ObservedUsedPercent := Some (po_UsedPercent observed);
             pw_ObservedAt := Some (po_ObservedAt observed) |};;
        syncChildQuotaWindowGeneration parentID (pw_Kind existing) limit (po_ResetsAt observed)
          (po_ObservedAt observed)
    end.

(* src/internal/store/subscriptions.go:298-383 SetParentQuotaWindows *)
Definition SetParentQuotaWindows (parentID : string) (windows : list ParentQuotaWindow) : DB unit :=
  transaction (
    map_error notFound (first parents parentID);;
    let manual w := bool_decide (pw_ParentSubscriptionID w = parentID) &&
                    bool_decide (pw_Source w = ParentQuotaSourceManualConversion) in
    existingManualWindows ← find parent_windows manual;
    kinds ← for_each (set_window parentID) windows;
    delete_where parent_windows (λ w, manual w && negb (bool_decide (pw_Kind w ∈ kinds)));;
    for_each (reveal_window parentID kinds) existingManualWindows;;
    mret ()).

(** ** Recording an observation *)

(** The constants [1e-9] and [1_000_000]. *)
Definition f64_nano : float64 := S754_finite false 4835703278458517 (-82).
Definition f64_million : float64 := f64_of_Z 1000000.
Definition f64_hundred : float64 := f64_of_Z 100.

(** [SELECT COALESCE(sum(CASE WHEN pricing_complete ...), 0), ...] over the settled requests
    of the account between two instants. *)
(* src/internal/store/subscriptions.go:466-469 RecordParentQuotaObservation *)
Definition usage_between (authIndex : string) (from until : Z) (log : RequestLog) : bool :=
  bool_decide (lt_AuthIndex (rl_Texts log) = authIndex) && rl_Settled log &&
  (from <? rl_CompletedAt log) && (rl_CompletedAt log <=? until).

Definition priced_cost (log : RequestLog) : Z :=
  if rl_PricingComplete log then default 0 (rl_CostNanoUSD log) else 0.

Definition unpriced_success (log : RequestLog) : bool :=
  negb (rl_PricingComplete log) && (200 <=? rl_StatusCode log) && (rl_StatusCode log <? 300) &&
  bool_decide (rl_Model log ≠ "").

(** The scan of the two sums; a cost beyond [int64] does not scan. *)
(* src/internal/store/subscriptions.go:461-472 RecordParentQuotaObservation *)
Definition usage_totals (authIndex : string) (from until : Z) : DB (Z * Z) :=
  logs ← find request_logs (usage_between authIndex from until);
  let cost := sum_by priced_cost logs in
  guard_that (bool_decide (in_int64 cost)) (ErrMessage "converting NUMERIC to int64");;
  mret (cost, Z.of_nat (length (filter (λ l, unpriced_success l = true) logs))).

Section observation.
Context `{FloatToInt}.

(** The verdict on a sample that continues its generation. *)
(* src/internal/store/subscriptions.go:453-485 RecordParentQuotaObservation *)
Definition calibrate (parent : ParentSubscription) (usedPercent : float64) (resetsAt observedAt : Z)
  (previous observation : ParentQuotaObservation) : DB ParentQuotaObservation :=
baseline ← quotaCalibrationBaseline (po_ParentSubscriptionID observation) (po_Kind observation)
             resetsAt previous;
let deltaMicros := f64_to_int64 (f64_round
  (f64_mul (f64_sub usedPercent (po_UsedPercent baseline)) f64_million)) in
if deltaMicros <? quotaCalibrationMinDeltaMicros then
  mret (observation <| po_Reason := "percentage_delta_too_small" |>)
else
  totals ← usage_totals (ps_UpstreamAuthIndex parent) (po_ObservedAt baseline) observedAt;
  let '(cost, incomplete) := (totals : Z * Z) in
  let observation := observation <| po_CostSincePrevious := cost |> in
  mret (if 0 <? incomplete then observation <| po_Reason := "incomplete_pricing" |>
        else if cost <=? 0 then observation <| po_Reason := "missing_usage" |>
        else observation <| po_EstimatedLimit := Some (percentageCapacity cost deltaMicros);
                            po_Accepted := true; po_Reason := "accepted" |>).

(** The same sample again, within rounding. *)
(* src/internal/store/subscriptions.go:440-444 RecordParentQuotaObservation *)
Definition unchanged_sample (usedPercent : float64) (resetsAt : Z)
  (previous : ParentQuotaObservation) : bool :=
(po_ResetsAt previous =? resetsAt) &&
f64_lt (f64_abs (f64_sub usedPercent (po_UsedPercent previous))) f64_nano.

(** The reason, cost and estimate of a sample, and whether it repeats the previous one. *)
(* src/internal/store/subscriptions.go:431-489 RecordParentQuotaObservation *)
Definition judge (parent : ParentSubscription) (usedPercent : float64) (resetsAt observedAt : Z)
  (previous : result ParentQuotaObservation) (observation : ParentQuotaObservation)
  : DB (ParentQuotaObservation * bool) :=
match previous with
| Ok previous =>
    if negb (po_ObservedAt previous <? observedAt) then
      fail (ErrMessage "observation must be newer than the previous sample")
    else if unchanged_sample usedPercent resetsAt previous then
      mret (previous <| po_Reason := "unchanged" |>, true)
    else if negb (po_ResetsAt previous =? resetsAt) then
      mret (observation <| po_Reason := "window_reset" |>, false)
    else if f64_lt usedPercent (po_UsedPercent previous) then
      mret (observation <| po_Reason := "percentage_decreased" |>, false)
    else
      judged ← calibrate parent usedPercent resetsAt observedAt previous observation;
      mret (judged, false)
| Err ErrRecordNotFound => mret (observation <| po_Reason := "initial_sample" |>, false)
| Err e => fail e
end.

(** A sample of a new generation also files the moment the old one ended. *)
(* src/internal/store/subscriptions.go:491-504 RecordParentQuotaObservation *)
Definition store_sample (observedAt : Z) (previous : result ParentQuotaObservation)
  (observation : ParentQuotaObservation) : DB unit :=
create observations (po_ID observation) observation;;
match previous with
| Ok previous =>
    if bool_decide (po_Reason observation = "window_reset") &&
       negb (observedAt + quotaResetJitterTolerance <? po_ResetsAt previous) then
      create_do_nothing resets
        (po_ParentSubscriptionID observation, po_Kind observation, po_ResetsAt previous)
        {| pr_ParentSubscriptionID := po_ParentSubscriptionID observation;
           pr_Kind := po_Kind observation; pr_ResetAt := po_ResetsAt previous;
           pr_ObservedAt := observedAt; pr_NextResetsAt := po_ResetsAt observation |};;
      mret ()
    else mret ()
| Err _ => mret ()
end.

(** The limit the window gets, and who owns it; zero leaves learning mode on. *)
(* src/internal/store/subscriptions.go:505-521 RecordParentQuotaObservation *)
Definition next_limit (current : result ParentQuotaWindow) (observation : ParentQuotaObservation)
  (resetsAt : Z) : DB (Z * string) :=
match current with
| Ok existing =>
    if bool_decide (pw_Source existing = ParentQuotaSourceManualConversion)
    then mret (pw_LimitNanoUSD existing, ParentQuotaSourceManualConversion)
    else if bool_decide (is_Some (po_EstimatedLimit observation)) then
      limit ← quotaGenerationEstimate (po_ParentSubscriptionID observation)
                (po_Kind observation) resetsAt;
      mret (limit, ParentQuotaSourceObserved)
    else mret (pw_LimitNanoUSD existing, ParentQuotaSourceObserved)
| Err _ =>
    if bool_decide (is_Some (po_EstimatedLimit observation)) then
      limit ← quotaGenerationEstimate (po_ParentSubscriptionID observation)
                (po_Kind observation) resetsAt;
      mret (limit, ParentQuotaSourceObserved)
    else mret (0, ParentQuotaSourceObserved)
end.

(** Reset times within a minute of the known generation are snapped to it: to the window's,
  or before there is a window to the previous sample's. *)
(* src/internal/store/subscriptions.go:405-417 RecordParentQuotaObservation *)
Definition snap_to_window (current : result ParentQuotaWindow) (resetsAt : Z) : result Z :=
match current with
| Ok window =>
    let delta := time_sub resetsAt (pw_ResetsAt window) in
    if within_jitter delta then Ok (pw_ResetsAt window)
    else if delta <? 0 then Err (ErrMessage "quota observation resets_at cannot move backwards")
    else Ok resetsAt
| Err ErrRecordNotFound => Ok resetsAt
| Err e => Err e
end.

(* src/internal/store/subscriptions.go:421-430 RecordParentQuotaObservation *)
Definition snap_to_sample (current : result ParentQuotaWindow)
  (previous : result ParentQuotaObservation) (resetsAt : Z) : Z :=
match current, previous with
| Err ErrRecordNotFound, Ok previous =>
    if within_jitter (time_sub resetsAt (po_ResetsAt previous)) then po_ResetsAt previous
    else resetsAt
| _, _ => resetsAt
end.

Definition of_result {A} (r : result A) : DB A :=
match r with Ok a => mret a | Err e => fail e end.

(* src/internal/store/subscriptions.go:391-540 RecordParentQuotaObservation *)
Definition RecordParentQuotaObservation (parentID kind : string) (usedPercent : float64)
  (resetsAt observedAt : Z) : DB ParentQuotaObservation :=
id ← new_id;
now ← time_now;
let kind := trim_space kind in
guard_that (negb (bool_decide (kind = "") || f64_lt usedPercent f64_zero ||
                  f64_lt f64_hundred usedPercent || (resetsAt =? 0) || (observedAt =? 0) ||
                  negb (observedAt <? resetsAt) || (now + 5 * minute <? observedAt)))
  (ErrMessage "invalid parent quota observation");;
transaction (
  parent ← map_error notFound (first parents parentID);
  current ← attempt (first parent_windows (parentID, kind));
  resetsAt ← of_result (snap_to_window current resetsAt);
  previous ← attempt (first_ordered observations (observation_of parentID kind) newest_first);
  let resetsAt := snap_to_sample current previous resetsAt in
  judged ← judge parent usedPercent resetsAt observedAt previous
    {| po_ID := id; po_ParentSubscriptionID := parentID; po_Kind := kind;
       po_UsedPercent := usedPercent; po_ResetsAt := resetsAt; po_ObservedAt := observedAt;
       po_CostSincePrevious := 0; po_EstimatedLimit := None; po_Accepted := false;
       po_Reason := "" |};
  let '(observation, unchanged) := (judged : ParentQuotaObservation * bool) in
  (if unchanged then mret () else store_sample observedAt previous observation);;
  chosen ← next_limit current observation resetsAt;
  let '(limit, source) := (chosen : Z * string) in
  (if 0 <? limit then
     upsert parent_windows (parentID, kind)
       {| pw_ParentSubscriptionID := parentID; pw_Kind := kind; pw_LimitNanoUSD := limit;
          pw_ResetsAt := resetsAt; pw_Source := source;
          pw_ObservedUsedPercent := Some usedPercent; pw_ObservedAt := Some observedAt |}
       assign_parent_window;;
     syncChildQuotaWindowGeneration parentID kind limit resetsAt observedAt
   else mret ());;
  mret observation).
End observation.
