(* ===== verification/ModelAccess.v ===== *)
(** * Who may use which model

    Model allowlists ([modelAllowed] and Go's [path.Match] globs), the
    entitlements of an API key, and the subscriptions that can serve a request
    ([SubscriptionCandidates]); internal/store/subscriptions.go and store.go. *)

From S2P Require Import Prelude.
From S2P Require Import Database.
From S2P Require Import Schema.

(** ** [path.Match]

    A pattern is parsed into tokens; a malformed pattern matches nothing.  A
    star and a question mark never match a slash. *)
Inductive glob :=
  | GlobStar
  | GlobAny
  | GlobChar (c : Ascii.ascii)
  | GlobClass (negated : bool) (ranges : list (Ascii.ascii * Ascii.ascii)).

Definition ascii_le (a b : Ascii.ascii) : bool :=
  bool_decide (Ascii.nat_of_ascii a ≤ Ascii.nat_of_ascii b)%nat.

(** [getEsc]: one possibly escaped character of a class, which must not be the
    last of the pattern. *)
Definition get_esc (s : string) : option (Ascii.ascii * string) :=
  match s with
  | EmptyString => None
  | String c s' =>
      if bool_decide (c = "-"%char ∨ c = "]"%char) then None
      else
        let r := if decide (c = "\"%char)
                 then match s' with EmptyString => None | String d s'' => Some (d, s'') end
                 else Some (c, s') in
        match r with
        | Some (_, EmptyString) => None
        | _ => r
        end
  end.

(** The ranges of a class up to its closing bracket. *)
Fixpoint parse_class (fuel : nat) (ranges : list (Ascii.ascii * Ascii.ascii)) (s : string)
    : option (list (Ascii.ascii * Ascii.ascii) * string) :=
  match fuel with
  | O => None
  | S fuel =>
      match s with
      | String "]"%char s' =>
          match ranges with
          | [] => None
          | _ => Some (ranges, s')
          end
      | _ =>
          '(lo, s1) ← get_esc s;
          match s1 with
          | String "-"%char s2 => '(hi, s3) ← get_esc s2; parse_class fuel (ranges ++ [(lo, hi)]) s3
          | _ => parse_class fuel (ranges ++ [(lo, lo)]) s1
          end
      end
  end.

Fixpoint parse_glob (fuel : nat) (s : string) : option (list glob) :=
  match fuel with
  | O => None
  | S fuel =>
      match s with
      | EmptyString => Some []
      | String "*"%char s' => g ← parse_glob fuel s'; Some (GlobStar :: g)
      | String "?"%char s' => g ← parse_glob fuel s'; Some (GlobAny :: g)
      | String "\"%char EmptyString => None
      | String "\"%char (String c s') => g ← parse_glob fuel s'; Some (GlobChar c :: g)
      | String "["%char s' =>
          let '(negated, body) :=
            match s' with String "^"%char s'' => (true, s'') | _ => (false, s') end in
          '(ranges, rest) ← parse_class fuel [] body;
          g ← parse_glob fuel rest;
          Some (GlobClass negated ranges :: g)
      | String c s' => g ← parse_glob fuel s'; Some (GlobChar c :: g)
      end
  end.

Definition in_class (ranges : list (Ascii.ascii * Ascii.ascii)) (c : Ascii.ascii) : bool :=
  existsb (λ '(lo, hi), ascii_le lo c && ascii_le c hi) ranges.

Fixpoint glob_match (g : list glob) : string → bool :=
  match g with
  | [] => λ s, match s with EmptyString => true | _ => false end
  | GlobStar :: g' =>
      fix star s :=
        glob_match g' s ||
        match s with
        | EmptyString => false
        | String c s' => bool_decide (c ≠ "/"%char) && star s'
        end
  | GlobAny :: g' => λ s,
      match s with
      | EmptyString => false
      | String c s' => bool_decide (c ≠ "/"%char) && glob_match g' s'
      end
  | GlobChar d :: g' => λ s,
      match s with
      | EmptyString => false
      | String c s' => bool_decide (c = d) && glob_match g' s'
      end
  | GlobClass negated ranges :: g' => λ s,
      match s with
      | EmptyString => false
      | String c s' => xorb negated (in_class ranges c) && glob_match g' s'
      end
  end.

(** A token consumes at least one character, so [S (length pattern)] steps parse it. *)
Definition path_match (pattern name : string) : bool :=
  match parse_glob (S (String.length pattern)) pattern with
  | Some g => glob_match g name
  | None => false
  end.

(** ** Allowlists *)

(** One pattern of a list: a star, the name itself, or a glob. *)
(* src/internal/store/subscriptions.go:1681-1686 modelAllowed *)
Definition pattern_matches (model pattern : string) : bool :=
  let matched := path_match (to_lower pattern) (to_lower model) in
  bool_decide (pattern = "*") || equal_fold pattern model || matched.

(* src/internal/store/subscriptions.go:1675-1693 modelAllowed *)
Fixpoint modelAllowed (model : string) (lists : list (list string)) : bool :=
  match lists with
  | [] => true
  | list :: lists =>
      if bool_decide (length list = 0%nat) then modelAllowed model lists
      else if negb (existsb (pattern_matches model) list) then false
      else modelAllowed model lists
  end.

(* src/internal/store/store.go:69-73 SubscriptionModelGrant *)
Record SubscriptionModelGrant := {
  g_ChildModels : list string;
  g_ParentModels : list string;
  g_UpstreamModels : list string
}.

(* src/internal/store/store.go:52-64 KeyContext *)
Record KeyContext := {
  kc_APIKey : APIKey;
  kc_TenantName : string;
  kc_TenantEnabled : bool;
  kc_TenantBalance : Z;
  kc_TenantRateLimit : option Z;
  kc_TenantTokenLimit : option Z;
  kc_TenantModels : list string;
  kc_TenantDailyTokens : Z;
  kc_TenantDailyTokensDay : option Z;
  kc_SubscriptionModelGrants : list SubscriptionModelGrant;
  kc_TenantExpiresAt : option Z
}.
#[export] Instance KeyContext_eta : Eta KeyContext := λ r, Build_KeyContext (kc_APIKey r)
  (kc_TenantName r) (kc_TenantEnabled r) (kc_TenantBalance r) (kc_TenantRateLimit r)
  (kc_TenantTokenLimit r) (kc_TenantModels r) (kc_TenantDailyTokens r)
  (kc_TenantDailyTokensDay r) (kc_SubscriptionModelGrants r) (kc_TenantExpiresAt r).

(* src/internal/store/subscriptions.go:937-939 SubscriptionModelGrant.AllowsModel *)
Definition grant_AllowsModel (grant : SubscriptionModelGrant) (model : string) : bool :=
  modelAllowed model [g_ChildModels grant; g_ParentModels grant; g_UpstreamModels grant].

(* src/internal/store/subscriptions.go:944-957 KeyContext.AllowsModel *)
Definition key_AllowsModel (key : KeyContext) (model : string) : bool :=
  if negb (modelAllowed model [k_ModelAllowlist (kc_APIKey key)]) then false
  else if modelAllowed model [kc_TenantModels key] then true
  else existsb (λ grant, grant_AllowsModel grant model) (kc_SubscriptionModelGrants key).

(** ** Active assignments *)

(** [enabled AND starts_at <= now AND (expires_at IS NULL OR expires_at > now)]. *)
(* src/internal/store/subscriptions.go:962-963 SubscriptionCandidates *)
Definition child_active (tenantID : string) (now : Z) (c : ChildSubscription) : bool :=
  bool_decide (c_TenantID c = tenantID) && c_Enabled c && (c_StartsAt c <=? now) &&
  match c_ExpiresAt c with None => true | Some e => now <? e end.

(** An unmetered parent ignores the model list of its children. *)
Definition child_models (child : ChildSubscription) (parent : ParentSubscription) : list string :=
  if decide (ps_CapacityMode parent = ParentCapacityUnmetered) then [] else c_ModelAllowlist child.

(* src/internal/store/subscriptions.go:907-935 ActiveSubscriptionModelGrants *)
Definition ActiveSubscriptionModelGrants (tenantID : string) (now : Z)
    : DB (list SubscriptionModelGrant) :=
  rows ← find children (child_active tenantID now);
  parent_rows ← gets tb_parents;
  mret (omap (λ child,
    parent ← parent_rows !! c_ParentSubscriptionID child;
    Some {| g_ChildModels := child_models child parent;
            g_ParentModels := ps_ModelAllowlist parent;
            g_UpstreamModels := ps_UpstreamModelAllowlist parent |}) rows).

(* src/internal/store/subscriptions.go:53-56 SubscriptionCandidate *)
Record SubscriptionCandidate := {
  sc_Child : ChildSubscription;
  sc_Parent : ParentSubscription
}.

(** [ORDER BY priority DESC, created_at]. *)
Definition child_order (c d : ChildSubscription) : Prop :=
  c_Priority d < c_Priority c ∨ (c_Priority c = c_Priority d ∧ c_CreatedAt c ≤ c_CreatedAt d).
#[global] Instance child_order_dec c d : Decision (child_order c d).
Proof. unfold child_order. apply _. Defined.

Definition candidate_order (i j : SubscriptionCandidate) : Prop :=
  c_Priority (sc_Child j) ≤ c_Priority (sc_Child i).
#[global] Instance candidate_order_dec i j : Decision (candidate_order i j).
Proof. unfold candidate_order. apply _. Defined.

(* src/internal/store/subscriptions.go:1005-1008 SubscriptionCandidates *)
Definition parent_unusable (parent : ParentSubscription) : bool :=
  negb (ps_Enabled parent) || ps_UpstreamUnavailable parent ||
  bool_decide (ps_Status parent = "missing").

(** One turn of the loop over the children. *)
(* src/internal/store/subscriptions.go:989-1010 SubscriptionCandidates *)
Definition classify_child (model : string) (parentsByID : gmap string ParentSubscription)
    (acc : list SubscriptionCandidate * bool * bool) (child : ChildSubscription)
    : list SubscriptionCandidate * bool * bool :=
  let '(items, hasModelAssignment, hasUnavailableAssignment) := acc in
  match parentsByID !! c_ParentSubscriptionID child with
  | None => (items, hasModelAssignment, true)
  | Some parent =>
      if negb (modelAllowed model
                 [child_models child parent; ps_ModelAllowlist parent;
                  ps_UpstreamModelAllowlist parent])
      then (items, hasModelAssignment, hasUnavailableAssignment)
      else if parent_unusable parent then (items, true, true)
      else (items ++ [{| sc_Child := child; sc_Parent := parent |}], true, hasUnavailableAssignment)
  end.

(* src/internal/store/subscriptions.go:959-1013 SubscriptionCandidates *)
Definition SubscriptionCandidates (tenantID model : string) (now : Z)
    : DB (list SubscriptionCandidate * bool * bool) :=
  rows ← find_ordered children (child_active tenantID now) child_order;
  let parentIDs := remove_dups (c_ParentSubscriptionID <$> rows) in
  parent_rows ←
    (if bool_decide (0 < length parentIDs)%nat
     then find parents (λ p, bool_decide (ps_ID p ∈ parentIDs))
     else mret []);
  let parentsByID := list_to_map ((λ p, (ps_ID p, p)) <$> parent_rows) in
  let '(items, assigned, unavailable) := foldl (classify_child model parentsByID) ([], false, false) rows in
  mret (merge_sort candidate_order items, assigned, unavailable).

(** ** Lemmas *)

(** A pattern without metacharacters. *)
Fixpoint plain (s : string) : bool :=
  match s with
  | EmptyString => true
  | String c s' => bool_decide (c ∉ ["*"; "?"; "["; "\"]%char) && plain s'
  end.

(** ** The fuel of the parser

    Any amount of fuel above the length of the pattern gives the same answer. *)

Lemma get_esc_shorter s c rest : get_esc s = Some (c, rest) → (String.length rest < String.length s)%nat.
Proof.
  destruct s as [|a [|b s]]; cbn; [done|..]; repeat case_match; intros; simplify_eq; cbn; lia.
Qed.

Lemma parse_class_fuel n : ∀ m ranges s,
  (String.length s < n)%nat → (String.length s < m)%nat → parse_class n ranges s = parse_class m ranges s.
Proof.
  induction n as [|n IH]; intros [|m] ranges s Hn Hm; [lia..|]. cbn [parse_class].
  assert (Hstep : ∀ lo s1, get_esc s = Some (lo, s1) →
    match s1 with
    | String "-"%char s2 => '(hi, s3) ← get_esc s2; parse_class n (ranges ++ [(lo, hi)]) s3
    | _ => parse_class n (ranges ++ [(lo, lo)]) s1
    end = match s1 with
    | String "-"%char s2 => '(hi, s3) ← get_esc s2; parse_class m (ranges ++ [(lo, hi)]) s3
    | _ => parse_class m (ranges ++ [(lo, lo)]) s1
    end).
  { intros lo s1 H1%get_esc_shorter. destruct s1 as [|c s2]; [by apply IH; lia|]. cbn [String.length] in H1.
    assert (Hdash : ('(hi, s3) ← get_esc s2; parse_class n (ranges ++ [(lo, hi)]) s3) =
                    ('(hi, s3) ← get_esc s2; parse_class m (ranges ++ [(lo, hi)]) s3)).
    { destruct (get_esc s2) as [[hi s3]|] eqn:H2; [|done]. apply get_esc_shorter in H2. cbn. apply IH; lia. }
    assert (Hplain : parse_class n (ranges ++ [(lo, lo)]) (String c s2) =
                     parse_class m (ranges ++ [(lo, lo)]) (String c s2)) by (apply IH; cbn; lia).
    by destruct c as [[] [] [] [] [] [] [] []]. }
  assert (Hbody : ('(lo, s1) ← get_esc s; match s1 with
      | String "-"%char s2 => '(hi, s3) ← get_esc s2; parse_class n (ranges ++ [(lo, hi)]) s3
      | _ => parse_class n (ranges ++ [(lo, lo)]) s1 end) =
    ('(lo, s1) ← get_esc s; match s1 with
      | String "-"%char s2 => '(hi, s3) ← get_esc s2; parse_class m (ranges ++ [(lo, hi)]) s3
      | _ => parse_class m (ranges ++ [(lo, lo)]) s1 end)).
  { destruct (get_esc s) as [[lo s1]|] eqn:H1; [|done]. cbn. by apply Hstep. }
  destruct s as [|c s]; [exact Hbody|]. by destruct c as [[] [] [] [] [] [] [] []].
Qed.

Lemma parse_class_shorter n : ∀ ranges s ranges' rest,
  parse_class n ranges s = Some (ranges', rest) → (String.length rest < String.length s)%nat.
Proof.
  induction n as [|n IH]; intros ranges s ranges' rest; [done|]. cbn [parse_class].
  assert (Hbody : ('(lo, s1) ← get_esc s; match s1 with
      | String "-"%char s2 => '(hi, s3) ← get_esc s2; parse_class n (ranges ++ [(lo, hi)]) s3
      | _ => parse_class n (ranges ++ [(lo, lo)]) s1 end) = Some (ranges', rest) →
      (String.length rest < String.length s)%nat).
  { destruct (get_esc s) as [[lo s1]|] eqn:H1; [|done]. apply get_esc_shorter in H1. cbn.
    destruct s1 as [|c s2]; [intros H2%IH; cbn in *; lia|].
    assert (Hplain : parse_class n (ranges ++ [(lo, lo)]) (String c s2) = Some (ranges', rest) →
      (String.length rest < String.length s)%nat) by (intros H2%IH; lia).
    assert (Hdash : ('(hi, s3) ← get_esc s2; parse_class n (ranges ++ [(lo, hi)]) s3) = Some (ranges', rest) →
      (String.length rest < String.length s)%nat).
    { destruct (get_esc s2) as [[hi s3]|] eqn:H2; [|done]. apply get_esc_shorter in H2. cbn.
      intros H3%IH. cbn in H1. lia. }
    by destruct c as [[] [] [] [] [] [] [] []]. }
  destruct s as [|c s]; [exact Hbody|].
  destruct c as [[] [] [] [] [] [] [] []]; try exact Hbody.
  destruct ranges; [done|]. intros [= <- <-]. cbn. lia.
Qed.

(** [path_match] gives the parser fuel enough. *)
Lemma parse_glob_fuel n : ∀ m s,
  (String.length s < n)%nat → (String.length s < m)%nat → parse_glob n s = parse_glob m s.
Proof.
  induction n as [|n IH]; intros [|m] s Hn Hm; [lia..|]. destruct s as [|c s]; [done|].
  cbn [String.length] in *. assert (Hs : parse_glob n s = parse_glob m s) by (apply IH; lia).
  assert (Hclass : ∀ negated body, (String.length body ≤ String.length s)%nat →
    ('(ranges, rest) ← parse_class n [] body; g ← parse_glob n rest; Some (GlobClass negated ranges :: g)) =
    ('(ranges, rest) ← parse_class m [] body; g ← parse_glob m rest; Some (GlobClass negated ranges :: g))).
  { intros negated body Hb. rewrite (parse_class_fuel n m) by lia.
    destruct (parse_class m [] body) as [[ranges rest]|] eqn:Hc; [|done].
    apply parse_class_shorter in Hc. cbn. by rewrite (IH m rest) by lia. }
  destruct c as [[] [] [] [] [] [] [] []]; cbn [parse_glob]; try (by rewrite Hs).
  - destruct s as [|d s]; [by apply Hclass|].
    destruct d as [[] [] [] [] [] [] [] []]; apply Hclass; cbn; lia.
  - destruct s as [|d s]; [done|]. cbn in *. by rewrite (IH m s) by lia.
Qed.

Lemma parse_glob_plain fuel s : plain s = true → (String.length s < fuel)%nat →
  parse_glob fuel s = Some (GlobChar <$> String.list_ascii_of_string s).
Proof.
  revert s. induction fuel as [|fuel IH]; intros s Hs Hf; [lia|].
  destruct s as [|c s]; [done|]. cbn [plain] in Hs. reflect_bools. cbn in Hf.
  specialize (IH s ltac:(done) ltac:(lia)). rewrite !not_elem_of_cons in *. destruct_and!.
  destruct c as [[] [] [] [] [] [] [] []]; try done; cbn [parse_glob]; rewrite IH; done.
Qed.

Lemma glob_match_chars l s :
  glob_match (GlobChar <$> l) s = bool_decide (s = String.string_of_list_ascii l).
Proof.
  revert s. induction l as [|c l IH]; intros s; cbn.
  - destruct s; [done|]. by rewrite bool_decide_eq_false_2.
  - destruct s as [|d s]; [done|]. rewrite IH.
    repeat case_bool_decide; cbn; try done; naive_solver.
Qed.

Lemma path_match_plain pattern name : plain pattern = true →
  path_match pattern name = bool_decide (name = pattern).
Proof.
  intros Hp. unfold path_match. rewrite parse_glob_plain by (done || lia).
  by rewrite glob_match_chars, String.string_of_list_ascii_of_string.
Qed.

Lemma plain_to_lower s : plain (to_lower s) = plain s.
Proof.
  induction s as [|c s IH]; [done|]. cbn [to_lower plain]. rewrite IH. f_equal.
  by destruct c as [[] [] [] [] [] [] [] []].
Qed.

Lemma pattern_matches_plain model pattern : plain pattern = true →
  pattern_matches model pattern = equal_fold pattern model.
Proof.
  intros Hp. unfold pattern_matches. rewrite path_match_plain by by rewrite plain_to_lower.
  unfold equal_fold. rewrite (bool_decide_eq_false_2 (pattern = "*")) by (by intros ->).
  repeat case_bool_decide; naive_solver.
Qed.

Lemma modelAllowed_true model lists : modelAllowed model lists = true ↔
  ∀ l, l ∈ lists → l = [] ∨ ∃ p, p ∈ l ∧ pattern_matches model p = true.
Proof.
  induction lists as [|l lists IH]; cbn [modelAllowed].
  - split; [|done]. intros _ l Hl. by apply not_elem_of_nil in Hl.
  - case_bool_decide as Hl.
    + apply length_zero_iff_nil in Hl as ->. rewrite IH. set_solver.
    + assert (l ≠ []) by (by intros ->).
      destruct (existsb (pattern_matches model) l) eqn:Hm; cbn.
      * apply existsb_exists in Hm as (p & Hp%list_elem_of_In & Hpm). rewrite IH. set_solver.
      * split; [done|]. intros Hall. destruct (Hall l) as [?|(p & Hp & Hpm)]; [left|done|].
        apply not_true_iff_false in Hm. destruct Hm. apply existsb_exists. exists p.
        by rewrite <- list_elem_of_In.
Qed.

(** What the loop of [SubscriptionCandidates] collects. *)
Definition serves (model : string) (parentsByID : gmap string ParentSubscription)
    (child : ChildSubscription) (parent : ParentSubscription) : Prop :=
  parentsByID !! c_ParentSubscriptionID child = Some parent ∧
  modelAllowed model [child_models child parent; ps_ModelAllowlist parent;
                      ps_UpstreamModelAllowlist parent] = true.

Definition usable (model : string) (m : gmap string ParentSubscription)
    (c : ChildSubscription) (p : ParentSubscription) : Prop :=
  serves model m c p ∧ parent_unusable p = false.

Definition broken (model : string) (m : gmap string ParentSubscription)
    (c : ChildSubscription) : Prop :=
  m !! c_ParentSubscriptionID c = None ∨
  ∃ p, serves model m c p ∧ parent_unusable p = true.

Lemma classify_child_spec model m items a u c :
  ∃ new a' u', classify_child model m (items, a, u) c = (items ++ new, a', u') ∧
  (∀ i, i ∈ new ↔ sc_Child i = c ∧ usable model m c (sc_Parent i)) ∧
  (a' = true ↔ a = true ∨ ∃ p, serves model m c p) ∧
  (u' = true ↔ u = true ∨ broken model m c).
Proof.
  unfold classify_child, usable, broken, serves.
  destruct (m !! c_ParentSubscriptionID c) as [p|];
    [destruct (modelAllowed model [child_models c p; _; _]) eqn:Hm; cbn [negb];
      [destruct (parent_unusable p) eqn:Hu|]|].
  - exists [], true, true. rewrite app_nil_r. split; [done|]. split_and!; [|naive_solver..].
    intros [ci pi]. rewrite elem_of_nil. cbn. naive_solver congruence.
  - exists [{| sc_Child := c; sc_Parent := p |}], true, u. split; [done|].
    split_and!; [|naive_solver congruence..].
    intros [ci pi]. rewrite list_elem_of_singleton. cbn. naive_solver congruence.
  - exists [], a, u. rewrite app_nil_r. split; [done|]. split_and!; [|naive_solver congruence..].
    intros [ci pi]. rewrite elem_of_nil. cbn. naive_solver congruence.
  - exists [], a, true. rewrite app_nil_r. split; [done|]. split_and!; [|naive_solver congruence..].
    intros [ci pi]. rewrite elem_of_nil. cbn. naive_solver congruence.
Qed.

Lemma classify_children model m rows items a u items' a' u' :
  foldl (classify_child model m) (items, a, u) rows = (items', a', u') →
  (∀ i, i ∈ items' ↔ i ∈ items ∨ sc_Child i ∈ rows ∧ usable model m (sc_Child i) (sc_Parent i)) ∧
  (a' = true ↔ a = true ∨ ∃ c p, c ∈ rows ∧ serves model m c p) ∧
  (u' = true ↔ u = true ∨ ∃ c, c ∈ rows ∧ broken model m c).
Proof.
  revert items a u. induction rows as [|c rows IH]; intros items a u; cbn [foldl].
  - intros [= <- <- <-]. set_solver.
  - destruct (classify_child_spec model m items a u c) as (new & a1 & u1 & -> & Hn & Ha1 & Hu1).
    intros (Hi & Ha & Hu)%IH. clear IH. rewrite Ha, Hu, Ha1, Hu1. setoid_rewrite elem_of_cons.
    split_and!.
    + intros i. rewrite Hi, elem_of_app, Hn. naive_solver.
    + split; [intros [[?|[p ?]]|(c' & p & ? & ?)] | intros [?|(c' & p & [->|?] & ?)]]; eauto 6.
    + split; [intros [[?|?]|(c' & ? & ?)] | intros [?|(c' & [->|?] & ?)]]; eauto 6.
Qed.

(** The candidates of [t], as the store computes them. *)
Definition candidates_of (tenantID model : string) (now : Z) (t : tables)
    (items : list SubscriptionCandidate) (assigned unavailable : bool) : Prop :=
  let active c := child_active tenantID now c = true ∧ ∃ k, tb_children t !! k = Some c in
  (∀ i, i ∈ items ↔
     active (sc_Child i) ∧ usable model (tb_parents t) (sc_Child i) (sc_Parent i)) ∧
  Sorted candidate_order items ∧
  (assigned = true ↔ ∃ c p, active c ∧ serves model (tb_parents t) c p) ∧
  (unavailable = true ↔ ∃ c, active c ∧ broken model (tb_parents t) c).

(** Only the parents of the rows matter. *)
Lemma usable_ext model m m' c p :
  m !! c_ParentSubscriptionID c = m' !! c_ParentSubscriptionID c →
  (usable model m c p ↔ usable model m' c p) ∧ (serves model m c p ↔ serves model m' c p).
Proof. unfold usable, serves. by intros ->. Qed.

Lemma broken_ext model m m' c :
  m !! c_ParentSubscriptionID c = m' !! c_ParentSubscriptionID c →
  (broken model m c ↔ broken model m' c).
Proof. unfold broken, serves. by intros ->. Qed.

Lemma SubscriptionCandidates_wp x E tenantID model now t :
  keyed ps_ID (tb_parents t) →
  wp x E (SubscriptionCandidates tenantID model now) t (λ r t', t' = t ∧
    match r with
    | Ok (items, assigned, unavailable) =>
        candidates_of tenantID model now t items assigned unavailable
    | Err _ => ¬ quiet E
    end).
Proof.
  intros Hk. unfold SubscriptionCandidates.
  apply wp_bind, wp_find_ordered; [intros rows Hrows | done].
  set (sorted := merge_sort child_order rows).
  assert (Hs : ∀ c, c ∈ sorted ↔ child_active tenantID now c = true ∧
                                 ∃ k, tb_children t !! k = Some c).
  { intros c. unfold sorted. rewrite merge_sort_Permutation.
    exact (elem_of_rows children _ t rows c Hrows). }
  clearbody sorted. clear rows Hrows.
  set (ids := remove_dups (c_ParentSubscriptionID <$> sorted)).
  assert (Hids : ∀ c, c ∈ sorted → c_ParentSubscriptionID c ∈ ids).
  { intros c Hc. unfold ids. rewrite elem_of_remove_dups, list_elem_of_fmap. eauto. }
  set (Q := λ (r : result (list SubscriptionCandidate * bool * bool)) (t' : tables),
    t' = t ∧ match r with
             | Ok (items, assigned, unavailable) =>
                 candidates_of tenantID model now t items assigned unavailable
             | Err _ => ¬ quiet E end).
  assert (Hmain : ∀ m : gmap string ParentSubscription,
    (∀ c, c ∈ sorted → m !! c_ParentSubscriptionID c = tb_parents t !! c_ParentSubscriptionID c) →
    wp x E (let '(items, assigned, unavailable) :=
              foldl (classify_child model m) ([], false, false) sorted in
            mret (merge_sort candidate_order items, assigned, unavailable)) t Q).
  { intros m Hm. destruct (foldl _ _ _) as [[items a] u] eqn:Hf. apply wp_ret.
    apply classify_children in Hf as (Hi & Ha & Hu). split; [done|].
    assert (Hext := λ c p Hc, usable_ext model m (tb_parents t) c p (Hm c Hc)).
    unfold candidates_of. setoid_rewrite <- Hs.
    split_and!; [|apply Sorted_merge_sort; intros i j; unfold candidate_order; lia|..].
    - intros i. rewrite merge_sort_Permutation, Hi, elem_of_nil.
      pose proof (λ Hc, proj1 (Hext (sc_Child i) (sc_Parent i) Hc)). tauto.
    - rewrite Ha. split.
      + intros [?|(c & p & Hc & H)]; [done|]. exists c, p. by rewrite <- (proj2 (Hext c p Hc)).
      + intros (c & p & Hc & H). right. exists c, p. by rewrite (proj2 (Hext c p Hc)).
    - rewrite Hu. split.
      + intros [?|(c & Hc & H)]; [done|]. exists c. by rewrite <- (broken_ext _ _ _ _ (Hm c Hc)).
      + intros (c & Hc & H). right. exists c. by rewrite (broken_ext _ _ _ _ (Hm c Hc)). }
  case_bool_decide as Hlen.
  - apply wp_bind, wp_find; [intros l Hl | done]. apply Hmain. intros c Hc.
    eapply (index_rows ps_ID); [done|exact Hl|]. intros p Hp. apply bool_decide_eq_true.
    rewrite (keyed_lookup _ _ _ _ Hk Hp). by apply Hids.
  - apply wp_bind, wp_ret, Hmain. intros c Hc%Hids. destruct ids; [|cbn in Hlen; lia].
    by apply not_elem_of_nil in Hc.
Qed.

(** ** Properties *)

(** A model passes a chain of allowlists exactly when every non-empty list has a pattern
    that matches it, and for lists of plain names (no glob metacharacters) exactly when every
    non-empty list contains the name up to letter case. *)
Theorem modelAllowed_spec (model : string) (lists : list (list string)) :
  (modelAllowed model lists = true ↔
   ∀ l, l ∈ lists → l = [] ∨ ∃ p, p ∈ l ∧ pattern_matches model p = true) ∧
  (Forall (Forall (λ p, plain p = true)) lists →
   (modelAllowed model lists = true ↔
    ∀ l, l ∈ lists → l = [] ∨ ∃ p, p ∈ l ∧ to_lower p = to_lower model)).
Proof.
  split; [apply modelAllowed_true|]. intros Hplain. rewrite modelAllowed_true.
  rewrite list.Forall_forall in Hplain.
  split; intros H l Hl; (destruct (H l Hl) as [?|(p & Hp & Hm)]; [by left|right; exists p]);
    (split; [done|]);
    pose proof (proj1 (list.Forall_forall _ _) (Hplain l Hl) p Hp) as Hpl; cbn in Hpl;
    pose proof (pattern_matches_plain model p Hpl) as Heq; unfold equal_fold in Heq.
  - rewrite Heq in Hm. by apply bool_decide_eq_true in Hm.
  - rewrite Heq. by apply bool_decide_eq_true.
Qed.

(** Subscriptions only ever add models to a key, and the key's own allowlist has the last
    word: a key may use a model exactly when its own list admits it and either the tenant's list
    or one of the active grants does; so one more grant never takes a model away, and a key
    whose non-empty list omits the model is refused whatever the tenant and the grants say. *)
Theorem key_entitlement (key : KeyContext) (model : string) (grant : SubscriptionModelGrant) :
  (key_AllowsModel key model = true ↔
   modelAllowed model [k_ModelAllowlist (kc_APIKey key)] = true ∧
   (modelAllowed model [kc_TenantModels key] = true ∨
    ∃ g, g ∈ kc_SubscriptionModelGrants key ∧ grant_AllowsModel g model = true)) ∧
  (key_AllowsModel key model = true →
   key_AllowsModel
     (key <| kc_SubscriptionModelGrants := grant :: kc_SubscriptionModelGrants key |>) model = true) ∧
  (k_ModelAllowlist (kc_APIKey key) ≠ [] →
   existsb (pattern_matches model) (k_ModelAllowlist (kc_APIKey key)) = false →
   key_AllowsModel key model = false).
Proof.
  assert (Hiff : ∀ k, key_AllowsModel k model = true ↔
    modelAllowed model [k_ModelAllowlist (kc_APIKey k)] = true ∧
    (modelAllowed model [kc_TenantModels k] = true ∨
     ∃ g, g ∈ kc_SubscriptionModelGrants k ∧ grant_AllowsModel g model = true)).
  { intros k. unfold key_AllowsModel.
    destruct (modelAllowed model [k_ModelAllowlist (kc_APIKey k)]); cbn [negb]; [|naive_solver].
    destruct (modelAllowed model [kc_TenantModels k]); [naive_solver|].
    rewrite existsb_exists. setoid_rewrite <- list_elem_of_In. naive_solver. }
  split_and!; [apply Hiff | rewrite !Hiff; cbn; set_solver |].
  intros Hne Hno. apply not_true_iff_false. rewrite Hiff, modelAllowed_true.
  intros [H _]. destruct (H (k_ModelAllowlist (kc_APIKey key))) as [?|(p & Hp & Hm)];
    [left | done |]. apply not_true_iff_false in Hno. destruct Hno.
  apply existsb_exists. exists p. by rewrite <- list_elem_of_In.
Qed.

(** In a store whose parents are filed under their identifiers,
    [SubscriptionCandidates] changes nothing and answers exactly the usable pairs, highest
    priority first: a pair is a candidate iff the child is an active assignment of the tenant,
    its parent exists, the chain of allowlists admits the model and the parent can take
    requests; the two flags say whether some active assignment covers the model, and whether
    one is broken (parent gone) or covers it with an unusable parent.  It fails only when a
    database statement does. *)
Theorem SubscriptionCandidates_spec x E tenantID model now t :
  keyed ps_ID (tb_parents t) →
  let active c := child_active tenantID now c = true ∧ ∃ k, tb_children t !! k = Some c in
  wp x E (SubscriptionCandidates tenantID model now) t (λ r t', t' = t ∧
    match r with
    | Ok (items, hasModelAssignment, hasUnavailableAssignment) =>
        (∀ i, i ∈ items ↔
           active (sc_Child i) ∧ usable model (tb_parents t) (sc_Child i) (sc_Parent i)) ∧
        Sorted candidate_order items ∧
        (hasModelAssignment = true ↔ ∃ c p, active c ∧ serves model (tb_parents t) c p) ∧
        (hasUnavailableAssignment = true ↔ ∃ c, active c ∧ broken model (tb_parents t) c)
    | Err _ => ¬ quiet E
    end).
Proof.
  intros Hk active. eapply wp_mono; [by apply SubscriptionCandidates_wp|].
  by intros [[[items a] u]|e] t'.
Qed.
