(* ===== verification/RequestLogs.v ===== *)
(** * Request logs and daily token counters (internal/store)

    A request log row is written for a confirmed, paid step only, in the
    transaction that charges it, and moves the day's token counters of the
    tenant and the key (store.go, log_units.go, hotpath.go). *)

From S2P Require Import Prelude.
From S2P Require Import Cost.
From S2P Require Import Database.
From S2P Require Import Schema.
From S2P Require Import ModelAccess.

(** ** Calendar days

    [time.Local] is a parameter: the offset from UTC, in nanoseconds, at an
    instant.  A [date] column is the number of days from the zero time. *)
Class TimeZone := tz_offset : Z → Z.

Definition day_ns : Z := 86400 * 1000000000.

Section request_logs.
Context `{TimeZone}.

(* src/internal/store/hotpath.go:45-48 localCalendarDate *)
Definition localCalendarDate (at_ : Z) : Z := (at_ + tz_offset at_) / day_ns.

(* src/internal/store/hotpath.go:50-57 calendarDateEquals *)
Definition calendarDateEquals (day : option Z) (at_ : Z) : bool :=
match day with
| None => false
| Some d => negb (d =? 0) && (d =? localCalendarDate at_)
end.

(* src/internal/store/hotpath.go:59-64 dailyTokensForDay *)
Definition dailyTokensForDay (used : Z) (day : option Z) (now : Z) : Z :=
if negb (calendarDateEquals day now) then 0 else used.

(* src/internal/store/hotpath.go:66-69 DailyTokenUsage *)
Definition DailyTokenUsage (k : KeyContext) (now : Z) : Z * Z :=
(dailyTokensForDay (kc_TenantDailyTokens k) (kc_TenantDailyTokensDay k) now,
 dailyTokensForDay (k_TokensUsedToday (kc_APIKey k)) (k_TokensUsedOn (kc_APIKey k)) now).

(** [CASE WHEN daily_tokens_day = day THEN daily_tokens_used + delta ELSE GREATEST(delta, 0) END]. *)
(* src/internal/store/hotpath.go:79-80 applyDailyTokenDelta *)
Definition next_daily_tokens (day delta used : Z) (on : option Z) : Z :=
if bool_decide (on = Some day) then used + delta else Z.max delta 0.

(** The columns are [bigint]: PostgreSQL rejects an overflow. *)
Definition bigint_ok {V} (row : option V) (value : V → Z) : bool :=
match row with Some v => bool_decide (in_int64 (value v)) | None => true end.

(* src/internal/store/hotpath.go:71-89 applyDailyTokenDelta *)
Definition applyDailyTokenDelta (tenantID keyID : string) (started previous next : Z) : DB unit :=
let delta := next -₆₄ previous in
if delta =? 0 then mret ()
else
  let day := localCalendarDate started in
  let tenant_tokens t := next_daily_tokens day delta (t_TokensUsedToday t) (t_TokensUsedOn t) in
  let key_tokens k := next_daily_tokens day delta (k_TokensUsedToday k) (k_TokensUsedOn k) in
  tenant ← gets (λ t, tb_tenants t !! tenantID);
  guard_that (bigint_ok tenant tenant_tokens) (ErrMessage "bigint out of range");;
  update tenants tenantID (λ t, t <| t_TokensUsedToday := tenant_tokens t;
                                     t_TokensUsedOn := Some day |>);;
  key ← gets (λ t, tb_api_keys t !! keyID);
  guard_that (bigint_ok key key_tokens) (ErrMessage "bigint out of range");;
  update api_keys keyID (λ k, k <| k_TokensUsedToday := key_tokens k;
                                   k_TokensUsedOn := Some day |>);;
  mret ().

(** ** Log rows *)

(* src/internal/store/log_units.go:13-15 isBillingDetail *)
Definition isBillingDetail (l : LogInput) : bool :=
(bool_decide (li_LogUnit l = LogUnitUnset) || bool_decide (li_LogUnit l = LogUnitStep)) &&
li_Settled l && li_PricingComplete l &&
match li_CostNanoUSD l with Some cost => 0 <? cost | None => false end.

(* src/internal/store/store.go:778-784 nullableIdentifier *)
Definition nullableIdentifier (value : string) : option string :=
if bool_decide (trim_space value = "") then None else Some (trim_space value).

(* src/internal/store/store.go:786-830 requestLogItem *)
Definition requestLogItem (l : LogInput) : RequestLog :=
let stageTimings := trim_space (lt_StageTimings (li_Texts l)) in
{| rl_ID := li_ID l;
   rl_LogUnit := if bool_decide (li_LogUnit l = LogUnitUnset) then LogUnitStep else li_LogUnit l;
   rl_TenantID := li_TenantID l; rl_APIKeyID := li_APIKeyID l;
   rl_ReservationRequestID := nullableIdentifier (li_ReservationRequestID l);
   rl_UpstreamRequestID := li_UpstreamRequestID l;
   rl_Model := li_Model l; rl_ActualModel := li_ActualModel l;
   rl_ParentSubscriptionID := nullableIdentifier (li_ParentSubscriptionID l);
   rl_ChildSubscriptionID := nullableIdentifier (li_ChildSubscriptionID l);
   rl_ParentSubscriptionName := ""; rl_ChildSubscriptionName := "";
   rl_ChannelID := ""; rl_ChannelName := "";
   rl_CredentialID := ""; rl_CredentialName := ""; rl_CredentialEmail := "";
   rl_StatusCode := li_StatusCode l; rl_PricingComplete := li_PricingComplete l;
   rl_Settled := li_Settled l; rl_BillingSource := li_BillingSource l;
   rl_Usage := li_Usage l; rl_CostNanoUSD := li_CostNanoUSD l; rl_Price := li_Price l;
   rl_ReservedNanoUSD := li_ReservedNanoUSD l; rl_LatencyMS := li_LatencyMS l;
   rl_RequestBodyBytes := li_RequestBodyBytes l; rl_ResponseBodyBytes := li_ResponseBodyBytes l;
   rl_StartedAt := li_StartedAt l; rl_CompletedAt := li_CompletedAt l;
   rl_Texts := (li_Texts l) <| lt_StageTimings :=
                 if bool_decide (stageTimings = "") then "{}" else stageTimings |> |}.
(** The parent's metadata names the account under one of three keys. *)
(* src/internal/store/store.go:867-875 writeLogTx *)
Definition credential_email (metadata : option (gmap string string)) : string :=
match metadata with
| None => ""
| Some m =>
    default "" (head (omap (λ key,
      value ← m !! key;
      if bool_decide (trim_space value ≠ "") then Some (trim_space value) else None)
      ["email"; "account_email"; "user_email"]))
end.

(* src/internal/store/store.go:858-877 writeLogTx *)
Definition describe_parent (item : RequestLog) (parent : ParentSubscription) : RequestLog :=
let item := item <| rl_ParentSubscriptionName := ps_Name parent;
                    rl_ChannelID := ps_ID parent; rl_ChannelName := ps_Name parent;
                    rl_CredentialID := ps_UpstreamCredentialID parent;
                    rl_CredentialName := ps_UpstreamCredentialName parent |> in
let texts := rl_Texts item in
item <| rl_Texts := texts <| lt_Provider :=
          if bool_decide (lt_Provider texts = "") then ps_Provider parent
          else lt_Provider texts |>;
        rl_CredentialEmail := credential_email (ps_Metadata parent) |>.

(** The columns that an import overwrites. *)
(* src/internal/store/store.go:887-903 writeLogTx *)
Definition overwrite_texts (old new : LogTexts) : LogTexts :=
{| lt_UsageQuality := lt_UsageQuality new; lt_Provider := lt_Provider old;
   lt_AuthIndex := lt_AuthIndex old; lt_Method := lt_Method old; lt_Path := lt_Path old;
   lt_UpstreamTraceID := lt_UpstreamTraceID old;
   lt_UpstreamExecutionID := lt_UpstreamExecutionID old;
   lt_RequestedModel := lt_RequestedModel new; lt_UpstreamModel := lt_UpstreamModel new;
   lt_ModelAlias := lt_ModelAlias new; lt_ExecutorType := lt_ExecutorType old;
   lt_AuthType := lt_AuthType old; lt_ServiceTier := lt_ServiceTier new;
   lt_ResponseServiceTier := lt_ResponseServiceTier new;
   lt_ReasoningEffort := lt_ReasoningEffort new; lt_TenantName := lt_TenantName old;
   lt_APIKeyName := lt_APIKeyName old; lt_APIKeyPrefix := lt_APIKeyPrefix old;
   lt_RequestType := lt_RequestType old; lt_ClientName := lt_ClientName old;
   lt_ClientVersion := lt_ClientVersion old; lt_UserAgent := lt_UserAgent old;
   lt_ErrorCode := lt_ErrorCode new; lt_ErrorMessage := lt_ErrorMessage new;
   lt_StageTimings := lt_StageTimings new; lt_Stream := lt_Stream new;
   lt_FirstTokenMS := lt_FirstTokenMS new; lt_TTFTMS := lt_TTFTMS new;
   lt_ForwardedBodyBytes := lt_ForwardedBodyBytes new |}.

(* src/internal/store/store.go:883-904 writeLogTx *)
Definition overwrite_log (old new : RequestLog) : RequestLog :=
{| rl_ID := rl_ID old; rl_LogUnit := rl_LogUnit new; rl_TenantID := rl_TenantID old;
   rl_APIKeyID := rl_APIKeyID old; rl_ReservationRequestID := rl_ReservationRequestID old;
   rl_UpstreamRequestID := rl_UpstreamRequestID new; rl_Model := rl_Model new;
   rl_ActualModel := rl_ActualModel new; rl_ParentSubscriptionID := rl_ParentSubscriptionID old;
   rl_ChildSubscriptionID := rl_ChildSubscriptionID old;
   rl_ParentSubscriptionName := rl_ParentSubscriptionName old;
   rl_ChildSubscriptionName := rl_ChildSubscriptionName old; rl_ChannelID := rl_ChannelID old;
   rl_ChannelName := rl_ChannelName old; rl_CredentialID := rl_CredentialID old;
   rl_CredentialName := rl_CredentialName old; rl_CredentialEmail := rl_CredentialEmail old;
   rl_StatusCode := rl_StatusCode new; rl_PricingComplete := rl_PricingComplete new;
   rl_Settled := rl_Settled new; rl_BillingSource := rl_BillingSource new;
   rl_Usage := rl_Usage new; rl_CostNanoUSD := rl_CostNanoUSD new; rl_Price := rl_Price new;
   rl_ReservedNanoUSD := rl_ReservedNanoUSD new; rl_LatencyMS := rl_LatencyMS new;
   rl_RequestBodyBytes := rl_RequestBodyBytes new;
   rl_ResponseBodyBytes := rl_ResponseBodyBytes new; rl_StartedAt := rl_StartedAt old;
   rl_CompletedAt := rl_CompletedAt new;
   rl_Texts := overwrite_texts (rl_Texts old) (rl_Texts new) |}.

(** A lookup that decorates the row when it succeeds and is ignored when it does not. *)
Definition decorate {V} (tb : table tables string V) (key : option string)
  (f : RequestLog → V → RequestLog) (item : RequestLog) : DB RequestLog :=
match key with
| None => mret item
| Some id =>
    r ← attempt (first tb id);
    mret (match r with Ok v => f item v | Err _ => item end)
end.

(* src/internal/store/store.go:847-934 writeLogTx *)
Definition writeLogTx (l : LogInput) (upserting : bool) : DB unit :=
if negb (isBillingDetail l) then mret ()
else
  let item := requestLogItem l in
  previousTokens ←
    (if upserting then
       statement;;
       gets (λ t, match tb_request_logs t !! rl_ID item with
                  | Some row => u_Total (rl_Usage row) | None => 0 end)
     else mret 0);
  item ← decorate parents (rl_ParentSubscriptionID item) describe_parent item;
  item ← decorate children (rl_ChildSubscriptionID item)
           (λ item child, item <| rl_ChildSubscriptionName := c_Name child |>) item;
  (if upserting then upsert request_logs (rl_ID item) item overwrite_log
   else create request_logs (rl_ID item) item);;
  applyDailyTokenDelta (rl_TenantID item) (rl_APIKeyID item) (rl_StartedAt item)
    previousTokens (u_Total (rl_Usage item));;
  match li_Detail l with
  | None => mret ()
  | Some detail =>
      if upserting then upsert log_details (li_ID l) detail (λ _ new, new)
      else create log_details (li_ID l) detail
  end.

(* src/internal/store/store.go:841-845 writeLog *)
Definition writeLog (l : LogInput) (upserting : bool) : DB unit :=
transaction (writeLogTx l upserting).

(* src/internal/store/store.go:832-834 WriteLog *)
Definition WriteLog (l : LogInput) : DB unit := writeLog l false.

(* src/internal/store/store.go:837-839 UpsertLog *)
Definition UpsertLog (l : LogInput) : DB unit := writeLog l true.
End request_logs.
