(* ===== verification/Reservation.v ===== *)
(** * Admission of a request (internal/store/subscriptions.go)

    [AdmitRequest] picks the subscription that will pay for a request, or the
    tenant's balance, and [reserveCandidate] holds the estimated cost there in
    one transaction. *)

From S2P Require Import Prelude.
From S2P Require Import Float64.
From S2P Require Import Database.
From S2P Require Import Schema.
From S2P Require Import QuotaMath.
From S2P Require Import ModelAccess.

(* src/internal/store/subscriptions.go:58-67 AdmissionInput *)
Record AdmissionInput := {
  ai_RequestID : string;
  ai_Key : KeyContext;
  ai_Model : string;
  ai_BalanceReserve : Z;
  ai_QuotaReserve : Z;
  ai_PriceConfigured : bool;
  ai_PriceSnapshot : string;
  ai_ExpiresAt : Z
}.

(* src/internal/store/subscriptions.go:69-77 Admission *)
Record Admission := {
  ad_RequestID : string;
  ad_ParentSubscriptionID : string;
  ad_ChildSubscriptionID : string;
  ad_UpstreamCredentialID : string;
  ad_UpstreamAuthIndex : string;
  ad_BalanceReservedNanoUSD : Z;
  ad_QuotaReservedNanoUSD : Z
}.

(* src/internal/store/subscriptions.go:1617-1630 admissionFromReservation *)
Definition admissionFromReservation (value : RequestReservation) : Admission :=
  {| ad_RequestID := r_RequestID value;
     ad_ParentSubscriptionID := default "" (r_ParentSubscriptionID value);
     ad_ChildSubscriptionID := default "" (r_ChildSubscriptionID value);
     ad_UpstreamCredentialID := r_UpstreamCredentialID value;
     ad_UpstreamAuthIndex := r_UpstreamAuthIndex value;
     ad_BalanceReservedNanoUSD := r_BalanceReservedNanoUSD value;
     ad_QuotaReservedNanoUSD := r_QuotaReservedNanoUSD value |}.

(** An empty JSON document is stored as an empty object. *)
Definition json_object_or (snapshot : string) : string :=
  if bool_decide (snapshot = "") then "{}" else snapshot.

(* src/internal/store/subscriptions.go:1223-1248 claudeQuotaWindowIdle *)
Definition claudeQuotaWindowIdle (parent : ParentSubscription) (window : ParentQuotaWindow)
    (now : Z) : bool :=
  if bool_decide (pw_Kind window ≠ "5h") || (now <? pw_ResetsAt window) then false
  else
    match ps_QuotaSnapshot parent with
    | None => false
    | Some report =>
        if negb (qs_Supported report) || bool_decide (qs_Source report ≠ "claude-oauth-usage") ||
           negb (pw_ResetsAt window <? qs_Observed report) || (now <? qs_Observed report)
        then false
        else existsb (λ observed,
               bool_decide (sw_Kind observed = pw_Kind window) &&
               match sw_Used observed with Some used => f64_eq used f64_zero | None => false end &&
               bool_decide (sw_Reset observed = None) &&
               negb (sw_Enforceable observed)) (qs_Windows report)
    end.

(** The loop that keeps the windows that are not idle. *)
(* src/internal/store/subscriptions.go:1128-1134 reserveCandidate *)
Definition active_windows (parent : ParentSubscription) (windows : list ParentQuotaWindow)
    : DB (list ParentQuotaWindow) :=
  kept ← for_each (λ window,
    now ← time_now;
    mret (if claudeQuotaWindowIdle parent window now then None else Some window)) windows;
  mret (omap id kept).

Definition zero_child_window : ChildQuotaWindow := Build_ChildQuotaWindow "" "" 0 0 0 0 0.

Definition is_not_found {A} (r : result A) : bool :=
  match r with Err ErrRecordNotFound => true | _ => false end.

Definition assign_window (old new : ChildQuotaWindow) : ChildQuotaWindow :=
  old <| w_StartedAt := w_StartedAt new; w_ResetsAt := w_ResetsAt new;
         w_LimitNanoUSD := w_LimitNanoUSD new; w_SettledNanoUSD := w_SettledNanoUSD new;
         w_ReservedNanoUSD := w_ReservedNanoUSD new |>.

(** One turn of the loop over the active windows of the parent. *)
(* src/internal/store/subscriptions.go:1146-1185 reserveCandidate *)
Definition reserve_window (quotaReserve : Z) (child : ChildSubscription)
    (parentWindow : ParentQuotaWindow) : DB quotaWindowReservation :=
  let limit := fraction (pw_LimitNanoUSD parentWindow) (c_AllocationPPM child) in
  let key := (c_ID child, pw_Kind parentWindow) in
  guard_that (negb (limit <=? 0)) ErrSubscriptionExhausted;;
  now ← time_now;
  guard_that (now <? pw_ResetsAt parentWindow) ErrSubscriptionUnavailable;;
  row ← attempt (first child_windows key);
  let current := match row with Ok w => w | Err _ => zero_child_window end in
  let stale := match row with
               | Ok w => pw_ResetsAt parentWindow <? w_ResetsAt w
               | Err _ => false end in
  guard_that (negb stale) ErrSubscriptionUnavailable;;
  window ←
    (if is_not_found row || bool_decide (w_ResetsAt current ≠ pw_ResetsAt parentWindow) then
       started ← time_now;
       let fresh := {| w_ChildSubscriptionID := c_ID child; w_Kind := pw_Kind parentWindow;
                       w_StartedAt := started; w_ResetsAt := pw_ResetsAt parentWindow;
                       w_LimitNanoUSD := limit; w_SettledNanoUSD := 0; w_ReservedNanoUSD := 0 |} in
       upsert child_windows key fresh assign_window;;
       mret fresh
     else match row with Ok w => mret w | Err e => fail e end);
  guard_that (negb (limit <? w_SettledNanoUSD window +₆₄ w_ReservedNanoUSD window +₆₄ quotaReserve))
    ErrSubscriptionExhausted;;
  update child_windows key (λ w,
    w <| w_LimitNanoUSD := limit;
         w_ReservedNanoUSD := w_ReservedNanoUSD window +₆₄ quotaReserve |>);;
  mret {| qr_Kind := pw_Kind parentWindow; qr_ResetsAt := pw_ResetsAt parentWindow |}.

(** The reservation before a subscription is chosen. *)
(* src/internal/store/subscriptions.go:1096-1103 reserveCandidate *)
Definition base_reservation (input : AdmissionInput) : RequestReservation :=
  {| r_RequestID := ai_RequestID input;
     r_TenantID := k_TenantID (kc_APIKey (ai_Key input));
     r_APIKeyID := k_ID (kc_APIKey (ai_Key input));
     r_ChildSubscriptionID := None; r_ParentSubscriptionID := None;
     r_UpstreamCredentialID := ""; r_UpstreamAuthIndex := "";
     r_Model := ai_Model input;
     r_BalanceReservedNanoUSD := ai_BalanceReserve input;
     r_QuotaReservedNanoUSD := 0; r_ActualNanoUSD := None; r_PricingComplete := false;
     r_PriceSnapshot := json_object_or (ai_PriceSnapshot input);
     r_QuotaWindows := []; r_Status := ReservationActive;
     r_ExpiresAt := ai_ExpiresAt input; r_SettledAt := None |}.

(** The quota of a metered parent: every active window, or learning mode. *)
(* src/internal/store/subscriptions.go:1119-1190 reserveCandidate *)
Definition reserve_quota (input : AdmissionInput) (child : ChildSubscription)
    (parent : ParentSubscription) (reservation : RequestReservation) : DB RequestReservation :=
  guard_that (negb (ai_QuotaReserve input <=? 0)) ErrSubscriptionPrice;;
  parentWindows ← find parent_windows (λ w, bool_decide (pw_ParentSubscriptionID w = ps_ID parent));
  parentWindows ← active_windows parent parentWindows;
  reservation ←
    (if bool_decide (length parentWindows = 0%nat) then
       guard_that (bool_decide (ps_CapacityMode parent = ParentCapacityObserved) &&
                   negb (bool_decide (ps_QuotaProbeStatus parent = "unsupported")))
         ErrSubscriptionUnavailable;;
       mret reservation
     else mret (reservation <| r_BalanceReservedNanoUSD := 0 |>));
  reservedWindows ← for_each (reserve_window (ai_QuotaReserve input) child) parentWindows;
  let reservation : RequestReservation := reservation in
  mret (if bool_decide (0 < length reservedWindows)%nat
        then reservation <| r_QuotaReservedNanoUSD := ai_QuotaReserve input;
                            r_QuotaWindows := reservedWindows |>
        else reservation).

(** The subscription half of the transaction. *)
(* src/internal/store/subscriptions.go:1105-1191 reserveCandidate *)
Definition reserve_subscription (input : AdmissionInput) (candidate : SubscriptionCandidate)
    (reservation : RequestReservation) : DB RequestReservation :=
  child ← map_error (λ _, ErrSubscriptionUnavailable)
            (first_where children (c_ID (sc_Child candidate)) c_Enabled);
  parent ← map_error (λ _, ErrSubscriptionUnavailable)
             (first_where parents (c_ParentSubscriptionID child)
                (λ p, ps_Enabled p && negb (ps_UpstreamUnavailable p)));
  let reservation := reservation <| r_ChildSubscriptionID := Some (c_ID child);
                                    r_ParentSubscriptionID := Some (ps_ID parent);
                                    r_UpstreamCredentialID := ps_UpstreamCredentialID parent;
                                    r_UpstreamAuthIndex := ps_UpstreamAuthIndex parent |> in
  if decide (ps_CapacityMode parent = ParentCapacityUnmetered) then mret reservation
  else reserve_quota input child parent reservation.

(** [tenant] already holds the new balance: store it and file the ledger entry that
    explains it.  The same lines close every charge of the store. *)
(* src/internal/store/subscriptions.go:1196-1208 reserveCandidate *)
Definition post_ledger (tenant : Tenant) (requestID : option string) (kind : LedgerKind)
    (amount : Z) (note : string) : DB unit :=
  update tenants (t_ID tenant) (λ row, row <| t_BalanceNanoUSD := t_BalanceNanoUSD tenant |>);;
  id ← new_id;
  create_ledger {| l_ID := id; l_TenantID := t_ID tenant; l_RequestID := requestID;
                   l_Kind := kind; l_AmountNanoUSD := amount;
                   l_BalanceAfterNanoUSD := t_BalanceNanoUSD tenant; l_Note := note |}.

(* src/internal/store/subscriptions.go:1077-1216 reserveCandidate *)
Definition reserveCandidate (input : AdmissionInput) (candidate : option SubscriptionCandidate)
    : DB Admission :=
  transaction (
    existing ← attempt (first reservations (ai_RequestID input));
    match existing with
    | Ok reservation => mret (admissionFromReservation reservation)
    | Err e =>
        if negb (bool_decide (e = ErrRecordNotFound)) then fail e
        else
          tenant ← first tenants (k_TenantID (kc_APIKey (ai_Key input)));
          guard_that (t_Enabled tenant) ErrInsufficientBalance;;
          let reservation := base_reservation input in
          reservation ← match candidate with
                        | Some candidate => reserve_subscription input candidate reservation
                        | None => mret reservation
                        end;
          guard_that (negb (t_BalanceNanoUSD tenant <? r_BalanceReservedNanoUSD reservation))
            ErrInsufficientBalance;;
          (if 0 <? r_BalanceReservedNanoUSD reservation then
             post_ledger
               (tenant <| t_BalanceNanoUSD :=
                  t_BalanceNanoUSD tenant -₆₄ r_BalanceReservedNanoUSD reservation |>)
               (Some (ai_RequestID input)) LedgerReservation
               (wrap64 (- r_BalanceReservedNanoUSD reservation)) "request reserve"
           else mret ());;
          create reservations (r_RequestID reservation) reservation;;
          mret (admissionFromReservation reservation)
    end).

(** The verdict when no candidate could serve. *)
(* src/internal/store/subscriptions.go:1052-1061 AdmitRequest *)
Definition admission_refusal (hadUnavailable hadPriceError hadExhausted : bool) : error :=
  if hadUnavailable then ErrSubscriptionUnavailable
  else if hadPriceError then ErrSubscriptionPrice
  else if hadExhausted then ErrSubscriptionExhausted
  else ErrSubscriptionRequired.

(** The loop over the candidates, in order. *)
(* src/internal/store/subscriptions.go:1032-1061 AdmitRequest *)
Fixpoint try_candidates (input : AdmissionInput) (candidates : list SubscriptionCandidate)
    (hadUnavailable hadPriceError hadExhausted : bool) : DB Admission :=
  match candidates with
  | [] => fail (admission_refusal hadUnavailable hadPriceError hadExhausted)
  | candidate :: candidates =>
      if negb (bool_decide (ps_CapacityMode (sc_Parent candidate) = ParentCapacityUnmetered)) &&
         negb (ai_PriceConfigured input)
      then try_candidates input candidates hadUnavailable true hadExhausted
      else
        r ← attempt (reserveCandidate input (Some candidate));
        match r with
        | Ok admission => mret admission
        | Err ErrSubscriptionUnavailable =>
            try_candidates input candidates true hadPriceError hadExhausted
        | Err ErrSubscriptionExhausted =>
            try_candidates input candidates hadUnavailable hadPriceError true
        | Err e => fail e
        end
  end.

(* src/internal/store/subscriptions.go:1015-1062 AdmitRequest *)
Definition AdmitRequest (input : AdmissionInput) : DB Admission :=
  now ← time_now;
  found ← SubscriptionCandidates (k_TenantID (kc_APIKey (ai_Key input))) (ai_Model input) now;
  let '(candidates, hasModelAssignment, hasUnavailableAssignment) :=
    (found : list SubscriptionCandidate * bool * bool) in
  if bool_decide (length candidates = 0%nat) then
    if hasUnavailableAssignment then fail ErrSubscriptionUnavailable
    else if hasModelAssignment then fail ErrSubscriptionRequired
    else reserveCandidate input None
  else try_candidates input candidates hasUnavailableAssignment false false.

(* src/internal/store/subscriptions.go:1064-1075 UpdateReservationPriceSnapshot *)
Definition UpdateReservationPriceSnapshot (requestID snapshot : string) : DB unit :=
  updated ← update_where reservations requestID
              (λ r, bool_decide (r_Status r = ReservationActive))
              (λ r, r <| r_PriceSnapshot := json_object_or snapshot |>);
  guard_that updated ErrNotFound.
