(* ===== verification/Settlement.v ===== *)
(** * Settlement of a request (internal/store/subscriptions.go)

    Every admitted request ends once: it is settled with its cost, released, or
    reclaimed when it expires.  A WebSocket request is charged turn by turn
    before it ends.  Each ending reconciles what was held or charged so far with
    the final cost, on the side that admission chose. *)

From S2P Require Import Prelude.
From S2P Require Import Cost.
From S2P Require Import Database.
From S2P Require Import Schema.
From S2P Require Import ModelAccess.
From S2P Require Import RequestLogs.
From S2P Require Import Reservation.

(** [uuid.NewSHA1(uuid.NameSpaceOID, data)] is code of a library. *)
Class NameUUID := new_sha1 : string → string.

(* src/internal/store/subscriptions.go:1460-1464 reservationUsesBalance *)
Definition reservationUsesBalance (reservation : RequestReservation) : bool :=
  r_QuotaReservedNanoUSD reservation =? 0.

(* src/internal/store/subscriptions.go:1466-1471 reservationBillingSource *)
Definition reservationBillingSource (reservation : RequestReservation) : BillingSource :=
  if 0 <? r_QuotaReservedNanoUSD reservation then SourceSubscription else SourceBalance.

Definition is_active (r : RequestReservation) : bool :=
  bool_decide (r_Status r = ReservationActive).

(** ** The end of a reservation *)

(** Reserved and settled amounts never go below zero. *)
Definition floor0 (z : Z) : Z := if z <? 0 then 0 else z.

(* src/internal/store/subscriptions.go:1543-1550 finishReservationTx *)
Definition release_window (quotaReserved quotaDelta : Z) (window : ChildQuotaWindow)
    : ChildQuotaWindow :=
  window <| w_ReservedNanoUSD := floor0 (w_ReservedNanoUSD window -₆₄ quotaReserved);
            w_SettledNanoUSD := floor0 (w_SettledNanoUSD window +₆₄ quotaDelta) |>.

(** The window of a generation, if the child is still in it. *)
Definition window_of (childID : string) (reserved : quotaWindowReservation)
    : DB (result ChildQuotaWindow) :=
  attempt (first_where child_windows (childID, qr_Kind reserved)
             (λ w, bool_decide (w_ResetsAt w = qr_ResetsAt reserved))).

(* src/internal/store/subscriptions.go:1530-1560 finishReservationTx *)
Definition finish_window (childID : string) (quotaReserved quotaDelta : Z)
    (reserved : quotaWindowReservation) : DB unit :=
  window ← window_of childID reserved;
  match window with
  | Err ErrRecordNotFound => mret ()
  | Err e => fail e
  | Ok window =>
      let released := release_window quotaReserved quotaDelta window in
      update child_windows (w_ChildSubscriptionID window, w_Kind window) (λ w,
        w <| w_ReservedNanoUSD := w_ReservedNanoUSD released;
             w_SettledNanoUSD := w_SettledNanoUSD released |>);;
      mret ()
  end.

(* src/internal/store/subscriptions.go:1479-1568 finishReservationTx *)
Definition finishReservationTx (requestID : string) (actual : Z) (pricingComplete : bool)
    (status : ReservationStatus) : DB unit :=
  reservation ← map_error notFound (first reservations requestID);
  if negb (is_active reservation) then mret ()
  else
    tenant ← first tenants (r_TenantID reservation);
    let usesBalance := reservationUsesBalance reservation in
    let accrued := default 0 (r_ActualNanoUSD reservation) in
    let finalActual :=
      if bool_decide (status = ReservationSettled ∨ status = ReservationExpired) then actual else 0 in
    let balanceDelta :=
      if usesBalance then r_BalanceReservedNanoUSD reservation +₆₄ accrued -₆₄ finalActual else 0 in
    (if negb (balanceDelta =? 0) then
       post_ledger (tenant <| t_BalanceNanoUSD := t_BalanceNanoUSD tenant +₆₄ balanceDelta |>)
         (Some requestID)
         (if bool_decide (status = ReservationSettled) then LedgerSettlement else LedgerRefund)
         balanceDelta "request reservation finalized"
     else mret ());;
    match r_ChildSubscriptionID reservation with
    | Some childID =>
        if 0 <? r_QuotaReservedNanoUSD reservation then
          for_each (finish_window childID (r_QuotaReservedNanoUSD reservation)
                      (finalActual -₆₄ accrued)) (r_QuotaWindows reservation);;
          mret ()
        else mret ()
    | None => mret ()
    end;;
    now ← time_now;
    update reservations requestID (λ r,
      r <| r_ActualNanoUSD := Some finalActual; r_PricingComplete := pricingComplete;
           r_Status := status; r_SettledAt := Some now |>);;
    mret ().

(* src/internal/store/subscriptions.go:1473-1477 finishReservation *)
Definition finishReservation (requestID : string) (actual : Z) (pricingComplete : bool)
    (status : ReservationStatus) : DB unit :=
  transaction (finishReservationTx requestID actual pricingComplete status).

Definition unconfirmed_charge : error :=
  ErrMessage "billing requires a confirmed non-negative charge".

(** A charge is confirmed when it is priced and not negative; without a price it is zero. *)
Definition confirmed (actual : Z) (pricingComplete : bool) : bool :=
  negb ((actual <? 0) || (negb pricingComplete && negb (actual =? 0))).

(* src/internal/store/subscriptions.go:1250-1255 SettleRequestReservation *)
Definition SettleRequestReservation (requestID : string) (actual : Z) (pricingComplete : bool)
    : DB unit :=
  guard_that (confirmed actual pricingComplete) unconfirmed_charge;;
  finishReservation requestID actual pricingComplete ReservationSettled.

(* src/internal/store/subscriptions.go:1432-1434 ReleaseRequestReservation *)
Definition ReleaseRequestReservation (requestID : string) : DB unit :=
  finishReservation requestID 0 false ReservationReleased.

(** One turn of the reclaim loop: a reservation that vanished is skipped. *)
(* src/internal/store/subscriptions.go:1444-1456 ReclaimExpiredReservations *)
Definition reclaim_one (reservation : RequestReservation) : DB Z :=
  r ← attempt (finishReservation (r_RequestID reservation) (default 0 (r_ActualNanoUSD reservation))
                 (r_PricingComplete reservation) ReservationExpired);
  match r with
  | Ok _ => mret 1
  | Err ErrNotFound => mret 0
  | Err e => fail e
  end.

(** The count of an interrupted run is dropped. *)
(* src/internal/store/subscriptions.go:1436-1458 ReclaimExpiredReservations *)
Definition ReclaimExpiredReservations (now : Z) : DB Z :=
  expired ← find reservations (λ r, is_active r && (r_ExpiresAt r <=? now));
  counts ← for_each reclaim_one expired;
  mret (sum_by id counts).

Section settlement.
Context `{TimeZone} `{NameUUID}.

(** The actual charge of a settled request. *)
(* src/internal/store/subscriptions.go:1268-1271 SettleRequestWithLog *)
Definition settled_charge (l : LogInput) : Z :=
match li_CostNanoUSD l with
| Some cost => if li_PricingComplete l && (0 <? cost) then cost else 0
| None => 0
end.

(* src/internal/store/subscriptions.go:1259-1283 SettleRequestWithLog *)
Definition SettleRequestWithLog (requestID : string) (l : LogInput) : DB unit :=
transaction (
  reservation ← map_error notFound (first reservations requestID);
  if negb (is_active reservation) then mret ()
  else
    let actual := settled_charge l in
    finishReservationTx requestID actual (li_PricingComplete l) ReservationSettled;;
    let l := l <| li_ID := requestID; li_TenantID := r_TenantID reservation;
                  li_APIKeyID := r_APIKeyID reservation |> in
    let l := l <| li_CostNanoUSD := Some actual; li_Settled := true; li_ReservedNanoUSD := 0;
                  li_BillingSource := reservationBillingSource reservation |> in
    guard_that (negb ((0 <? actual) && negb (isBillingDetail l)))
      (ErrMessage "charge requires a billing step");;
    writeLogTx l false).

(** ** WebSocket turns *)

(* src/internal/store/subscriptions.go:79-92 WebSocketTurnAccrual *)
Record WebSocketTurnAccrual := {
ws_RequestID : string;
ws_TurnID : string;
ws_Model : string;
ws_Usage : Usage;
ws_CostNanoUSD : Z;
ws_PricingComplete : bool;
ws_RequestBodyBytes : Z;
ws_ResponseBodyBytes : Z;
ws_LatencyMS : Z;
ws_StartedAt : Z;
ws_CompletedAt : Z;
ws_Log : LogInput
}.

(* src/internal/store/subscriptions.go:1286-1288 WebSocketStepID *)
Definition WebSocketStepID (requestID turnID : string) : string :=
new_sha1 (requestID +:+ String Ascii.zero turnID).

(* src/internal/store/subscriptions.go:1290-1305 webSocketStepLog *)
Definition webSocketStepLog (input : WebSocketTurnAccrual) (startedAt completedAt : Z) : LogInput :=
let stepLog := ws_Log input in
let stepLog := stepLog <| li_ID := WebSocketStepID (ws_RequestID input) (trim_space (ws_TurnID input));
                          li_ReservationRequestID := ws_RequestID input;
                          li_UpstreamRequestID := trim_space (ws_TurnID input);
                          li_Model := ws_Model input; li_ActualModel := ws_Model input |> in
let stepLog := stepLog <| li_Usage := ws_Usage input; li_CostNanoUSD := Some (ws_CostNanoUSD input);
                          li_PricingComplete := ws_PricingComplete input |> in
let stepLog := stepLog <| li_StartedAt := startedAt; li_CompletedAt := completedAt;
                          li_LatencyMS := Z.quot (time_sub completedAt startedAt) 1000000 |> in
stepLog <| li_RequestBodyBytes := ws_RequestBodyBytes input;
           li_ResponseBodyBytes := ws_ResponseBodyBytes input;
           li_ReservedNanoUSD := 0 |>.

Definition status_name (s : ReservationStatus) : string :=
match s with
| ReservationActive => "active" | ReservationSettled => "settled"
| ReservationReleased => "released" | ReservationExpired => "expired"
end.

(* src/internal/store/subscriptions.go:1338-1351 AccrueWebSocketTurn *)
Definition turn_row (input : WebSocketTurnAccrual) (startedAt completedAt now : Z) : WebSocketTurn :=
{| wt_RequestID := ws_RequestID input; wt_TurnID := trim_space (ws_TurnID input);
   wt_Model := trim_space (ws_Model input); wt_Usage := ws_Usage input;
   wt_CostNanoUSD := ws_CostNanoUSD input; wt_PricingComplete := ws_PricingComplete input;
   wt_RequestBodyBytes := ws_RequestBodyBytes input;
   wt_ResponseBodyBytes := ws_ResponseBodyBytes input; wt_LatencyMS := ws_LatencyMS input;
   wt_StartedAt := startedAt; wt_CompletedAt := completedAt; wt_CreatedAt := now |}.

(* src/internal/store/subscriptions.go:1390-1404 AccrueWebSocketTurn *)
Definition accrue_window (childID : string) (cost : Z) (reserved : quotaWindowReservation) : DB unit :=
window ← window_of childID reserved;
match window with
| Err ErrRecordNotFound => mret ()
| Err e => fail e
| Ok window =>
    update child_windows (w_ChildSubscriptionID window, w_Kind window) (λ w,
      w <| w_SettledNanoUSD := w_SettledNanoUSD window +₆₄ cost |>);;
    mret ()
end.

(** What an inserted turn charges: the balance or the quota windows, then the
  running total of the reservation. *)
(* src/internal/store/subscriptions.go:1363-1416 AccrueWebSocketTurn *)
Definition charge_turn (input : WebSocketTurnAccrual) (reservation : RequestReservation) : DB unit :=
(if reservationUsesBalance reservation && negb (ws_CostNanoUSD input =? 0) then
   tenant ← first tenants (r_TenantID reservation);
   post_ledger (tenant <| t_BalanceNanoUSD := t_BalanceNanoUSD tenant -₆₄ ws_CostNanoUSD input |>)
     (Some (r_RequestID reservation)) LedgerSettlement (wrap64 (- ws_CostNanoUSD input))
     "websocket terminal turn settlement"
 else mret ());;
match r_ChildSubscriptionID reservation with
| Some childID =>
    if (0 <? r_QuotaReservedNanoUSD reservation) && negb (ws_CostNanoUSD input =? 0) then
      for_each (accrue_window childID (ws_CostNanoUSD input)) (r_QuotaWindows reservation);;
      mret ()
    else mret ()
| None => mret ()
end;;
let '(accrued, pricingComplete) :=
  match r_ActualNanoUSD reservation with
  | Some before => (ws_CostNanoUSD input +₆₄ before,
                    r_PricingComplete reservation && ws_PricingComplete input)
  | None => (ws_CostNanoUSD input, ws_PricingComplete input)
  end in
update reservations (r_RequestID reservation) (λ r,
  r <| r_ActualNanoUSD := Some accrued; r_PricingComplete := pricingComplete |>);;
mret ().

(* src/internal/store/subscriptions.go:1310-1430 AccrueWebSocketTurn *)
Definition AccrueWebSocketTurn (input : WebSocketTurnAccrual) : DB bool :=
guard_that (confirmed (ws_CostNanoUSD input) (ws_PricingComplete input)) unconfirmed_charge;;
guard_that (negb (bool_decide (li_LogUnit (ws_Log input) = LogUnitPrewarm) &&
                  (negb (ws_CostNanoUSD input =? 0) ||
                   bool_decide (ws_Usage input ≠ zero_usage) ||
                   negb (ws_PricingComplete input))))
  (ErrMessage "prewarm must have complete zero-cost accounting");;
if ws_CostNanoUSD input =? 0 then mret true
else
  transaction (
    reservation ← map_error notFound (first reservations (ws_RequestID input));
    guard_that (is_active reservation)
      (ErrMessage ("request reservation is " +:+ status_name (r_Status reservation)));;
    completedAt ← (if ws_CompletedAt input =? 0 then time_now else mret (ws_CompletedAt input));
    let startedAt := if ws_StartedAt input =? 0 then completedAt else ws_StartedAt input in
    now ← time_now;
    let turn := turn_row input startedAt completedAt now in
    guard_that (negb (bool_decide (wt_TurnID turn = ""))) (ErrMessage "websocket turn id is required");;
    inserted ← create_do_nothing turns (wt_RequestID turn, wt_TurnID turn) turn;
    if negb inserted then mret false
    else
      charge_turn input reservation;;
      let stepLog := webSocketStepLog input startedAt completedAt in
      let stepLog := stepLog <| li_TenantID := r_TenantID reservation;
                                li_APIKeyID := r_APIKeyID reservation;
                                li_Settled := true;
                                li_BillingSource := reservationBillingSource reservation |> in
      guard_that (isBillingDetail stepLog) (ErrMessage "charge requires a billing step");;
      writeLogTx stepLog false;;
      mret true).
End settlement.

(* src/internal/store/store.go:504-519 Credit *)
Definition Credit (tenantID : string) (amount : Z) (note : string) : DB unit :=
  transaction (
    tenant ← first tenants tenantID;
    let tenant := tenant <| t_BalanceNanoUSD := t_BalanceNanoUSD tenant +₆₄ amount |> in
    post_ledger tenant None LedgerCredit amount note).
