(* ===== verification/Requests.v ===== *)
(** * A request and its bill (internal/app)

    What the gateway reads off a request (request_meta.go), the reservation it
    asks for (public.go), the bill it makes out when the response is through
    (inference.go, cpa_usage.go) and the row it files (request_logging.go). *)

From S2P Require Import Prelude.
From S2P Require Import Float64.
From S2P Require Import Cost.
From S2P Require Import Pricing.
From S2P Require Import Json.
From S2P Require Import Usage.
From S2P Require Import Capture.
From S2P Require Import Database.
From S2P Require Import Schema.
From S2P Require Import ModelAccess.
From S2P Require Import RequestLogs.
From S2P Require Import Reservation.
From S2P Require Import Settlement.

(** ** Text *)

Fixpoint trim_right_of (c : ascii) (s : string) : string :=
  match s with
  | EmptyString => ""
  | String a s =>
      match trim_right_of c s with
      | EmptyString => if bool_decide (a = c) then "" else String a ""
      | s => String a s
      end
  end.

Fixpoint trim_left_of (c : ascii) (s : string) : string :=
  match s with
  | EmptyString => ""
  | String a t => if bool_decide (a = c) then trim_left_of c t else s
  end.

Fixpoint has_suffix (s p : string) : bool :=
  bool_decide (s = p) || match s with EmptyString => false | String _ s => has_suffix s p end.

(* src/internal/app/quota_sync.go:312-319 firstNonEmptyString *)
Fixpoint firstNonEmptyString (values : list string) : string :=
  match values with
  | [] => ""
  | value :: values =>
      if bool_decide (trim_space value = "") then firstNonEmptyString values else trim_space value
  end.

(** [utf8.RuneStart]. *)
Definition rune_start (c : option ascii) : bool :=
  match c with Some c => negb (continuation c) | None => true end.

Fixpoint back_to_rune (s : string) (n : nat) : nat :=
  match n with
  | 0%nat => 0%nat
  | S m => if rune_start (String.get n s) then n else back_to_rune s m
  end.

(* src/internal/app/request_logging.go:206-217 boundedErrorText *)
Definition boundedErrorText (value : string) : string :=
  let value := ToValidUTF8 (trim_space value) in
  if bool_decide (2048 < String.length value)%nat then String.substring 0 (back_to_rune value 2048) value
  else value.

(** ** Paths *)

(* src/internal/app/public.go:312-316 isTokenCountPath *)
Definition isTokenCountPath (path : string) : bool :=
  let path := trim_right_of "/" (trim_space path) in
  bool_decide (path = "/v1/messages/count_tokens") ||
  (has_prefix path "/v1beta/models/" && has_suffix path ":countTokens").

(* src/internal/app/realtime_secret.go:25-27 isRealtimeSecretCreation *)
Definition isRealtimeSecretCreation (path : string) : bool :=
  bool_decide (path = "/v1/realtime/client_secrets") || bool_decide (path = "/v1/realtime/sessions").

(* src/internal/app/public.go:318-320 isNonGenerationPath *)
Definition isNonGenerationPath (path : string) : bool :=
  isTokenCountPath path || isRealtimeSecretCreation path.

(* src/internal/app/native_websocket.go:88-91 isRealtimeWebSocketPath *)
Definition isRealtimeWebSocketPath (path : string) : bool :=
  let path := trim_right_of "/" path in
  bool_decide (path = "/v1/realtime") || has_prefix path "/v1/realtime/calls/" || has_prefix path "/v1/live/".

(** The HTTP request; [hr_Client] is what client_user_agent.go recognises in its
    User-Agent. *)
Record clientIdentity := { ci_Name : string; ci_Version : string; ci_UserAgent : string }.
Record HTTPRequest := { hr_Method : string; hr_Path : string; hr_Upgrade : string; hr_Client : clientIdentity }.

(* src/internal/app/public.go:322-324 isWebSocketUpgrade *)
Definition isWebSocketUpgrade (r : HTTPRequest) : bool := equal_fold (trim_space (hr_Upgrade r)) "websocket".

(* src/internal/app/request_logging.go:90-109 requestType *)
Definition requestType (path : string) (websocket : bool) : string :=
  if websocket then if contains path "/responses" then "responses.websocket" else "websocket"
  else if contains path "/responses" then "responses"
  else if contains path "/chat/completions" then "chat.completions"
  else if contains path "/embeddings" then "embeddings"
  else if contains path "/images" then "images"
  else trim_right_of "/" (trim_left_of "/" (trim_space path)).

(** ** What the request asks for *)

(* src/internal/app/request_meta.go:18-27 requestMeta *)
Record requestMeta := {
  rm_Model : string;
  rm_Stream : bool;
  rm_ServiceTier : string;
  rm_ReasoningEffort : string;
  rm_ImageCount : Z;
  rm_RequestedModel : string;
  rm_ModelAlias : string;
  rm_Prewarm : bool
}.
#[export] Instance requestMeta_eta : Eta requestMeta := λ r, Build_requestMeta (rm_Model r) (rm_Stream r)
  (rm_ServiceTier r) (rm_ReasoningEffort r) (rm_ImageCount r) (rm_RequestedModel r) (rm_ModelAlias r)
  (rm_Prewarm r).

(* src/internal/app/public.go:39-41 admissionAuthIndex *)
Definition admissionAuthIndex (admission : Admission) : string :=
  firstNonEmptyString [ad_UpstreamCredentialID admission; ad_UpstreamAuthIndex admission].

(* src/internal/app/public.go:43-49 requestPriceDimensions *)
Definition requestPriceDimensions (key : KeyContext) (meta : requestMeta) (path authIndex responseTier : string)
    : Dimensions :=
  {| d_APIGroupKey := k_ID (kc_APIKey key); d_Model := rm_Model meta; d_ModelAlias := "";
     d_AuthIndex := authIndex; d_ServiceTier := rm_ServiceTier meta; d_ResponseServiceTier := responseTier;
     d_ReasoningEffort := rm_ReasoningEffort meta; d_Endpoint := path; d_ExecutorType := "";
     d_PromptTokens := 0 |}.

(** ** Errors *)

(* src/internal/app/user_errors.go:14-20 userFacingError *)
Record userFacingError := { ue_Status : Z; ue_Code : string; ue_Retryable : bool }.

(** Messages are left out. *)
(* src/internal/app/user_errors.go:66-83 admissionUserError *)
Definition admissionUserError (e : error) : userFacingError :=
  match e with
  | ErrInsufficientBalance => Build_userFacingError 402 "insufficient_balance" false
  | ErrSubscriptionPrice => Build_userFacingError 503 "subscription_pricing_unavailable" false
  | ErrSubscriptionUnavailable => Build_userFacingError 503 "subscription_unavailable" false
  | ErrSubscriptionRequired => Build_userFacingError 403 "subscription_not_assigned" false
  | ErrSubscriptionExhausted => Build_userFacingError 402 "subscription_quota_exhausted" false
  | _ => Build_userFacingError 500 "admission_internal_error" true
  end.

(* src/internal/app/user_errors.go:39-48 defaultErrorRetryable *)
Definition defaultErrorRetryable (status : Z) (code : string) : bool :=
  if bool_decide (code ∈ ["model_account_auth_failed"; "model_account_subscription_invalid";
       "model_account_permission_denied"; "model_account_model_unavailable"; "subscription_unavailable";
       "subscription_pricing_unavailable"; "pricing_unavailable"; "insufficient_balance";
       "subscription_quota_exhausted"; "model_account_quota_exhausted"; "subscription_not_assigned";
       "model_not_allowed"])
  then false
  else bool_decide (status ∈ [429; 502; 503; 504]).

(* src/internal/app/public.go:25-27 publicError *)
Definition publicError (status : Z) (code : string) : userFacingError :=
  Build_userFacingError status code (defaultErrorRetryable status code).

(** A text of an untyped document, or the empty one. *)
Definition text_in (m : members) (key : string) : string :=
  match member key m with Some (JString s) => s | _ => "" end.

(* src/internal/app/user_errors.go:96-121 upstreamErrorFields *)
Definition upstreamErrorFields (payload : string) : string * string * string :=
  match unmarshal_object payload with
  | None =>
      let text := boundedErrorText payload in
      ("", "", if has_prefix (trim_space text) "<" then "" else text)
  | Some root =>
      let value := default root (object_in root "error") in
      let message := text_in value "message" in
      let message := if bool_decide (message = "") then text_in root "message" else message in
      let message := if bool_decide (message = "") then text_in root "error" else message in
      (trim_space (text_in value "code"), trim_space (text_in value "type"), boundedErrorText message)
  end.

(** The names of the status codes are those of net/http. *)
Class StatusText := status_text : Z → string.

(* src/internal/app/request_logging.go:185-204 upstreamErrorMessage *)
Definition upstreamErrorMessage `{StatusText} (status : Z) (payload : string) : string :=
  let usable text := negb (bool_decide (trim_space text = "")) in
  let value := default [] (unmarshal_object payload) in
  let nested := text_in (default [] (object_in value "error")) "message" in
  if usable nested then boundedErrorText nested
  else if usable (text_in value "message") then boundedErrorText (text_in value "message")
  else if usable (text_in value "error") then boundedErrorText (text_in value "error")
  else if usable (status_text status) then trim_space (status_text status)
  else "upstream request failed".

(* src/internal/app/user_errors.go:85-94 observedError *)
Definition observedError `{StatusText} (status : Z) (payload : string) : string * string :=
  let '(code, _, message) := upstreamErrorFields payload in
  (if bool_decide (code = "") then "upstream_http_error" else code,
   if bool_decide (message = "") then upstreamErrorMessage status payload else message).

(** ** The log row *)

(** FNV-1a, 64 bits. *)
Fixpoint fnv64a (hash : Z) (text : string) : Z :=
  match text with
  | EmptyString => hash
  | String c text => fnv64a (Z.lxor hash (Z.of_nat (Ascii.nat_of_ascii c)) * 1099511628211 mod 2 ^ 64) text
  end.

(* src/internal/app/request_logging.go:61-71 sampledRequest *)
Definition sampledRequest (requestID : string) (ppm : Z) : bool :=
  if ppm <=? 0 then false
  else if 1000000 <=? ppm then true
  else fnv64a 14695981039346656037 requestID mod 1000000 <? ppm.

(* src/internal/app/request_logging.go:73-78 shouldRetainRequestDetail *)
Definition shouldRetainRequestDetail (requestID : string) (status : Z) (errorCode : string) (successSamplePPM : Z)
    : bool :=
  if (status <=? 0) || (400 <=? status) || negb (bool_decide (trim_space errorCode = "")) then true
  else sampledRequest requestID successSamplePPM.

(* src/internal/app/request_logging.go:219-232 requestLogContext *)
Record requestLogContext := {
  lc_logUnit : LogUnit;
  lc_firstTokenMS : option Z;
  lc_price : option SnapshotPrice;
  lc_detail : option LogDetailInput;
  lc_ttftMS : option Z;
  lc_upstreamTraceID : string;
  lc_errorCode : string;
  lc_requestBytes : Z;
  lc_forwardedBytes : Z;
  lc_responseBytes : Z;
  lc_stageTimings : string;
  lc_completedAt : Z
}.
#[export] Instance requestLogContext_eta : Eta requestLogContext := λ r, Build_requestLogContext
  (lc_logUnit r) (lc_firstTokenMS r) (lc_price r) (lc_detail r) (lc_ttftMS r) (lc_upstreamTraceID r)
  (lc_errorCode r) (lc_requestBytes r) (lc_forwardedBytes r) (lc_responseBytes r) (lc_stageTimings r)
  (lc_completedAt r).

(** A size that was not measured is taken from the captured detail. *)
Definition size_or (size : Z) (detail : option LogDetailInput) (f : LogDetailInput → Z) : Z :=
  match detail with Some d => if size =? 0 then f d else size | None => size end.

(** A completion that was not stamped is stamped now. *)
(* src/internal/app/request_logging.go:297-353 requestLogInput *)
Definition requestLogInput {T} (key : KeyContext) (requestID : string) (admission : Admission) (meta : requestMeta)
    (r : HTTPRequest) (status started : Z) (parsed : option Result) (pricingComplete settled : bool) (cost : Z)
    (errorMessage : string) (c : requestLogContext) : M T LogInput :=
  let result := default empty_result parsed in
  let unit := match parsed with
              | Some p => if NonGenerated p then LogUnitPrewarm else lc_logUnit c
              | None => lc_logUnit c end in
  completedAt ← (if lc_completedAt c =? 0 then time_now else mret (lc_completedAt c));
  mret {|
    li_BillingSource := SourceUnset; li_LogUnit := unit; li_ID := requestID;
    li_TenantID := k_TenantID (kc_APIKey key); li_APIKeyID := k_ID (kc_APIKey key);
    li_ReservationRequestID := ""; li_UpstreamRequestID := br_RequestID result;
    li_Model := rm_Model meta; li_ActualModel := rm_Model meta;
    li_ParentSubscriptionID := ad_ParentSubscriptionID admission;
    li_ChildSubscriptionID := ad_ChildSubscriptionID admission;
    li_StatusCode := status; li_PricingComplete := pricingComplete; li_Settled := settled;
    li_Usage := br_Usage result; li_CostNanoUSD := if pricingComplete then Some cost else None;
    li_Price := lc_price c; li_ReservedNanoUSD := 0;
    li_LatencyMS := Z.quot (time_sub completedAt started) 1000000;
    li_RequestBodyBytes := size_or (lc_requestBytes c) (lc_detail c) ld_RequestBodyBytes;
    li_ResponseBodyBytes := size_or (lc_responseBytes c) (lc_detail c) ld_UpstreamBodyBytes;
    li_StartedAt := started; li_CompletedAt := completedAt;
    li_Texts := {|
      lt_UsageQuality := br_UsageQuality result; lt_Provider := "";
      lt_AuthIndex := admissionAuthIndex admission; lt_Method := hr_Method r; lt_Path := hr_Path r;
      lt_UpstreamTraceID := lc_upstreamTraceID c; lt_UpstreamExecutionID := "";
      lt_RequestedModel := rm_RequestedModel meta; lt_UpstreamModel := br_Model result;
      lt_ModelAlias := rm_ModelAlias meta; lt_ExecutorType := ""; lt_AuthType := "";
      lt_ServiceTier := rm_ServiceTier meta; lt_ResponseServiceTier := br_ResponseServiceTier result;
      lt_ReasoningEffort := rm_ReasoningEffort meta; lt_TenantName := kc_TenantName key;
      lt_APIKeyName := k_Name (kc_APIKey key); lt_APIKeyPrefix := k_Prefix (kc_APIKey key);
      lt_RequestType := requestType (hr_Path r) (isWebSocketUpgrade r);
      lt_ClientName := ci_Name (hr_Client r); lt_ClientVersion := ci_Version (hr_Client r);
      lt_UserAgent := ci_UserAgent (hr_Client r); lt_ErrorCode := lc_errorCode c;
      lt_ErrorMessage := errorMessage; lt_StageTimings := lc_stageTimings c; lt_Stream := rm_Stream meta;
      lt_FirstTokenMS := lc_firstTokenMS c; lt_TTFTMS := lc_ttftMS c;
      lt_ForwardedBodyBytes := size_or (lc_forwardedBytes c) (lc_detail c) ld_ForwardedBodyBytes |};
    li_Detail := lc_detail c |}.

(** ** Admission *)

(** The prices in force when they are looked up ([ResolvePrice]). *)
Definition price_service := Dimensions → option SnapshotPrice.

Record settings := {
  cfg_ReservationNanoUSD : Z;
  cfg_ImageReservationNanoUSD : Z;
  cfg_UnpricedModelPolicy : string;
  cfg_RequestTimeout : Z;
  cfg_RequestSuccessSamplePPM : Z
}.

Definition no_price : SnapshotPrice :=
  {| sp_Price := Build_Price "" 0 0 0 0 0 0 0 0 "" "" f64_zero; sp_RequestedModel := ""; sp_PricedModel := "";
     sp_MatchedBy := ""; sp_RuleMultiplier := f64_zero |}.

(* src/internal/app/inference.go:169-184 publicInference *)
Record publicInference := {
  pi_key : KeyContext;
  pi_requestID : string;
  pi_admission : Admission;
  pi_meta : requestMeta;
  pi_started : Z;
  pi_billable : bool;
  pi_logContext : requestLogContext;
  pi_price : SnapshotPrice;
  pi_priceConfigured : bool;
  pi_deferredAdmissionPrice : option (option SnapshotPrice)
}.

(* src/internal/app/limits.go:12-20 saturatingMultiply64 *)
Definition saturatingMultiply64 (left right : Z) : Z :=
  if (left <=? 0) || (right <=? 0) then 0
  else if Z.quot max_int64 right <? left then max_int64
  else mul64 left right.

(* src/internal/app/limits.go:40-45 maxDuration *)
Definition maxDuration (a b : Z) : Z := if b <? a then a else b.

(** The estimate that is held back until the bill is known. *)
(* src/internal/app/public.go:238-248 handlePublic *)
Definition reservation_estimate (cfg : settings) (path : string) (meta : requestMeta) (price : SnapshotPrice)
    (priceConfigured : bool) : Z :=
  if priceConfigured && negb (isNonGenerationPath path) then
    if 0 <? p_ImageOutputNanoUSDPerToken (sp_Price price) then
      let imageCount := if rm_ImageCount meta <? 1 then 1 else rm_ImageCount meta in
      max64 (cfg_ReservationNanoUSD cfg) (saturatingMultiply64 (cfg_ImageReservationNanoUSD cfg) imageCount)
    else cfg_ReservationNanoUSD cfg
  else 0.

(* src/internal/app/public.go:249-252 handlePublic *)
Definition reservation_ttl (cfg : settings) (websocket : bool) : Z :=
  if websocket then 24 * 3600 * 1000000000
  else maxDuration (30 * 60 * 1000000000) (cfg_RequestTimeout cfg +₆₄ 5 * 60 * 1000000000).

(* src/internal/app/public.go:183-183 handlePublic *)
Definition request_billable (meta : requestMeta) (r : HTTPRequest) : bool :=
  negb (bool_decide (rm_Model meta = "")) &&
  (isWebSocketUpgrade r || negb (bool_decide (hr_Method r = "GET" ∨ hr_Method r = "HEAD"))).

(** The encoding of a price as JSON, and the counters of the embedded runtime. *)
Class PriceEncoding := EncodePriceSnapshot : SnapshotPrice → string.

Record UsageResult := {
  us_Quality : string;
  us_ResponseID : string;
  us_Model : string;
  us_ServiceTier : string;
  us_Found : bool;
  us_InputTokens : Z;
  us_CachedTokens : Z;
  us_CacheWriteTokens : Z;
  us_OutputTokens : Z;
  us_ReasoningTokens : Z;
  us_TotalTokens : Z
}.

Definition runtime_usage := string → string → UsageResult * bool.

Section requests.
Context `{TimeZone} `{NameUUID} `{FloatToInt} `{StatusText} `{PriceEncoding}.

(** The price of the credential that was admitted replaces the first one, also in
  the reservation; it is looked up in the background. *)
(* src/internal/app/public.go:267-280 handlePublic *)
Definition reprice_admission (later : price_service) (key : KeyContext) (meta : requestMeta) (path : string)
  (requestID priceSnapshot : string) (admission : Admission) : DB (option SnapshotPrice) :=
match later (requestPriceDimensions key meta path (admissionAuthIndex admission) "") with
| None => mret None
| Some resolved =>
    (if bool_decide (EncodePriceSnapshot resolved = priceSnapshot) then mret ()
     else attempt (UpdateReservationPriceSnapshot requestID (EncodePriceSnapshot resolved));; mret ());;
    mret (Some resolved)
end.

(** From the model check to the reservation; [limited] is the verdict of the limits
  of the key. *)
(* src/internal/app/public.go:182-310 handlePublic *)
Definition admit_public (cfg : settings) (prices later : price_service) (key : KeyContext) (requestID : string)
  (meta : requestMeta) (r : HTTPRequest) (started : Z) (logContext : requestLogContext)
  (limited : option userFacingError) : DB (userFacingError + publicInference) :=
let path := hr_Path r in
let billable := request_billable meta r in
let admitted admission logContext price priceConfigured deferred :=
  inr {| pi_key := key; pi_requestID := requestID; pi_admission := admission; pi_meta := meta;
         pi_started := started; pi_billable := billable; pi_logContext := logContext; pi_price := price;
         pi_priceConfigured := priceConfigured; pi_deferredAdmissionPrice := deferred |} in
if negb (bool_decide (rm_Model meta = "")) && negb (key_AllowsModel key (rm_Model meta)) then
  mret (inl (publicError 403 "model_not_allowed"))
else match limited with Some refusal => mret (inl refusal) | None =>
if negb billable then
  mret (admitted (Build_Admission requestID "" "" "" "" 0 0) logContext no_price (isNonGenerationPath path) None)
else
  let base := if isNonGenerationPath path then None
              else prices (requestPriceDimensions key meta path "" "") in
  let priceConfigured := isNonGenerationPath path || bool_decide (is_Some base) in
  let price := default no_price base in
  if negb priceConfigured && bool_decide (cfg_UnpricedModelPolicy cfg = "deny") then
    mret (inl (publicError 503 "pricing_unavailable"))
  else
    let priceSnapshot := EncodePriceSnapshot price in
    let reserve := reservation_estimate cfg path meta price priceConfigured in
    now ← time_now;
    admission ← attempt (AdmitRequest {|
      ai_RequestID := requestID; ai_Key := key; ai_Model := rm_Model meta;
      ai_BalanceReserve := reserve; ai_QuotaReserve := reserve; ai_PriceConfigured := priceConfigured;
      ai_PriceSnapshot := priceSnapshot;
      ai_ExpiresAt := now + reservation_ttl cfg (isWebSocketUpgrade r) |});
    match admission with
    | Err e => mret (inl (admissionUserError e))
    | Ok admission =>
        if priceConfigured && negb (isNonGenerationPath path) then
          lookup ← reprice_admission later key meta path requestID priceSnapshot admission;
          if isWebSocketUpgrade r then
            let price := default price lookup in
            mret (admitted admission (logContext <| lc_price := Some price |>) price priceConfigured None)
          else
            mret (admitted admission (logContext <| lc_price := Some price |>) price priceConfigured (Some lookup))
        else mret (admitted admission logContext price priceConfigured None)
    end
end.

(** ** The bill *)

(* src/internal/app/cpa_usage.go:53-77 cpaUsageResult *)
Definition cpaUsageResult (result : UsageResult) (complete : bool) : Result :=
if bool_decide (us_Quality result = "not_generated") then
  {| br_RequestID := us_ResponseID result; br_Model := us_Model result;
     br_ResponseServiceTier := us_ServiceTier result; br_Usage := zero_usage; br_Found := false;
     br_UsageQuality := "not_generated" |}
else
  let quality :=
    if bool_decide (us_Quality result = "") then
      if complete && us_Found result then "complete" else "missing"
    else us_Quality result in
  {| br_RequestID := us_ResponseID result; br_Model := us_Model result;
     br_ResponseServiceTier := us_ServiceTier result;
     br_Usage := {| u_Prompt := us_InputTokens result -₆₄ us_CacheWriteTokens result;
                    u_Completion := us_OutputTokens result; u_Cached := us_CachedTokens result;
                    u_CacheWrite := us_CacheWriteTokens result; u_Reasoning := us_ReasoningTokens result;
                    u_Total := us_TotalTokens result; u_ImageInput := 0; u_CachedImageInput := 0;
                    u_ImageOutput := 0 |};
     br_Found := complete && us_Found result; br_UsageQuality := quality |}.

(* src/internal/app/cpa_usage.go:14-51 cpaBillingUsage *)
Definition cpaBillingUsage (runtime : option runtime_usage) (requestID responseID endpoint : string)
  (meta : requestMeta) (observed : Result) : Result :=
if isNonGenerationPath endpoint then
  empty_result <| br_Model := rm_Model meta; br_UsageQuality := "not_generated" |>
else if rm_Prewarm meta && has_prefix (br_RequestID observed) "resp_prewarm_" && br_Found observed &&
        bool_decide (br_Usage observed = zero_usage) then
  observed <| br_UsageQuality := "not_generated" |>
else
  match runtime with
  | None => observed
  | Some RequestUsage =>
      if isRealtimeWebSocketPath endpoint && br_Found observed then observed
      else if contains endpoint "/images" || (0 <? u_ImageInput (br_Usage observed)) ||
              (0 <? u_ImageOutput (br_Usage observed)) then observed
      else
        let '(result, complete) := RequestUsage requestID responseID in
        let canonical := cpaUsageResult result complete in
        let or_observed text seen := if bool_decide (text = "") then seen else text in
        canonical <| br_RequestID := or_observed (br_RequestID canonical) (br_RequestID observed);
                     br_Model := or_observed (br_Model canonical) (br_Model observed);
                     br_ResponseServiceTier :=
                       or_observed (br_ResponseServiceTier canonical) (br_ResponseServiceTier observed) |>
  end.

(** What the gateway saw of the response. *)
Record served := {
sv_status : Z;
sv_writeErr : option string;
sv_capture : rollingCapture;
sv_traceID : string;
sv_firstTokenMS : option Z;
sv_ttftMS : option Z;
sv_completedAt : Z;
sv_stageTimings : string;
sv_upstreamModel : option string;
sv_detail : LogDetailInput
}.

(** The usage of the response: of what is left of it, and its model of what came
  first. *)
(* src/internal/app/inference.go:251-258 serveInference *)
Definition response_usage (runtime : option runtime_usage) (call : publicInference) (path : string) (sv : served)
  : Result :=
let parsed := ParseResponse (String.string_of_list_ascii (Bytes (sv_capture sv))) in
let prefix := String.string_of_list_ascii (Info (sv_capture sv)).1.1 in
let parsed := if bool_decide (br_Model parsed = "")
              then parsed <| br_Model := br_Model (ParseResponse prefix) |> else parsed in
cpaBillingUsage runtime (pi_requestID call) "" path (pi_meta call) parsed.

(** The price of the bill: of the admission, unless the usage finds a better one. *)
(* src/internal/app/inference.go:237-267 serveInference *)
Definition final_price (prices : price_service) (call : publicInference) (path : string) (parsed : Result)
  : DB (SnapshotPrice * requestLogContext) :=
let '(price, logContext) :=
  match pi_deferredAdmissionPrice call with
  | Some (Some price) => (price, (pi_logContext call) <| lc_price := Some price |>)
  | _ => (pi_price call, pi_logContext call)
  end in
if pi_priceConfigured call && br_Found parsed && negb (NonGenerated parsed) then
  let dimensions := requestPriceDimensions (pi_key call) (pi_meta call) path
    (admissionAuthIndex (pi_admission call)) (br_ResponseServiceTier parsed) in
  match prices {| d_APIGroupKey := d_APIGroupKey dimensions; d_Model := d_Model dimensions;
          d_ModelAlias := d_ModelAlias dimensions; d_AuthIndex := d_AuthIndex dimensions;
          d_ServiceTier := d_ServiceTier dimensions; d_ResponseServiceTier := d_ResponseServiceTier dimensions;
          d_ReasoningEffort := d_ReasoningEffort dimensions; d_Endpoint := d_Endpoint dimensions;
          d_ExecutorType := d_ExecutorType dimensions; d_PromptTokens := u_Prompt (br_Usage parsed) |} with
  | Some resolved =>
      attempt (UpdateReservationPriceSnapshot (pi_requestID call) (EncodePriceSnapshot resolved));;
      mret (resolved, logContext <| lc_price := Some resolved |>)
  | None => mret (price, logContext)
  end
else mret (price, logContext).

(** A failed or free request costs nothing. *)
(* src/internal/app/inference.go:268-280 serveInference *)
Definition assess_response (call : publicInference) (status : Z) (parsed : Result) (price : SnapshotPrice)
  : Assessment :=
if pi_billable call && (status <? 400) then
  Assess parsed (if pi_priceConfigured call then Some price else None)
else Build_Assessment 0 false.

(** The error that the log names. *)
(* src/internal/app/inference.go:282-289 serveInference *)
Definition response_error (sv : served) (logContext : requestLogContext) : string * string :=
match sv_writeErr sv with
| Some message => ("stream_copy_error", message)
| None =>
    if 400 <=? sv_status sv
    then observedError (sv_status sv) (String.string_of_list_ascii (Info (sv_capture sv)).1.1)
    else (lc_errorCode logContext, "")
end.

(** The detail is kept for failures and samples. *)
(* src/internal/app/inference.go:290-320 serveInference *)
Definition response_context (retain : bool) (sv : served) (errorCode errorMessage : string)
  (logContext : requestLogContext) : requestLogContext :=
let detail := (sv_detail sv) <| ld_StageTimings := sv_stageTimings sv |> in
let detail := if bool_decide (is_Some (sv_writeErr sv)) || (400 <=? sv_status sv)
              then detail <| ld_ErrorName := errorCode; ld_ErrorMessage := errorMessage |> else detail in
let logContext := logContext <| lc_firstTokenMS := sv_firstTokenMS sv; lc_errorCode := errorCode;
                                lc_upstreamTraceID := sv_traceID sv;
                                lc_responseBytes := (Info (sv_capture sv)).2;
                                lc_ttftMS := sv_ttftMS sv |> in
logContext <| lc_stageTimings := sv_stageTimings sv; lc_completedAt := sv_completedAt sv;
              lc_detail := if retain then Some detail else @None LogDetailInput |>.

(** The response is through: make out the bill, settle it, file the row. *)
(* src/internal/app/inference.go:232-339 serveInference *)
Definition finalize (cfg : settings) (prices : price_service) (runtime : option runtime_usage)
  (call : publicInference) (r : HTTPRequest) (sv : served) : DB (LogInput * result unit) :=
let path := hr_Path r in
let parsed := response_usage runtime call path sv in
priced ← final_price prices call path parsed;
let price : SnapshotPrice := priced.1 in
let logContext : requestLogContext := priced.2 in
let assessment := assess_response call (sv_status sv) parsed price in
let errorCode := (response_error sv logContext).1 in
let errorMessage := (response_error sv logContext).2 in
let retain := shouldRetainRequestDetail (pi_requestID call) (sv_status sv) errorCode
                (cfg_RequestSuccessSamplePPM cfg) in
let parsed := match sv_upstreamModel sv with
              | Some model => parsed <| br_Model := model |> | None => parsed end in
input ← requestLogInput (pi_key call) (pi_requestID call) (pi_admission call) (pi_meta call) r (sv_status sv)
          (pi_started call) (Some parsed) (as_Complete assessment) true (as_CostNanoUSD assessment)
          errorMessage (response_context retain sv errorCode errorMessage logContext);
settled ← (if pi_billable call then attempt (SettleRequestWithLog (pi_requestID call) input) else mret (Ok ()));
mret (input, settled).
End requests.
