(* ===== verification/Sample.v ===== *)
(** * A concrete world and a concrete store

    The theorems of the development speak about every world and every store;
    their witnesses run here.  Nothing fails in this world, a second passes
    between two answers, and every generated identifier is new. *)

From stdpp Require Import pretty.
From S2P Require Import Prelude.
From S2P Require Import Float64.
From S2P Require Import Cost.
From S2P Require Import Database.
From S2P Require Import Schema.
From S2P Require Import ModelAccess.
From S2P Require Import RequestLogs.
From S2P Require Import Reservation.
From S2P Require Import Settlement.

Definition calm : env :=
  {| env_now n := Z.of_nat n * second; env_fault _ := None;
     env_id n := "id-" +:+ pretty (N.of_nat n);
     env_random n := String.list_ascii_of_string (pretty (N.of_nat n)); env_order _ := [] |}.

Lemma calm_quiet : quiet calm.
Proof. done. Qed.

(** The same world later, when identifiers look different. *)
Definition later : env :=
  {| env_now n := Z.of_nat (1000 + n) * second; env_fault _ := None;
     env_id n := "new-" +:+ pretty (N.of_nat n);
     env_random n := String.list_ascii_of_string (pretty (N.of_nat n)); env_order _ := [] |}.

Lemma later_quiet : quiet later.
Proof. done. Qed.

#[export] Instance utc : TimeZone := λ _, 0.
#[export] Instance plain_uuid : NameUUID := λ s, "step:" +:+ s.
#[export] Existing Instance amd64.

Definition acme : Tenant :=
  {| t_ID := "acme"; t_Name := "Acme"; t_OwnerEmail := "owner@acme.test"; t_PasswordHash := "";
     t_MustChangePassword := false; t_PasswordVersion := 0; t_Enabled := true;
     t_IsAdmin := false; t_BalanceNanoUSD := 0; t_RateLimitPerMinute := None;
     t_TokenLimitDaily := None; t_TokensUsedToday := 0; t_TokensUsedOn := None;
     t_ModelAllowlist := []; t_ExpiresAt := None; t_GitHubID := None; t_GitHubLogin := "";
     t_HeatmapShareToken := None |}.

Definition acme_key : APIKey :=
  {| k_ID := "key"; k_TenantID := "acme"; k_Name := "ci"; k_Source := "web"; k_DeviceName := "";
     k_DeviceOS := ""; k_DeviceArch := ""; k_RAIVersion := ""; k_KeyHash := "h";
     k_KeyCiphertext := None; k_Prefix := "ra_"; k_Enabled := true;
     k_RateLimitPerMinute := None; k_TokenLimitDaily := None; k_TokensUsedToday := 0;
     k_TokensUsedOn := None; k_ModelAllowlist := []; k_ExpiresAt := None |}.

Definition acme_context : KeyContext :=
  {| kc_APIKey := acme_key; kc_TenantName := "Acme"; kc_TenantEnabled := true;
     kc_TenantBalance := 0; kc_TenantRateLimit := None; kc_TenantTokenLimit := None;
     kc_TenantModels := []; kc_TenantDailyTokens := 0; kc_TenantDailyTokensDay := None;
     kc_SubscriptionModelGrants := []; kc_TenantExpiresAt := None |}.

Definition account : ParentSubscription :=
  {| ps_ID := "account"; ps_UpstreamCredentialID := "cred"; ps_UpstreamAuthIndex := "auth";
     ps_UpstreamCredentialName := "cred"; ps_Name := "Account"; ps_Provider := "codex";
     ps_PlanType := "pro"; ps_Status := "active"; ps_UpstreamUnavailable := false;
     ps_CapacityMode := ParentCapacityObserved; ps_AllocationLimitPPM := 1000000;
     ps_Enabled := true; ps_UpstreamModelAllowlist := []; ps_ModelAllowlist := [];
     ps_LastSyncedAt := None; ps_QuotaSupported := true; ps_QuotaProbeStatus := "ok";
     ps_QuotaProbeError := ""; ps_QuotaObservedAt := None; ps_QuotaSnapshot := None;
     ps_Metadata := None; ps_CreatedAt := 0 |}.

Definition half_share : ChildSubscription :=
  {| c_ID := "share"; c_TenantID := "acme"; c_ParentSubscriptionID := "account"; c_Name := "Half";
     c_AllocationPPM := 500000; c_Priority := 1; c_Enabled := true; c_ModelAllowlist := [];
     c_StartsAt := 0; c_ExpiresAt := None; c_CreatedAt := 0 |}.

(** The account meters 2000 nano-dollars a week. *)
Definition week : Z := 7 * 86400 * second.

Definition weekly : ParentQuotaWindow :=
  {| pw_ParentSubscriptionID := "account"; pw_Kind := "weekly"; pw_LimitNanoUSD := 2000;
     pw_ResetsAt := week; pw_Source := ""; pw_ObservedUsedPercent := None;
     pw_ObservedAt := None |}.

(** Acme pays by balance here, and by its share of the account in [shared_store]. *)
Definition balance_store : tables :=
  empty_tables <| tb_tenants := <["acme" := acme]> (∅ : gmap string Tenant); tb_api_keys := <["key" := acme_key]> (∅ : gmap string APIKey) |>.

Definition shared_store : tables :=
  balance_store <| tb_parents := <["account" := account]> (∅ : gmap string ParentSubscription); tb_children := <["share" := half_share]> (∅ : gmap string ChildSubscription) |>.

Definition ask (id : string) : AdmissionInput :=
  {| ai_RequestID := id; ai_Key := acme_context; ai_Model := "gpt-5"; ai_BalanceReserve := 100;
     ai_QuotaReserve := 300; ai_PriceConfigured := true; ai_PriceSnapshot := "";
     ai_ExpiresAt := 3600 * second |}.

Definition no_texts : LogTexts :=
  Build_LogTexts "" "" "" "" "" "" "" "" "" "" "" "" "" "" "" "" "" "" "" "" "" "" "" "" ""
    false None None 0.

Definition usage_of (tokens : Z) : Usage := Build_Usage 0 0 0 0 0 tokens 0 0 0.

(** The log of a paid step. *)
Definition paid (cost tokens startedAt : Z) : LogInput :=
  {| li_BillingSource := SourceUnset; li_LogUnit := LogUnitStep; li_ID := ""; li_TenantID := "acme";
     li_APIKeyID := "key"; li_ReservationRequestID := ""; li_UpstreamRequestID := "";
     li_Model := "gpt-5"; li_ActualModel := "gpt-5"; li_ParentSubscriptionID := "";
     li_ChildSubscriptionID := ""; li_StatusCode := 200; li_PricingComplete := true;
     li_Settled := true; li_Usage := usage_of tokens;
     li_CostNanoUSD := Some cost; li_Price := None; li_ReservedNanoUSD := 0; li_LatencyMS := 0;
     li_RequestBodyBytes := 0; li_ResponseBodyBytes := 0; li_StartedAt := startedAt;
     li_CompletedAt := startedAt; li_Texts := no_texts; li_Detail := None |}.

(** A paid turn of a WebSocket request. *)
Definition turn_of (requestID turnID : string) (cost : Z) : WebSocketTurnAccrual :=
  {| ws_RequestID := requestID; ws_TurnID := turnID; ws_Model := "gpt-5"; ws_Usage := zero_usage;
     ws_CostNanoUSD := cost; ws_PricingComplete := true; ws_RequestBodyBytes := 0;
     ws_ResponseBodyBytes := 0; ws_LatencyMS := 0; ws_StartedAt := second;
     ws_CompletedAt := 2 * second; ws_Log := paid cost 10 second |}.
