(* ===== verification/Subscriptions.v ===== *)
(** * Parent and child subscriptions (internal/store/subscriptions.go)

    A parent is an upstream account; a child assigns a share of it to a tenant.
    Parents are synchronised from the credentials, children are granted by the
    administrator, and a credential that disappears takes its parent, the
    children and the pending holds with it. *)

From S2P Require Import Prelude.
From S2P Require Import Database.
From S2P Require Import Schema.
From S2P Require Import Reservation.
From S2P Require Import Settlement.

(** ** Names *)

(** [strings.TrimRight(s, cut)] for one character. *)
Fixpoint trim_right_char (c : Ascii.ascii) (s : string) : string :=
  match s with
  | EmptyString => EmptyString
  | String d s' =>
      match trim_right_char c s' with
      | EmptyString => if decide (c = d) then EmptyString else String d EmptyString
      | t => String d t
      end
  end.

(** Decimal digits of a non-negative integer. *)
Fixpoint digits (fuel : nat) (n : Z) (acc : string) : string :=
  match fuel with
  | O => acc
  | S fuel =>
      let acc := String (Ascii.ascii_of_nat (48 + Z.to_nat (n mod 10))) acc in
      if n <? 10 then acc else digits fuel (n / 10) acc
  end.

(** [%d]: a positive [int64] has at most 19 digits. *)
Definition format_int (n : Z) : string :=
  if n <? 0 then "-" +:+ digits 20 (- n) "" else digits 20 n "".

(** [FloatString(6)] of the fraction [num/den], rounded half away from zero. *)
Definition rat_string6 (num den : Z) : string :=
  let scaled := (2 * num * 1000000 + den) / (2 * den) in
  format_int (scaled / 1000000) +:+ "." +:+
  String.substring 1 6 (format_int (1000000 + scaled mod 1000000)).

(** The Euclidean loop; the argument at least halves every second turn. *)
(* src/internal/store/subscription_names.go:60-63 DefaultSubscriptionName *)
Fixpoint gcd_loop (fuel : nat) (a b : Z) : Z :=
  match fuel with
  | O => a
  | S fuel => if b =? 0 then a else gcd_loop fuel b (Z.rem a b)
  end.

(** The product names; those with Chinese text are kept as their UTF-8 bytes. *)
Definition shared_product : string := "共享订阅".
Definition bailian_product : string := "阿里云百炼".
Definition balance_suffix : string := " 余额付费".

(* src/internal/store/subscription_names.go:14-45 DefaultSubscriptionName *)
Definition product_name (provider plan : string) : string :=
  if bool_decide (provider ∈ ["codex"; "openai"; "chatgpt"]) then
    if bool_decide (plan = "pro") then "ChatGPT Pro"
    else if bool_decide (plan = "plus") then "ChatGPT Plus" else "ChatGPT"
  else if bool_decide (provider ∈ ["xai"; "grok"]) then
    if contains plan "heavy" then "Grok SuperHeavy" else "Grok"
  else if bool_decide (provider ∈ ["claude"; "anthropic"]) then
    if bool_decide (plan = "pro") then "Claude Pro"
    else if bool_decide (plan = "max") then "Claude Max"
    else if bool_decide (plan = "team") then "Claude Team" else "Claude"
  else if bool_decide (provider = "antigravity") then "Antigravity"
  else if bool_decide (provider = "aliyun-bailian") then bailian_product
  else if bool_decide (provider = "kimi") then "Kimi"
  else shared_product.

(* src/internal/store/subscription_names.go:11-65 DefaultSubscriptionName *)
Definition DefaultSubscriptionName (parent : ParentSubscription) (allocationPPM : Z) : string :=
  let provider := to_lower (trim_space (ps_Provider parent)) in
  let plan := to_lower (trim_space (ps_PlanType parent)) in
  let product := product_name provider plan in
  let claude := bool_decide (provider ∈ ["claude"; "anthropic"]) in
  if bool_decide (ps_CapacityMode parent = ParentCapacityUnmetered) then product +:+ balance_suffix
  else if allocationPPM <=? 0 then product
  else if bool_decide (product = "ChatGPT Pro") || claude then
    let divisor := if claude then 200000 else 50000 in
    product +:+ " " +:+
      trim_right_char "." (trim_right_char "0" (rat_string6 allocationPPM divisor)) +:+ "X"
  else
    let a := gcd_loop 64 allocationPPM 1000000 in
    product +:+ " " +:+ format_int (Z.quot allocationPPM a) +:+ "/" +:+
      format_int (Z.quot 1000000 a).

(* src/internal/store/subscriptions.go:1695-1702 firstNonEmpty *)
Fixpoint firstNonEmpty (values : list string) : string :=
  match values with
  | [] => "Parent subscription"
  | value :: values =>
      if bool_decide (trim_space value <> "") then trim_space value else firstNonEmpty values
  end.

(* src/internal/store/subscriptions.go:897-905 canonicalBalanceGrant *)
Definition canonicalBalanceGrant (parent : ParentSubscription) (item : ChildSubscription)
    : ChildSubscription :=
  let item := item <| c_ParentSubscriptionID := ps_ID parent;
                      c_Name := DefaultSubscriptionName parent 1000000;
                      c_AllocationPPM := 1000000; c_Priority := 100 |> in
  item <| c_ModelAllowlist := ([] : list string); c_ExpiresAt := (None : option Z) |>.

(** ** Parents *)

(** [INSERT ... ON CONFLICT (upstream_credential_id) DO UPDATE], then the row by its
    credential.  [upstream_auth_index] is unique as well, but is not the conflict target. *)
Definition upsert_parent (item : ParentSubscription)
    (merge : ParentSubscription → ParentSubscription → ParentSubscription) : DB unit :=
  statement;;
  rows ← gets tb_parents;
  match list_find (λ p, ps_UpstreamCredentialID p = ps_UpstreamCredentialID item)
          (map_to_list rows).*2 with
  | Some (_, old) =>
      let new := merge old item in
      guard_that (negb (existsb (λ p, bool_decide (ps_ID p ≠ ps_ID old ∧
                                   ps_UpstreamAuthIndex p = ps_UpstreamAuthIndex new))
                          (map_to_list rows).*2)) ErrDuplicatedKey;;
      guard_that (parent_check new) ErrCheckConstraint;;
      modify (λ t, t <| tb_parents := <[ps_ID old := new]> (tb_parents t) |>)
  | None =>
      guard_that (negb (existsb (λ p, bool_decide (ps_UpstreamAuthIndex p = ps_UpstreamAuthIndex item))
                          (map_to_list rows).*2) &&
                  bool_decide (rows !! ps_ID item = None)) ErrDuplicatedKey;;
      guard_that (parent_check item) ErrCheckConstraint;;
      modify (λ t, t <| tb_parents := <[ps_ID item := item]> (tb_parents t) |>)
  end.

Definition parent_by_credential (credentialID : string) : DB ParentSubscription :=
  rows ← find parents (λ p, bool_decide (ps_UpstreamCredentialID p = credentialID));
  match rows with
  | [] => fail ErrRecordNotFound
  | p :: _ => mret p
  end.

(** [if item.ID == "" { item.ID = identity.NewID() }]. *)
Definition ensure_id (id : string) : DB string := if bool_decide (id = "") then new_id else mret id.

(* src/internal/store/subscriptions.go:137-140 UpsertParentSubscription *)
Definition merge_upserted (old new : ParentSubscription) : ParentSubscription :=
  let p := old <| ps_UpstreamAuthIndex := ps_UpstreamAuthIndex new;
                  ps_UpstreamCredentialName := ps_UpstreamCredentialName new;
                  ps_Name := ps_Name new; ps_Provider := ps_Provider new;
                  ps_PlanType := ps_PlanType new |> in
  let p := p <| ps_Status := ps_Status new;
                ps_UpstreamUnavailable := ps_UpstreamUnavailable new;
                ps_CapacityMode := ps_CapacityMode new;
                ps_AllocationLimitPPM := ps_AllocationLimitPPM new;
                ps_Enabled := ps_Enabled new |> in
  p <| ps_ModelAllowlist := ps_ModelAllowlist new; ps_Metadata := ps_Metadata new;
       ps_LastSyncedAt := ps_LastSyncedAt new |>.

(** The typed capacity mode has no empty value, so its default does not arise. *)
(* src/internal/store/subscriptions.go:111-148 UpsertParentSubscription *)
Definition UpsertParentSubscription (item : ParentSubscription) : DB ParentSubscription :=
  id ← ensure_id (ps_ID item);
  let credential := trim_space (ps_UpstreamCredentialID item) in
  let item := item <| ps_ID := id; ps_UpstreamCredentialID := credential;
                      ps_UpstreamAuthIndex := credential;
                      ps_UpstreamCredentialName := trim_space (ps_UpstreamCredentialName item);
                      ps_Name := trim_space (ps_Name item) |> in
  let item := item <| ps_Provider := trim_space (ps_Provider item);
                      ps_Name := if bool_decide (ps_Name item = "")
                                 then firstNonEmpty [ps_UpstreamCredentialName item; credential]
                                 else ps_Name item;
                      ps_AllocationLimitPPM := 1000000 |> in
  upsert_parent item merge_upserted;;
  parent_by_credential credential.

(* src/internal/store/subscriptions.go:171-173 SyncNativeParentSubscription *)
Definition merge_synced (old new : ParentSubscription) : ParentSubscription :=
  let p := old <| ps_UpstreamAuthIndex := ps_UpstreamAuthIndex new;
                  ps_UpstreamCredentialName := ps_UpstreamCredentialName new;
                  ps_Provider := ps_Provider new; ps_Status := ps_Status new;
                  ps_UpstreamUnavailable := ps_UpstreamUnavailable new |> in
  p <| ps_UpstreamModelAllowlist := ps_UpstreamModelAllowlist new; ps_Metadata := ps_Metadata new;
       ps_LastSyncedAt := ps_LastSyncedAt new |>.

(* src/internal/store/subscriptions.go:151-181 SyncNativeParentSubscription *)
Definition SyncNativeParentSubscription (item : ParentSubscription) : DB ParentSubscription :=
  id ← ensure_id (ps_ID item);
  let credential := trim_space (ps_UpstreamCredentialID item) in
  guard_that (negb (bool_decide (credential = "")))
    (ErrMessage "native parent credential id is required");;
  let name := firstNonEmpty [trim_space (ps_UpstreamCredentialName item); credential] in
  let item := item <| ps_ID := id; ps_UpstreamCredentialID := credential;
                      ps_UpstreamAuthIndex := credential; ps_UpstreamCredentialName := name;
                      ps_Name := firstNonEmpty [trim_space (ps_Name item); name] |> in
  let item := item <| ps_Provider := trim_space (ps_Provider item) |> in
  upsert_parent item merge_synced;;
  parent_by_credential credential.

(* src/internal/store/subscriptions.go:105-109 GetParentSubscription *)
Definition GetParentSubscription (id : string) : DB ParentSubscription :=
  map_error notFound (first_where parents id (λ p, negb (bool_decide (ps_Status p = "missing")))).

(** Turning a parent into a balance-settled one canonicalises its children. *)
(* src/internal/store/subscriptions.go:285-288 UpdateParentSubscription *)
Definition canonicalise_child (name : string) (now : Z) (c : ChildSubscription) : ChildSubscription :=
  let c := c <| c_Name := name; c_AllocationPPM := 1000000; c_Priority := 100 |> in
  c <| c_ModelAllowlist := ([] : list string); c_StartsAt := now; c_ExpiresAt := (None : option Z) |>.

(* src/internal/store/subscriptions.go:271-296 UpdateParentSubscription *)
Definition UpdateParentSubscription (item : ParentSubscription) : DB ParentSubscription :=
  transaction (
    map_error notFound (first parents (ps_ID item));;
    update parents (ps_ID item) (λ p,
      let p := p <| ps_Name := trim_space (ps_Name item);
                    ps_PlanType := trim_space (ps_PlanType item);
                    ps_CapacityMode := ps_CapacityMode item; ps_AllocationLimitPPM := 1000000;
                    ps_Enabled := ps_Enabled item |> in
      p <| ps_ModelAllowlist := ps_ModelAllowlist item |>);;
    if decide (ps_CapacityMode item = ParentCapacityUnmetered) then
      now ← time_now;
      update_all children (λ c, bool_decide (c_ParentSubscriptionID c = ps_ID item))
        (canonicalise_child (trim_space (ps_Name item)) now);;
      mret ()
    else mret ());;
  GetParentSubscription (ps_ID item).

(** A probe report as it arrives: nothing, text that is not JSON, or a document with its
    [subscription.status] and its decoded windows. *)
Inductive snapshot_document :=
  | SnapshotEmpty
  | SnapshotInvalid
  | SnapshotValid (status : string) (report : option QuotaSnapshot).

(* src/internal/store/subscriptions.go:235-269 UpdateParentQuotaProbe *)
Definition UpdateParentQuotaProbe (parentID : string) (supported : bool)
    (status message planType : string) (observedAt : option Z) (snapshot : snapshot_document)
    : DB unit :=
  let confirmed_plan :=
    match snapshot with
    | SnapshotValid reported _ =>
        bool_decide (status = "supported") || bool_decide (reported = "supported")
    | _ => false
    end in
  updated ← update parents parentID (λ p,
    let p := p <| ps_QuotaSupported := supported; ps_QuotaProbeStatus := trim_space status;
                  ps_QuotaProbeError := trim_space message;
                  ps_QuotaObservedAt :=
                    match observedAt with
                    | Some at_ => if at_ =? 0 then ps_QuotaObservedAt p else Some at_
                    | None => ps_QuotaObservedAt p
                    end;
                  ps_PlanType :=
                    if confirmed_plan || bool_decide (trim_space planType ≠ "")
                    then trim_space planType else ps_PlanType p |> in
    p <| ps_QuotaSnapshot :=
           match snapshot with SnapshotValid _ report => report | _ => ps_QuotaSnapshot p end |>);
  guard_that updated ErrNotFound.

(** ** Deletion and its cascades *)

(** Deleting children removes their windows and unlinks their reservations. *)
(* src/internal/db/migrations.go:37-40 child_quota_child_fk *)
Definition delete_children (cond : ChildSubscription → bool) : DB Z :=
  rows ← gets tb_children;
  let gone id := match (rows : gmap string ChildSubscription) !! id with
                 | Some c => cond c | None => false end in
  count ← delete_where children cond;
  modify (λ t, t <| tb_child_windows := filter (λ kv, gone kv.1.1 = false) (tb_child_windows t);
                    tb_reservations := (λ r,
                      if match r_ChildSubscriptionID r with Some id => gone id | None => false end
                      then r <| r_ChildSubscriptionID := (None : option string) |> else r)
                      <$> tb_reservations t |>);;
  mret count.

(** Deleting a parent is refused while children point at it; its windows, samples and resets
    go with it. *)
(* src/internal/db/migrations.go:31-41 parent_quota_parent_fk *)
Definition delete_parent (parentID : string) : DB unit :=
  rows ← gets tb_children;
  guard_that (negb (existsb (λ c, bool_decide (c_ParentSubscriptionID c = parentID))
                      (map_to_list (rows : gmap string ChildSubscription)).*2))
    (ErrMessage "violates foreign key constraint");;
  delete_where parents (λ p, bool_decide (ps_ID p = parentID));;
  modify (λ t, t <|
    tb_parent_windows := filter (λ kv, pw_ParentSubscriptionID kv.2 ≠ parentID) (tb_parent_windows t);
    tb_observations := filter (λ kv, po_ParentSubscriptionID kv.2 ≠ parentID) (tb_observations t);
    tb_resets := filter (λ kv, pr_ParentSubscriptionID kv.2 ≠ parentID) (tb_resets t);
    tb_reservations := (λ r, if bool_decide (r_ParentSubscriptionID r = Some parentID)
                             then r <| r_ParentSubscriptionID := (None : option string) |> else r)
                         <$> tb_reservations t |>).

(* src/internal/store/subscriptions.go:792-808 DeleteChildSubscription *)
Definition DeleteChildSubscription (id : string) : DB unit :=
  transaction (
    active ← find reservations (λ r, bool_decide (r_ChildSubscriptionID r = Some id) && is_active r);
    guard_that (bool_decide (length active = 0%nat))
      (ErrMessage "child subscription has active reservations");;
    count ← delete_children (λ c, bool_decide (c_ID c = id));
    guard_that (0 <? count) ErrNotFound).

(** A parent whose credential is gone: release what its children hold, then remove all. *)
(* src/internal/store/subscriptions.go:212-229 MarkMissingParentSubscriptions *)
Definition remove_parent (parentID : string) : DB unit :=
  rows ← gets tb_children;
  let of_parent id := match (rows : gmap string ChildSubscription) !! id with
                      | Some c => bool_decide (c_ParentSubscriptionID c = parentID)
                      | None => false end in
  active ← find reservations (λ r, is_active r &&
             (bool_decide (r_ParentSubscriptionID r = Some parentID) ||
              match r_ChildSubscriptionID r with Some id => of_parent id | None => false end));
  for_each (λ r, finishReservationTx (r_RequestID r) 0 false ReservationReleased) active;;
  delete_children (λ c, bool_decide (c_ParentSubscriptionID c = parentID));;
  delete_parent parentID.

(* src/internal/store/subscriptions.go:183-233 MarkMissingParentSubscriptions *)
Definition MarkMissingParentSubscriptions (seen : list string) (syncStartedAt : Z) : DB unit :=
  transaction (
    missing ← find parents (λ p,
      match ps_LastSyncedAt p with Some at_ => at_ <? syncStartedAt | None => false end &&
      negb (bool_decide (ps_UpstreamCredentialID p ∈ seen)));
    let missingIDs := ps_ID <$> (missing : list ParentSubscription) in
    if bool_decide (length missingIDs = 0%nat) then mret ()
    else
      update_all parents (λ p, bool_decide (ps_ID p ∈ missingIDs))
        (λ p, p <| ps_UpstreamUnavailable := true; ps_Enabled := false; ps_Status := "missing" |>);;
      update_all children (λ c, bool_decide (c_ParentSubscriptionID c ∈ missingIDs))
        (λ c, c <| c_Enabled := false |>);;
      for_each remove_parent missingIDs;;
      mret ()).

(** ** Children *)

Definition optional_after (expiresAt : option Z) (startsAt : Z) : bool :=
  match expiresAt with Some e => startsAt <? e | None => true end.

Definition unavailable_parent (item : ChildSubscription) (parent : ParentSubscription) : bool :=
  c_Enabled item && (negb (ps_Enabled parent) || ps_UpstreamUnavailable parent).

Definition child_needs_parent : error :=
  ErrMessage "enabled child subscription requires an available parent".

(* src/internal/store/subscriptions.go:673-696 CreateChildSubscription *)
Definition create_child (item : ChildSubscription) : DB ChildSubscription :=
  transaction (
    parent ← map_error notFound (first parents (c_ParentSubscriptionID item));
    guard_that (negb (bool_decide (ps_Status parent = "missing"))) ErrNotFound;;
    let item := item <| c_Name := if bool_decide (c_Name item = "")
                                  then DefaultSubscriptionName parent (c_AllocationPPM item)
                                  else c_Name item |> in
    let item := if decide (ps_CapacityMode parent = ParentCapacityUnmetered)
                then canonicalBalanceGrant parent item else item in
    guard_that (negb (unavailable_parent item parent)) child_needs_parent;;
    map_error notFound (first tenants (c_TenantID item));;
    now ← time_now;
    let item := item <| c_CreatedAt := if c_CreatedAt item =? 0 then now else c_CreatedAt item |> in
    create children (c_ID item) item;;
    mret item).

(* src/internal/store/subscriptions.go:657-697 CreateChildSubscription *)
Definition CreateChildSubscription (item : ChildSubscription) : DB ChildSubscription :=
  id ← ensure_id (c_ID item);
  let item := item <| c_ID := id; c_Name := trim_space (c_Name item);
                      c_TenantID := trim_space (c_TenantID item);
                      c_ParentSubscriptionID := trim_space (c_ParentSubscriptionID item) |> in
  guard_that (negb (bool_decide (c_TenantID item = "") ||
                    bool_decide (c_ParentSubscriptionID item = "") || (c_AllocationPPM item <=? 0)))
    (ErrMessage "tenant, parent and positive allocation_ppm are required");;
  startsAt ← (if c_StartsAt item =? 0 then time_now else mret (c_StartsAt item));
  let item := item <| c_StartsAt := startsAt |> in
  guard_that (optional_after (c_ExpiresAt item) (c_StartsAt item))
    (ErrMessage "expires_at must be after starts_at");;
  create_child item.

(** The distinct non-empty identifiers of a selection, in order. *)
(* src/internal/store/subscriptions.go:702-710 CreateSharedSubscriptionGrants *)
Definition distinct_ids (ids : list string) : list string :=
  foldl (λ acc id, let id := trim_space id in
           if bool_decide (id = "") || bool_decide (id ∈ acc) then acc else acc ++ [id]) [] ids.

(* src/internal/store/subscriptions.go:701-747 CreateSharedSubscriptionGrants *)
Definition CreateSharedSubscriptionGrants (template : ChildSubscription) (tenantIDs : list string)
    : DB (list ChildSubscription) :=
  let ids := distinct_ids tenantIDs in
  guard_that (negb (bool_decide (length ids = 0%nat))) (ErrMessage "at least one user is required");;
  transaction (
    parent ← map_error notFound (first parents (c_ParentSubscriptionID template));
    guard_that (bool_decide (ps_CapacityMode parent = ParentCapacityObserved))
      (ErrMessage "shared allocation requires a shared-quota account");;
    enabledUsers ← find tenants (λ tn, bool_decide (t_ID tn ∈ ids) && t_Enabled tn);
    guard_that (bool_decide (length enabledUsers = length ids))
      (ErrMessage "one or more selected users are missing or disabled");;
    for_each (λ id, CreateChildSubscription (template <| c_ID := ""; c_TenantID := id |>)) ids).

(* src/internal/store/subscriptions.go:749-790 UpdateChildSubscription *)
Definition UpdateChildSubscription (item : ChildSubscription) : DB ChildSubscription :=
  let item := item <| c_Name := trim_space (c_Name item);
                      c_ParentSubscriptionID := trim_space (c_ParentSubscriptionID item) |> in
  guard_that (negb (bool_decide (c_Name item = "") ||
                    bool_decide (c_ParentSubscriptionID item = "") ||
                    (c_AllocationPPM item <=? 0) || (c_StartsAt item =? 0)))
    (ErrMessage "name, parent, starts_at and positive allocation_ppm are required");;
  guard_that (optional_after (c_ExpiresAt item) (c_StartsAt item))
    (ErrMessage "expires_at must be after starts_at");;
  transaction (
    current ← map_error notFound (first children (c_ID item));
    parent ← map_error notFound (first parents (c_ParentSubscriptionID item));
    guard_that (negb (bool_decide (ps_Status parent = "missing"))) ErrNotFound;;
    let item := if decide (ps_CapacityMode parent = ParentCapacityUnmetered)
                then (canonicalBalanceGrant parent item) <| c_StartsAt := c_StartsAt current |>
                else item in
    guard_that (negb (unavailable_parent item parent)) child_needs_parent;;
    update children (c_ID current) (λ c,
      let c := c <| c_ParentSubscriptionID := c_ParentSubscriptionID item; c_Name := c_Name item;
                    c_AllocationPPM := c_AllocationPPM item; c_Priority := c_Priority item;
                    c_Enabled := c_Enabled item |> in
      c <| c_ModelAllowlist := c_ModelAllowlist item; c_StartsAt := c_StartsAt item;
           c_ExpiresAt := c_ExpiresAt item |>);;
    mret ());;
  first children (c_ID item).

(** [ORDER BY created_at]. *)
Definition oldest_first (c d : ChildSubscription) : Prop := c_CreatedAt c ≤ c_CreatedAt d.
#[export] Instance oldest_first_dec c d : Decision (oldest_first c d).
Proof. unfold oldest_first. apply _. Defined.

(** One tenant of a bulk grant: its oldest assignment is renewed, or one is created. *)
(* src/internal/store/subscriptions.go:865-890 GrantBalanceSubscriptionAccess *)
Definition grant_access (parent : ParentSubscription) (now : Z) (tenantID : string)
    : DB ChildSubscription :=
  existing ← attempt (first_ordered children (λ c,
    bool_decide (c_TenantID c = tenantID) && bool_decide (c_ParentSubscriptionID c = ps_ID parent))
    oldest_first);
  match existing with
  | Err ErrRecordNotFound =>
      id ← new_id;
      let item := canonicalBalanceGrant parent
        {| c_ID := id; c_TenantID := tenantID; c_ParentSubscriptionID := ps_ID parent;
           c_Name := ""; c_AllocationPPM := 0; c_Priority := 0; c_Enabled := true;
           c_ModelAllowlist := []; c_StartsAt := now; c_ExpiresAt := None; c_CreatedAt := now |} in
      create children (c_ID item) item;;
      mret item
  | Err e => fail e
  | Ok item =>
      let item := (canonicalBalanceGrant parent item) <| c_Enabled := true; c_StartsAt := now |> in
      update children (c_ID item) (λ c,
        let c := c <| c_Name := c_Name item; c_AllocationPPM := c_AllocationPPM item;
                      c_Priority := c_Priority item; c_Enabled := true;
                      c_ModelAllowlist := c_ModelAllowlist item |> in
        c <| c_StartsAt := c_StartsAt item; c_ExpiresAt := (None : option Z) |>);;
      mret item
  end.

(* src/internal/store/subscriptions.go:814-895 GrantBalanceSubscriptionAccess *)
Definition GrantBalanceSubscriptionAccess (parentID : string) (tenantIDs : list string)
    : DB (list ChildSubscription) :=
  let parentID := trim_space parentID in
  let ids := distinct_ids tenantIDs in
  guard_that (negb (bool_decide (parentID = "") || bool_decide (length ids = 0%nat)))
    (ErrMessage "parent and at least one tenant are required");;
  transaction (
    parent ← map_error notFound (first parents parentID);
    guard_that (negb (bool_decide (ps_Status parent = "missing"))) ErrNotFound;;
    guard_that (bool_decide (ps_CapacityMode parent = ParentCapacityUnmetered))
      (ErrMessage "bulk access grants require a balance-settled parent");;
    guard_that (ps_Enabled parent && negb (ps_UpstreamUnavailable parent))
      (ErrMessage "balance-settled parent is unavailable");;
    rows ← find tenants (λ tn, bool_decide (t_ID tn ∈ ids) && t_Enabled tn);
    let enabled := t_ID <$> (rows : list Tenant) in
    match list_find (λ id, id ∉ enabled) ids with
    | Some (_, id) => fail (ErrMessage ("tenant " +:+ id +:+ " is missing or disabled"))
    | None => mret ()
    end;;
    now ← time_now;
    for_each (grant_access parent now) ids).
