(* ===== verification/Books.v ===== *)
(** * The books: what the accounting operations keep true

    Pure descriptions of what a committed charge does to the tables, and the
    invariants that relate the balances, the ledger, the reservations and the
    quota windows. *)

From S2P Require Import Prelude.
From S2P Require Import Cost.
From S2P Require Import Database.
From S2P Require Import Schema.
From S2P Require Import ModelAccess.
From S2P Require Import RequestLogs.
From S2P Require Import QuotaMath.
From S2P Require Import Reservation.
From S2P Require Import Settlement.

Notation window_map := (gmap (string * string) ChildQuotaWindow).

(** ** What a committed step does *)

(** The balance moves and the ledger says why. *)
Definition posted (tenant : Tenant) (entry : BillingLedger) (t : tables) : tables :=
  t <| tb_tenants := <[t_ID tenant :=
         tenant <| t_BalanceNanoUSD := l_BalanceAfterNanoUSD entry |>]> (tb_tenants t);
       tb_ledger := tb_ledger t ++ [entry] |>.

Definition entry_for (tenant : Tenant) (requestID : option string) (kind : LedgerKind)
    (amount : Z) (note id : string) : BillingLedger :=
  {| l_ID := id; l_TenantID := t_ID tenant; l_RequestID := requestID; l_Kind := kind;
     l_AmountNanoUSD := amount;
     l_BalanceAfterNanoUSD := t_BalanceNanoUSD tenant +₆₄ amount; l_Note := note |}.

(** One window of a finished reservation, if the child is still in its generation. *)
Definition on_window (childID : string) (f : ChildQuotaWindow → ChildQuotaWindow)
    (reserved : quotaWindowReservation) (m : window_map) :=
  match m !! (childID, qr_Kind reserved) with
  | Some w => if bool_decide (w_ResetsAt w = qr_ResetsAt reserved)
              then <[(childID, qr_Kind reserved) := f w]> m else m
  | None => m
  end.

Definition on_windows (childID : string) (f : ChildQuotaWindow → ChildQuotaWindow)
    (l : list quotaWindowReservation) (m : window_map) :=
  foldl (λ m q, on_window childID f q m) m l.

Definition window_key (w : ChildQuotaWindow) : string * string :=
  (w_ChildSubscriptionID w, w_Kind w).

Section effects.
Context (E : env).

Lemma success_post_ledger tn b requestID kind amount note t (P : unit → tables → Prop) :
  tb_tenants t !! t_ID tn = Some tn → b = t_BalanceNanoUSD tn +₆₄ amount →
  (∀ id, P () (posted tn (entry_for tn requestID kind amount note id) t)) →
  success E (post_ledger (tn <| t_BalanceNanoUSD := b |>) requestID kind amount note) t P.
Proof.
  intros Hk -> H. unfold post_ledger. step_success. apply success_update; cbn.
  - intros row Hrow _. rewrite Hk in Hrow. injection Hrow as <-. step_success. step_success.
    apply success_create_ledger. apply (H s).
  - intros Hn. congruence.
Qed.

(** Both window loops are one function of the table; [J] is what a step may rely on and
    must keep. *)
Lemma success_windows (childID : string) (f : ChildQuotaWindow → ChildQuotaWindow)
    (J : window_map → Prop)
    (step : quotaWindowReservation → DB unit) l t (P : list unit → tables → Prop) :
  keyed window_key (tb_child_windows t) → J (tb_child_windows t) →
  (∀ w, window_key (f w) = window_key w) →
  (∀ q t', keyed window_key (tb_child_windows t') → J (tb_child_windows t') →
     success E (step q) t' (λ _ t'', t'' = t' <| tb_child_windows :=
                              on_window childID f q (tb_child_windows t') |> ∧
                            J (tb_child_windows t''))) →
  (∀ u, J (on_windows childID f l (tb_child_windows t)) →
        P u (t <| tb_child_windows := on_windows childID f l (tb_child_windows t) |>)) →
  success E (for_each step l) t P.
Proof.
  intros Hk HJ Hf Hstep HP.
  eapply success_mono; [apply (success_for_each E step l (λ rest _ t',
    ∃ m, keyed window_key m ∧ J m ∧ t' = t <| tb_child_windows := m |> ∧
         on_windows childID f rest m = on_windows childID f l (tb_child_windows t)))|].
  - exists (tb_child_windows t). split_and!; [done|done|by destruct t|done].
  - intros q rest _ t' (m & Hm & HJm & -> & Heq). eapply success_mono; [by apply Hstep|].
    cbn. intros _ t'' [-> HJ'']. cbn in HJ''. eexists. split_and!; [|exact HJ''|done|exact Heq].
    unfold on_window. destruct (m !! _) as [w|] eqn:Hw; [|done].
    case_bool_decide; [|done]. apply keyed_insert; [done|]. by rewrite Hf, (Hm _ _ Hw).
  - intros u t' (m & _ & HJm & -> & Heq). cbn in Heq. subst m. by apply HP.
Qed.
End effects.

(** The tables after a successful [finishReservationTx] on an active reservation. *)
Definition final_charge (status : ReservationStatus) (actual : Z) : Z :=
  if bool_decide (status = ReservationSettled ∨ status = ReservationExpired) then actual else 0.

Definition finish_delta (r : RequestReservation) (final : Z) : Z :=
  if reservationUsesBalance r
  then r_BalanceReservedNanoUSD r +₆₄ default 0 (r_ActualNanoUSD r) -₆₄ final else 0.

Definition finish_windows (r : RequestReservation) (final : Z)
    (m : window_map) :=
  match r_ChildSubscriptionID r with
  | Some childID =>
      if 0 <? r_QuotaReservedNanoUSD r then
        on_windows childID
          (release_window (r_QuotaReservedNanoUSD r) (final -₆₄ default 0 (r_ActualNanoUSD r)))
          (r_QuotaWindows r) m
      else m
  | None => m
  end.

Definition finished (r : RequestReservation) (final : Z) (complete : bool)
    (status : ReservationStatus) (now : Z) : RequestReservation :=
  r <| r_ActualNanoUSD := Some final; r_PricingComplete := complete;
       r_Status := status; r_SettledAt := Some now |>.

Definition finish_spec (r : RequestReservation) (tenant : Tenant) (actual : Z) (complete : bool)
    (status : ReservationStatus) (entryID : string) (now : Z) (t : tables) : tables :=
  let final := final_charge status actual in
  let delta := finish_delta r final in
  let kind := if bool_decide (status = ReservationSettled) then LedgerSettlement else LedgerRefund in
  let t := if negb (delta =? 0) then
             posted tenant (entry_for tenant (Some (r_RequestID r)) kind delta
                              "request reservation finalized" entryID) t
           else t in
  t <| tb_child_windows := finish_windows r final (tb_child_windows t);
       tb_reservations := <[r_RequestID r := finished r final complete status now]>
                            (tb_reservations t) |>.

(** ** Filing *)

(** Every row is filed under its own key. *)
Record filed (t : tables) : Prop := {
  filed_tenants : keyed t_ID (tb_tenants t);
  filed_reservations : keyed r_RequestID (tb_reservations t);
  filed_windows : keyed window_key (tb_child_windows t);
  filed_parents : keyed ps_ID (tb_parents t);
  filed_children : keyed c_ID (tb_children t)
}.

Section finish.
Context (E : env).

Lemma success_finish_window childID quota delta q t :
  keyed window_key (tb_child_windows t) →
  success E (finish_window childID quota delta q) t (λ _ t', t' = t <| tb_child_windows :=
    on_window childID (release_window quota delta) q (tb_child_windows t) |>).
Proof.
  intros Hk. unfold finish_window, window_of. repeat step_success.
  - intros w Hw Hr. cbn in Hw |- *. pose proof (Hk _ _ Hw) as Hkey. unfold window_key in Hkey.
    step_success. rewrite Hkey. apply success_update; cbn; [|congruence].
    intros w' Hw' _. rewrite Hw in Hw'. injection Hw' as <-. step_success.
    unfold on_window. by rewrite Hw, Hr.
  - intros Hn. cbn. step_success. unfold on_window. destruct (_ !! _) as [w|] eqn:Hw.
    + rewrite (Hn w) by done. by destruct t.
    + by destruct t.
Qed.

Lemma success_finish id actual complete status t (P : unit → tables → Prop) :
  filed t →
  (∀ r, tb_reservations t !! id = Some r → is_active r = false → P () t) →
  (∀ r tn entryID now, tb_reservations t !! id = Some r → is_active r = true →
     tb_tenants t !! r_TenantID r = Some tn →
     P () (finish_spec r tn actual complete status entryID now t)) →
  success E (finishReservationTx id actual complete status) t P.
Proof.
  intros Hf H1 H2. unfold finishReservationTx. step_success.
  apply success_map_error, success_first. intros r Hr.
  destruct (is_active r) eqn:Ha; cbn [negb]; [|step_success; eauto].
  step_success. step_success. intros tn Htn. cbn in Hr, Htn.
  pose proof (filed_tenants _ Hf _ _ Htn) as Htid. pose proof (filed_reservations _ Hf _ _ Hr) as Hrid. cbn in Hrid. subst id.
  change (if bool_decide (status = ReservationSettled ∨ status = ReservationExpired)
          then actual else 0) with (final_charge status actual).
  change (if reservationUsesBalance r then _ else 0) with (finish_delta r (final_charge status actual)).
  set (final := final_charge status actual). set (delta := finish_delta r final).
  apply success_bind. eapply (success_mono _ _ _ (λ _ t', ∃ entryID, t' =
    if negb (delta =? 0) then
      posted tn (entry_for tn (Some (r_RequestID r))
                   (if bool_decide (status = ReservationSettled) then LedgerSettlement
                    else LedgerRefund) delta "request reservation finalized" entryID) t
    else t)).
  { destruct (negb (delta =? 0)).
    - apply success_post_ledger; [by rewrite Htid|done|]. eauto.
    - step_success. by exists "". }
  intros _ t1 [entryID Ht1]. step_success.
  eapply (success_mono _ _ _ (λ _ t', t' = t1 <| tb_child_windows :=
                                finish_windows r final (tb_child_windows t1) |>)).
  { assert (Hk : keyed window_key (tb_child_windows t1)).
    { rewrite Ht1. destruct (negb _); apply (filed_windows _ Hf). }
    unfold finish_windows. destruct (r_ChildSubscriptionID r) as [childID|].
    - destruct (0 <? r_QuotaReservedNanoUSD r).
      + apply success_bind.
        eapply (success_windows _ _ (release_window _ _) (λ _, True)); [done|done|done| |].
        * intros q t' Ht' _. eapply success_mono; [by apply success_finish_window|].
          intros ? t'' Ht''. split; [exact Ht''|exact I].
        * intros u _. by step_success.
      + step_success. by destruct t1.
    - step_success. by destruct t1. }
  intros _ t2 ->. step_success. step_success. step_success.
  assert (Hr' : tb_reservations t1 !! r_RequestID r = Some r) by (rewrite Ht1; by destruct (negb _)).
  apply success_update; cbn; [|congruence]. intros r' Hr'' _. rewrite Hr' in Hr''.
  injection Hr'' as <-. step_success.
  match goal with |- P () ?x => replace x with (finish_spec r tn actual complete status entryID z t) end.
  { by apply H2. }
  unfold finish_spec. cbv zeta. fold final delta. rewrite Ht1.
  by destruct (negb (delta =? 0)).
Qed.
End finish.

(** ** The ledger explains every balance *)

Definition tenant_amount (tenantID : string) (e : BillingLedger) : Z :=
  if bool_decide (l_TenantID e = tenantID) then l_AmountNanoUSD e else 0.

Definition tenant_total (tenantID : string) (ledger : list BillingLedger) : Z :=
  sum_by (tenant_amount tenantID) ledger.

(** The balance of a tenant is the (64-bit) sum of its ledger entries, and every entry
    records the balance that it left behind. *)
Record tenant_books (t : tables) : Prop := {
  tb_balance : ∀ id tn, tb_tenants t !! id = Some tn →
    t_BalanceNanoUSD tn = wrap64 (tenant_total id (tb_ledger t));
  tb_audit : ∀ before e after, tb_ledger t = before ++ e :: after →
    l_BalanceAfterNanoUSD e = wrap64 (tenant_total (l_TenantID e) (before ++ [e]))
}.

Lemma tenant_total_snoc id l e : tenant_total id (l ++ [e]) = tenant_total id l + tenant_amount id e.
Proof. unfold tenant_total. rewrite sum_by_app. cbn. lia. Qed.

(** Equality of the tables that the books talk about: the rest may change. *)
Record same_money (t t' : tables) : Prop := {
  sm_ledger : tb_ledger t' = tb_ledger t;
  sm_reservations : tb_reservations t' = tb_reservations t;
  sm_windows : tb_child_windows t' = tb_child_windows t;
  sm_parents : tb_parents t' = tb_parents t;
  sm_children : tb_children t' = tb_children t;
  sm_tenants : ∀ id,
    (λ tn, (t_ID tn, t_BalanceNanoUSD tn)) <$> tb_tenants t' !! id
    = (λ tn, (t_ID tn, t_BalanceNanoUSD tn)) <$> tb_tenants t !! id
}.

#[export] Instance same_money_refl : Reflexive same_money.
Proof. by split. Qed.

#[export] Instance same_money_trans : Transitive same_money.
Proof. intros t1 t2 t3 [] []. split; congruence. Qed.

Lemma filed_same_money t t' : same_money t t' → filed t → filed t'.
Proof.
  intros [] []. split; [|by rewrite sm_reservations0|by rewrite sm_windows0|
    by rewrite sm_parents0|by rewrite sm_children0].
  intros id tn Htn. specialize (sm_tenants0 id). rewrite Htn in sm_tenants0. cbn in sm_tenants0.
  destruct (tb_tenants t !! id) as [tn0|] eqn:Htn0; [|done]. injection sm_tenants0 as -> _.
  by apply (filed_tenants0 id).
Qed.

Lemma tenant_books_same_money t t' : same_money t t' → tenant_books t → tenant_books t'.
Proof.
  intros [] []. split; rewrite sm_ledger0; [|done]. intros id tn Htn. specialize (sm_tenants0 id).
  rewrite Htn in sm_tenants0. cbn in sm_tenants0.
  destruct (tb_tenants t !! id) as [tn0|] eqn:Htn0; [|done]. injection sm_tenants0 as _ ->.
  by apply tb_balance0.
Qed.

(** Posting an entry keeps the tenant's books, whatever else the step changes. *)
Lemma tenant_books_posted t t' tn requestID kind amount note id :
  tenant_books t → tb_tenants t !! t_ID tn = Some tn →
  let entry := entry_for tn requestID kind amount note id in
  tb_tenants t' = tb_tenants (posted tn entry t) → tb_ledger t' = tb_ledger (posted tn entry t) →
  tenant_books t'.
Proof.
  intros [Hbal Haudit] Htn entry Htenants Hledger. cbn in Htenants, Hledger.
  assert (Hafter : l_BalanceAfterNanoUSD entry
                   = wrap64 (tenant_total (t_ID tn) (tb_ledger t ++ [entry]))).
  { rewrite tenant_total_snoc. unfold tenant_amount. cbn. rewrite bool_decide_eq_true_2 by done.
    unfold add64. rewrite (Hbal _ _ Htn). by autorewrite with wrap. }
  split; rewrite Hledger, ?Htenants.
  - intros id' tn'. rewrite lookup_insert_Some. intros [[<- <-]|[Hne Htn']]; [exact Hafter|].
    rewrite tenant_total_snoc. unfold tenant_amount. cbn.
    rewrite bool_decide_eq_false_2 by done. rewrite Z.add_0_r. by apply Hbal.
  - intros before e after Heq. destruct (decide (after = [])) as [->|Hne].
    + apply app_inj_tail in Heq as [<- <-]. exact Hafter.
    + destruct (exists_last Hne) as (after' & e' & ->).
      rewrite app_comm_cons, app_assoc in Heq. apply app_inj_tail in Heq as [Heq _].
      by apply (Haudit _ _ after').
Qed.

(** ** The ledger explains every reservation *)

Definition request_amount (requestID : string) (e : BillingLedger) : Z :=
  if bool_decide (l_RequestID e = Some requestID) then l_AmountNanoUSD e else 0.

Definition request_total (requestID : string) (ledger : list BillingLedger) : Z :=
  sum_by (request_amount requestID) ledger.

Lemma request_total_snoc id l e :
  request_total id (l ++ [e]) = request_total id l + request_amount id e.
Proof. unfold request_total. rewrite sum_by_app. cbn. lia. Qed.

(** What a balance-funded reservation has taken from the tenant so far: the hold and the
    accrued turns while it is active, exactly the final cost once it has ended. *)
Definition charged (r : RequestReservation) : Z :=
  if reservationUsesBalance r then
    (if is_active r then r_BalanceReservedNanoUSD r else 0) + default 0 (r_ActualNanoUSD r)
  else 0.

Definition charged_at (t : tables) (id : string) : Z :=
  from_option charged 0 (tb_reservations t !! id).

(** The entries of a request add up to what it was charged, and belong to its tenant. *)
Record request_books (t : tables) : Prop := {
  rb_total : ∀ id, wrap64 (request_total id (tb_ledger t)) = wrap64 (- charged_at t id);
  rb_owner : ∀ e id, e ∈ tb_ledger t → l_RequestID e = Some id →
    ∃ r, tb_reservations t !! id = Some r ∧ r_TenantID r = l_TenantID e
}.

Lemma request_books_same_money t t' : same_money t t' → request_books t → request_books t'.
Proof.
  intros [] []. split; unfold charged_at in *; by rewrite sm_ledger0, sm_reservations0.
Qed.

(** A step on one reservation, with the entry that pays for it or without one. *)
Lemma request_books_step t t' r' entry :
  request_books t →
  tb_ledger t' = tb_ledger t ++ option_list entry →
  tb_reservations t' = <[r_RequestID r' := r']> (tb_reservations t) →
  (∀ e, entry = Some e → l_RequestID e = Some (r_RequestID r') ∧ l_TenantID e = r_TenantID r') →
  (∀ r, tb_reservations t !! r_RequestID r' = Some r → r_TenantID r = r_TenantID r') →
  wrap64 (from_option l_AmountNanoUSD 0 entry - charged_at t (r_RequestID r')) = wrap64 (- charged r') →
  request_books t'.
Proof.
  intros [Htotal Howner] Hl Hr He Hten Hamt. split.
  - intros id. unfold charged_at. rewrite Hr, Hl.
    assert (Hsum : request_total id (tb_ledger t ++ option_list entry)
      = request_total id (tb_ledger t) + if bool_decide (id = r_RequestID r')
                                         then from_option l_AmountNanoUSD 0 entry else 0).
    { destruct entry as [e|]; cbn [option_list from_option]; [|rewrite app_nil_r; case_bool_decide; cbn; lia].
      change (option_list (Some e)) with [e]. rewrite request_total_snoc. unfold request_amount. destruct (He e eq_refl) as [-> _]. cbn.
      repeat case_bool_decide; try lia; congruence. }
    rewrite Hsum. destruct (decide (id = r_RequestID r')) as [->|Hne].
    + rewrite lookup_insert_eq, bool_decide_eq_true_2 by done. cbn [from_option].
      rewrite <- wrap64_add_l, Htotal, wrap64_add_l, <- Hamt. f_equal. lia.
    + rewrite lookup_insert_ne, bool_decide_eq_false_2, Z.add_0_r by done. apply Htotal.
  - intros e id. rewrite Hl, Hr, elem_of_app. intros [Hin|Hin] Hid.
    + destruct (Howner e id Hin Hid) as (r & Hrid & Htn).
      destruct (decide (id = r_RequestID r')) as [->|Hne].
      * exists r'. rewrite lookup_insert_eq. split; [done|]. by rewrite <- (Hten r).
      * exists r. by rewrite lookup_insert_ne.
    + destruct entry as [e'|]; cbn in Hin; [|by apply not_elem_of_nil in Hin].
      apply list_elem_of_singleton in Hin as ->. destruct (He e' eq_refl) as [Hid' Htn].
      rewrite Hid in Hid'. injection Hid' as ->. exists r'. by rewrite lookup_insert_eq.
Qed.

(** An entry that belongs to no request. *)
Lemma request_books_credit t t' entry :
  request_books t → tb_ledger t' = tb_ledger t ++ [entry] → l_RequestID entry = None →
  tb_reservations t' = tb_reservations t → request_books t'.
Proof.
  intros [Htotal Howner] Hl Hn Hr. split; unfold charged_at; rewrite Hr, Hl.
  - intros id. rewrite request_total_snoc. unfold request_amount. rewrite Hn. cbn.
    rewrite Z.add_0_r. apply Htotal.
  - intros e id Hin Hid. apply (Howner e id); [|done].
    apply elem_of_app in Hin as [?|Hin%list_elem_of_singleton]; [done|]. congruence.
Qed.

(** ** The windows hold what the active reservations claim *)

Definition claim_count (kind : string) (resetsAt : Z) (l : list quotaWindowReservation) : nat :=
  length (filter (λ q, qr_Kind q = kind ∧ qr_ResetsAt q = resetsAt) l).

#[global] Arguments claim_count : simpl never.

(** What a reservation holds in the window [kind] of [childID], generation [resetsAt]. *)
Definition held_by (childID kind : string) (resetsAt : Z) (r : RequestReservation) : Z :=
  if is_active r && bool_decide (r_ChildSubscriptionID r = Some childID)
  then r_QuotaReservedNanoUSD r * Z.of_nat (claim_count kind resetsAt (r_QuotaWindows r)) else 0.

Definition holds (t : tables) (childID kind : string) (resetsAt : Z) : Z :=
  sum_map (held_by childID kind resetsAt) (tb_reservations t).

Definition window_row_ok (w : ChildQuotaWindow) : Prop :=
  child_window_check w = true ∧ w_LimitNanoUSD w ≤ max_int64 ∧
  w_SettledNanoUSD w ≤ max_int64 ∧ w_ReservedNanoUSD w ≤ max_int64.

Lemma window_row_ok_iff w : window_row_ok w ↔
  0 < w_LimitNanoUSD w ≤ max_int64 ∧ 0 ≤ w_SettledNanoUSD w ≤ max_int64 ∧
  0 ≤ w_ReservedNanoUSD w ≤ max_int64.
Proof.
  unfold window_row_ok, child_window_check. rewrite !andb_true_iff, Z.ltb_lt, !Z.leb_le. lia.
Qed.

(** A window reserves exactly what is claimed of its generation, and no claim is ahead of
    the generation the window is in. *)
Definition windows_ok (m : window_map)
    (H : string → string → Z → Z) : Prop :=
  (∀ c k w, m !! (c, k) = Some w → window_row_ok w ∧ w_ReservedNanoUSD w = H c k (w_ResetsAt w)) ∧
  (∀ c k z, H c k z ≠ 0 → ∃ w, m !! (c, k) = Some w ∧ z ≤ w_ResetsAt w).

Record quota_books (t : tables) : Prop := {
  qb_windows : windows_ok (tb_child_windows t) (holds t);
  qb_amounts : ∀ id r, tb_reservations t !! id = Some r → 0 ≤ r_QuotaReservedNanoUSD r ≤ max_int64
}.

Lemma claim_count_nil kind z : claim_count kind z [] = 0%nat.
Proof. done. Qed.

Lemma claim_count_cons kind z q l :
  claim_count kind z (q :: l)
  = ((if bool_decide (qr_Kind q = kind ∧ qr_ResetsAt q = z) then 1 else 0) + claim_count kind z l)%nat.
Proof. unfold claim_count. rewrite filter_cons. case_decide; case_bool_decide; done. Qed.

Lemma claim_count_app kind z l1 l2 :
  claim_count kind z (l1 ++ l2) = (claim_count kind z l1 + claim_count kind z l2)%nat.
Proof. unfold claim_count. by rewrite list.filter_app, length_app. Qed.

Lemma held_by_nonneg c k z r : 0 ≤ r_QuotaReservedNanoUSD r → 0 ≤ held_by c k z r.
Proof. intros. unfold held_by. case_match; lia. Qed.

Lemma holds_nonneg t c k z : quota_books t → 0 ≤ holds t c k z.
Proof.
  intros []. apply sum_map_nonneg. intros id r Hr. apply held_by_nonneg.
  by apply (qb_amounts0 id).
Qed.

Lemma quota_books_same_money t t' : same_money t t' → quota_books t → quota_books t'.
Proof.
  intros [] []. split; unfold holds in *; by rewrite ?sm_reservations0, ?sm_windows0.
Qed.

(** Looking up a window after the loop. *)
Lemma on_windows_lookup (childID : string) (f : ChildQuotaWindow → ChildQuotaWindow)
    (l : list quotaWindowReservation) (m : window_map) (c k : string) :
  (∀ w, w_ResetsAt (f w) = w_ResetsAt w) →
  on_windows childID f l m !! (c, k)
  = (λ w, if bool_decide (c = childID) then Nat.iter (claim_count k (w_ResetsAt w) l) f w else w)
    <$> m !! (c, k).
Proof.
  intros Hf. revert m. induction l as [|q l IH]; intros m; cbn [on_windows foldl].
  - destruct (m !! (c, k)) as [w|]; [|done]. cbn. by case_bool_decide.
  - unfold on_windows in IH. rewrite IH. unfold on_window.
    destruct (m !! (childID, qr_Kind q)) as [w|] eqn:Hw.
    + destruct (decide ((c, k) = (childID, qr_Kind q))) as [[= -> ->]|Hne].
      * rewrite Hw. cbn [fmap option_fmap option_map]. rewrite claim_count_cons.
        rewrite (bool_decide_eq_true_2 (childID = childID)) by done.
        destruct (decide (w_ResetsAt w = qr_ResetsAt q)) as [Heq|Hneq].
        -- rewrite !bool_decide_eq_true_2 by done. rewrite lookup_insert_eq. cbn.
           rewrite Hf, Nat.iter_swap. done.
        -- rewrite !bool_decide_eq_false_2 by naive_solver. rewrite Hw. done.
      * replace ((if bool_decide _ then _ else m) !! (c, k)) with (m !! (c, k))
          by (destruct (bool_decide (w_ResetsAt w = _)); [by rewrite lookup_insert_ne|done]).
        destruct (m !! (c, k)) as [w'|]; [|done]. cbn. apply f_equal.
        destruct (decide (c = childID)) as [->|?]; [|by rewrite bool_decide_eq_false_2].
        by rewrite claim_count_cons, (bool_decide_eq_false_2 (qr_Kind q = k ∧ _)) by naive_solver.
    + destruct (m !! (c, k)) as [w'|] eqn:Hw'; [|done]. cbn. apply f_equal.
      destruct (decide (c = childID)) as [->|?]; [|by rewrite bool_decide_eq_false_2].
      by rewrite claim_count_cons, (bool_decide_eq_false_2 (qr_Kind q = k ∧ _))
        by naive_solver congruence.
Qed.

Lemma release_window_row quota delta w h :
  window_row_ok w → w_ReservedNanoUSD w = h + quota → 0 ≤ h → 0 ≤ quota →
  window_row_ok (release_window quota delta w) ∧
  w_ReservedNanoUSD (release_window quota delta w) = h.
Proof.
  rewrite !window_row_ok_iff. unfold release_window, floor0. cbn. intros (Hl & Hs & Hm) Hr Hh Hq.
  pose proof (wrap64_in_range (w_SettledNanoUSD w + delta)) as [_ Hrange].
  change (w_SettledNanoUSD w +₆₄ delta) with (wrap64 (w_SettledNanoUSD w + delta)).
  unfold sub64. rewrite (wrap64_id (_ - quota)) by int64_lia.
  assert (0 ≤ max_int64) by int64_lia.
  destruct (Z.ltb_spec (w_ReservedNanoUSD w - quota) 0); [lia|].
  destruct (Z.ltb_spec (wrap64 (w_SettledNanoUSD w + delta)) 0); lia.
Qed.

Lemma iter_release quota delta n : ∀ w h,
  window_row_ok w → w_ReservedNanoUSD w = h + quota * Z.of_nat n → 0 ≤ h → 0 ≤ quota →
  let w' := Nat.iter n (release_window quota delta) w in
  window_row_ok w' ∧ w_ReservedNanoUSD w' = h ∧ w_ResetsAt w' = w_ResetsAt w.
Proof.
  induction n as [|n IH]; intros w h Hw Hr Hh Hq; [cbn; split_and!; [done|lia|done]|].
  cbn zeta. rewrite Nat.iter_succ.
  destruct (IH w (h + quota)) as (Hw' & Hr' & Hz'); [done|lia|lia|done|]. cbn zeta in *.
  destruct (release_window_row quota delta _ h Hw' Hr' Hh Hq) as [??].
  split_and!; [done|done|]. exact Hz'.
Qed.

(** A finished reservation gives back its claims, exactly: the floor never bites. *)
Lemma windows_release (childID : string) (quota delta : Z) (l : list quotaWindowReservation)
    (m : window_map) (H H' : string → string → Z → Z) :
  windows_ok m H → 0 ≤ quota → (∀ c k z, 0 ≤ H' c k z) →
  (∀ c k z, H c k z = H' c k z +
     if bool_decide (c = childID) then quota * Z.of_nat (claim_count k z l) else 0) →
  windows_ok (on_windows childID (release_window quota delta) l m) H'.
Proof.
  intros [Hrow Hgen] Hq Hpos Heq. split.
  - intros c k w. rewrite on_windows_lookup by done.
    destruct (m !! (c, k)) as [w0|] eqn:Hw0; [|done]. cbn. intros [= <-].
    destruct (Hrow _ _ _ Hw0) as [Hok Hres]. rewrite Heq in Hres. case_bool_decide.
    + destruct (iter_release quota delta (claim_count k (w_ResetsAt w0) l) w0
                  (H' c k (w_ResetsAt w0))) as (? & -> & ->); done || auto.
    + split; [done|]. lia.
  - intros c k z Hne. destruct (Hgen c k z) as (w & Hw & Hz).
    { rewrite Heq. pose proof (Hpos c k z). case_bool_decide; nia. }
    rewrite on_windows_lookup, Hw by done. eexists. split; [done|]. cbn.
    case_bool_decide; [|done]. induction (claim_count _ _ _); [done|]. done.
Qed.

(** An admission adds one claim to a window, whose generation it may have advanced. *)
Lemma windows_claim (m : window_map) H (c k : string) (w : ChildQuotaWindow) (quota : Z) :
  windows_ok m H → window_row_ok w →
  (∀ old, m !! (c, k) = Some old → w_ResetsAt old ≤ w_ResetsAt w) →
  w_ReservedNanoUSD w = H c k (w_ResetsAt w) + quota →
  windows_ok (<[(c, k) := w]> m) (λ c' k' z',
    H c' k' z' + if bool_decide (c' = c ∧ k' = k ∧ z' = w_ResetsAt w) then quota else 0).
Proof.
  intros [Hrow Hgen] Hok Hold Hres. split.
  - intros c' k' w'. rewrite lookup_insert_Some. intros [[[= -> ->] ->]|[Hne Hw']].
    + rewrite bool_decide_eq_true_2 by done. by rewrite Hres.
    + rewrite bool_decide_eq_false_2 by naive_solver. rewrite Z.add_0_r. by apply Hrow.
  - intros c' k' z' Hne. destruct (decide ((c', k') = (c, k))) as [[= -> ->]|Hneq].
    + exists w. rewrite lookup_insert_eq. split; [done|]. case_bool_decide as Hz; [lia|].
      destruct (Hgen c k z') as (old & Ho & Hle); [lia|]. specialize (Hold old Ho). lia.
    + rewrite bool_decide_eq_false_2, Z.add_0_r in Hne by naive_solver.
      rewrite lookup_insert_ne by done. by apply Hgen.
Qed.

Lemma windows_ok_ext (m : window_map) H H' :
  windows_ok m H → (∀ c k z, H c k z = H' c k z) → windows_ok m H'.
Proof. intros [H1 H2] Heq. split; setoid_rewrite <- Heq; done. Qed.

(** Replacing a row by one that reserves what its generation claims. *)
Lemma windows_replace (m : window_map) H (c k : string) (w : ChildQuotaWindow) :
  windows_ok m H → window_row_ok w →
  (∀ old, m !! (c, k) = Some old → w_ResetsAt old ≤ w_ResetsAt w) →
  w_ReservedNanoUSD w = H c k (w_ResetsAt w) → windows_ok (<[(c, k) := w]> m) H.
Proof.
  intros Hok Hrow Hold Hres. eapply windows_ok_ext; [apply (windows_claim _ _ _ _ _ 0 Hok)|];
    [done|done|lia|]. intros ???; cbn beta; case_bool_decide; lia.
Qed.

(** A generation that no window has reached carries no claim. *)
Lemma windows_fresh (m : window_map) H (c k : string) (z : Z) :
  windows_ok m H → (∀ w, m !! (c, k) = Some w → w_ResetsAt w < z) → H c k z = 0.
Proof.
  intros [_ Hgen] Hw. destruct (decide (H c k z = 0)) as [|Hne]; [done|].
  destruct (Hgen _ _ _ Hne) as (w & Hw' & Hz). specialize (Hw w Hw'). lia.
Qed.

Lemma held_by_finished c k z r final complete status now :
  status ≠ ReservationActive → held_by c k z (finished r final complete status now) = 0.
Proof.
  intros Hs. unfold held_by, is_active. cbn. by rewrite bool_decide_eq_false_2.
Qed.

Lemma holds_finished t r r' c k z :
  tb_reservations t !! r_RequestID r = Some r → held_by c k z r' = 0 →
  holds (t <| tb_reservations := <[r_RequestID r := r']> (tb_reservations t) |>) c k z
  = holds t c k z - held_by c k z r.
Proof. intros Hr Hz. unfold holds. cbn. rewrite (sum_map_replace _ _ _ _ _ Hr). lia. Qed.

(** ** All the books *)

Record books (t : tables) : Prop := {
  bk_filed : filed t;
  bk_tenants : tenant_books t;
  bk_requests : request_books t;
  bk_quota : quota_books t
}.

Lemma books_same_money t t' : same_money t t' → books t → books t'.
Proof.
  intros Hs []. split; eauto using filed_same_money, tenant_books_same_money,
    request_books_same_money, quota_books_same_money.
Qed.

Lemma on_windows_keyed (childID : string) (f : ChildQuotaWindow → ChildQuotaWindow)
    (l : list quotaWindowReservation) (m : window_map) :
  (∀ w, window_key (f w) = window_key w) → keyed window_key m →
  keyed window_key (on_windows childID f l m).
Proof.
  intros Hf. revert m. induction l as [|q l IH]; intros m Hm; [done|]. apply IH. unfold on_window.
  destruct (m !! _) as [w|] eqn:Hw; [|done]. case_bool_decide; [|done].
  apply keyed_insert; [done|]. by rewrite Hf, (Hm _ _ Hw).
Qed.

Section finish_books.
Context (t : tables) (r : RequestReservation) (tn : Tenant) (actual : Z) (complete : bool).
Context (status : ReservationStatus) (entryID : string) (now : Z).
Context (Hbooks : books t) (Hstatus : status ≠ ReservationActive).
Context (Hr : tb_reservations t !! r_RequestID r = Some r) (Hactive : is_active r = true).
Context (Htn : tb_tenants t !! r_TenantID r = Some tn).

Let t' := finish_spec r tn actual complete status entryID now t.
Let final := final_charge status actual.
Let r' := finished r final complete status now.

Lemma finish_tables :
  tb_reservations t' = <[r_RequestID r := r']> (tb_reservations t) ∧
  tb_child_windows t' = finish_windows r final (tb_child_windows t) ∧
  tb_parents t' = tb_parents t ∧ tb_children t' = tb_children t.
Proof. unfold t', finish_spec. by destruct (negb _). Qed.

Lemma finish_entry :
  let delta := finish_delta r final in
  (delta = 0 ∧ tb_tenants t' = tb_tenants t ∧ tb_ledger t' = tb_ledger t) ∨
  ∃ kind, let entry := entry_for tn (Some (r_RequestID r)) kind delta
                         "request reservation finalized" entryID in
    tb_tenants t' = tb_tenants (posted tn entry t) ∧ tb_ledger t' = tb_ledger (posted tn entry t).
Proof.
  cbn zeta. unfold t', finish_spec. cbv zeta. fold final.
  destruct (Z.eqb_spec (finish_delta r final) 0); cbn [negb]; [by left|right]. by eexists.
Qed.

Let Htid : t_ID tn = r_TenantID r.
Proof. exact (filed_tenants _ (bk_filed _ Hbooks) _ _ Htn). Qed.

Lemma finish_filed : filed t'.
Proof.
  destruct finish_tables as (Hres & Hwin & Hp & Hc). destruct (bk_filed _ Hbooks).
  split; [|rewrite Hres; by apply keyed_insert| |by rewrite Hp|by rewrite Hc].
  - destruct finish_entry as [(_ & -> & _)|(kind & -> & _)]; [done|]. by apply keyed_insert.
  - rewrite Hwin. unfold finish_windows. repeat case_match; try done. by apply on_windows_keyed.
Qed.

Lemma finish_tenant_books : tenant_books t'.
Proof.
  destruct finish_entry as [(_ & Ht & Hl)|(kind & Ht & Hl)].
  - destruct (bk_tenants _ Hbooks). split; rewrite ?Ht, ?Hl; done.
  - eapply tenant_books_posted; [apply Hbooks| |exact Ht|exact Hl]. by rewrite Htid.
Qed.

Lemma charged_finished : wrap64 (finish_delta r final - charged r) = wrap64 (- charged r').
Proof.
  unfold finish_delta, charged, r', finished, reservationUsesBalance, is_active in *. cbn.
  rewrite Hactive, (bool_decide_eq_false_2 (status = ReservationActive)) by done.
  destruct (r_QuotaReservedNanoUSD r =? 0); [|done]. fold final. wrap_ring.
Qed.

Lemma finish_request_books : request_books t'.
Proof.
  destruct finish_tables as (Hres & _). pose proof charged_finished as Hch.
  assert (Hat : charged_at t (r_RequestID r) = charged r) by (unfold charged_at; by rewrite Hr).
  destruct finish_entry as [(Hz & _ & Hl)|(kind & _ & Hl)].
  - apply (request_books_step t t' r' None); [apply Hbooks| |done|done| |].
    + by rewrite Hl, app_nil_r.
    + change (r_RequestID r') with (r_RequestID r). rewrite Hr. by intros ? [= <-].
    + change (r_RequestID r') with (r_RequestID r). cbn. by rewrite Hat, <- Hch, Hz.
  - eapply (request_books_step t t' r' (Some _)); [apply Hbooks|exact Hl|done| | |].
    + intros e [= <-]. cbn. by rewrite Htid.
    + change (r_RequestID r') with (r_RequestID r). rewrite Hr. by intros ? [= <-].
    + change (r_RequestID r') with (r_RequestID r). cbn. by rewrite Hat, <- Hch.
Qed.

Lemma finish_quota_books : quota_books t'.
Proof.
  destruct finish_tables as (Hres & Hwin & _). pose proof (bk_quota _ Hbooks) as Hq.
  pose proof (qb_amounts _ Hq _ _ Hr) as Hamount.
  assert (Hholds : ∀ c k z, holds t' c k z = holds t c k z - held_by c k z r).
  { intros c k z. rewrite <- (holds_finished t r r') by by (apply held_by_finished || idtac).
    unfold holds. by rewrite Hres. }
  split; [|rewrite Hres; intros id x; rewrite lookup_insert_Some;
            intros [[<- <-]|[_ Hx]]; [done|by apply (qb_amounts _ Hq id)]].
  assert (Hpos : ∀ c k z, 0 ≤ holds t' c k z).
  { intros c k z. unfold holds. apply sum_map_nonneg. intros id x. rewrite Hres, lookup_insert_Some.
    intros [[<- <-]|[_ Hx]]; apply held_by_nonneg; [apply Hamount|by apply (qb_amounts _ Hq id)]. }
  assert (Hsame : (∀ c k z, held_by c k z r = 0) → finish_windows r final (tb_child_windows t)
            = tb_child_windows t → windows_ok (tb_child_windows t') (holds t')).
  { intros Hz Hw. rewrite Hwin, Hw. destruct (qb_windows _ Hq) as [H1 H2].
    split; setoid_rewrite Hholds; setoid_rewrite Hz; setoid_rewrite Z.sub_0_r; done. }
  unfold finish_windows, held_by in *. rewrite Hactive in *.
  destruct (r_ChildSubscriptionID r) as [childID|]; [|by apply Hsame].
  destruct (Z.ltb_spec 0 (r_QuotaReservedNanoUSD r)) as [Hgt|Hle].
  - rewrite Hwin. eapply windows_release; [apply Hq|lia|done|]. intros c k z. rewrite Hholds.
    cbn [andb]. destruct (decide (c = childID)) as [->|].
    + rewrite !bool_decide_eq_true_2 by done. lia.
    + rewrite !bool_decide_eq_false_2 by congruence. lia.
  - apply Hsame; [|done]. intros. replace (r_QuotaReservedNanoUSD r) with 0 by lia.
    by case_match.
Qed.

Lemma books_finish : books t'.
Proof.
  split; [apply finish_filed|apply finish_tenant_books|apply finish_request_books
         |apply finish_quota_books].
Qed.
End finish_books.
