(* ===== verification/Accounting.v ===== *)
(** * The accounting machine

    Every operation of the store that moves money, as steps of one machine, and
    the invariants that hold in every state it reaches. *)

From S2P Require Import Prelude.
From S2P Require Import Cost.
From S2P Require Import Database.
From S2P Require Import Schema.
From S2P Require Import QuotaMath.
From S2P Require Import ModelAccess.
From S2P Require Import RequestLogs.
From S2P Require Import Reservation.
From S2P Require Import Settlement.
From S2P Require Import Books.

(** ** Writing a log moves no money *)

Section logs.
Context (E : env) `{TimeZone}.

Lemma same_money_tenants t k tn tn' :
  tb_tenants t !! k = Some tn → t_ID tn' = t_ID tn →
  t_BalanceNanoUSD tn' = t_BalanceNanoUSD tn →
  same_money t (t <| tb_tenants := <[k := tn']> (tb_tenants t) |>).
Proof.
  intros Hk Hid Hb. split; try done. intros id. cbn. destruct (decide (id = k)) as [->|Hne].
  - rewrite lookup_insert_eq, Hk. cbn. by rewrite Hid, Hb.
  - by rewrite lookup_insert_ne.
Qed.

Lemma success_daily tenantID keyID started previous next t :
  success E (applyDailyTokenDelta tenantID keyID started previous next) t
    (λ _ t', same_money t t').
Proof.
  unfold applyDailyTokenDelta. case_match; [by step_success|].
  step_success. step_success. step_success. step_success. step_success.
  eapply (success_mono _ _ _ (λ _ t', same_money t t')).
  { apply success_update; cbn; [|done]. intros tn Htn _. by eapply same_money_tenants. }
  intros ? t1 Hs. repeat step_success. apply success_update; cbn.
  - intros k Hk _. step_success. etrans; [exact Hs|]. by split.
  - intros _. by step_success.
Qed.

Lemma success_decorate {V} (tb : table tables string V) key f item t :
  success E (decorate tb key f item) t (λ _ t', t' = t).
Proof.
  unfold decorate. destruct key as [id|]; [|by step_success].
  step_success. step_success; intros; by step_success.
Qed.

(** Log rows and counters do not touch the turns. *)
Definition same_turns (t t' : tables) : Prop := tb_turns t' = tb_turns t.

#[export] Instance same_turns_tenants t : Ignores tenants (same_turns t).
Proof. by intros ?. Qed.
#[export] Instance same_turns_api_keys t : Ignores api_keys (same_turns t).
Proof. by intros ?. Qed.
#[export] Instance same_turns_details t : Ignores log_details (same_turns t).
Proof. by intros ?. Qed.
#[export] Instance same_turns_logs t : Ignores request_logs (same_turns t).
Proof. by intros ?. Qed.

Lemma preserves_turns_log x t l : preserves x E (same_turns t) (writeLogTx l false).
Proof. unfold writeLogTx, applyDailyTokenDelta, decorate. preserve. Qed.

Lemma success_write_log l upserting t :
  success E (writeLogTx l upserting) t (λ _ t', same_money t t').
Proof.
  unfold writeLogTx. case_match; [by step_success|]. step_success.
  eapply (success_mono _ _ _ (λ _ t', t' = t)).
  { destruct upserting; [|by step_success]. step_success. apply wp_statement; [|done].
    by step_success. }
  intros previous t0 ->. step_success.
  eapply success_mono; [apply success_decorate|]. intros item t1 ->. step_success.
  eapply success_mono; [apply success_decorate|]. intros item' t1 ->. step_success.
  eapply (success_mono _ _ _ (λ _ t', same_money t t')).
  { destruct upserting; [apply success_upsert; intros ? _; by split|].
    step_success. intros _ _. by split. }
  intros ? t1 H1. step_success. eapply success_mono; [apply success_daily|].
  intros ? t2 H2. assert (H12 : same_money t t2) by (by etrans).
  destruct (li_Detail l); [|by step_success].
  destruct upserting; [apply success_upsert; intros ? _|step_success; intros _ _];
    (etrans; [exact H12|]); by split.
Qed.
End logs.

(** ** One WebSocket turn *)

Definition settle_window (cost : Z) (w : ChildQuotaWindow) : ChildQuotaWindow :=
  w <| w_SettledNanoUSD := w_SettledNanoUSD w +₆₄ cost |>.

Definition accrue_windows (r : RequestReservation) (cost : Z)
    (m : window_map) :=
  match r_ChildSubscriptionID r with
  | Some childID => if 0 <? r_QuotaReservedNanoUSD r
                    then on_windows childID (settle_window cost) (r_QuotaWindows r) m else m
  | None => m
  end.

Definition accrued (r : RequestReservation) (cost : Z) (complete : bool) : RequestReservation :=
  match r_ActualNanoUSD r with
  | Some before => r <| r_ActualNanoUSD := Some (cost +₆₄ before);
                        r_PricingComplete := r_PricingComplete r && complete |>
  | None => r <| r_ActualNanoUSD := Some cost; r_PricingComplete := complete |>
  end.

(** The tables after a turn was charged. *)
Definition charge_spec (r : RequestReservation) (tenant : option Tenant) (cost : Z)
    (complete : bool) (entryID : string) (t : tables) : tables :=
  let t := match tenant with
           | Some tn => posted tn (entry_for tn (Some (r_RequestID r)) LedgerSettlement
                                     (wrap64 (- cost)) "websocket terminal turn settlement" entryID) t
           | None => t
           end in
  t <| tb_child_windows := accrue_windows r cost (tb_child_windows t);
       tb_reservations := <[r_RequestID r := accrued r cost complete]> (tb_reservations t) |>.

(** Who pays for a turn. *)
Definition payer (r : RequestReservation) (t : tables) (tenant : option Tenant) : Prop :=
  if reservationUsesBalance r
  then ∃ tn, tenant = Some tn ∧ tb_tenants t !! r_TenantID r = Some tn else tenant = None.

Lemma windows_settle (c k : string) (w : ChildQuotaWindow) (cost : Z)
    (m : window_map) H :
  windows_ok m H → m !! (c, k) = Some w → child_window_check (settle_window cost w) = true →
  windows_ok (<[(c, k) := settle_window cost w]> m) H.
Proof.
  intros [Hrow Hgen] Hw Hc. destruct (Hrow _ _ _ Hw) as [(_ & Hl & Hs & Hr) Hres]. split.
  - intros c' k' w'. rewrite lookup_insert_Some. intros [[[= <- <-] <-]|[_ Hw']]; [|by apply Hrow].
    split; [|exact Hres]. split_and!; [done|done| |done]. apply wrap64_in_range.
  - intros c' k' z Hne. destruct (Hgen _ _ _ Hne) as (w' & Hw' & Hz).
    destruct (decide ((c, k) = (c', k'))) as [[= <- <-]|Hneq].
    + rewrite lookup_insert_eq. eexists. split; [done|]. rewrite Hw in Hw'. injection Hw' as <-. done.
    + rewrite lookup_insert_ne by done. eauto.
Qed.

Section turn.
Context (E : env).

Lemma success_accrue_window childID cost q t H :
  keyed window_key (tb_child_windows t) → windows_ok (tb_child_windows t) H →
  success E (accrue_window childID cost q) t (λ _ t', t' = t <| tb_child_windows :=
    on_window childID (settle_window cost) q (tb_child_windows t) |> ∧
    windows_ok (tb_child_windows t') H).
Proof.
  intros Hk Hok. unfold accrue_window, window_of. repeat step_success.
  - intros w Hw Hr. cbn in Hw |- *. pose proof (Hk _ _ Hw) as Hkey. unfold window_key in Hkey.
    step_success. rewrite Hkey. apply success_update; cbn; [|congruence].
    intros w' Hw' Hc. rewrite Hw in Hw'. injection Hw' as <-. step_success. split.
    + unfold on_window. by rewrite Hw, Hr.
    + by apply windows_settle.
  - intros Hn. cbn. step_success. unfold on_window. destruct (_ !! _) as [w|] eqn:Hw.
    + rewrite (Hn w) by done. by destruct t.
    + by destruct t.
Qed.

(** The transaction's second half, on a stored active reservation. *)
Lemma success_charge_turn input r t H (P : unit → tables → Prop) :
  filed t → windows_ok (tb_child_windows t) H → ws_CostNanoUSD input ≠ 0 →
  tb_reservations t !! r_RequestID r = Some r →
  (∀ tenant entryID, payer r t tenant →
     let t' := charge_spec r tenant (ws_CostNanoUSD input) (ws_PricingComplete input) entryID t in
     windows_ok (tb_child_windows t') H → P () t') →
  success E (charge_turn input r) t P.
Proof.
  intros Hf Hok Hcost Hr HP. unfold charge_turn.
  rewrite (proj2 (Z.eqb_neq _ _) Hcost), !andb_true_r. set (cost := ws_CostNanoUSD input) in *.
  apply success_bind. eapply (success_mono _ _ _ (λ _ t1, ∃ tenant entryID, payer r t tenant ∧
    t1 = match tenant with
         | Some tn => posted tn (entry_for tn (Some (r_RequestID r)) LedgerSettlement
                                   (wrap64 (- cost)) "websocket terminal turn settlement" entryID) t
         | None => t end)).
  { unfold payer. destruct (reservationUsesBalance r); [|step_success; by exists None, ""].
    step_success. step_success. intros tn Htn. cbn in Htn.
    apply success_post_ledger; [by rewrite (filed_tenants _ Hf _ _ Htn)| |].
    - unfold sub64, add64. by autorewrite with wrap.
    - intros entryID. exists (Some tn), entryID. eauto. }
  intros ? t1 (tenant & entryID & Hpay & Ht1).
  assert (Hsame : tb_child_windows t1 = tb_child_windows t ∧ tb_reservations t1 = tb_reservations t)
    by (rewrite Ht1; by destruct tenant). destruct Hsame as [Hw1 Hr1].
  assert (Hk : keyed window_key (tb_child_windows t1)) by (rewrite Hw1; apply Hf).
  step_success. eapply (success_mono _ _ _ (λ _ t2, t2 = t1 <| tb_child_windows :=
    accrue_windows r cost (tb_child_windows t1) |> ∧ windows_ok (tb_child_windows t2) H)).
  { rewrite <- Hw1 in Hok. unfold accrue_windows.
    destruct (r_ChildSubscriptionID r) as [childID|]; [|step_success; by destruct t1].
    destruct (0 <? r_QuotaReservedNanoUSD r); [|step_success; by destruct t1].
    step_success. apply (success_windows E childID (settle_window cost) (λ m, windows_ok m H));
      [done|done|done| |].
    - intros q t' Hk' Hok'. by apply success_accrue_window.
    - intros u Hu. by step_success. }
  intros ? t2 [-> Hok2].
  set (ar := match r_ActualNanoUSD r with Some before => _ | None => _ end).
  assert (Har : ∃ a p, ar = (a, p) ∧
    accrued r cost (ws_PricingComplete input) = r <| r_ActualNanoUSD := Some a; r_PricingComplete := p |>).
  { subst ar. unfold accrued. destruct (r_ActualNanoUSD r); eauto. }
  destruct Har as (act & pc & -> & Hacc). step_success. apply success_update; cbn; [|congruence].
  intros r0 Hr0 _. assert (r0 = r) as -> by congruence. step_success.
  specialize (HP tenant entryID Hpay). unfold charge_spec in HP. fold cost in HP.
  rewrite <- Ht1, Hacc in HP. by apply HP.
Qed.
End turn.

Section charge_books.
Context (t : tables) (r : RequestReservation) (tenant : option Tenant) (cost : Z).
Context (complete : bool) (entryID : string).
Context (Hbooks : books t) (Hactive : is_active r = true).
Context (Hr : tb_reservations t !! r_RequestID r = Some r) (Hpay : payer r t tenant).

Let t' := charge_spec r tenant cost complete entryID t.
Let r' := accrued r cost complete.
Context (Hok : windows_ok (tb_child_windows t') (holds t)).

Lemma accrued_same : r_RequestID r' = r_RequestID r ∧ r_TenantID r' = r_TenantID r ∧
  r_QuotaReservedNanoUSD r' = r_QuotaReservedNanoUSD r ∧ is_active r' = true ∧
  r_BalanceReservedNanoUSD r' = r_BalanceReservedNanoUSD r ∧
  (∀ c k z, held_by c k z r' = held_by c k z r) ∧
  default 0 (r_ActualNanoUSD r') = match r_ActualNanoUSD r with
                                   | Some before => cost +₆₄ before | None => cost end.
Proof. unfold r', accrued, held_by, is_active in *. destruct (r_ActualNanoUSD r); by cbn. Qed.

Lemma charge_tables :
  tb_reservations t' = <[r_RequestID r' := r']> (tb_reservations t) ∧
  tb_child_windows t' = accrue_windows r cost (tb_child_windows t) ∧
  tb_parents t' = tb_parents t ∧ tb_children t' = tb_children t.
Proof.
  destruct accrued_same as (-> & _). unfold t', charge_spec. by destruct tenant.
Qed.

Lemma charge_filed : filed t'.
Proof.
  destruct charge_tables as (Hres & Hwin & Hp & Hc). destruct (bk_filed _ Hbooks).
  split; [|rewrite Hres; by apply keyed_insert| |by rewrite Hp|by rewrite Hc].
  - unfold t', charge_spec. destruct tenant as [tn|]; [|done]. by apply keyed_insert.
  - rewrite Hwin. unfold accrue_windows. repeat case_match; try done. by apply on_windows_keyed.
Qed.

Lemma charge_tenant_books : tenant_books t'.
Proof.
  unfold payer in Hpay. destruct (reservationUsesBalance r).
  - destruct Hpay as (tn & Heq & Htn). unfold t'. rewrite Heq.
    eapply tenant_books_posted; [apply Hbooks| |done|done].
    by rewrite (filed_tenants _ (bk_filed _ Hbooks) _ _ Htn).
  - unfold t'. rewrite Hpay. destruct (bk_tenants _ Hbooks). by split.
Qed.

Lemma charge_request_books : request_books t'.
Proof.
  destruct charge_tables as (Hres & _).
  destruct accrued_same as (Hid & Hten & Hq & Ha & Hb & _ & Hact).
  assert (Hat : charged_at t (r_RequestID r) = charged r) by (unfold charged_at; by rewrite Hr).
  assert (Hch : ∀ amount, (reservationUsesBalance r = true → amount = wrap64 (- cost)) →
    (reservationUsesBalance r = false → amount = 0) →
    wrap64 (amount - charged r) = wrap64 (- charged r')).
  { unfold charged. replace (reservationUsesBalance r') with (reservationUsesBalance r)
      by (unfold reservationUsesBalance; by rewrite Hq).
    rewrite Hactive, Ha, Hb, Hact. intros amount H1 H2.
    destruct (reservationUsesBalance r); [rewrite H1 by done|by rewrite H2].
    destruct (r_ActualNanoUSD r); cbn; wrap_ring. }
  unfold payer in Hpay. destruct (reservationUsesBalance r) eqn:Hu.
  - destruct Hpay as (tn & Heq & Htn).
    assert (Htid : t_ID tn = r_TenantID r) by exact (filed_tenants _ (bk_filed _ Hbooks) _ _ Htn).
    eapply (request_books_step t t' r' (Some _)); [apply Hbooks| |done| | |].
    + unfold t', charge_spec. rewrite Heq. reflexivity.
    + intros e [= <-]. cbn. by rewrite Hid, Hten, Htid.
    + rewrite Hid, Hr, Hten. by intros ? [= <-].
    + cbn. rewrite Hid, Hat. by apply Hch.
  - apply (request_books_step t t' r' None); [apply Hbooks| |done|done| |].
    + unfold t'. rewrite Hpay. cbn. by rewrite app_nil_r.
    + rewrite Hid, Hr, Hten. by intros ? [= <-].
    + cbn [from_option]. rewrite Hid, Hat. by apply Hch.
Qed.

Lemma charge_quota_books : quota_books t'.
Proof.
  destruct charge_tables as (Hres & _). pose proof (bk_quota _ Hbooks) as Hq.
  destruct accrued_same as (Hid & _ & Hamount & _ & _ & Hheld & _).
  assert (Hholds : ∀ c k z, holds t' c k z = holds t c k z).
  { intros c k z. unfold holds. rewrite Hres, Hid, (sum_map_replace _ _ _ _ _ Hr), Hheld. lia. }
  split.
  - destruct Hok as [H1 H2]. split; setoid_rewrite Hholds; done.
  - rewrite Hres, Hid. intros id x. rewrite lookup_insert_Some. intros [[<- <-]|[_ Hx]].
    + rewrite Hamount. by apply (qb_amounts _ Hq (r_RequestID r)).
    + by apply (qb_amounts _ Hq id).
Qed.

Lemma books_charge : books t'.
Proof.
  split; [apply charge_filed|apply charge_tenant_books|apply charge_request_books
         |apply charge_quota_books].
Qed.
End charge_books.

(** ** Every operation keeps the books *)

Section operations.
Context (x : mode) (E : env) `{TimeZone} `{NameUUID}.

Lemma books_finishReservation id actual complete status t :
  status ≠ ReservationActive → books t →
  wp x E (finishReservation id actual complete status) t (λ _ t', books t').
Proof.
  intros Hs Hb. apply transaction_preserves; [done|]. apply success_finish; [apply Hb|done|].
  intros r tn entryID now Hr Ha Htn.
  pose proof (filed_reservations _ (bk_filed _ Hb) _ _ Hr) as Hid. cbn in Hid. subst id.
  by apply books_finish.
Qed.

Lemma books_SettleRequestReservation id actual complete t :
  books t → wp x E (SettleRequestReservation id actual complete) t (λ _ t', books t').
Proof.
  intros Hb. apply wp_bind, wp_guard; [|done]. intros _. by apply books_finishReservation.
Qed.

Lemma books_ReleaseRequestReservation id t :
  books t → wp x E (ReleaseRequestReservation id) t (λ _ t', books t').
Proof. intros Hb. by apply books_finishReservation. Qed.

Lemma books_reclaim_one r t :
  books t → wp x E (reclaim_one r) t (λ _ t', books t').
Proof.
  intros Hb. apply wp_bind, wp_attempt. eapply wp_mono; [by apply books_finishReservation|].
  intros [u|e] t' Hb'; [by apply wp_ret|]. cbn.
  destruct e; by (apply wp_ret || apply wp_fail).
Qed.

Lemma books_ReclaimExpiredReservations now t :
  books t → wp x E (ReclaimExpiredReservations now) t (λ _ t', books t').
Proof.
  intros Hb. apply wp_bind, wp_find; [|done]. intros l _. apply wp_bind.
  eapply wp_mono; [apply (wp_for_each x E reclaim_one l (λ _ _ t', books t') (λ _ t', books t'))|].
  - done.
  - intros y l' done' t' Hb'. eapply wp_mono; [by apply books_reclaim_one|]. by intros [z|e] t''.
  - intros [zs|e] t' Hb'; [by apply wp_ret|done].
Qed.

Lemma books_SettleRequestWithLog id l t :
  books t → wp x E (SettleRequestWithLog id l) t (λ _ t', books t').
Proof.
  intros Hb. apply transaction_preserves; [done|]. step_success.
  apply success_map_error, success_first. intros r Hr. cbn in Hr.
  destruct (is_active r) eqn:Ha; cbn [negb]; [|by step_success].
  pose proof (filed_reservations _ (bk_filed _ Hb) _ _ Hr) as Hid. cbn in Hid. subst id.
  step_success. eapply (success_mono _ _ _ (λ _ t', books t')).
  { apply success_finish; [apply Hb|done|]. intros r0 tn entryID now Hr0 Ha0 Htn.
    assert (r0 = r) as -> by congruence. apply books_finish; try done. }
  intros ? t1 Hb1. step_success. step_success.
  eapply success_mono; [apply success_write_log|]. intros ? t2 Hs. eapply books_same_money; [exact Hs|exact Hb1].
Qed.

Definition wt_key (row : WebSocketTurn) : string * string := (wt_RequestID row, wt_TurnID row).

(** The three outcomes of a turn: refused or known already, free, charged. *)
Lemma wp_AccrueWebSocketTurn input t (Q : result bool → tables → Prop) :
  books t → (∀ r, r ≠ Ok true → Q r t) → (ws_CostNanoUSD input = 0 → Q (Ok true) t) →
  (∀ r tenant entryID row t3, let t1 := tb_set turns (<[wt_key row := row]> (tb_turns t)) t in
     let t2 := charge_spec r tenant (ws_CostNanoUSD input) (ws_PricingComplete input) entryID t1 in
     confirmed (ws_CostNanoUSD input) (ws_PricingComplete input) = true → ws_CostNanoUSD input ≠ 0 →
     tb_reservations t !! ws_RequestID input = Some r → r_RequestID r = ws_RequestID input → is_active r = true →
     wt_key row = (ws_RequestID input, trim_space (ws_TurnID input)) →
     wt_CostNanoUSD row = ws_CostNanoUSD input ∧ wt_Model row = trim_space (ws_Model input) ∧
       wt_Usage row = ws_Usage input →
     tb_turns t !! wt_key row = None → books t1 → payer r t1 tenant →
     windows_ok (tb_child_windows t2) (holds t1) → same_money t2 t3 → same_turns t2 t3 → Q (Ok true) t3) →
  wp x E (AccrueWebSocketTurn input) t Q.
Proof.
  intros Hb Hno Hfree Hcharge. apply wp_bind, wp_guard; [|by intros _; apply Hno]. intros Hconf.
  apply wp_bind, wp_guard; [|by intros _; apply Hno]. intros _.
  destruct (Z.eqb_spec (ws_CostNanoUSD input) 0) as [Hz|Hcost]; [by apply wp_ret, Hfree|].
  eapply wp_mono; [apply (success_transaction _ _ _ _ (λ b t', Q (Ok b) t'))|intros [b|e] t'; [done|]; by intros ->; apply Hno].
  step_success. apply success_map_error, success_first. intros r Hr. cbn in Hr.
  pose proof (filed_reservations _ (bk_filed _ Hb) _ _ Hr) as Hid. cbn in Hid.
  step_success. step_success. step_success.
  eapply (success_mono _ _ _ (λ _ t', t' = t)); [by case_match; step_success|].
  intros completedAt t0 ->. cbv zeta. step_success. step_success. step_success. step_success. step_success.
  apply success_create_do_nothing; [|intros _; cbn; step_success; by apply Hno].
  intros Hnone _. cbn [negb]. step_success. set (row := turn_row _ _ _ _) in *. set (t1 := tb_set turns _ t).
  assert (Hb1 : books t1) by (apply (books_same_money t); [by split|done]).
  apply (success_charge_turn E input r t1 (holds t1));
    [apply Hb1|apply Hb1|done|by rewrite Hid|].
  intros tenant entryID Hpay t2 Hok. step_success. step_success. step_success.
  match goal with |- success _ (writeLogTx ?l _) _ _ => set (final := l) end.
  eapply success_mono; [exact (success_and _ _ _ _ _ (success_write_log E final false t2)
    (success_preserves E (same_turns t2) _ _ (preserves_turns_log E InTx t2 final) eq_refl))|].
  intros ? t3 [Hs Ht]. step_success. by apply (Hcharge r tenant entryID row t3).
Qed.

Lemma books_AccrueWebSocketTurn input t :
  books t → wp x E (AccrueWebSocketTurn input) t (λ _ t', books t').
Proof.
  intros Hb. apply wp_AccrueWebSocketTurn; try done.
  intros r tenant entryID row t3 t1 t2 _ _ Hr Hid Ha _ _ _ Hb1 Hpay Hok Hs _.
  eapply books_same_money; [exact Hs|]. apply books_charge; try done. by rewrite Hid.
Qed.

Lemma books_Credit id amount note t :
  books t → wp x E (Credit id amount note) t (λ _ t', books t').
Proof.
  intros Hb. apply transaction_preserves; [done|]. step_success. step_success.
  intros tn Htn. cbn in Htn. pose proof (filed_tenants _ (bk_filed _ Hb) _ _ Htn) as Hid. cbn in Hid.
  subst id. apply success_post_ledger; [done|done|]. intros entryID. destruct Hb as [Hf Ht Hr Hq].
  split.
  - destruct Hf. split; try done. by apply keyed_insert.
  - by eapply tenant_books_posted.
  - by eapply request_books_credit.
  - destruct Hq. by split.
Qed.
End operations.

(** ** Admission *)

(** The row that an admission leaves in a window. *)
Record claimed_window (quota : Z) (child : ChildSubscription) (pw : ParentQuotaWindow)
    (before : option ChildQuotaWindow) (w : ChildQuotaWindow) : Prop := {
  cw_key : window_key w = (c_ID child, pw_Kind pw);
  cw_generation : w_ResetsAt w = pw_ResetsAt pw;
  cw_limit : w_LimitNanoUSD w = fraction (pw_LimitNanoUSD pw) (c_AllocationPPM child);
  cw_positive : 0 < w_LimitNanoUSD w;
  cw_usage :
    match before with
    | Some old => w_ResetsAt old ≤ w_ResetsAt w ∧
        if bool_decide (w_ResetsAt old = w_ResetsAt w)
        then w_SettledNanoUSD w = w_SettledNanoUSD old ∧
             w_ReservedNanoUSD w = w_ReservedNanoUSD old + quota
        else w_SettledNanoUSD w = 0 ∧ w_ReservedNanoUSD w = quota
    | None => w_SettledNanoUSD w = 0 ∧ w_ReservedNanoUSD w = quota
    end;
  cw_within : wrap64 (w_SettledNanoUSD w + w_ReservedNanoUSD w) ≤ w_LimitNanoUSD w
}.

Section reserve.
Context (E : env).

(** Adding to a non-negative 64-bit amount overflows exactly when it turns negative. *)
Lemma add64_checked a b : 0 ≤ a ≤ max_int64 → 0 ≤ b ≤ max_int64 → 0 ≤ a +₆₄ b → a +₆₄ b = a + b.
Proof.
  intros Ha Hb Hc. destruct (decide (a + b ≤ max_int64)); [apply wrap64_id; int64_lia|].
  assert (a +₆₄ b = a + b - 2 ^ 64); [|int64_lia]. unfold add64.
  rewrite (wrap64_eq (a + b) (a + b - 2 ^ 64) 1) by lia. apply wrap64_id. int64_lia.
Qed.

(** The row of a generation that has just begun. *)
Lemma fresh_claim quota child pw before w limit :
  limit = fraction (pw_LimitNanoUSD pw) (c_AllocationPPM child) → 0 < limit →
  window_key w = (c_ID child, pw_Kind pw) → w_ResetsAt w = pw_ResetsAt pw →
  w_LimitNanoUSD w = limit → w_SettledNanoUSD w = 0 → w_ReservedNanoUSD w = 0 +₆₄ quota →
  0 < quota ≤ max_int64 → 0 +₆₄ 0 +₆₄ quota ≤ limit →
  (∀ old, before = Some old → w_ResetsAt old < pw_ResetsAt pw) →
  claimed_window quota child pw before w ∧ window_row_ok w.
Proof.
  intros Hl Hpos Hkey Hz Hlim Hs Hr Hq Hw Hold.
  assert (Hz0 : 0 +₆₄ 0 = 0) by reflexivity. rewrite Hz0 in Hw.
  assert (Hquota : 0 +₆₄ quota = quota) by (apply wrap64_id; int64_lia).
  rewrite Hquota in *. pose proof (fraction_range (pw_LimitNanoUSD pw) (c_AllocationPPM child)).
  split.
  - split; try congruence.
    + destruct before as [old|]; [|done]. specialize (Hold _ eq_refl).
      rewrite Hz, bool_decide_eq_false_2 by lia. lia.
    + rewrite Hs, Hr, Hlim, wrap64_id by int64_lia. lia.
  - apply window_row_ok_iff. lia.
Qed.

Lemma success_reserve_window quota child pw t (P : quotaWindowReservation → tables → Prop) :
  0 < quota ≤ max_int64 → keyed window_key (tb_child_windows t) →
  (∀ k w, tb_child_windows t !! k = Some w → window_row_ok w) →
  (∀ w, claimed_window quota child pw (tb_child_windows t !! (c_ID child, pw_Kind pw)) w ∧
     window_row_ok w →
     P {| qr_Kind := pw_Kind pw; qr_ResetsAt := pw_ResetsAt pw |}
       (t <| tb_child_windows := <[(c_ID child, pw_Kind pw) := w]> (tb_child_windows t) |>)) →
  success E (reserve_window quota child pw) t P.
Proof.
  intros Hq Hk Hrows HP. unfold reserve_window. cbv zeta.
  set (limit := fraction (pw_LimitNanoUSD pw) (c_AllocationPPM child)) in *.
  set (key := (c_ID child, pw_Kind pw)) in *.
  assert (Hlim : 0 ≤ limit ≤ max_int64) by apply fraction_range.
  assert (Hmax : 0 ≤ max_int64) by int64_lia.
  repeat step_success.
  - intros old Hold. cbn in Hold. cbn [is_not_found orb]. step_success. step_success. step_success.
    pose proof (Hrows _ _ Hold) as (Hcheck & _ & Hs & Hr). unfold child_window_check in Hcheck.
    reflect_bools. case_bool_decide as Hgen.
    + repeat step_success. apply success_upsert. cbn. rewrite Hold. intros Hc1. repeat step_success.
      apply success_update; cbn; rewrite lookup_insert_eq; [|done].
      intros w' [= <-] _. rewrite insert_insert_eq. step_success.
      apply HP, (fresh_claim _ _ _ _ _ limit); try done; [exact (Hk _ _ Hold)|].
      rewrite Hold. intros ? [= <-]. lia.
    + repeat step_success. apply success_update; cbn; [|congruence].
      intros w' Hw' Hc. rewrite Hold in Hw'. injection Hw' as <-. step_success. apply HP.
      unfold child_window_check in Hc. cbn in Hc. reflect_bools.
      pose proof (add64_checked (w_ReservedNanoUSD old) quota ltac:(lia) ltac:(lia) ltac:(lia)) as Hadd.
      split; [split; cbn|].
      * exact (Hk _ _ Hold).
      * done.
      * done.
      * lia.
      * rewrite Hold, bool_decide_eq_true_2 by done. lia.
      * unfold add64 in *. rewrite Hadd. autorewrite with wrap in *. rewrite <- Z.add_assoc in *. lia.
      * apply window_row_ok_iff. cbn. rewrite Hadd in *.
        pose proof (wrap64_in_range (w_ReservedNanoUSD old + quota)) as [_ Hup].
        change (wrap64 (w_ReservedNanoUSD old + quota)) with (w_ReservedNanoUSD old +₆₄ quota) in Hup.
        lia.
  - intros Hnone. cbn in Hnone. cbn [is_not_found orb].
    repeat step_success. apply success_upsert. cbn. rewrite Hnone. intros Hc1. repeat step_success.
    apply success_update; cbn; rewrite lookup_insert_eq; [|done].
    intros w' [= <-] _. rewrite insert_insert_eq. step_success.
    apply HP, (fresh_claim _ _ _ _ _ limit); try done. by rewrite Hnone.
Qed.
End reserve.

(** What the windows claimed so far in this admission add to the holds. *)
Definition pending (child : ChildSubscription) (quota : Z) (l : list quotaWindowReservation)
    (c k : string) (z : Z) : Z :=
  if bool_decide (c = c_ID child) then quota * Z.of_nat (claim_count k z l) else 0.

Lemma claimed_window_ok (quota : Z) (child : ChildSubscription) (pw : ParentQuotaWindow)
    (m : window_map) H (w : ChildQuotaWindow) :
  windows_ok m H →
  claimed_window quota child pw (m !! (c_ID child, pw_Kind pw)) w → window_row_ok w →
  windows_ok (<[(c_ID child, pw_Kind pw) := w]> m) (λ c k z, H c k z +
    if bool_decide (c = c_ID child ∧ k = pw_Kind pw ∧ z = pw_ResetsAt pw) then quota else 0).
Proof.
  intros Hok [Hkey Hgen _ _ Huse _] Hrow. rewrite <- Hgen. apply windows_claim; try done.
  - intros old Hold. rewrite Hold in Huse. lia.
  - destruct (m !! (c_ID child, pw_Kind pw)) as [old|] eqn:Hold.
    + destruct Huse as [Hle Huse]. case_bool_decide as Heq.
      * destruct (proj1 Hok _ _ _ Hold) as [_ Hres]. rewrite <- Heq. lia.
      * rewrite (windows_fresh m H); [lia|done|]. rewrite Hold. intros ? [= <-]. lia.
    + rewrite (windows_fresh m H); [lia|done|]. by rewrite Hold.
Qed.

(** What admission decides about the reservation. *)
Record admitted (input : AdmissionInput) (r : RequestReservation) : Prop := {
  am_id : r_RequestID r = ai_RequestID input;
  am_tenant : r_TenantID r = k_TenantID (kc_APIKey (ai_Key input));
  am_active : is_active r = true;
  am_unspent : r_ActualNanoUSD r = None;
  am_funding :
    (r_QuotaReservedNanoUSD r = 0 ∧ r_QuotaWindows r = [] ∧
     r_BalanceReservedNanoUSD r = ai_BalanceReserve input) ∨
    (r_QuotaReservedNanoUSD r = ai_QuotaReserve input ∧ 0 < ai_QuotaReserve input ∧
     r_QuotaWindows r ≠ [] ∧ is_Some (r_ChildSubscriptionID r) ∧ r_BalanceReservedNanoUSD r = 0)
}.

Section reserving.
Context (E : env).

Lemma success_reserve_windows quota child pws t (P : list quotaWindowReservation → tables → Prop) :
  0 < quota ≤ max_int64 → keyed window_key (tb_child_windows t) → quota_books t →
  (∀ l m, keyed window_key m → length l = length pws →
     windows_ok m (λ c k z, holds t c k z + pending child quota l c k z) →
     P l (t <| tb_child_windows := m |>)) →
  success E (for_each (reserve_window quota child) pws) t P.
Proof.
  intros Hq Hk Hb HP.
  eapply success_mono; [apply (success_for_each E (reserve_window quota child) pws
    (λ rest l t', ∃ m, t' = t <| tb_child_windows := m |> ∧ keyed window_key m ∧
       (length l + length rest = length pws)%nat ∧
       windows_ok m (λ c k z, holds t c k z + pending child quota l c k z)))|].
  - exists (tb_child_windows t). split_and!; [by destruct t|done|done|].
    eapply windows_ok_ext; [apply Hb|]. intros c k z. unfold pending.
    rewrite claim_count_nil. case_bool_decide; lia.
  - intros pw rest l t' (m & -> & Hm & Hlen & Hok).
    apply success_reserve_window; [done|done| |].
    { cbn. intros [c k] w Hw. by apply (proj1 Hok c k). }
    cbn. intros w [Hclaim Hrow]. eexists. split_and!; [reflexivity| | |].
    + apply keyed_insert; [done|]. by destruct Hclaim.
    + rewrite length_app. cbn in *. lia.
    + eapply windows_ok_ext; [apply (claimed_window_ok quota child pw _ _ _ Hok Hclaim Hrow)|].
      intros c k z. unfold pending. rewrite claim_count_app, claim_count_cons. cbn.
      rewrite claim_count_nil.
      destruct (decide (c = c_ID child)) as [->|]; [|rewrite !bool_decide_eq_false_2 by naive_solver; lia].
      rewrite (bool_decide_eq_true_2 (c_ID child = c_ID child)) by done.
      destruct (decide (pw_Kind pw = k ∧ pw_ResetsAt pw = z)) as [[-> ->]|];
        [rewrite !bool_decide_eq_true_2 by done; lia|].
      rewrite !bool_decide_eq_false_2 by naive_solver. lia.
  - intros l t' (m & -> & Hm & Hlen & Hok). apply HP; [done| |done]. cbn in Hlen. lia.
Qed.

Lemma success_active_windows parent ws t :
  success E (active_windows parent ws) t (λ _ t', t' = t).
Proof.
  unfold active_windows. step_success. eapply success_mono.
  - apply (success_for_each E _ ws (λ _ _ t', t' = t)); [done|].
    intros pw rest l t' ->. step_success. step_success. by step_success.
  - cbn. intros kept t' ->. by step_success.
Qed.

(** The subscription half: one child pays, or the balance in learning mode. *)
Lemma success_reserve_subscription input candidate t
    (P : RequestReservation → tables → Prop) :
  in_int64 (ai_QuotaReserve input) → keyed window_key (tb_child_windows t) → quota_books t →
  (∀ r m, admitted input r → keyed window_key m →
     windows_ok m (λ c k z, holds t c k z + held_by c k z r) →
     P r (t <| tb_child_windows := m |>)) →
  success E (reserve_subscription input candidate (base_reservation input)) t P.
Proof.
  intros Hi Hk Hb HP. unfold reserve_subscription. step_success.
  apply success_map_error, success_first_where. intros child Hchild _. step_success.
  apply success_map_error, success_first_where. intros parent Hparent _. cbv zeta.
  assert (Hfree : ∀ r, r_QuotaWindows r = [] → admitted input r → P r t).
  { intros r Hr Ha. specialize (HP r (tb_child_windows t) Ha Hk).
    replace (t <| tb_child_windows := tb_child_windows t |>) with t in HP by by destruct t.
    apply HP. eapply windows_ok_ext; [apply Hb|]. intros c k z. unfold held_by. rewrite Hr.
    rewrite claim_count_nil. case_match; lia. }
  case_decide; [step_success; apply Hfree; [done|]; split; try done; by left|].
  unfold reserve_quota. step_success. step_success. step_success. step_success. intros pws _.
  step_success. eapply success_mono; [apply success_active_windows|]. intros pws' t' ->.
  step_success. case_bool_decide as Hlen.
  - step_success. step_success. step_success. cbv zeta. step_success.
    destruct pws'; [|done]. cbn [for_each]. step_success. cbn. step_success.
    apply Hfree; [done|]. split; try done. by left.
  - step_success. cbv zeta. step_success. apply success_reserve_windows; [int64_lia|done|done|].
    intros l m Hm Hl Hok. step_success. rewrite bool_decide_eq_true_2 by lia.
    apply HP; [|done|].
    + split; try done. right. cbn. split_and!; [done|lia| |by eexists|done].
      intros ->. cbn in Hl. lia.
    + eapply windows_ok_ext; [exact Hok|]. intros c k z. unfold pending, held_by. cbn.
      rewrite !(bool_decide_ext (Some (c_ID child) = Some c) (c = c_ID child)) by naive_solver.
      done.
Qed.
End reserving.

(** The subscription of a candidate, as the transaction finds it, carries the request. *)
Definition paid_through (t : tables) (candidate : SubscriptionCandidate) (r : RequestReservation) : Prop :=
  r_ChildSubscriptionID r = Some (c_ID (sc_Child candidate)) ∧
  ∃ child parent, tb_children t !! c_ID (sc_Child candidate) = Some child ∧
    c_Enabled child = true ∧ tb_parents t !! c_ParentSubscriptionID child = Some parent ∧
    r_ParentSubscriptionID r = Some (ps_ID parent) ∧
    ps_Enabled parent = true ∧ ps_UpstreamUnavailable parent = false.

Lemma success_reserve_child E input candidate t :
  filed t →
  success E (reserve_subscription input candidate (base_reservation input)) t
    (λ r _, paid_through t candidate r).
Proof.
  intros Hf. unfold reserve_subscription. step_success.
  apply success_map_error, success_first_where. intros child Hchild He. cbn in Hchild.
  pose proof (filed_children _ Hf _ _ Hchild) as Hid. cbn in Hid. step_success.
  apply success_map_error, success_first_where. intros parent Hparent Hp. cbn in Hparent.
  reflect_bools. cbv zeta.
  assert (Hgoal : ∀ r : RequestReservation, r_ChildSubscriptionID r = Some (c_ID child) →
    r_ParentSubscriptionID r = Some (ps_ID parent) →
    paid_through t candidate r).
  { intros r Hc Hpr. unfold paid_through. rewrite Hc, Hid. split; [done|]. by exists child, parent. }
  case_decide; [step_success; by apply Hgoal|].
  unfold reserve_quota. step_success. step_success. step_success. step_success. intros pws _.
  step_success. eapply success_mono; [apply success_true|]. intros pws' t1 _. step_success.
  eapply (success_mono _ _ _ (λ r _, r_ChildSubscriptionID r = Some (c_ID child) ∧
            r_ParentSubscriptionID r = Some (ps_ID parent))).
  { case_bool_decide; [|by step_success]. step_success. step_success. by step_success. }
  intros r t2 [Hc Hpr]. step_success. eapply success_mono; [apply success_true|].
  intros l t3 _. cbv zeta. step_success. apply Hgoal; by case_match.
Qed.

(** The tables after an admission with reservation [r]. *)
Definition admit_spec (r : RequestReservation) (tn : Tenant) (entryID : string)
    (m : window_map) (t : tables) : tables :=
  let t := if 0 <? r_BalanceReservedNanoUSD r then
             posted tn (entry_for tn (Some (r_RequestID r)) LedgerReservation
                          (wrap64 (- r_BalanceReservedNanoUSD r)) "request reserve" entryID) t
           else t in
  t <| tb_child_windows := m;
       tb_reservations := <[r_RequestID r := r]> (tb_reservations t) |>.

Section admit_books.
Context (t : tables) (input : AdmissionInput) (r : RequestReservation) (tn : Tenant).
Context (entryID : string) (m : window_map) (Hbooks : books t) (Hadm : admitted input r).
Context (Hbalance : 0 ≤ ai_BalanceReserve input) (Hquota : in_int64 (ai_QuotaReserve input)).
Context (Htn : tb_tenants t !! r_TenantID r = Some tn).
Context (Hfresh : tb_reservations t !! r_RequestID r = None).
Context (Hkeyed : keyed window_key m).
Context (Hok : windows_ok m (λ c k z, holds t c k z + held_by c k z r)).

Let t' := admit_spec r tn entryID m t.

Lemma admit_tables :
  tb_reservations t' = <[r_RequestID r := r]> (tb_reservations t) ∧ tb_child_windows t' = m ∧
  tb_parents t' = tb_parents t ∧ tb_children t' = tb_children t.
Proof. unfold t', admit_spec. by destruct (0 <? _). Qed.

Let Htid : t_ID tn = r_TenantID r.
Proof. exact (filed_tenants _ (bk_filed _ Hbooks) _ _ Htn). Qed.

Lemma admit_filed : filed t'.
Proof.
  destruct admit_tables as (Hres & Hwin & Hp & Hc). destruct (bk_filed _ Hbooks).
  split; [|rewrite Hres; by apply keyed_insert|by rewrite Hwin|by rewrite Hp|by rewrite Hc].
  unfold t', admit_spec. destruct (0 <? _); [by apply keyed_insert|done].
Qed.

Lemma admit_charged : charged r = r_BalanceReservedNanoUSD r.
Proof.
  destruct Hadm. unfold charged, reservationUsesBalance. rewrite am_active0, am_unspent0. cbn.
  destruct am_funding0 as [(-> & _ & _)|(-> & ? & _ & _ & ->)]; [cbn; lia|].
  by case_match; reflect_bools.
Qed.

Lemma admit_tenant_books : tenant_books t'.
Proof.
  unfold t', admit_spec. destruct (0 <? _).
  - eapply tenant_books_posted; [apply Hbooks|by rewrite Htid|done|done].
  - destruct (bk_tenants _ Hbooks). by split.
Qed.

Lemma admit_request_books : request_books t'.
Proof.
  destruct admit_tables as (Hres & _). pose proof admit_charged as Hch.
  assert (Hat : charged_at t (r_RequestID r) = 0) by (unfold charged_at; by rewrite Hfresh).
  assert (0 ≤ r_BalanceReservedNanoUSD r).
  { destruct Hadm. destruct am_funding0 as [(_ & _ & ->)|(_ & _ & _ & _ & ->)]; lia. }
  unfold t', admit_spec. destruct (Z.ltb_spec 0 (r_BalanceReservedNanoUSD r)).
  - eapply (request_books_step t _ r (Some _)); [apply Hbooks|done|done| | |].
    + intros e [= <-]. cbn. by rewrite Htid.
    + rewrite Hfresh. done.
    + cbn. rewrite Hat, Hch. wrap_ring.
  - apply (request_books_step t _ r None); [apply Hbooks| |done|done| |].
    + cbn. by rewrite app_nil_r.
    + by rewrite Hfresh.
    + cbn [from_option]. rewrite Hat, Hch. wrap_ring.
Qed.

Lemma admit_quota_books : quota_books t'.
Proof.
  destruct admit_tables as (Hres & Hwin & _). pose proof (bk_quota _ Hbooks) as Hq.
  split.
  - rewrite Hwin. eapply windows_ok_ext; [exact Hok|]. intros c k z. unfold holds.
    rewrite Hres, sum_map_insert by done. lia.
  - rewrite Hres. intros id x. rewrite lookup_insert_Some. intros [[<- <-]|[_ Hx]].
    + destruct Hadm. destruct am_funding0 as [(-> & _)|(-> & ? & _)]; int64_lia.
    + by apply (qb_amounts _ Hq id).
Qed.

Lemma books_admit : books t'.
Proof.
  split; [apply admit_filed|apply admit_tenant_books|apply admit_request_books
         |apply admit_quota_books].
Qed.
End admit_books.

Section admission.
Context (x : mode) (E : env).

Definition input_ok (input : AdmissionInput) : Prop :=
  0 ≤ ai_BalanceReserve input ∧ in_int64 (ai_QuotaReserve input).

(** [reserveCandidate] either finds the request already admitted or admits it. *)
Lemma success_reserveCandidate input candidate t (P : Admission → tables → Prop) :
  in_int64 (ai_QuotaReserve input) → books t →
  (∀ r, tb_reservations t !! ai_RequestID input = Some r → P (admissionFromReservation r) t) →
  (∀ r tn entryID m, admitted input r → keyed window_key m →
     windows_ok m (λ c k z, holds t c k z + held_by c k z r) →
     tb_tenants t !! r_TenantID r = Some tn → tb_reservations t !! r_RequestID r = None →
     t_Enabled tn = true → r_BalanceReservedNanoUSD r ≤ t_BalanceNanoUSD tn →
     match candidate with
     | None => r_ChildSubscriptionID r = None ∧ m = tb_child_windows t
     | Some candidate => paid_through t candidate r
     end →
     P (admissionFromReservation r) (admit_spec r tn entryID m t)) →
  wp x E (reserveCandidate input candidate) t
    (λ r t', match r with Ok a => P a t' | Err _ => t' = t end).
Proof.
  intros Hi Hb H1 H2. apply success_transaction. step_success. step_success.
  { intros r Hr. step_success. by apply H1. }
  intros Hnone. cbn in Hnone. rewrite bool_decide_eq_true_2 by done. cbn [negb].
  step_success. step_success. intros tn Htn. cbn in Htn.
  step_success. step_success. cbv zeta. step_success.
  pose proof (filed_tenants _ (bk_filed _ Hb) _ _ Htn) as Htid. cbn in Htid.
  eapply (success_mono _ _ _ (λ r t', ∃ m, t' = t <| tb_child_windows := m |> ∧ admitted input r ∧
    keyed window_key m ∧ windows_ok m (λ c k z, holds t c k z + held_by c k z r) ∧
    match candidate with
    | None => r_ChildSubscriptionID r = None ∧ m = tb_child_windows t
    | Some candidate => paid_through t candidate r
    end)).
  { destruct candidate as [candidate|].
    - pose proof (success_reserve_child E input candidate t (bk_filed _ Hb)) as Hp.
      assert (Hm : success E (reserve_subscription input candidate (base_reservation input)) t
        (λ r t', ∃ m, t' = t <| tb_child_windows := m |> ∧ admitted input r ∧ keyed window_key m ∧
           windows_ok m (λ c k z, holds t c k z + held_by c k z r))).
      { apply success_reserve_subscription; [done|apply Hb|apply Hb|].
        intros r m Ha Hm Hok. by exists m. }
      eapply success_mono; [exact (success_and E _ t _ _ Hp Hm)|].
      intros r t' [Hpaid (m & ? & ? & ? & ?)]. exists m. by split_and!.
    - step_success. exists (tb_child_windows t). split_and!; [by destruct t| |apply Hb| |done|done].
      + split; try done. by left.
      + eapply windows_ok_ext; [apply Hb|]. intros c k z. unfold held_by. cbn.
        rewrite claim_count_nil. case_match; lia. }
  intros r t' (m & -> & Ha & Hm & Hok & Hnc). destruct Ha as [Hid Hten Hact Hun Hfund] eqn:HA.
  clear HA. step_success. step_success. step_success.
  eapply (success_mono _ _ _ (λ _ t1, ∃ entryID, t1 =
    (if 0 <? r_BalanceReservedNanoUSD r then
       posted tn (entry_for tn (Some (r_RequestID r)) LedgerReservation
                    (wrap64 (- r_BalanceReservedNanoUSD r)) "request reserve" entryID) t
     else t) <| tb_child_windows := m |>)).
  { destruct (0 <? _); [|step_success; by exists ""].
    apply success_post_ledger; [by rewrite Htid| |].
    - unfold sub64, add64. by autorewrite with wrap.
    - intros entryID. exists entryID. by rewrite Hid. }
  intros ? t1 [entryID ->]. step_success. step_success. intros Hfresh _. step_success.
  assert (Hr0 : tb_reservations t !! r_RequestID r = None).
  { cbn in Hfresh. revert Hfresh. by destruct (0 <? _). }
  specialize (H2 r tn entryID m Ha Hm Hok). rewrite Hten in H2. specialize (H2 Htn Hr0).
  unfold admit_spec in H2. cbn in H2 |- *. destruct (0 <? r_BalanceReservedNanoUSD r); by apply H2.
Qed.
End admission.

Section admission_books.
Context (x : mode) (E : env).

Lemma books_reserveCandidate input candidate t :
  input_ok input → books t →
  wp x E (reserveCandidate input candidate) t (λ _ t', books t').
Proof.
  intros [Hbal Hq] Hb.
  eapply wp_mono; [apply (success_reserveCandidate x E input candidate t (λ _ t', books t'))|].
  - done.
  - done.
  - done.
  - intros r tn entryID m Ha Hm Hok Htn Hnone _ _ _. by eapply books_admit.
  - intros [a|e] t'; [done|]. by intros ->.
Qed.

Lemma books_try_candidates input candidates : ∀ u p e t,
  input_ok input → books t →
  wp x E (try_candidates input candidates u p e) t (λ _ t', books t').
Proof.
  induction candidates as [|candidate candidates IH]; intros u p e t Hi Hb; cbn [try_candidates];
    [by apply wp_fail|].
  case_match; [by apply IH|]. apply wp_bind, wp_attempt.
  eapply wp_mono; [by apply books_reserveCandidate|]. intros [a|err] t' Hb'; [by apply wp_ret|].
  destruct err; try (by apply wp_fail); by apply IH.
Qed.

Lemma books_AdmitRequest input t :
  input_ok input → books t → wp x E (AdmitRequest input) t (λ _ t', books t').
Proof.
  intros Hi Hb. apply wp_bind, wp_now. intros now. apply wp_bind.
  eapply wp_mono; [apply SubscriptionCandidates_wp, Hb|]. intros [[[l a] u]|e] t' [-> _]; [|done].
  repeat case_match; by (apply wp_fail || apply books_reserveCandidate || apply books_try_candidates).
Qed.

Lemma books_UpdateReservationPriceSnapshot id snapshot t :
  books t → wp x E (UpdateReservationPriceSnapshot id snapshot) t (λ _ t', books t').
Proof.
  intros Hb. apply wp_bind. apply wp_update_where; cbn; try done.
  - intros r Hr _ _. apply wp_ret. destruct Hb as [Hf Ht Hrb Hq].
    pose proof (filed_reservations _ Hf _ _ Hr) as Hid. cbn in Hid. subst id.
    set (r' := r <| r_PriceSnapshot := json_object_or snapshot |>). split.
    + destruct Hf. split; try done. by apply keyed_insert.
    + destruct Ht. by split.
    + apply (request_books_step t _ r' None); [done| |done|done| |].
      * cbn. by rewrite app_nil_r.
      * cbn. rewrite Hr. by intros ? [= <-].
      * cbn. unfold charged_at. by rewrite Hr.
    + destruct Hq as [Hw Ha]. split.
      * eapply windows_ok_ext; [exact Hw|]. intros c k z. unfold holds. cbn.
        rewrite (sum_map_replace _ _ _ _ _ Hr). change (held_by c k z r') with (held_by c k z r). lia.
      * cbn. intros id q. rewrite lookup_insert_Some. intros [[<- <-]|[_ Hx]]; [by apply (Ha (r_RequestID r) r)|by apply (Ha id q)].
  - intros _. by apply wp_fail.
Qed.
End admission_books.
