(* ===== verification/SubscriptionBooks.v ===== *)
(** * Managing subscriptions keeps the books

    The operations on parents, children and quota windows preserve the
    invariants of [Books]: they move no money, and whatever they do to the
    windows of a child respects the claims of the pending reservations. *)

From S2P Require Import Prelude.
From S2P Require Import Float64.
From S2P Require Import Database.
From S2P Require Import Schema.
From S2P Require Import QuotaMath.
From S2P Require Import QuotaWindows.
From S2P Require Import ModelAccess.
From S2P Require Import RequestLogs.
From S2P Require Import Reservation.
From S2P Require Import Settlement.
From S2P Require Import Subscriptions.
From S2P Require Import Books.

(** Only the parents and the children may change. *)
Lemma books_subscriptions t t' :
  books t → tb_ledger t' = tb_ledger t → tb_tenants t' = tb_tenants t →
  tb_reservations t' = tb_reservations t → tb_child_windows t' = tb_child_windows t →
  keyed ps_ID (tb_parents t') → keyed c_ID (tb_children t') → books t'.
Proof.
  intros [Hf Ht Hr Hq] Hl Hten Hres Hw Hp Hc. destruct Hf. split.
  - split; [by rewrite Hten|by rewrite Hres|by rewrite Hw|done|done].
  - destruct Ht. split; rewrite ?Hl, ?Hten; done.
  - destruct Hr. split; unfold charged_at in *; rewrite ?Hl, ?Hres; done.
  - destruct Hq. split; unfold holds in *; by rewrite ?Hw, ?Hres.
Qed.

(** A window table that still agrees with the claims. *)
Lemma books_windows t m :
  books t → keyed window_key m → windows_ok m (holds t) →
  books (t <| tb_child_windows := m |>).
Proof.
  intros [[] [] [] []] Hk Hok. split; [by split|by split|by split|by split].
Qed.

Section sync.
Context (E : env).

Lemma sync_child_ok kind limit z started child t H :
  keyed window_key (tb_child_windows t) → windows_ok (tb_child_windows t) H →
  success E (sync_child kind limit z started child) t (λ _ t', ∃ m,
    t' = t <| tb_child_windows := m |> ∧ keyed window_key m ∧ windows_ok m H).
Proof.
  intros Hk Hok. unfold sync_child. cbv zeta.
  pose proof (fraction_range limit (c_AllocationPPM child)) as Hlim.
  assert (Hmax : 0 ≤ max_int64) by int64_lia. step_success. step_success.
  - intros w Hw. cbn in Hw. pose proof (Hk _ _ Hw) as Hkey. unfold window_key in Hkey.
    destruct (proj1 Hok _ _ _ Hw) as [Hrow Hres]. apply window_row_ok_iff in Hrow.
    destruct (Z.eqb_spec (w_ResetsAt w) z) as [Hz|Hz]; [|destruct (Z.ltb_spec (w_ResetsAt w) z)].
    + step_success. rewrite Hkey. apply success_update; cbn; [|congruence].
      intros w' Hw' Hc. assert (w' = w) as -> by congruence. step_success.
      eexists. split_and!; [done|by apply keyed_insert|]. apply windows_replace; [done| | |done].
      * apply window_row_ok_iff. unfold child_window_check in Hc. cbn in Hc |- *.
        reflect_bools. lia.
      * rewrite Hw. cbn. intros ? [= <-]. lia.
    + step_success. rewrite Hkey. apply success_update; cbn; [|congruence].
      intros w' Hw' Hc. assert (w' = w) as -> by congruence. step_success.
      eexists. split_and!; [done|by apply keyed_insert|]. apply windows_replace; [done| | |].
      * apply window_row_ok_iff. unfold child_window_check in Hc. cbn in Hc |- *.
        reflect_bools. lia.
      * rewrite Hw. cbn. intros ? [= <-]. lia.
      * cbn. symmetry. apply (windows_fresh _ _ _ _ _ Hok). rewrite Hw. by intros ? [= <-].
    + step_success. exists (tb_child_windows t). split_and!; [by destruct t|done|done].
  - intros Hn. cbn in Hn. step_success. intros _ Hc. cbn in Hc |- *. eexists.
    split_and!; [done|by apply keyed_insert|]. apply windows_replace; [done| | |].
    + apply window_row_ok_iff. unfold child_window_check in Hc. cbn in Hc |- *.
      reflect_bools. lia.
    + rewrite Hn. done.
    + cbn. symmetry. apply (windows_fresh _ _ _ _ _ Hok). by rewrite Hn.
Qed.

Lemma books_sync parentID kind limit z started t :
  books t →
  success E (syncChildQuotaWindowGeneration parentID kind limit z started) t (λ _ t', ∃ m,
    t' = t <| tb_child_windows := m |> ∧ books t').
Proof.
  intros Hb. unfold syncChildQuotaWindowGeneration. step_success. step_success. intros rows _.
  step_success. eapply success_mono.
  - apply (success_for_each E _ rows (λ _ _ t', ∃ m, t' = t <| tb_child_windows := m |> ∧
      keyed window_key m ∧ windows_ok m (holds t))).
    + exists (tb_child_windows t). split_and!; [by destruct t|apply Hb|apply Hb].
    + intros child rest l t' (m & -> & Hk & Hok). eapply success_mono.
      * by apply sync_child_ok.
      * cbn. intros _ t'' (m' & -> & Hk' & Hok'). eauto.
  - cbn. intros _ t' (m & -> & Hk & Hok). step_success. eexists. split; [done|].
    by apply books_windows.
Qed.
End sync.

(** Steps on tables that the books do not mention. *)
Ltac books_frame Hb :=
  apply (books_subscriptions _ _ Hb); try done; try apply Hb.

Section windows.
Context (x : mode) (E : env) `{FloatToInt}.

Lemma books_find_only {A} (m : DB A) t (P : A → tables → Prop) :
  success E m t (λ _ t', t' = t) → (∀ a, P a t) → success E m t P.
Proof. intros Hm HP. eapply success_mono; [exact Hm|]. intros a t' ->. apply HP. Qed.

Lemma success_first_ordered {K V : Type} `{Countable K} (tb : table tables K V) cond le
    `{∀ v w, Decision (le v w)} t (P : V → tables → Prop) :
  (∀ v, P v t) → success E (first_ordered tb cond le) t P.
Proof.
  intros HP. unfold first_ordered, find_ordered. repeat step_success. intros l _. step_success.
  destruct (merge_sort le l); [by step_success|]. by step_success.
Qed.

Lemma success_attempt_first_ordered {K V : Type} `{Countable K} (tb : table tables K V) cond le
    `{∀ v w, Decision (le v w)} t (P : result V → tables → Prop) :
  (∀ r, P r t) → success E (attempt (first_ordered tb cond le)) t P.
Proof.
  intros HP. apply wp_attempt. unfold first_ordered, find_ordered. apply wp_bind, wp_bind.
  apply wp_find; [|done]. intros l _. apply wp_ret.
  destruct (merge_sort le l); [by apply wp_fail|by apply wp_ret].
Qed.

Lemma success_estimate parentID kind z t :
  success E (quotaGenerationEstimate parentID kind z) t (λ _ t', t' = t).
Proof.
  unfold quotaGenerationEstimate, find_ordered. repeat step_success. intros l _.
  step_success. by step_success.
Qed.

Lemma success_learned parentID kind t :
  success E (learnedQuotaWindow parentID kind) t (λ _ t', t' = t).
Proof.
  unfold learnedQuotaWindow. step_success. apply success_attempt_first_ordered.
  intros [o|e]; [|destruct e; by step_success]. step_success. step_success.
  case_match; [by step_success|]. step_success. apply (books_find_only _ _ _ (success_estimate _ _ _ _)).
  intros limit. by step_success.
Qed.

Lemma books_set_window parentID w t :
  books t → success E (set_window parentID w) t (λ _ t', books t').
Proof.
  intros Hb. unfold set_window. step_success. step_success. cbv zeta. step_success. step_success.
  step_success. eapply (success_mono _ _ _ (λ _ t', t' = t)).
  { step_success; by intros. }
  intros existing t' ->. step_success. eapply (success_mono _ _ _ (λ _ t', t' = t)).
  { destruct existing as [old|e]; [|destruct e; by step_success].
    cbv zeta. destruct (within_jitter _); [by step_success|]. destruct (_ <? 0); by step_success. }
  intros resets t' ->. step_success. apply success_upsert. intros ? _. cbv zeta.
  step_success. step_success. step_success.
  eapply success_mono; [apply books_sync|].
  - books_frame Hb.
  - intros ? t' (m & _ & Hb'). by step_success.
Qed.

Lemma books_reveal_window parentID kinds w t :
  books t → success E (reveal_window parentID kinds w) t (λ _ t', books t').
Proof.
  intros Hb. unfold reveal_window. case_match; [by step_success|]. step_success.
  apply (books_find_only _ _ _ (success_learned _ _ _)). intros [[limit o]|]; [|by step_success].
  step_success. step_success. intros _ _. eapply success_mono; [apply books_sync; books_frame Hb|].
  by intros ? t' (m & _ & Hb').
Qed.

Lemma books_for_each {A B} (f : A → DB B) l t :
  (∀ a t', books t' → success E (f a) t' (λ _ t'', books t'')) →
  books t → success E (for_each f l) t (λ _ t', books t').
Proof.
  intros Hf Hb. by apply (success_for_each E f l (λ _ _ t', books t')); [|intros; apply Hf].
Qed.

Lemma books_SetParentQuotaWindows parentID windows t :
  books t → wp x E (SetParentQuotaWindows parentID windows) t (λ _ t', books t').
Proof.
  intros Hb. apply transaction_preserves; [done|]. step_success.
  apply success_map_error, success_first. intros parent _. cbv zeta. step_success. step_success.
  intros manual _. step_success.
  eapply success_mono; [apply books_for_each; [intros; by apply books_set_window|done]|].
  intros kinds t1 Hb1. step_success. apply success_delete_where. intros n. step_success.
  eapply success_mono;
    [apply books_for_each; [intros; by apply books_reveal_window|books_frame Hb1]|].
  intros ? t2 Hb2. by step_success.
Qed.

Lemma success_judge parent used z observedAt previous o t :
  success E (judge parent used z observedAt previous o) t (λ _ t', t' = t).
Proof.
  unfold judge. destruct previous as [p|e]; [|destruct e; by step_success].
  destruct (negb (po_ObservedAt p <? observedAt)); [by step_success|].
  destruct (unchanged_sample used z p); [by step_success|].
  destruct (negb (po_ResetsAt p =? z)); [by step_success|].
  destruct (f64_lt used (po_UsedPercent p)); [by step_success|].
  step_success. unfold calibrate. step_success.
  eapply (success_mono _ _ _ (λ _ t', t' = t)).
  { unfold quotaCalibrationBaseline. step_success. apply success_attempt_first_ordered.
    intros [b|e]; [by step_success|]. destruct e; by step_success. }
  intros baseline t' ->. cbv zeta. case_match; [step_success; by step_success|]. step_success.
  unfold usage_totals. step_success. step_success. intros logs _. cbv zeta. step_success.
  step_success. step_success. step_success. by step_success.
Qed.

Lemma books_RecordParentQuotaObservation parentID kind used z observedAt t :
  books t →
  wp x E (RecordParentQuotaObservation parentID kind used z observedAt) t (λ _ t', books t').
Proof.
  intros Hb. apply wp_bind, wp_new_id. intros id. apply wp_bind, wp_now. intros now. cbv zeta.
  apply wp_bind, wp_guard; [|done]. intros _. apply transaction_preserves; [done|]. step_success.
  apply success_map_error, success_first. intros parent _. step_success.
  eapply (success_mono _ _ _ (λ _ t', t' = t)); [step_success; by intros|].
  intros current t' ->. step_success. eapply (success_mono _ _ _ (λ _ t', t' = t)).
  { unfold of_result. destruct (snap_to_window current z); by step_success. }
  intros z' t' ->. step_success. apply success_attempt_first_ordered. intros previous. cbv zeta.
  step_success. apply (books_find_only _ _ _ (success_judge _ _ _ _ _ _ _)).
  intros [o unchanged]. step_success. eapply (success_mono _ _ _ (λ _ t', books t')).
  { destruct unchanged; [by step_success|]. unfold store_sample. step_success. step_success.
    intros _ _. destruct previous as [p|e]; [|step_success; books_frame Hb].
    case_match; [|step_success; books_frame Hb]. step_success.
    apply success_create_do_nothing; intros; step_success; books_frame Hb. }
  intros ? t1 Hb1. step_success. eapply (success_mono _ _ _ (λ _ t', t' = t1)).
  { unfold next_limit. destruct current as [w|e]; repeat case_match; try (by step_success);
      step_success; apply (books_find_only _ _ _ (success_estimate _ _ _ _)); intros; by step_success. }
  intros [limit source] t' ->. step_success. eapply (success_mono _ _ _ (λ _ t', books t')).
  { case_match; [|by step_success]. step_success. apply success_upsert. intros ? _. cbv zeta.
    eapply success_mono; [apply books_sync; books_frame Hb1|]. by intros ? t' (m & _ & Hb'). }
  intros ? t2 Hb2. by step_success.
Qed.
End windows.

(** ** Parents and children *)

Lemma keyed_fmap {K V : Type} `{Countable K} (id : V → K) (f : V → V) (m : gmap K V) :
  (∀ v, id (f v) = id v) → keyed id m → keyed id (f <$> m).
Proof.
  intros Hf Hm k v. rewrite lookup_fmap_Some. intros (v' & <- & Hv'). rewrite Hf. by apply (Hm k).
Qed.

Section management.
Context (x : mode) (E : env).

Lemma books_upsert_parent item merge t :
  (∀ old new, ps_ID (merge old new) = ps_ID old) → books t →
  wp x E (upsert_parent item merge) t (λ _ t', books t').
Proof.
  intros Hmerge Hb. apply wp_bind, wp_statement; [|done]. apply wp_bind, wp_gets.
  destruct (list_find _ _) as [[i old]|].
  - apply wp_bind, wp_guard; [intros _|done]. apply wp_bind, wp_guard; [intros _|done].
    apply wp_modify. books_frame Hb. apply keyed_insert; [apply Hb|by rewrite Hmerge].
  - apply wp_bind, wp_guard; [intros _|done]. apply wp_bind, wp_guard; [intros _|done].
    apply wp_modify. books_frame Hb. by apply keyed_insert; [apply Hb|].
Qed.

Lemma books_parent_by_credential credential t :
  books t → wp x E (parent_by_credential credential) t (λ _ t', books t').
Proof.
  intros Hb. apply wp_bind, wp_find; [|done]. intros [|p l] _; [by apply wp_fail|by apply wp_ret].
Qed.

Lemma wp_ensure_id id t (Q : result string → tables → Prop) :
  (∀ id', Q (Ok id') t) → wp x E (ensure_id id) t Q.
Proof. intros HQ. unfold ensure_id. case_match; [by apply wp_new_id|by apply wp_ret]. Qed.

Lemma books_UpsertParentSubscription item t :
  books t → wp x E (UpsertParentSubscription item) t (λ _ t', books t').
Proof.
  intros Hb. apply wp_bind, wp_ensure_id. intros id. cbv zeta. apply wp_bind.
  eapply wp_mono; [by apply books_upsert_parent|]. intros [u|e] t' Hb'; [|done].
  by apply books_parent_by_credential.
Qed.

Lemma books_SyncNativeParentSubscription item t :
  books t → wp x E (SyncNativeParentSubscription item) t (λ _ t', books t').
Proof.
  intros Hb. apply wp_bind, wp_ensure_id. intros id. cbv zeta.
  apply wp_bind, wp_guard; [intros _|done]. apply wp_bind.
  eapply wp_mono; [by apply books_upsert_parent|]. intros [u|e] t' Hb'; [|done].
  by apply books_parent_by_credential.
Qed.

(** Updates that keep the key. *)
Lemma books_update_parent k f t :
  (∀ p, ps_ID (f p) = ps_ID p) → books t → wp x E (update parents k f) t (λ _ t', books t').
Proof.
  intros Hf Hb. apply wp_update; try done. cbn. intros p Hp _. books_frame Hb.
  apply keyed_insert; [apply Hb|]. rewrite Hf. by apply (filed_parents _ (bk_filed _ Hb)).
Qed.

Lemma books_update_child k f t :
  (∀ c, c_ID (f c) = c_ID c) → books t → wp x E (update children k f) t (λ _ t', books t').
Proof.
  intros Hf Hb. apply wp_update; try done. cbn. intros c Hc _. books_frame Hb.
  apply keyed_insert; [apply Hb|]. rewrite Hf. by apply (filed_children _ (bk_filed _ Hb)).
Qed.

Lemma books_update_children cond f t :
  (∀ c, c_ID (f c) = c_ID c) → books t → wp x E (update_all children cond f) t (λ _ t', books t').
Proof.
  intros Hf Hb. apply wp_update_all; try done. cbn. intros _ n. books_frame Hb.
  apply keyed_fmap; [|apply Hb]. intros c. by case_match.
Qed.

Lemma books_update_parents cond f t :
  (∀ p, ps_ID (f p) = ps_ID p) → books t → wp x E (update_all parents cond f) t (λ _ t', books t').
Proof.
  intros Hf Hb. apply wp_update_all; try done. cbn. intros _ n. books_frame Hb.
  apply keyed_fmap; [|apply Hb]. intros c. by case_match.
Qed.

Lemma books_create_child_row c t :
  books t → wp x E (create children (c_ID c) c) t (λ _ t', books t').
Proof.
  intros Hb. apply wp_create; try done. intros _ _. books_frame Hb. by apply keyed_insert; [apply Hb|].
Qed.

(** A read. *)
Lemma books_first {K V : Type} `{Countable K} (tb : table tables K V) k t :
  books t → wp x E (first tb k) t (λ _ t', books t').
Proof. intros Hb. by apply wp_first. Qed.

(** Sequencing. *)
Lemma books_bind {A B} (m : DB A) (k : A → DB B) t :
  wp x E m t (λ _ t', books t') → (∀ a t', books t' → wp x E (k a) t' (λ _ t'', books t'')) →
  wp x E (m ≫= k) t (λ _ t', books t').
Proof.
  intros Hm Hk. apply wp_bind. eapply wp_mono; [exact Hm|]. intros [a|e] t' Hb; [by apply Hk|done].
Qed.

Lemma books_map_error {A} f (m : DB A) t :
  wp x E m t (λ _ t', books t') → wp x E (map_error f m) t (λ _ t', books t').
Proof. intros Hm. apply wp_map_error. eapply wp_mono; [exact Hm|]. by intros [a|e] t'. Qed.

Lemma books_guard b e t : books t → wp x E (guard_that b e) t (λ _ t', books t').
Proof. intros Hb. by apply wp_guard. Qed.

Lemma books_ret {A} (a : A) t : books t → wp x E (mret a) t (λ _ t', books t').
Proof. intros Hb. by apply wp_ret. Qed.

Lemma books_fail {A} e t : books t → wp x E (fail e : DB A) t (λ _ t', books t').
Proof. intros Hb. by apply wp_fail. Qed.

Lemma books_now t : books t → wp x E time_now t (λ _ t', books t').
Proof. intros Hb. by apply wp_now. Qed.

Lemma books_new_id t : books t → wp x E new_id t (λ _ t', books t').
Proof. intros Hb. by apply wp_new_id. Qed.

Lemma books_find {K V : Type} `{Countable K} (tb : table tables K V) cond t :
  books t → wp x E (find tb cond) t (λ _ t', books t').
Proof. intros Hb. by apply wp_find. Qed.

Lemma books_loop {A B} (f : A → DB B) l t :
  (∀ a t', books t' → wp x E (f a) t' (λ _ t'', books t'')) →
  books t → wp x E (for_each f l) t (λ _ t', books t').
Proof.
  intros Hf Hb. eapply wp_mono.
  - apply (wp_for_each x E f l (λ _ _ t', books t') (λ _ t', books t')); [done|].
    intros a l' bs t' Hb'. eapply wp_mono; [by apply Hf|]. by intros [b|e] t''.
  - by intros [bs|e] t'.
Qed.
End management.

(** A transaction keeps the books when its body does. *)
Lemma books_transaction x E {A} (body : DB A) t :
  books t → wp InTx E body t (λ _ t', books t') → wp x E (transaction body) t (λ _ t', books t').
Proof.
  intros Hb H. apply wp_transaction; [|done]. eapply wp_mono; [exact H|]. by intros [a|e] t'.
Qed.

Create HintDb books discriminated.
#[export] Hint Resolve books_bind books_map_error books_guard books_ret books_fail books_now
  books_new_id books_find books_first books_loop books_transaction books_create_child_row
  books_update_parent books_update_child books_update_children books_update_parents
  books_parent_by_credential books_upsert_parent : books.

(** [keep_books] walks through a program whose steps all have a lemma in [books]. *)
Ltac keep_books :=
  repeat first
    [ progress intros
    | progress cbv zeta
    | lazymatch goal with
      | |- wp _ _ (mbind _ _) _ _ => apply books_bind
      | |- wp _ _ (map_error _ _) _ _ => apply books_map_error
      | |- wp _ _ (transaction _) _ _ => apply books_transaction
      | |- wp _ _ (for_each _ _) _ _ => apply books_loop
      | |- wp _ _ (if ?b then _ else _) _ _ => destruct b
      | |- wp _ _ (match ?r with Ok _ => _ | Err _ => _ end) _ _ => destruct r as [?|[]]
      | |- wp _ _ (match ?o with Some _ => _ | None => _ end) _ _ => destruct o
      end
    | solve [eauto with books] ].

Section children.
Context (x : mode) (E : env).

Lemma books_UpdateParentSubscription item t :
  books t → wp x E (UpdateParentSubscription item) t (λ _ t', books t').
Proof.
  intros Hb. unfold UpdateParentSubscription, GetParentSubscription. keep_books.
  by apply wp_first_where.
Qed.

Lemma books_UpdateParentQuotaProbe id supported status message plan observed snapshot t :
  books t →
  wp x E (UpdateParentQuotaProbe id supported status message plan observed snapshot) t
    (λ _ t', books t').
Proof. intros Hb. unfold UpdateParentQuotaProbe. keep_books. Qed.

Lemma books_CreateChildSubscription x' item t :
  books t → wp x' E (CreateChildSubscription item) t (λ _ t', books t').
Proof.
  intros Hb. apply books_bind; [by apply wp_ensure_id|]. unfold create_child. keep_books.
Qed.

Lemma books_CreateSharedSubscriptionGrants template ids t :
  books t → wp x E (CreateSharedSubscriptionGrants template ids) t (λ _ t', books t').
Proof.
  intros Hb. unfold CreateSharedSubscriptionGrants. keep_books.
  by apply books_CreateChildSubscription.
Qed.

Lemma books_UpdateChildSubscription item t :
  books t → wp x E (UpdateChildSubscription item) t (λ _ t', books t').
Proof. intros Hb. unfold UpdateChildSubscription. keep_books. Qed.

Lemma books_GrantBalanceSubscriptionAccess id ids t :
  books t → wp x E (GrantBalanceSubscriptionAccess id ids) t (λ _ t', books t').
Proof.
  intros Hb. unfold GrantBalanceSubscriptionAccess. keep_books.
  - destruct p. by apply books_fail.
  - unfold grant_access. apply books_bind; [|intros r t1 Hb1; keep_books].
    apply wp_attempt. unfold first_ordered, find_ordered. keep_books.
    destruct a8; keep_books.
Qed.
End children.

(** ** Deletion *)

(** Rewriting the reservations without touching what the books read of them. *)
Lemma books_relink t (f : RequestReservation → RequestReservation) :
  (∀ r, r_RequestID (f r) = r_RequestID r ∧ r_TenantID (f r) = r_TenantID r ∧
        charged (f r) = charged r ∧ r_QuotaReservedNanoUSD (f r) = r_QuotaReservedNanoUSD r) →
  (∀ id r c k z, tb_reservations t !! id = Some r → held_by c k z (f r) = held_by c k z r) →
  books t → books (t <| tb_reservations := f <$> tb_reservations t |>).
Proof.
  intros Hf Hheld [Hfiled Ht Hr Hq]. split.
  - destruct Hfiled. split; try done. apply keyed_fmap; [|done]. intros r. apply Hf.
  - destruct Ht. by split.
  - destruct Hr as [Htotal Howner]. split.
    + intros id. unfold charged_at in *. cbn [tb_ledger tb_reservations]. rewrite Htotal. rewrite lookup_fmap.
      destruct (tb_reservations t !! id) as [r|]; [|done]. cbn. by destruct (Hf r) as (_ & _ & -> & _).
    + cbn. intros e id Hin Hid. destruct (Howner e id Hin Hid) as (r & Hr & Hten).
      exists (f r). rewrite lookup_fmap, Hr. split; [done|]. by destruct (Hf r) as (_ & -> & _).
  - destruct Hq as [Hw Ha]. split.
    + eapply windows_ok_ext; [exact Hw|]. intros c k z. unfold holds. cbn.
      rewrite sum_map_fmap. apply sum_map_ext. intros id r Hid. cbn. symmetry. by eapply Hheld.
    + cbn. intros id r. rewrite lookup_fmap_Some. intros (r0 & <- & Hr0).
      destruct (Hf r0) as (_ & _ & _ & ->). by apply (Ha id).
Qed.

(** Dropping the windows of children on which nothing is claimed. *)
Lemma books_drop_windows t (gone : string → bool) :
  (∀ id r c, tb_reservations t !! id = Some r → is_active r = true →
     r_ChildSubscriptionID r = Some c → gone c = false) →
  books t →
  books (t <| tb_child_windows := filter (λ kv, gone kv.1.1 = false) (tb_child_windows t) |>).
Proof.
  intros Hgone Hb. apply books_windows; [done|apply keyed_filter, Hb|].
  destruct (qb_windows _ (bk_quota _ Hb)) as [Hrow Hgen]. split.
  - intros c k w [Hw _]%map_lookup_filter_Some. by apply Hrow.
  - intros c k z Hne. destruct (Hgen c k z Hne) as (w & Hw & Hz). exists w. split; [|done].
    apply map_lookup_filter_Some. split; [done|]. cbn.
    apply sum_map_nonzero in Hne as (id & r & Hr & Hheld). unfold held_by in Hheld.
    destruct (is_active r) eqn:Ha; [|done]. cbn in Hheld. case_bool_decide; [|done].
    by eapply Hgone.
Qed.

Section deletion.
Context (E : env).

Lemma success_delete_children cond t (P : Z → tables → Prop) :
  books t →
  (∀ id r c child, tb_reservations t !! id = Some r → is_active r = true →
     r_ChildSubscriptionID r = Some c → tb_children t !! c = Some child → cond child = false) →
  (∀ n t', books t' → P n t') →
  success E (delete_children cond) t P.
Proof.
  intros Hb Hgone HP. unfold delete_children. step_success. step_success. cbv zeta.
  step_success. apply success_delete_where. intros n. step_success. step_success. step_success.
  apply HP. set (gone := λ id, match tb_children t !! id with Some c => cond c | None => false end).
  set (unlink := λ r, if match r_ChildSubscriptionID r with Some id => gone id | None => false end
                      then r <| r_ChildSubscriptionID := (None : option string) |> else r).
  assert (Hlive : ∀ id r c, tb_reservations t !! id = Some r → is_active r = true →
            r_ChildSubscriptionID r = Some c → gone c = false).
  { intros id r c Hr Ha Hc. unfold gone. destruct (tb_children t !! c) as [child|] eqn:Hch; [|done].
    by eapply Hgone. }
  apply (books_subscriptions
    (t <| tb_child_windows := filter (λ kv, gone kv.1.1 = false) (tb_child_windows t);
          tb_reservations := unlink <$> tb_reservations t |>)); try done.
  - apply (books_relink
      (t <| tb_child_windows := filter (λ kv, gone kv.1.1 = false) (tb_child_windows t) |>) unlink).
    + intros r. unfold unlink. by case_match.
    + cbn. intros id r c k z Hr. unfold unlink.
      destruct (r_ChildSubscriptionID r) as [c'|] eqn:Hc; [|done]. destruct (gone c') eqn:Hg; [|done].
      unfold held_by, is_active. cbn. destruct (bool_decide (r_Status r = _)) eqn:Ha; [|done].
      specialize (Hlive id r c' Hr Ha Hc). congruence.
    + by apply books_drop_windows.
  - apply Hb.
  - cbn. apply keyed_filter, Hb.
Qed.

Lemma books_DeleteChildSubscription x id t :
  books t → wp x E (DeleteChildSubscription id) t (λ _ t', books t').
Proof.
  intros Hb. apply transaction_preserves; [done|]. step_success. step_success.
  intros active Hactive. step_success. step_success. step_success.
  apply success_delete_children; [done| |].
  - intros rid r c child Hr Ha Hc Hchild. apply bool_decide_eq_false. intros Hid.
    assert (c = id) as -> by (rewrite <- Hid; symmetry; by apply (filed_children _ (bk_filed _ Hb))).
    assert (Hin : r ∈ active).
    { apply (elem_of_rows reservations _ t active r Hactive). split; [|by exists rid].
      rewrite Hc, Ha, bool_decide_eq_true_2; done. }
    apply length_zero_iff_nil in H as ->. by apply not_elem_of_nil in Hin.
  - intros n t' Hb'. by apply success_guard.
Qed.

(** The reservations of [P] that are still pending, by their identifiers. *)
Definition pending_in (P : RequestReservation → bool) (ids : list string) (t : tables) : Prop :=
  ∀ id r, tb_reservations t !! id = Some r → is_active r = true → P r = true → id ∈ ids.

Lemma success_release_all P l t :
  books t → pending_in P (r_RequestID <$> l) t →
  success E (for_each (λ r, finishReservationTx (r_RequestID r) 0 false ReservationReleased) l) t
    (λ _ t', books t' ∧ pending_in P [] t' ∧ tb_children t' = tb_children t ∧
             tb_parents t' = tb_parents t).
Proof.
  intros Hb Hp. eapply success_mono; [apply (success_for_each E _ l (λ rest _ t', books t' ∧
    pending_in P (r_RequestID <$> rest) t' ∧ tb_children t' = tb_children t ∧
    tb_parents t' = tb_parents t)); [done|]|by intros].
  intros r rest _ t1 (Hb1 & Hp1 & Hc1 & Hps1). apply success_finish; [apply Hb1| |].
  - intros r0 Hr0 Ha. split_and!; [done| |done|done]. intros id r' Hr' Ha' HP'.
    specialize (Hp1 id r' Hr' Ha' HP'). cbn in Hp1. apply elem_of_cons in Hp1 as [->|]; [|done].
    congruence.
  - intros r0 tn entryID now Hr0 Ha0 Htn.
    pose proof (filed_reservations _ (bk_filed _ Hb1) _ _ Hr0) as Hid. cbn in Hid.
    rewrite <- Hid in Hr0.
    destruct (finish_tables t1 r0 tn 0 false ReservationReleased entryID now)
      as (Hres & _ & Hps & Hc).
    split_and!; [by apply books_finish| |congruence|congruence].
    intros id r' Hr' Ha' HP'. rewrite Hres in Hr'. apply lookup_insert_Some in Hr' as [[<- <-]|[Hne Hr']].
    + done.
    + specialize (Hp1 id r' Hr' Ha' HP'). cbn in Hp1. apply elem_of_cons in Hp1 as [->|]; [|done].
      congruence.
Qed.

Lemma success_delete_parent id t :
  books t → success E (delete_parent id) t (λ _ t', books t').
Proof.
  intros Hb. unfold delete_parent. step_success. step_success. step_success. step_success.
  step_success. apply success_delete_where. intros n. step_success.
  set (unlink := λ r, if bool_decide (r_ParentSubscriptionID r = Some id)
                      then r <| r_ParentSubscriptionID := (None : option string) |> else r).
  apply (books_subscriptions (t <| tb_reservations := unlink <$> tb_reservations t |>)); try done.
  - apply books_relink; [|intros ? r c k z _|done].
    + intros r. unfold unlink. by case_match.
    + unfold unlink. by case_match.
  - cbn. apply keyed_filter, Hb.
  - apply Hb.
Qed.

Lemma success_remove_parent id t :
  books t → success E (remove_parent id) t (λ _ t', books t').
Proof.
  intros Hb. unfold remove_parent. step_success. step_success. cbv zeta. step_success. step_success.
  intros active Hactive. step_success.
  eapply success_mono; [apply (success_release_all (λ r,
    match r_ChildSubscriptionID r with
    | Some c => match tb_children t !! c with
                | Some child => bool_decide (c_ParentSubscriptionID child = id) | None => false end
    | None => false end)); [done|]|].
  - intros rid r Hr Ha HP. apply list_elem_of_fmap. exists r.
    split; [symmetry; by apply (filed_reservations _ (bk_filed _ Hb))|].
    apply (elem_of_rows reservations _ t active r Hactive). split; [|by exists rid].
    rewrite Ha, HP. by rewrite orb_true_r.
  - intros ? t1 (Hb1 & Hp1 & Hc1 & _). step_success. apply success_delete_children; [done| |].
    + intros rid r c child Hr Ha Hc Hchild. destruct (bool_decide _) eqn:Hid; [|done].
      specialize (Hp1 rid r Hr Ha). cbn in Hp1. rewrite Hc, <- Hc1, Hchild in Hp1.
      by apply Hp1, not_elem_of_nil in Hid.
    + intros n t2 Hb2. by apply success_delete_parent.
Qed.

Lemma books_MarkMissingParentSubscriptions x seen started t :
  books t → wp x E (MarkMissingParentSubscriptions seen started) t (λ _ t', books t').
Proof.
  intros Hb. apply transaction_preserves; [done|]. step_success. step_success. intros rows _.
  cbv zeta. case_match; [by step_success|]. step_success.
  eapply (success_mono _ _ _ (λ _ t', books t')).
  { eapply wp_mono; [by apply books_update_parents|]. by intros [n|e]. }
  intros ? t1 Hb1. step_success. eapply (success_mono _ _ _ (λ _ t', books t')).
  { eapply wp_mono; [by apply books_update_children|]. by intros [n|e]. }
  intros ? t2 Hb2. step_success.
  eapply success_mono; [apply books_for_each; [intros; by apply success_remove_parent|exact Hb2]|].
  intros ? t3 Hb3. by step_success.
Qed.
End deletion.
