(* ===== verification/Machine.v ===== *)
(** * The store as a machine

    Every operation of the store that admits, charges, settles, credits or logs
    a request, or writes quota windows or subscriptions, is one kind of step.
    The deletion of a tenant ([Accounts], [TenantRemoval]) and retention
    ([Retention]), which remove rows for good, are not steps.  The two operations that run several
    writing transactions, admission and reclaiming, also contribute each of
    these transactions as a step of its own, with whatever stale candidate or
    row it was started with, so that the sequences of steps include every
    interleaving of concurrent calls at the grain of transactions.  A state is
    reachable when some sequence of steps, in some worlds, leads to it from a
    store that has no history. *)

From S2P Require Import Prelude.
From S2P Require Import Float64.
From S2P Require Import Cost.
From S2P Require Import Database.
From S2P Require Import Schema.
From S2P Require Import QuotaMath.
From S2P Require Import QuotaWindows.
From S2P Require Import ModelAccess.
From S2P Require Import RequestLogs.
From S2P Require Import Reservation.
From S2P Require Import Settlement.
From S2P Require Import Subscriptions.
From S2P Require Import Books.
From S2P Require Import Accounting.
From S2P Require Import SubscriptionBooks.

Inductive operation :=
  | Admit (input : AdmissionInput)
  | ReserveFor (input : AdmissionInput) (candidate : option SubscriptionCandidate)
  | SnapshotPrice_ (requestID snapshot : string)
  | Settle (requestID : string) (actual : Z) (complete : bool)
  | SettleLog (requestID : string) (l : LogInput)
  | Accrue (input : WebSocketTurnAccrual)
  | Release (requestID : string)
  | Reclaim (now : Z)
  | ReclaimRow (row : RequestReservation)
  | CreditBalance (tenantID : string) (amount : Z) (note : string)
  | LogOnly (l : LogInput) (upserting : bool)
  | SetWindows (parentID : string) (windows : list ParentQuotaWindow)
  | Observe (parentID kind : string) (used : float64) (resetsAt observedAt : Z)
  | UpsertParent (item : ParentSubscription)
  | SyncParent (item : ParentSubscription)
  | UpdateParent (item : ParentSubscription)
  | Probe (parentID : string) (supported : bool) (status message plan : string)
      (observedAt : option Z) (snapshot : snapshot_document)
  | MarkMissing (seen : list string) (startedAt : Z)
  | CreateChild (item : ChildSubscription)
  | ShareChild (template : ChildSubscription) (tenantIDs : list string)
  | UpdateChild (item : ChildSubscription)
  | DeleteChild (id : string)
  | GrantAccess (parentID : string) (tenantIDs : list string).

(** The admission amounts come from the price estimate: never negative, and of type [int64]. *)
Definition operation_ok (op : operation) : Prop :=
  match op with Admit input | ReserveFor input _ => input_ok input | _ => True end.

#[export] Instance operation_ok_dec op : Decision (operation_ok op).
Proof. destruct op; cbn; unfold input_ok; apply _. Defined.

Section machine.
Context `{TimeZone} `{NameUUID} `{FloatToInt}.

Definition run (op : operation) : DB unit :=
  match op with
  | Admit input => AdmitRequest input;; mret ()
  | ReserveFor input candidate => reserveCandidate input candidate;; mret ()
  | SnapshotPrice_ id snapshot => UpdateReservationPriceSnapshot id snapshot
  | Settle id actual complete => SettleRequestReservation id actual complete
  | SettleLog id l => SettleRequestWithLog id l
  | Accrue input => AccrueWebSocketTurn input;; mret ()
  | Release id => ReleaseRequestReservation id
  | Reclaim now => ReclaimExpiredReservations now;; mret ()
  | ReclaimRow row => reclaim_one row;; mret ()
  | CreditBalance id amount note => Credit id amount note
  | LogOnly l upserting => writeLog l upserting
  | SetWindows id windows => SetParentQuotaWindows id windows
  | Observe id kind used resetsAt observedAt =>
      RecordParentQuotaObservation id kind used resetsAt observedAt;; mret ()
  | UpsertParent item => UpsertParentSubscription item;; mret ()
  | SyncParent item => SyncNativeParentSubscription item;; mret ()
  | UpdateParent item => UpdateParentSubscription item;; mret ()
  | Probe id supported status message plan observedAt snapshot =>
      UpdateParentQuotaProbe id supported status message plan observedAt snapshot
  | MarkMissing seen startedAt => MarkMissingParentSubscriptions seen startedAt
  | CreateChild item => CreateChildSubscription item;; mret ()
  | ShareChild template ids => CreateSharedSubscriptionGrants template ids;; mret ()
  | UpdateChild item => UpdateChildSubscription item;; mret ()
  | DeleteChild id => DeleteChildSubscription id
  | GrantAccess id ids => GrantBalanceSubscriptionAccess id ids;; mret ()
  end.

(** A store without history: tenants with empty balances, nothing pending, nothing used. *)
Record pristine (t : tables) : Prop := {
  pr_filed : filed t;
  pr_ledger : tb_ledger t = [];
  pr_reservations : tb_reservations t = ∅;
  pr_windows : tb_child_windows t = ∅;
  pr_balances : map_Forall (λ _ tn, t_BalanceNanoUSD tn = 0) (tb_tenants t)
}.

Inductive reachable : tables → Prop :=
  | reachable_pristine t : pristine t → reachable t
  | reachable_step t op E n r t' c :
      reachable t → operation_ok op → run op E t n = (r, t', c) → reachable t'.

Lemma books_pristine t : pristine t → books t.
Proof.
  intros [Hf Hl Hr Hw Hb]. split; [done|..].
  - split; rewrite Hl.
    + intros id tn Htn. by rewrite (Hb _ _ Htn).
    + intros before e after Heq. by destruct before.
  - split; unfold charged_at; rewrite Hl, Hr.
    + done.
    + intros e id Hin. by apply not_elem_of_nil in Hin.
  - split; [|by rewrite Hr]. unfold holds. rewrite Hw, Hr. split.
    + intros c k w. by rewrite lookup_empty.
    + intros c k z. by rewrite sum_map_empty.
Qed.

Lemma books_unit {A} x E (m : DB A) t :
  wp x E m t (λ _ t', books t') → wp x E (m;; mret ()) t (λ _ t', books t').
Proof. intros Hm. apply books_bind; [done|]. intros. by apply wp_ret. Qed.

Lemma books_writeLog x E l upserting t :
  books t → wp x E (writeLog l upserting) t (λ _ t', books t').
Proof.
  intros Hb. apply transaction_preserves; [done|].
  eapply success_mono; [apply success_write_log|]. intros ? t' Hs. eapply books_same_money; [exact Hs|exact Hb].
Qed.

Lemma books_run E op t : operation_ok op → books t → wp Direct E (run op) t (λ _ t', books t').
Proof.
  intros Hop Hb. destruct op; cbn [run]; try apply books_unit.
  - by apply books_AdmitRequest.
  - by apply books_reserveCandidate.
  - by apply books_UpdateReservationPriceSnapshot.
  - by apply books_SettleRequestReservation.
  - by apply books_SettleRequestWithLog.
  - by apply books_AccrueWebSocketTurn.
  - by apply books_ReleaseRequestReservation.
  - by apply books_ReclaimExpiredReservations.
  - by apply books_reclaim_one.
  - by apply books_Credit.
  - by apply books_writeLog.
  - by apply books_SetParentQuotaWindows.
  - by apply books_RecordParentQuotaObservation.
  - by apply books_UpsertParentSubscription.
  - by apply books_SyncNativeParentSubscription.
  - by apply books_UpdateParentSubscription.
  - by apply books_UpdateParentQuotaProbe.
  - by apply books_MarkMissingParentSubscriptions.
  - by apply books_CreateChildSubscription.
  - by apply books_CreateSharedSubscriptionGrants.
  - by apply books_UpdateChildSubscription.
  - by apply books_DeleteChildSubscription.
  - by apply books_GrantBalanceSubscriptionAccess.
Qed.

Lemma reachable_books t : reachable t → books t.
Proof.
  induction 1 as [t Ht|t op E n r t' c _ IH Hop Hrun]; [by apply books_pristine|].
  exact (wp_direct _ _ _ _ _ _ _ _ (books_run E op t Hop IH) Hrun).
Qed.

(** Running an operation reaches what it leaves behind. *)
Lemma reachable_run t op E n : reachable t → operation_ok op → reachable (run op E t n).1.2.
Proof.
  intros Ht Hop. destruct (run op E t n) as [[r t'] c] eqn:Hrun. by eapply reachable_step.
Qed.

(** A scenario: operations, each at its own point of the world's answers. *)
Fixpoint play (E : env) (ops : list (operation * nat)) (t : tables) : tables :=
  match ops with
  | [] => t
  | (op, n) :: ops => play E ops (run op E t n).1.2
  end.

Lemma reachable_play E ops : ∀ t,
  reachable t → Forall (λ on, operation_ok on.1) ops → reachable (play E ops t).
Proof.
  induction ops as [|[op n] ops IH]; intros t Ht Hops; [done|].
  inversion Hops as [|? ? Hop Hrest]; subst. apply IH; [|done]. by apply reachable_run.
Qed.
End machine.
