(* ===== verification/History.v ===== *)
(** * What no operation rewrites

    The ledger is append-only, and a reservation that has ended keeps its
    outcome: no later operation moves money for it again. *)

From S2P Require Import Prelude.
From S2P Require Import Float64.
From S2P Require Import Database.
From S2P Require Import Schema.
From S2P Require Import QuotaWindows.
From S2P Require Import ModelAccess.
From S2P Require Import RequestLogs.
From S2P Require Import Reservation.
From S2P Require Import Settlement.
From S2P Require Import Subscriptions.
From S2P Require Import Books.
From S2P Require Import Accounting.
From S2P Require Import SubscriptionBooks.
From S2P Require Import Machine.

(** A predicate that depends on the ledger, the reservations and the turns only. *)
Class Frame (I : tables → Prop) : Prop := {
  frame_tenants :: Ignores tenants I;
  frame_api_keys :: Ignores api_keys I;
  frame_parents :: Ignores parents I;
  frame_parent_windows :: Ignores parent_windows I;
  frame_observations :: Ignores observations I;
  frame_resets :: Ignores resets I;
  frame_children :: Ignores children I;
  frame_child_windows :: Ignores child_windows I;
  frame_request_logs :: Ignores request_logs I;
  frame_log_details :: Ignores log_details I
}.

Section frame.
Context (x : mode) (E : env) (I : tables → Prop) `{!Frame I}.
Context `{TimeZone} `{NameUUID} `{FloatToInt}.

Lemma preserves_daily tenantID keyID started previous next :
  preserves x E I (applyDailyTokenDelta tenantID keyID started previous next).
Proof. unfold applyDailyTokenDelta. preserve. Qed.

Lemma preserves_decorate {V} (tb : table tables string V) key f item :
  preserves x E I (decorate tb key f item).
Proof. unfold decorate. preserve. Qed.

#[local] Hint Resolve preserves_daily preserves_decorate : preserves.

Lemma preserves_writeLogTx l upserting : preserves x E I (writeLogTx l upserting).
Proof. unfold writeLogTx. preserve. Qed.

Lemma preserves_sync parentID kind limit z started :
  preserves x E I (syncChildQuotaWindowGeneration parentID kind limit z started).
Proof. unfold syncChildQuotaWindowGeneration, sync_child. preserve. Qed.

Lemma preserves_estimate parentID kind z : preserves x E I (quotaGenerationEstimate parentID kind z).
Proof. unfold quotaGenerationEstimate. preserve. Qed.

#[local] Hint Resolve preserves_sync preserves_estimate : preserves.

Lemma preserves_set_window parentID w : preserves x E I (set_window parentID w).
Proof. unfold set_window. preserve. Qed.

Lemma preserves_reveal_window parentID kinds w : preserves x E I (reveal_window parentID kinds w).
Proof. unfold reveal_window, learnedQuotaWindow. preserve. Qed.

Lemma preserves_judge parent used z observedAt previous o :
  preserves x E I (judge parent used z observedAt previous o).
Proof. unfold judge, calibrate, quotaCalibrationBaseline, usage_totals. preserve. Qed.

Lemma preserves_store_sample observedAt previous o :
  preserves x E I (store_sample observedAt previous o).
Proof. unfold store_sample. preserve. Qed.

Lemma preserves_next_limit current o z : preserves x E I (next_limit current o z).
Proof. unfold next_limit. preserve. Qed.

Lemma preserves_upsert_parent item merge : preserves x E I (upsert_parent item merge).
Proof. unfold upsert_parent. preserve. all: apply preserves_modify; intros; by apply (ignores (tb:=parents)). Qed.

Lemma preserves_ensure_id id : preserves x E I (ensure_id id).
Proof. unfold ensure_id. preserve. Qed.

#[local] Hint Resolve preserves_ensure_id : preserves.

Lemma preserves_CreateChildSubscription item : preserves x E I (CreateChildSubscription item).
Proof. unfold CreateChildSubscription, create_child. preserve. Qed.
End frame.

#[export] Hint Resolve preserves_daily preserves_decorate preserves_writeLogTx preserves_sync
  preserves_estimate preserves_set_window preserves_reveal_window preserves_judge
  preserves_store_sample preserves_next_limit preserves_upsert_parent preserves_ensure_id
  preserves_CreateChildSubscription : preserves.

(** The operations that move no money write neither the ledger nor the reservations. *)
Section quiet_operations.
Context (x : mode) (E : env) (I : tables → Prop) `{!Frame I}.
Context `{TimeZone} `{NameUUID} `{FloatToInt}.

Lemma preserves_writeLog l upserting : preserves x E I (writeLog l upserting).
Proof. unfold writeLog. preserve. Qed.

Lemma preserves_SetParentQuotaWindows id ws : preserves x E I (SetParentQuotaWindows id ws).
Proof. unfold SetParentQuotaWindows. preserve. Qed.

Lemma preserves_RecordParentQuotaObservation id kind used z at_ :
  preserves x E I (RecordParentQuotaObservation id kind used z at_).
Proof. unfold RecordParentQuotaObservation, of_result. preserve. Qed.

Lemma preserves_UpsertParentSubscription item : preserves x E I (UpsertParentSubscription item).
Proof. unfold UpsertParentSubscription, parent_by_credential. preserve. Qed.

Lemma preserves_SyncNativeParentSubscription item :
  preserves x E I (SyncNativeParentSubscription item).
Proof. unfold SyncNativeParentSubscription, parent_by_credential. preserve. Qed.

Lemma preserves_UpdateParentSubscription item : preserves x E I (UpdateParentSubscription item).
Proof. unfold UpdateParentSubscription, GetParentSubscription. preserve. Qed.

Lemma preserves_UpdateParentQuotaProbe id supported status message plan at_ snapshot :
  preserves x E I (UpdateParentQuotaProbe id supported status message plan at_ snapshot).
Proof. unfold UpdateParentQuotaProbe. preserve. Qed.

Lemma preserves_CreateSharedSubscriptionGrants template ids :
  preserves x E I (CreateSharedSubscriptionGrants template ids).
Proof. unfold CreateSharedSubscriptionGrants. preserve. Qed.

Lemma preserves_UpdateChildSubscription item : preserves x E I (UpdateChildSubscription item).
Proof. unfold UpdateChildSubscription. preserve. Qed.

Lemma preserves_GrantBalanceSubscriptionAccess id ids :
  preserves x E I (GrantBalanceSubscriptionAccess id ids).
Proof. unfold GrantBalanceSubscriptionAccess, grant_access. preserve. Qed.
End quiet_operations.

#[export] Hint Resolve preserves_writeLog preserves_SetParentQuotaWindows
  preserves_RecordParentQuotaObservation preserves_UpsertParentSubscription
  preserves_SyncNativeParentSubscription preserves_UpdateParentSubscription
  preserves_UpdateParentQuotaProbe
  preserves_CreateSharedSubscriptionGrants preserves_UpdateChildSubscription
  preserves_GrantBalanceSubscriptionAccess : preserves.

(** ** The ledger only grows *)

Definition grown (l : list BillingLedger) (t : tables) : Prop := l `prefix_of` tb_ledger t.

#[export] Instance grown_frame l : Frame (grown l).
Proof. by repeat split; intros ?. Qed.
#[export] Instance grown_turns l : Ignores turns (grown l).
Proof. by intros ?. Qed.
#[export] Instance grown_reservations l : Ignores reservations (grown l).
Proof. by intros ?. Qed.

Lemma preserves_create_ledger_grown x E l entry : preserves x E (grown l) (create_ledger entry).
Proof.
  intros t Ht. apply wp_create_ledger; [|done|done]. unfold grown in *. cbn. by apply prefix_app_r.
Qed.

#[export] Hint Resolve preserves_create_ledger_grown : preserves.

Section grows.
Context (x : mode) (E : env) (l : list BillingLedger).
Context `{TimeZone} `{NameUUID} `{FloatToInt}.

Lemma grown_post_ledger tn id kind amount note :
  preserves x E (grown l) (post_ledger tn id kind amount note).
Proof. unfold post_ledger. preserve. Qed.

#[local] Hint Resolve grown_post_ledger : preserves.

Lemma grown_finishReservationTx id actual complete status :
  preserves x E (grown l) (finishReservationTx id actual complete status).
Proof. unfold finishReservationTx, finish_window, window_of. preserve. Qed.

Lemma grown_delete_children cond : preserves x E (grown l) (delete_children cond).
Proof. unfold delete_children. preserve. by apply preserves_modify. Qed.

Lemma grown_delete_parent id : preserves x E (grown l) (delete_parent id).
Proof. unfold delete_parent. preserve. by apply preserves_modify. Qed.

Lemma grown_reserve_quota input child parent r :
  preserves x E (grown l) (reserve_quota input child parent r).
Proof. unfold reserve_quota, active_windows, reserve_window. preserve. Qed.

Lemma grown_charge_turn input r : preserves x E (grown l) (charge_turn input r).
Proof. unfold charge_turn, accrue_window, window_of. preserve. Qed.
End grows.

#[export] Hint Resolve grown_post_ledger grown_finishReservationTx grown_delete_children
  grown_delete_parent grown_reserve_quota grown_charge_turn : preserves.

Section grows_operations.
Context (x : mode) (E : env) (l : list BillingLedger).
Context `{TimeZone} `{NameUUID} `{FloatToInt}.

Lemma grown_reserveCandidate input candidate :
  preserves x E (grown l) (reserveCandidate input candidate).
Proof. unfold reserveCandidate, reserve_subscription. preserve. Qed.

#[local] Hint Resolve grown_reserveCandidate : preserves.

Lemma grown_try_candidates input cs : ∀ u p e,
  preserves x E (grown l) (try_candidates input cs u p e).
Proof. induction cs; intros; cbn [try_candidates]; preserve; auto. Qed.

#[local] Hint Resolve grown_try_candidates : preserves.

Lemma grown_AdmitRequest input : preserves x E (grown l) (AdmitRequest input).
Proof. unfold AdmitRequest, SubscriptionCandidates. preserve. Qed.

Lemma grown_run op : preserves x E (grown l) (run op).
Proof.
  destruct op; cbn [run]; preserve.
  - apply grown_AdmitRequest.
  - unfold UpdateReservationPriceSnapshot. preserve.
  - unfold SettleRequestReservation, finishReservation. preserve.
  - unfold SettleRequestWithLog. preserve.
  - unfold AccrueWebSocketTurn. preserve.
  - unfold ReleaseRequestReservation, finishReservation. preserve.
  - unfold ReclaimExpiredReservations, reclaim_one, finishReservation. preserve.
  - unfold reclaim_one, finishReservation. preserve.
  - unfold Credit. preserve.
  - unfold MarkMissingParentSubscriptions, remove_parent. preserve.
  - unfold DeleteChildSubscription. preserve.
Qed.
End grows_operations.

(** ** An ended reservation keeps its outcome *)

(** The columns that say who paid what; unlinking a deleted subscription leaves them alone. *)
Definition outcome (r : RequestReservation) :=
  (r_TenantID r, r_BalanceReservedNanoUSD r, r_QuotaReservedNanoUSD r, r_ActualNanoUSD r,
   r_PricingComplete r, r_Status r, r_SettledAt r).

Definition ended (t : tables) (id : string) :=
  r ← tb_reservations t !! id; if is_active r then None else Some (outcome r).

(** A relation between a store and a later one that holds for every step: reservations end, and
    one that is new or is charged has a name for which that is allowed. *)
Class Keeps (may : string → Prop) (R : tables → tables → Prop) : Prop := {
  keeps_refl :: Reflexive R;
  keeps_trans :: Transitive R;
  keeps_frame t :: Frame (R t);
  keeps_ledger t :: IgnoresLedger (R t);
  keeps_same t t' : tb_reservations t' = tb_reservations t → R t t';
  keeps_insert t t' id r' :
    tb_reservations t' = <[id := r']> (tb_reservations t) →
    (∀ r, tb_reservations t !! id = Some r → is_active r = true) →
    may id ∨ is_active r' = false ∨ (∃ r, tb_reservations t !! id = Some r ∧ r_ActualNanoUSD r' = r_ActualNanoUSD r) →
    R t t';
  keeps_relink t t' (f : RequestReservation → RequestReservation) :
    (∀ r, is_active (f r) = is_active r ∧ outcome (f r) = outcome r) →
    tb_reservations t' = f <$> tb_reservations t → R t t'
}.

(** The request that an operation admits or charges a turn to. *)
Definition works_on (op : operation) : option string :=
  match op with
  | Admit input | ReserveFor input _ => Some (ai_RequestID input)
  | Accrue input => Some (ws_RequestID input)
  | _ => None
  end.

(** An ended reservation keeps its outcome. *)
Definition kept (t t' : tables) : Prop := ∀ id v, ended t id = Some v → ended t' id = Some v.

#[export] Instance kept_keeps : Keeps (λ _, True) kept.
Proof.
  split.
  - by intros t id v.
  - intros t1 t2 t3 H1 H2 id v Hv. by apply H2, H1.
  - intros t. by repeat split; intros ?.
  - intros t. by intros ?.
  - intros t t' Heq id v. unfold ended. by rewrite Heq.
  - intros t t' id r' Hres Ha _ id' v. unfold ended. rewrite Hres. destruct (decide (id' = id)) as [->|Hne].
    + destruct (tb_reservations t !! id) as [r|]; [|done]. cbn. by rewrite (Ha r).
    + by rewrite lookup_insert_ne.
  - intros t t' f Hf Hres id v. unfold ended. rewrite Hres, lookup_fmap.
    destruct (tb_reservations t !! id) as [r|]; [|done]. cbn. by destruct (Hf r) as [-> ->].
Qed.

(** An active reservation was active before, with the same charge, unless its name is [id]'s only. *)
Definition untouched (id : string) (t t' : tables) : Prop :=
  ∀ r', tb_reservations t' !! id = Some r' → is_active r' = true →
    ∃ r, tb_reservations t !! id = Some r ∧ is_active r = true ∧ r_ActualNanoUSD r' = r_ActualNanoUSD r.

#[export] Instance untouched_keeps id : Keeps (λ id', id' ≠ id) (untouched id).
Proof.
  split.
  - intros t r' Hr' Ha. by exists r'.
  - intros t1 t2 t3 H1 H2 r3 Hr3 Ha3. destruct (H2 _ Hr3 Ha3) as (r2 & Hr2 & Ha2 & Heq).
    destruct (H1 _ Hr2 Ha2) as (r1 & ? & ? & ?). exists r1. split_and!; congruence.
  - intros t. by repeat split; intros ?.
  - intros t. by intros ?.
  - intros t t' Heq r' Hr' Ha. rewrite Heq in Hr'. by exists r'.
  - intros t t' id' r0 Hres Ha Hmay r' Hr' Ha'. rewrite Hres in Hr'. destruct (decide (id' = id)) as [->|Hne].
    + rewrite lookup_insert_eq in Hr'. injection Hr' as ->. destruct Hmay as [?|[?|(r & Hr & Heq)]]; [done|congruence|].
      exists r. auto.
    + rewrite lookup_insert_ne in Hr' by done. by exists r'.
  - intros t t' f Hf Hres r' Hr' Ha'. rewrite Hres, lookup_fmap in Hr'. destruct (tb_reservations t !! id) as [r|]; [|done].
    cbn in Hr'. injection Hr' as <-. destruct (Hf r) as [Hact Hout]. exists r. split; [done|]. split; [congruence|].
    unfold outcome in Hout. congruence.
Qed.

Section keeps_operations.
Context {may : string → Prop} {R : tables → tables → Prop} `{!Keeps may R}.
#[local] Instance frame_in_operations t : Frame (R t) := keeps_frame t.
#[local] Instance ledger_in_operations t : IgnoresLedger (R t) := keeps_ledger t.
Context (x : mode) (E : env).
Context `{TimeZone} `{NameUUID} `{FloatToInt}.

Lemma keeps_finish id actual complete status t :
  status ≠ ReservationActive → filed t → success E (finishReservationTx id actual complete status) t (λ _ t', R t t').
Proof.
  intros Hstatus Hf. apply success_finish; [done|done|]. intros r tn entryID now Hr Ha _.
  pose proof (filed_reservations _ Hf _ _ Hr) as Hid. cbn in Hid. subst id.
  destruct (finish_tables t r tn actual complete status entryID now) as [Hres _].
  eapply keeps_insert; [exact Hres|intros r' Hr'; congruence|]. right. left. by apply bool_decide_eq_false.
Qed.

Lemma keeps_finishReservation id actual complete status t :
  status ≠ ReservationActive → filed t → wp x E (finishReservation id actual complete status) t (λ _ t', R t t').
Proof. intros Hs Hf. apply transaction_preserves; [done|]. by apply keeps_finish. Qed.

Lemma keeps_SettleRequestWithLog id l t :
  books t → wp x E (SettleRequestWithLog id l) t (λ _ t', R t t').
Proof.
  intros Hb. apply transaction_preserves; [done|]. step_success.
  apply success_map_error, success_first. intros r _. destruct (is_active r); cbn [negb]; [|by step_success]. step_success.
  eapply success_mono; [apply keeps_finish; [done|apply Hb]|]. intros ? t1 Hk. step_success. step_success.
  eapply success_mono; [apply success_write_log|]. intros ? t2 Hs. etrans; [exact Hk|].
  by apply keeps_same, (sm_reservations _ _ Hs).
Qed.

Lemma keeps_AccrueWebSocketTurn input t :
  may (ws_RequestID input) → books t → wp x E (AccrueWebSocketTurn input) t (λ _ t', R t t').
Proof.
  intros Hmay Hb. apply wp_AccrueWebSocketTurn; try done.
  intros r tenant entryID row t3 t1 t2 _ _ Hr Hid Hact _ _ _ Hb1 Hpay Hok Hs _.
  destruct (charge_tables t1 r tenant _ _ entryID Hact Hpay Hok) as [Hres _].
  etrans; [|by apply keeps_same, (sm_reservations _ _ Hs)]. eapply keeps_insert; [exact Hres|..].
  - intros r'. destruct (accrued_same r (ws_CostNanoUSD input) (ws_PricingComplete input) Hact) as (-> & _).
    change (tb_reservations t1) with (tb_reservations t). rewrite Hid. congruence.
  - left. destruct (accrued_same r (ws_CostNanoUSD input) (ws_PricingComplete input) Hact) as (-> & _). by rewrite Hid.
Qed.

Lemma keeps_UpdateReservationPriceSnapshot id snapshot t :
  wp x E (UpdateReservationPriceSnapshot id snapshot) t (λ _ t', R t t').
Proof.
  apply wp_bind. apply wp_update_where; cbn; try done.
  - intros r Hr Ha _. apply wp_ret. eapply keeps_insert; [done| |right; right; by exists r]. intros r' Hr'.
    rewrite Hr in Hr'. by injection Hr' as <-.
  - intros _. by apply wp_fail.
Qed.

Lemma keeps_Credit id amount note t : wp x E (Credit id amount note) t (λ _ t', R t t').
Proof.
  assert (Hp : preserves x E (R t) (Credit id amount note))
    by (unfold Credit, post_ledger; preserve).
  by apply Hp.
Qed.
End keeps_operations.

(** A composite of transactions keeps what each one keeps, along with the books. *)
Definition settled_history (R : tables → tables → Prop) (t0 t : tables) : Prop := books t ∧ R t0 t.

Section keeps_loops.
Context {may : string → Prop} {R : tables → tables → Prop} `{!Keeps may R}.
#[local] Instance frame_in_loops t : Frame (R t) := keeps_frame t.
#[local] Instance ledger_in_loops t : IgnoresLedger (R t) := keeps_ledger t.
Context (x : mode) (E : env).

Lemma history_step {A} (m : DB A) t0 t :
  wp x E m t (λ _ t', books t') → wp x E m t (λ _ t', R t t') →
  settled_history R t0 t → wp x E m t (λ _ t', settled_history R t0 t').
Proof.
  intros Hb Hk [_ H0]. eapply wp_mono; [exact (wp_and x E m t _ _ Hb Hk)|]. intros r t' [Hb' Hk']. split; [done|].
  by etrans.
Qed.

Lemma keeps_reserveCandidate input candidate t :
  may (ai_RequestID input) → input_ok input → books t →
  wp x E (reserveCandidate input candidate) t (λ _ t', R t t').
Proof.
  intros Hmay [Hi0 Hi] Hb.
  eapply wp_mono; [apply (success_reserveCandidate x E input candidate t (λ _ t', R t t'))|].
  - done.
  - done.
  - by intros.
  - intros r tn entryID m Ha Hm Hok _ Hnone _ _ _.
    destruct (admit_tables t r tn entryID m) as [Hres _].
    eapply keeps_insert; [exact Hres|intros r'; by rewrite Hnone|]. left. by rewrite (am_id _ _ Ha).
  - intros [a|e] t'; [done|]. by intros ->.
Qed.

Lemma history_try_candidates input candidates : ∀ u p e t0 t,
  may (ai_RequestID input) → input_ok input → settled_history R t0 t →
  wp x E (try_candidates input candidates u p e) t (λ _ t', settled_history R t0 t').
Proof.
  induction candidates as [|candidate candidates IH]; intros u p e t0 t Hmay Hi Hb;
    cbn [try_candidates]; [by apply wp_fail|].
  case_match; [by apply IH|]. apply wp_bind, wp_attempt.
  eapply wp_mono.
  - apply history_step; [|by apply keeps_reserveCandidate; [| |apply Hb]|exact Hb].
    by apply books_reserveCandidate; [|apply Hb].
  - intros [a|err] t' Hb'; [by apply wp_ret|].
    destruct err; try (by apply wp_fail); by apply IH.
Qed.

Lemma history_AdmitRequest input t :
  may (ai_RequestID input) → input_ok input → books t → wp x E (AdmitRequest input) t (λ _ t', R t t').
Proof.
  intros Hmay Hi Hb. apply wp_bind, wp_now. intros now. apply wp_bind.
  eapply wp_mono; [apply SubscriptionCandidates_wp, Hb|]. intros [[[l a] u]|e] t' [-> _]; [|done].
  repeat case_match; try (by apply wp_fail); [by apply keeps_reserveCandidate|].
  eapply wp_mono; [by apply history_try_candidates|]. by intros r t' [].
Qed.

Lemma keeps_reclaim_one r t :
  filed t → wp x E (reclaim_one r) t (λ _ t', R t t').
Proof.
  intros Hf. apply wp_bind, wp_attempt. eapply wp_mono; [by apply keeps_finishReservation|].
  intros [u|e] t'' Hk; [by apply wp_ret|]. destruct e; by (apply wp_ret || apply wp_fail).
Qed.

Lemma history_Reclaim now t :
  books t → wp x E (ReclaimExpiredReservations now) t (λ _ t', R t t').
Proof.
  intros Hb. apply wp_bind, wp_find; [|done]. intros l _. apply wp_bind.
  eapply wp_mono; [apply (wp_for_each x E reclaim_one l (λ _ _ t', settled_history R t t')
                            (λ _ t', settled_history R t t'))|].
  - done.
  - intros r l' done' t' Hh. eapply wp_mono.
    + apply history_step; [|apply keeps_reclaim_one, Hh|exact Hh]. apply books_reclaim_one, Hh.
    + by intros [z|e] t''.
  - intros [zs|e] t' [_ Hk]; [by apply wp_ret|done].
Qed.
End keeps_loops.

Section keeps_deletion.
Context {may : string → Prop} {R : tables → tables → Prop} `{!Keeps may R}.
#[local] Instance frame_in_deletion t : Frame (R t) := keeps_frame t.
#[local] Instance ledger_in_deletion t : IgnoresLedger (R t) := keeps_ledger t.
Context (E : env).

Lemma keeps_delete_children x t0 cond : preserves x E (R t0) (delete_children cond).
Proof.
  unfold delete_children. preserve. apply preserves_modify. intros t Ht. etrans; [exact Ht|].
  eapply keeps_relink; [|reflexivity]. intros r. cbn beta. by case_match.
Qed.

Lemma keeps_delete_parent x t0 id : preserves x E (R t0) (delete_parent id).
Proof.
  unfold delete_parent. preserve. apply preserves_modify. intros t Ht. etrans; [exact Ht|].
  eapply keeps_relink; [|reflexivity]. intros r. cbn beta. by case_match.
Qed.

#[local] Hint Resolve keeps_delete_children keeps_delete_parent : preserves.

Lemma history_remove_parent t0 id t :
  settled_history R t0 t → success E (remove_parent id) t (λ _ t', settled_history R t0 t').
Proof.
  intros [Hb Hk]. apply success_and; [by apply success_remove_parent|].
  unfold remove_parent. step_success. step_success. cbv zeta. step_success. step_success.
  intros active _. step_success. eapply success_mono.
  - apply (success_for_each E _ active (λ _ _ t', settled_history R t0 t')); [done|].
    intros r rest l t' [Hb' Hk']. apply success_and.
    + apply success_finish; [apply Hb'|done|]. intros r0 tn entryID now Hr0 Ha Htn.
      pose proof (filed_reservations _ (bk_filed _ Hb') _ _ Hr0) as Hid. cbn in Hid.
      apply books_finish; try done. by rewrite Hid.
    + eapply success_mono; [apply keeps_finish; [done|apply Hb']|]. intros ? t'' Hk''. by etrans.
  - intros ? t1 [_ Hk1]. apply (success_preserves E (R t0)); [|done]. preserve.
Qed.

Lemma keeps_MarkMissing x seen started t :
  books t → wp x E (MarkMissingParentSubscriptions seen started) t (λ _ t', R t t').
Proof.
  intros Hb. apply transaction_preserves; [done|]. step_success. step_success. intros rows _.
  cbv zeta. case_match; [by step_success|]. step_success.
  eapply (success_mono _ _ _ (λ _ t', settled_history R t t')).
  { apply success_and; [|by apply success_preserves; [preserve|]].
    eapply wp_mono; [by apply books_update_parents|]. by intros [n|e]. }
  intros ? t1 [Hb1 Hk1]. step_success. eapply (success_mono _ _ _ (λ _ t', settled_history R t t')).
  { apply success_and; [|by apply success_preserves; [preserve|]].
    eapply wp_mono; [by apply books_update_children|]. by intros [n|e]. }
  intros ? t2 H2. step_success. eapply success_mono.
  - apply (success_for_each E remove_parent _ (λ _ _ t', settled_history R t t')); [exact H2|].
    intros. by apply history_remove_parent.
  - intros ? t3 [_ Hk3]. by step_success.
Qed.
End keeps_deletion.

Section run.
Context {may : string → Prop} {R : tables → tables → Prop} `{!Keeps may R}.
#[local] Instance frame_in_run t : Frame (R t) := keeps_frame t.
#[local] Instance ledger_in_run t : IgnoresLedger (R t) := keeps_ledger t.
Context (E : env) `{TimeZone} `{NameUUID} `{FloatToInt}.

Lemma keeps_unit {A} x (m : DB A) t :
  wp x E m t (λ _ t', R t t') → wp x E (m;; mret ()) t (λ _ t', R t t').
Proof.
  intros Hm. apply wp_bind. eapply wp_mono; [exact Hm|]. intros [a|e] t' Hk; [by apply wp_ret|done].
Qed.

Lemma keeps_run op t : (∀ id, works_on op = Some id → may id) → operation_ok op → books t → wp Direct E (run op) t (λ _ t', R t t').
Proof.
  intros Hmay Hop Hb.
  assert (Hq : preserves Direct E (R t) (run op) → wp Direct E (run op) t (λ _ t', R t t'))
    by (intros Hp; by apply Hp).
  destruct op; cbn [run] in *; try (solve [apply Hq; preserve]);
    try apply keeps_unit.
  - apply history_AdmitRequest; [by apply Hmay|done..].
  - apply keeps_reserveCandidate; [by apply Hmay|done..].
  - apply keeps_UpdateReservationPriceSnapshot.
  - apply wp_bind, wp_guard; [intros _|done]. by apply keeps_finishReservation, Hb.
  - by apply keeps_SettleRequestWithLog.
  - apply keeps_AccrueWebSocketTurn; [by apply Hmay|done].
  - by apply keeps_finishReservation, Hb.
  - by apply history_Reclaim.
  - by apply keeps_reclaim_one, Hb.
  - apply keeps_Credit.
  - by apply keeps_MarkMissing.
  - apply Hq. unfold DeleteChildSubscription. preserve. apply keeps_delete_children.
Qed.
End run.

(** ** The turns of a request *)

(** The turns of a session, by their keys, and what they were charged. *)
Definition own_turns (id : string) (t : tables) : gmap (string * string) WebSocketTurn :=
  filter (λ '((r, _), _), r = id) (tb_turns t).

Definition turns_are (id : string) (l : gmap (string * string) WebSocketTurn) (t : tables) : Prop := own_turns id t = l.

#[export] Instance turns_frame id l : Frame (turns_are id l).
Proof. by repeat split; intros ?. Qed.
#[export] Instance turns_reservations id l : Ignores reservations (turns_are id l).
Proof. by intros ?. Qed.
#[export] Instance turns_ledger id l : IgnoresLedger (turns_are id l).
Proof. by intros ?. Qed.

Section turns.
Context (x : mode) (E : env) (id : string) (l : gmap (string * string) WebSocketTurn).
Context `{TimeZone} `{NameUUID} `{FloatToInt}.

Lemma turns_post_ledger tn tenantID kind amount note : preserves x E (turns_are id l) (post_ledger tn tenantID kind amount note).
Proof. unfold post_ledger. preserve. Qed.

#[local] Hint Resolve turns_post_ledger : preserves.

Lemma turns_finishReservationTx rid actual complete status : preserves x E (turns_are id l) (finishReservationTx rid actual complete status).
Proof. unfold finishReservationTx, finish_window, window_of. preserve. Qed.

Lemma turns_delete_children cond : preserves x E (turns_are id l) (delete_children cond).
Proof. unfold delete_children. preserve. by apply preserves_modify. Qed.

Lemma turns_delete_parent pid : preserves x E (turns_are id l) (delete_parent pid).
Proof. unfold delete_parent. preserve. by apply preserves_modify. Qed.

Lemma turns_reserve_quota input child parent r : preserves x E (turns_are id l) (reserve_quota input child parent r).
Proof. unfold reserve_quota, active_windows, reserve_window. preserve. Qed.
End turns.

#[export] Hint Resolve turns_post_ledger turns_finishReservationTx turns_delete_children turns_delete_parent
  turns_reserve_quota : preserves.

Section turns_operations.
Context (x : mode) (E : env) (id : string) (l : gmap (string * string) WebSocketTurn).
Context `{TimeZone} `{NameUUID} `{FloatToInt}.

Lemma turns_reserveCandidate input candidate : preserves x E (turns_are id l) (reserveCandidate input candidate).
Proof. unfold reserveCandidate, reserve_subscription. preserve. Qed.

#[local] Hint Resolve turns_reserveCandidate : preserves.

Lemma turns_try_candidates input cs : ∀ u p e, preserves x E (turns_are id l) (try_candidates input cs u p e).
Proof. induction cs; intros; cbn [try_candidates]; preserve; auto. Qed.

#[local] Hint Resolve turns_try_candidates : preserves.

(** Only the charge of a turn files one. *)
Lemma turns_run op : (∀ input, op ≠ Accrue input) → preserves x E (turns_are id l) (run op).
Proof.
  intros Hop. destruct op; cbn [run]; try by destruct (Hop input); preserve.
  all: preserve.
  - unfold AdmitRequest, SubscriptionCandidates. preserve.
  - unfold UpdateReservationPriceSnapshot. preserve.
  - unfold SettleRequestReservation, finishReservation. preserve.
  - unfold SettleRequestWithLog. preserve.
  - unfold ReleaseRequestReservation, finishReservation. preserve.
  - unfold ReclaimExpiredReservations, reclaim_one, finishReservation. preserve.
  - unfold reclaim_one, finishReservation. preserve.
  - unfold Credit. preserve.
  - unfold MarkMissingParentSubscriptions, remove_parent. preserve.
  - unfold DeleteChildSubscription. preserve.
Qed.
End turns_operations.

(** What a step of the store leaves of a request that it does not work on: its turns, and its
    reservation, if that is still active. *)
Lemma others_run `{TimeZone} `{NameUUID} `{FloatToInt} E id op t :
  works_on op ≠ Some id → operation_ok op → books t →
  wp Direct E (run op) t (λ _ t', untouched id t t' ∧ own_turns id t' = own_turns id t).
Proof.
  intros Hid Hop Hb. apply wp_and.
  - apply (keeps_run (may := λ id', id' ≠ id)); [|done..]. by intros id' Hw ->.
  - assert ((∃ input, op = Accrue input) ∨ ∀ input, op ≠ Accrue input) as [[input ->]|Hno]
      by (destruct op; first [by right|by left; eexists]).
    + cbn [run works_on] in *. apply wp_bind.
      eapply (wp_mono _ _ _ _ (λ _ t', own_turns id t' = own_turns id t)); [|by intros [b|e] t' Ht'; [apply wp_ret|]].
      apply wp_AccrueWebSocketTurn; [done..|].
      intros r tenant entryID row t3 t1 t2 _ _ _ _ _ Hkey _ Hnone _ _ _ _ Ht.
      assert (tb_turns t3 = <[wt_key row := row]> (tb_turns t)) as Ht3.
      { rewrite Ht. unfold t2, charge_spec. by destruct tenant. }
      unfold own_turns. rewrite Ht3, Hkey, map_filter_insert_False by congruence.
      by rewrite delete_id by (by rewrite <- Hkey).
    + by apply turns_run.
Qed.
