(* ===== verification/Guarantees.v ===== *)
(** * What the accounting guarantees

    The theorems that a user of the store relies on, over every reachable
    state, every world and every interruption. *)

From S2P Require Import Prelude.
From S2P Require Import Float64.
From S2P Require Import Cost.
From S2P Require Import Database.
From S2P Require Import Schema.
From S2P Require Import QuotaMath.
From S2P Require Import QuotaWindows.
From S2P Require Import ModelAccess.
From S2P Require Import RequestLogs.
From S2P Require Import Reservation.
From S2P Require Import Settlement.
From S2P Require Import Sample.
From S2P Require Import Subscriptions.
From S2P Require Import Books.
From S2P Require Import Accounting.
From S2P Require Import SubscriptionBooks.
From S2P Require Import Machine.
From S2P Require Import History.

(** ** Sample histories *)

Lemma pristine_balance_store : pristine balance_store.
Proof. split; [split| | | |]; try done; apply (bool_decide_unpack _); by vm_compute. Qed.

Lemma pristine_shared_store : pristine shared_store.
Proof. split; [split| | | |]; try done; apply (bool_decide_unpack _); by vm_compute. Qed.

(** Acme tops up, asks, and pays 60 of the 100 held. *)
Definition settled_store : tables :=
  play calm [(CreditBalance "acme" 1000 "top-up", 0%nat); (Admit (ask "req"), 100%nat);
             (Settle "req" 60 true, 200%nat)] balance_store.

(** Acme's share pays for a request that is still running. *)
Definition running_store : tables :=
  play calm [(SetWindows "account" [weekly], 0%nat); (Admit (ask "req"), 100%nat)] shared_store.

Lemma reachable_settled_store : reachable settled_store.
Proof.
  apply reachable_play; [apply reachable_pristine, pristine_balance_store|].
  apply (bool_decide_unpack _). by vm_compute.
Qed.

Lemma reachable_running_store : reachable running_store.
Proof.
  apply reachable_play; [apply reachable_pristine, pristine_shared_store|].
  apply (bool_decide_unpack _). by vm_compute.
Qed.

(** ** Money *)

Section money.
Context `{TimeZone} `{NameUUID} `{FloatToInt}.

(** C1: In every reachable state of the store, whatever requests were admitted, charged,
  released or reclaimed, by whatever operations and under whatever database failures, the
  balance of each tenant is the sum of its ledger entries (modulo 2^64, the wrap-around of
  the int64 column), and every entry records as its balance-after the sum of the tenant's
  entries up to and including itself. *)
Theorem balances_match_ledger (t : tables) :
reachable t →
(∀ id tn, tb_tenants t !! id = Some tn →
   t_BalanceNanoUSD tn = wrap64 (tenant_total id (tb_ledger t))) ∧
(∀ before e after, tb_ledger t = before ++ e :: after →
   l_BalanceAfterNanoUSD e = wrap64 (tenant_total (l_TenantID e) (before ++ [e]))).
Proof. intros Ht%reachable_books. destruct (bk_tenants _ Ht). by split. Qed.

(** C2: In every reachable state, the ledger entries of a request add up (modulo 2^64) to
  exactly what the request owes and all belong to its tenant: a request that has ended and was
  funded by the balance has paid its recorded final cost, no more and no less, however many
  holds, turns and refunds it went through; a pending one has paid its hold plus the turns
  charged so far; and a request funded by a subscription has never moved the balance. *)
Theorem requests_pay_their_cost (t : tables) id r :
reachable t → tb_reservations t !! id = Some r →
let paid := wrap64 (- request_total id (tb_ledger t)) in
let spent := default 0 (r_ActualNanoUSD r) in
(reservationUsesBalance r = true → is_active r = false → paid = wrap64 spent) ∧
(reservationUsesBalance r = true → is_active r = true →
   paid = r_BalanceReservedNanoUSD r +₆₄ spent) ∧
(reservationUsesBalance r = false → paid = 0) ∧
(∀ e, e ∈ tb_ledger t → l_RequestID e = Some id → l_TenantID e = r_TenantID r).
Proof.
intros Ht%reachable_books Hr. cbn zeta. destruct (bk_requests _ Ht) as [Htotal Howner].
assert (Hpaid : wrap64 (- request_total id (tb_ledger t)) = wrap64 (charged r)).
{ specialize (Htotal id). unfold charged_at in Htotal. rewrite Hr in Htotal. cbn in Htotal.
  rewrite <- wrap64_opp, Htotal, wrap64_opp. f_equal. lia. }
rewrite Hpaid. unfold charged. split_and!.
- intros -> ->. f_equal.
- by intros -> ->.
- by intros ->.
- intros e Hin Hid. destruct (Howner e id Hin Hid) as (r' & Hr' & <-). congruence.
Qed.

(** C3: In every reachable state, what a quota window of a child has reserved is exactly the sum
  of the claims that active reservations hold on that generation of the window, so a window
  without pending requests has nothing reserved, releasing a pending request never runs into
  the clamp at zero, and no reservation claims a generation ahead of the stored one. *)
Theorem windows_reserve_active_claims (t : tables) child kind :
reachable t →
(∀ w, tb_child_windows t !! (child, kind) = Some w →
   w_ReservedNanoUSD w = sum_map (held_by child kind (w_ResetsAt w)) (tb_reservations t) ∧
   0 ≤ w_ReservedNanoUSD w ≤ max_int64 ∧ 0 ≤ w_SettledNanoUSD w ≤ max_int64 ∧
   0 < w_LimitNanoUSD w ∧
   (∀ id r, tb_reservations t !! id = Some r →
      held_by child kind (w_ResetsAt w) r ≤ w_ReservedNanoUSD w)) ∧
(∀ id r z, tb_reservations t !! id = Some r → held_by child kind z r ≠ 0 →
   ∃ w, tb_child_windows t !! (child, kind) = Some w ∧ z ≤ w_ResetsAt w).
Proof.
intros Ht%reachable_books. destruct (bk_quota _ Ht) as [[Hrow Hgen] Hamt].
assert (Hpos : ∀ z id r, tb_reservations t !! id = Some r → 0 ≤ held_by child kind z r).
{ intros z id r Hr. by apply held_by_nonneg, (Hamt id). }
assert (Hle : ∀ z id r, tb_reservations t !! id = Some r →
              held_by child kind z r ≤ holds t child kind z).
{ intros z id r Hr. unfold holds. rewrite (sum_map_delete _ _ _ _ Hr).
  assert (0 ≤ sum_map (held_by child kind z) (delete id (tb_reservations t))); [|lia].
  apply sum_map_nonneg. intros id' r' [_ Hr']%lookup_delete_Some. by apply (Hpos z id'). }
split.
- intros w Hw. destruct (Hrow _ _ _ Hw) as [Hok Hres]. apply window_row_ok_iff in Hok.
  split_and!; try lia; [exact Hres|]. intros id r Hr. rewrite Hres. by apply (Hle _ id).
- intros id r z Hr Hne. apply Hgen. pose proof (Hle z id r Hr). pose proof (Hpos z id r Hr). lia.
Qed.

(** C37: Billing keeps history.  No admission, settlement, release, reclaim, charge of a turn,
  credit, log or change of a subscription rewrites it: from any reachable state, whatever
  happens, the ledger afterwards extends the ledger before, and a reservation that had already
  ended keeps its payer, amounts, final cost, pricing flag, status and settlement time.  Only the
  deletion of its tenant and retention, which are not such operations, remove history. *)
Theorem billing_keeps_history (t t' : tables) op E n r c :
reachable t → operation_ok op → run op E t n = (r, t', c) →
tb_ledger t `prefix_of` tb_ledger t' ∧
(∀ id v, ended t id = Some v → ended t' id = Some v).
Proof.
intros Ht%reachable_books Hop Hrun. split.
- refine (wp_direct _ _ _ _ _ _ _ _ (grown_run Direct E (tb_ledger t) op t _) Hrun). by unfold grown.
- exact (wp_direct _ _ _ _ _ _ _ _ (keeps_run (R := kept) E op t (λ _ _, I) Hop Ht) Hrun).
Qed.
End money.

Lemma balances_match_ledger_witness :
  reachable settled_store ∧
  (t_BalanceNanoUSD <$> tb_tenants settled_store !! "acme") = Some 940 ∧
  (∀ id tn, tb_tenants settled_store !! id = Some tn →
     t_BalanceNanoUSD tn = wrap64 (tenant_total id (tb_ledger settled_store))).
Proof.
  split; [apply reachable_settled_store|]. split; [by vm_compute|].
  exact (proj1 (balances_match_ledger settled_store reachable_settled_store)).
Defined.

Lemma requests_pay_their_cost_witness :
  ∃ r, tb_reservations settled_store !! "req" = Some r ∧
  wrap64 (- request_total "req" (tb_ledger settled_store)) = wrap64 60.
Proof.
  eexists. split; [by vm_compute|].
  eapply (proj1 (requests_pay_their_cost settled_store "req" _ reachable_settled_store
    ltac:(by vm_compute))); by vm_compute.
Defined.

Lemma windows_reserve_active_claims_witness :
  ∃ w, tb_child_windows running_store !! ("share", "weekly") = Some w ∧
  w_ReservedNanoUSD w = 300 ∧
  w_ReservedNanoUSD w = sum_map (held_by "share" "weekly" (w_ResetsAt w)) (tb_reservations running_store).
Proof.
  eexists. split; [by vm_compute|]. split; [by vm_compute|].
  apply (proj1 (windows_reserve_active_claims running_store "share" "weekly" reachable_running_store)
    _ ltac:(by vm_compute)).
Defined.

Lemma billing_keeps_history_witness :
  let t' := (run (Settle "req" 90 true) calm settled_store 300%nat).1.2 in
  is_Some (ended settled_store "req") ∧ ended t' "req" = ended settled_store "req".
Proof.
  cbn zeta. destruct (ended settled_store "req") as [v|] eqn:Hv; [|by vm_compute in Hv].
  split; [done|]. destruct (run (Settle "req" 90 true) calm settled_store 300%nat) as [[r t'] c] eqn:Hrun.
  exact (proj2 (billing_keeps_history settled_store t' (Settle "req" 90 true) calm 300%nat r c
    reachable_settled_store I Hrun) "req" v Hv).
Defined.
