(* ===== verification/Effects.v ===== *)
(** * What each operation does

    The exact effect of charging and admitting, of repeating an operation, and
    the liveness of a settlement when the database answers. *)

From S2P Require Import Prelude.
From S2P Require Import Float64.
From S2P Require Import Cost.
From S2P Require Import Database.
From S2P Require Import Schema.
From S2P Require Import QuotaMath.
From S2P Require Import QuotaWindows.
From S2P Require Import ModelAccess.
From S2P Require Import RequestLogs.
From S2P Require Import Reservation.
From S2P Require Import Settlement.
From S2P Require Import Sample.
From S2P Require Import Subscriptions.
From S2P Require Import Books.
From S2P Require Import Accounting.
From S2P Require Import SubscriptionBooks.
From S2P Require Import Machine.
From S2P Require Import History.
From S2P Require Import Guarantees.

(** Reading keeps the tables. *)
Lemma reads_candidates E tenantID model now t :
  wp Direct E (SubscriptionCandidates tenantID model now) t (λ _ t', t' = t).
Proof.
  assert (Hp : preserves Direct E (λ t', t' = t) (SubscriptionCandidates tenantID model now))
    by (unfold SubscriptionCandidates; preserve).
  by apply Hp.
Qed.

(** ** Repeating an operation *)

Section replay.
Context (E : env) `{TimeZone} `{NameUUID} `{FloatToInt}.

(** A transaction whose body commits only without effect. *)
Lemma same_transaction {A} x (body : DB A) t (P : A → Prop) :
  success E body t (λ a t', t' = t ∧ P a) →
  wp x E (transaction body) t (λ r t', t' = t ∧ match r with Ok a => P a | Err _ => True end).
Proof.
  intros Hs. eapply wp_mono; [by apply success_transaction|]. intros [a|e] t' Ha; [exact Ha|by split].
Qed.

Lemma finish_ended x id r actual complete status t :
  tb_reservations t !! id = Some r → is_active r = false →
  wp x E (finishReservation id actual complete status) t (λ _ t', t' = t).
Proof.
  intros Hr Ha. eapply wp_mono; [apply (same_transaction _ _ _ (λ _, True))|by intros ? ? []].
  unfold finishReservationTx. step_success. apply success_map_error, success_first.
  intros r' Hr'. cbn in Hr'. assert (r' = r) as -> by congruence. rewrite Ha. cbn [negb].
  by step_success.
Qed.

Lemma settle_log_ended x id r l t :
  tb_reservations t !! id = Some r → is_active r = false →
  wp x E (SettleRequestWithLog id l) t (λ _ t', t' = t).
Proof.
  intros Hr Ha. eapply wp_mono; [apply (same_transaction _ _ _ (λ _, True))|by intros ? ? []].
  step_success. apply success_map_error, success_first.
  intros r' Hr'. cbn in Hr'. assert (r' = r) as -> by congruence. rewrite Ha. cbn [negb].
  by step_success.
Qed.

(** A turn is charged at most once, and only while the request is active. *)
Lemma accrue_again x input t :
  ws_CostNanoUSD input ≠ 0 →
  (∀ r, tb_reservations t !! ws_RequestID input = Some r → is_active r = true →
     is_Some (tb_turns t !! (ws_RequestID input, trim_space (ws_TurnID input)))) →
  wp x E (AccrueWebSocketTurn input) t (λ r t', t' = t ∧ r ≠ Ok true).
Proof.
  intros Hcost Hseen. apply wp_bind, wp_guard; [|done]. intros _.
  apply wp_bind, wp_guard; [|done]. intros _.
  rewrite (proj2 (Z.eqb_neq _ _) Hcost).
  eapply wp_mono; [apply (same_transaction _ _ _ (λ b, b = false))|].
  - step_success. apply success_map_error, success_first. intros r Hr. cbn in Hr.
    step_success. step_success. step_success.
    eapply (success_mono _ _ _ (λ _ t', t' = t)); [by case_match; step_success|].
    intros completedAt t0 ->. cbv zeta. step_success. step_success. step_success. step_success. step_success.
    apply success_create_do_nothing; cbn; [|intros _; by step_success].
    intros Hnone. destruct (Hseen r Hr) as [v Hv]; [done|]. congruence.
  - intros [a|e] t' [-> Ha]; [|by split]. split; [done|]. congruence.
Qed.

Lemma admit_again x input candidate r t :
  tb_reservations t !! ai_RequestID input = Some r →
  wp x E (reserveCandidate input candidate) t (λ a t', t' = t ∧
    match a with Ok a => a = admissionFromReservation r | Err _ => True end).
Proof.
  intros Hr. apply (same_transaction _ _ _ (λ a, a = admissionFromReservation r)).
  step_success. step_success.
  - intros r' Hr'. cbn in Hr'. step_success. by assert (r' = r) as -> by congruence.
  - cbn. congruence.
Qed.

Lemma try_again x input r candidates : ∀ u p e t,
  tb_reservations t !! ai_RequestID input = Some r →
  wp x E (try_candidates input candidates u p e) t (λ a t', t' = t ∧
    match a with Ok a => a = admissionFromReservation r | Err _ => True end).
Proof.
  induction candidates as [|candidate candidates IH]; intros u p e t Hr; cbn [try_candidates];
    [by apply wp_fail|].
  case_match; [by apply IH|]. apply wp_bind, wp_attempt.
  eapply wp_mono; [by apply admit_again|]. intros [a|err] t' [-> Ha]; [by apply wp_ret|].
  destruct err; try (by apply wp_fail); by apply IH.
Qed.

Lemma AdmitRequest_again input r t :
  tb_reservations t !! ai_RequestID input = Some r →
  wp Direct E (AdmitRequest input) t (λ a t', t' = t ∧
    match a with Ok a => a = admissionFromReservation r | Err _ => True end).
Proof.
  intros Hr. apply wp_bind, wp_now. intros now. apply wp_bind.
  eapply wp_mono; [apply reads_candidates|]. intros [[[l a] u]|e] t' ->; [|done].
  repeat case_match; by (apply wp_fail || apply admit_again || apply try_again).
Qed.
End replay.

(** C5: Every request is charged at most once.  An ending that arrives for a reservation that
    already ended (a second settlement, with or without its log, a release after a settlement, in
    any order) changes nothing.  A WebSocket turn that was recorded before, or that comes after
    the request ended, changes nothing and is not reported as newly charged.  Admitting the same
    request identifier again changes nothing, and when it answers, answers with the reservation
    that exists. *)
Theorem requests_are_charged_once `{TimeZone} `{NameUUID} E t r id n :
  tb_reservations t !! id = Some r →
  (is_active r = false →
     (∀ actual complete, (SettleRequestReservation id actual complete E t n).1.2 = t) ∧
     (∀ l, (SettleRequestWithLog id l E t n).1.2 = t) ∧
     (ReleaseRequestReservation id E t n).1.2 = t) ∧
  (∀ input, ws_RequestID input = id → ws_CostNanoUSD input ≠ 0 →
     (is_active r = false ∨ is_Some (tb_turns t !! (id, trim_space (ws_TurnID input)))) →
     (AccrueWebSocketTurn input E t n).1.2 = t ∧ (AccrueWebSocketTurn input E t n).1.1 ≠ Ok true) ∧
  (∀ input, ai_RequestID input = id →
     (AdmitRequest input E t n).1.2 = t ∧
     ∀ a, (AdmitRequest input E t n).1.1 = Ok a → a = admissionFromReservation r).
Proof.
  intros Hr.
  assert (Hrun : ∀ A (m : DB A) Q, wp Direct E m t Q → Q (m E t n).1.1 (m E t n).1.2).
  { intros A m Q Hm. specialize (Hm n). destruct (m E t n) as [[a t'] c]. by destruct Hm as [[? _]|]. }
  split_and!.
  - intros Ha. split_and!.
    + intros actual complete. apply (Hrun _ _ (λ _ t', t' = t)). apply wp_bind, wp_guard; [|done].
      intros _. by eapply finish_ended.
    + intros l. apply (Hrun _ _ (λ _ t', t' = t)). by eapply settle_log_ended.
    + apply (Hrun _ _ (λ _ t', t' = t)). by eapply finish_ended.
  - intros input <- Hcost Hseen. apply (Hrun _ _ (λ a t', t' = t ∧ a ≠ Ok true)).
    apply accrue_again; [done|]. intros r' Hr' Ha. destruct Hseen as [Hna|Hs]; [congruence|done].
  - intros input <-.
    destruct (Hrun _ _ _ (AdmitRequest_again E input r t Hr)) as [-> Hans].
    split; [done|]. intros a Ha. by rewrite Ha in Hans.
Qed.

Lemma requests_are_charged_once_witness :
  let t := play calm [(Accrue (turn_of "req" "turn" 40), 200%nat)] running_store in
  (tb_turns t !! ("req", "turn")) ≠ None ∧
  (AccrueWebSocketTurn (turn_of "req" "turn" 40) calm t 300%nat).1.2 = t.
Proof.
  cbn zeta. split; [by vm_compute|].
  refine (proj1 (proj1 (proj2 (requests_are_charged_once calm _ _ "req" 300%nat _)) _ _ _ _));
    [by vm_compute|done|done|right; eexists; by vm_compute].
Defined.

(** ** The effect of an ending *)

(** The world's identifiers are new to the ledger. *)
Definition fresh_ids (E : env) (t : tables) : Prop :=
  ∀ n e, e ∈ tb_ledger t → l_ID e ≠ env_id E n.

Section liveness.
Context (E : env).

Definition succeeds {A} (m : DB A) (t : tables) : Prop := wp InTx E m t (λ r _, ∃ a, r = Ok a).

Lemma succeeds_bind {A B} (m : DB A) (k : A → DB B) t (P : A → tables → Prop) :
  succeeds m t → success E m t P → (∀ a t', P a t' → succeeds (k a) t') → succeeds (m ≫= k) t.
Proof.
  intros Hm HP Hk. apply wp_bind. eapply wp_mono; [exact (wp_and _ _ _ _ _ _ Hm HP)|].
  intros [a|e] t' [[a' Ha] H']; [by apply Hk|done].
Qed.

Lemma succeeds_ret {A} (a : A) t : succeeds (mret a) t.
Proof. apply wp_ret. eauto. Qed.

Lemma succeeds_update {K V : Type} `{Countable K} (tb : table tables K V) k f t :
  (∀ v, tb_get tb t !! k = Some v → tb_check tb (f v) = true) → succeeds (update tb k f) t.
Proof. intros Hc. apply wp_update; try done; eauto. intros v Hv Hf. by rewrite Hc in Hf. Qed.

Lemma succeeds_first {K V : Type} `{Countable K} (tb : table tables K V) k t v :
  tb_get tb t !! k = Some v → succeeds (first tb k) t.
Proof. intros Hv. apply wp_first; [eauto|congruence|done]. Qed.

Lemma succeeds_map_error {A} f (m : DB A) t : succeeds m t → succeeds (map_error f m) t.
Proof. intros Hm. apply wp_map_error. eapply wp_mono; [exact Hm|]. intros r t' [a ->]. eauto. Qed.

Lemma succeeds_post_ledger tn requestID kind amount note t :
  fresh_ids E t → succeeds (post_ledger tn requestID kind amount note) t.
Proof.
  intros Hf. unfold post_ledger.
  apply (succeeds_bind _ _ _ (λ _ t', tb_ledger t' = tb_ledger t)).
  - by apply succeeds_update.
  - by apply success_update.
  - intros ? t' Hl. apply wp_bind. intros n. right. cbn. revert n. change (∀ n : nat,
      wp InTx E (create_ledger {| l_ID := env_id E n; l_TenantID := t_ID tn;
        l_RequestID := requestID; l_Kind := kind; l_AmountNanoUSD := amount;
        l_BalanceAfterNanoUSD := t_BalanceNanoUSD tn; l_Note := note |}) t'
        (λ r _, ∃ a, r = Ok a)). intros n.
    apply wp_bind, wp_statement; [|done]. apply wp_bind, wp_gets. apply wp_bind, wp_guard.
    + intros _. apply wp_modify. eauto.
    + rewrite Hl. intros Hex. exfalso. apply negb_false_iff, existsb_exists in Hex.
      destruct Hex as (e & Hin & He). reflect_bools. apply (Hf n e); [by apply list_elem_of_In|done].
Qed.

Definition windows_usable (t : tables) : Prop :=
  ∀ k w, tb_child_windows t !! k = Some w → 0 < w_LimitNanoUSD w.

Lemma succeeds_finish_window childID quota delta q t :
  windows_usable t → succeeds (finish_window childID quota delta q) t.
Proof.
  intros Hw. unfold finish_window, window_of. apply wp_bind, wp_attempt, wp_first_where; [| |done].
  - cbn. intros w Hkw _. apply wp_bind. eapply wp_mono; [apply succeeds_update|].
    + cbn. intros w' Hw'. specialize (Hw _ _ Hw'). unfold child_window_check. cbn.
      rewrite !andb_true_iff, Z.ltb_lt, !Z.leb_le. unfold floor0.
      split_and!; [done| |]; case_match; reflect_bools; lia.
    + intros r t' [a ->]. by apply succeeds_ret.
  - intros _. by apply succeeds_ret.
Qed.

Lemma usable_finish_window childID quota delta q t :
  windows_usable t → filed t →
  success E (finish_window childID quota delta q) t (λ _ t', windows_usable t' ∧ filed t').
Proof.
  intros Hw Hf. eapply success_mono; [apply success_finish_window, Hf|]. intros ? t' ->.
  unfold on_window. split.
  - intros k w. cbn. destruct (tb_child_windows t !! _) as [w0|] eqn:Hw0; [|by apply Hw].
    case_bool_decide; [|by apply Hw]. rewrite lookup_insert_Some. intros [[_ <-]|[_ Hk]]; [|by apply (Hw k)].
    exact (Hw _ _ Hw0).
  - split; try apply Hf. cbn. destruct (tb_child_windows t !! _) as [w0|] eqn:Hw0; [|apply Hf].
    case_bool_decide; [|apply Hf]. apply keyed_insert; [apply Hf|]. exact (filed_windows _ Hf _ _ Hw0).
Qed.

Lemma succeeds_finish_windows childID quota delta l t :
  windows_usable t → filed t → succeeds (for_each (finish_window childID quota delta) l) t.
Proof.
  intros Hw Hf. eapply wp_mono.
  - apply (wp_for_each InTx E _ l (λ _ _ t', windows_usable t' ∧ filed t') (λ _ _, False)); [done|].
    intros q l' done' t' [Hw' Hf'].
    pose proof (succeeds_finish_window childID quota delta q t' Hw') as H1.
    pose proof (usable_finish_window childID quota delta q t' Hw' Hf') as H2.
    eapply wp_mono; [exact (wp_and _ _ _ _ _ _ H1 H2)|].
    intros [a|e] t'' [[a' Ha] H']; [exact H'|done].
  - intros [ys|e] t' H'; [eauto|done].
Qed.

Lemma succeeds_finish id r tn actual complete status t :
  books t → fresh_ids E t → tb_reservations t !! id = Some r →
  tb_tenants t !! r_TenantID r = Some tn →
  succeeds (finishReservationTx id actual complete status) t.
Proof.
  intros Hb Hfresh Hr Htn.
  assert (Hw : windows_usable t).
  { intros [c k] w Hw. destruct (proj1 (qb_windows _ (bk_quota _ Hb)) _ _ _ Hw) as [Hrow _].
    apply window_row_ok_iff in Hrow. lia. }
  unfold finishReservationTx.
  apply (succeeds_bind _ _ _ (λ r' t', r' = r ∧ t' = t)).
  { by eapply succeeds_map_error, succeeds_first. }
  { apply success_map_error, success_first. cbn. intros r' Hr'. split; congruence. }
  intros ? ? [-> ->]. destruct (negb (is_active r)); [by apply succeeds_ret|].
  apply (succeeds_bind _ _ _ (λ tn' t', tn' = tn ∧ t' = t)).
  { by eapply succeeds_first. }
  { apply success_first. cbn. intros tn' Htn'. split; congruence. }
  intros ? ? [-> ->]. cbv zeta.
  apply (succeeds_bind _ _ _ (λ _ t', windows_usable t' ∧ filed t')).
  { case_match; [by apply succeeds_post_ledger|by apply succeeds_ret]. }
  { case_match; [|step_success; split; [done|apply Hb]].
    apply success_post_ledger; [|done|].
    - by rewrite (filed_tenants _ (bk_filed _ Hb) _ _ Htn).
    - intros entryID. split; [done|]. destruct (bk_filed _ Hb). split; try done. by apply keyed_insert. }
  intros ? t1 [Hw1 Hf1]. apply (succeeds_bind _ _ _ (λ _ _, True)).
  { destruct (r_ChildSubscriptionID r) as [childID|]; [|by apply succeeds_ret].
    case_match; [|by apply succeeds_ret].
    apply (succeeds_bind _ _ _ (λ _ _, True)); [by apply succeeds_finish_windows| |by intros; apply succeeds_ret].
    apply success_true. }
  { apply success_true. }
  intros ? t2 _. apply wp_bind, wp_now. intros now. apply (succeeds_bind _ _ _ (λ _ _, True)).
  - by apply succeeds_update.
  - by apply success_update.
  - intros. by apply succeeds_ret.
Qed.
End liveness.

(** A run in a quiet world, with what it is known to establish. *)
Lemma quiet_run {A} E (m : DB A) t n Q :
  quiet E → wp InTx E m t Q → Q (m E t n).1.1 (m E t n).1.2.
Proof.
  intros Hq Hm%(quiet_wp E m t Q Hq). specialize (Hm n). destruct (m E t n) as [[r t'] c].
  by destruct Hm as [[? _]|].
Qed.

Lemma finishReservation_exact E t id r tn actual complete status n :
  books t → quiet E → fresh_ids E t → tb_reservations t !! id = Some r → is_active r = true →
  tb_tenants t !! r_TenantID r = Some tn →
  ∃ entryID now, (finishReservation id actual complete status E t n).1
    = (Ok (), finish_spec r tn actual complete status entryID now t).
Proof.
  intros Hb Hq Hf Hr Ha Htn.
  assert (Hwp : wp InTx E (finishReservation id actual complete status) t (λ a t',
    a = Ok () ∧ ∃ entryID now, t' = finish_spec r tn actual complete status entryID now t)).
  { apply wp_transaction; [|done].
    pose proof (succeeds_finish E id r tn actual complete status t Hb Hf Hr Htn) as H1.
    assert (H2 : success E (finishReservationTx id actual complete status) t (λ _ t',
      ∃ entryID now, t' = finish_spec r tn actual complete status entryID now t)).
    { apply success_finish; [apply Hb|congruence|]. intros r' tn' entryID now Hr' _ Htn'.
      exists entryID, now. congruence. }
    eapply wp_mono; [exact (wp_and _ _ _ _ _ _ H1 H2)|].
    intros [[]|e] t' [[u Hu] H']; [by split|done]. }
  destruct (quiet_run E _ t n _ Hq Hwp) as [Hres (entryID & now & Ht')].
  exists entryID, now. by rewrite (surjective_pairing (finishReservation _ _ _ _ E t n).1), Hres, Ht'.
Qed.

(** C4: When the database answers, an ending always succeeds and does exactly what was agreed.
    From any reachable state, settling an active reservation with a confirmed charge (and
    likewise releasing it) returns without error and leaves exactly the specified tables: the
    reservation ended with its final cost (zero for a release); the tenant's balance moved by
    hold plus charged turns minus final cost, with one ledger entry if that is not zero, when the
    balance pays; and when the subscription pays, each claimed window that is still in its
    generation gives back the hold and is charged the rest.  A charge that is negative, or not
    zero without a price, is refused with nothing changed. *)
Theorem settlement_succeeds `{TimeZone} `{NameUUID} `{FloatToInt} E t id r tn actual complete n :
  reachable t → quiet E → fresh_ids E t →
  tb_reservations t !! id = Some r → is_active r = true →
  tb_tenants t !! r_TenantID r = Some tn →
  (if confirmed actual complete then
     ∃ entryID now, (SettleRequestReservation id actual complete E t n).1
       = (Ok (), finish_spec r tn actual complete ReservationSettled entryID now t)
   else (SettleRequestReservation id actual complete E t n).1 = (Err unconfirmed_charge, t)) ∧
  (∃ entryID now, (ReleaseRequestReservation id E t n).1
     = (Ok (), finish_spec r tn 0 false ReservationReleased entryID now t)).
Proof.
  intros Ht%reachable_books Hq Hf Hr Ha Htn. split; [|by apply finishReservation_exact].
  unfold SettleRequestReservation, mbind, M_bind, guard_that.
  destruct (confirmed actual complete); cbn; [|done].
  destruct (finishReservation_exact E t id r tn actual complete ReservationSettled (n + 0) Ht Hq Hf Hr Ha Htn)
    as (entryID & now & Hres). exists entryID, now.
  destruct (finishReservation id actual complete ReservationSettled E t (n + 0)%nat) as [[a t'] c].
  cbn in Hres. by injection Hres as -> ->.
Qed.

(** What [calm] identified is not what [later] will. *)
Lemma later_fresh (t : tables) :
  forallb (λ e, String.prefix "id-" (l_ID e)) (tb_ledger t) = true → fresh_ids later t.
Proof.
  rewrite forallb_forall. intros Hl n e Hin%list_elem_of_In Heq. specialize (Hl e Hin). cbn beta in Hl.
  by rewrite Heq in Hl.
Qed.

(** Acme pays by balance for a request that was charged one turn so far. *)
Definition funded_store : tables :=
  play calm [(CreditBalance "acme" 1000 "top-up", 0%nat); (Admit (ask "req"), 100%nat);
             (Accrue (turn_of "req" "turn" 40), 200%nat)] balance_store.

Lemma reachable_funded_store : reachable funded_store.
Proof.
  apply reachable_play; [apply reachable_pristine, pristine_balance_store|].
  apply (bool_decide_unpack _). by vm_compute.
Qed.

Lemma settlement_succeeds_witness :
  ∃ r tn entryID now, tb_reservations funded_store !! "req" = Some r ∧
    (SettleRequestReservation "req" 250 true later funded_store 0%nat).1
    = (Ok (), finish_spec r tn 250 true ReservationSettled entryID now funded_store).
Proof.
  destruct (tb_reservations funded_store !! "req") as [r|] eqn:Hr; [|by vm_compute in Hr].
  assert (Hactive : is_active r = true) by (vm_compute in Hr; by injection Hr as <-).
  assert (Howner : r_TenantID r = "acme") by (vm_compute in Hr; by injection Hr as <-).
  destruct (tb_tenants funded_store !! "acme") as [tn|] eqn:Htn; [|by vm_compute in Htn].
  rewrite <- Howner in Htn.
  destruct (settlement_succeeds later funded_store "req" r tn 250 true 0%nat
    reachable_funded_store later_quiet (later_fresh funded_store ltac:(by vm_compute))
    Hr Hactive Htn) as [(entryID & now & Hrun) _].
  exists r, tn, entryID, now. split; [done|exact Hrun].
Defined.

(** The reclaimer finishes an expired request with the amount in the row it scanned, not with
    the amount the request has been charged by then: from any reachable state, reclaiming an
    active reservation on the strength of any earlier version of its row succeeds and records
    that version's amount as the final cost.  So a WebSocket turn charged between the scan and
    the reclaiming transaction is given back: a balance-funded request has then paid, in total,
    the stale amount only. *)
Theorem reclaim_trusts_the_scanned_row `{TimeZone} `{NameUUID} `{FloatToInt} E t row r tn n :
  reachable t → quiet E → fresh_ids E t →
  tb_reservations t !! r_RequestID row = Some r → is_active r = true →
  tb_tenants t !! r_TenantID r = Some tn →
  let t' := (reclaim_one row E t n).1.2 in
  let stale := default 0 (r_ActualNanoUSD row) in
  (reclaim_one row E t n).1.1 = Ok 1 ∧
  (∃ r', tb_reservations t' !! r_RequestID row = Some r' ∧ r_Status r' = ReservationExpired ∧
         r_ActualNanoUSD r' = Some stale) ∧
  (reservationUsesBalance r = true →
   wrap64 (- request_total (r_RequestID row) (tb_ledger t')) = wrap64 stale).
Proof.
  intros Ht Hq Hf Hr Ha Htn. cbn zeta. pose proof (reachable_books _ Ht) as Hb.
  set (stale := default 0 (r_ActualNanoUSD row)).
  destruct (finishReservation_exact E t (r_RequestID row) r tn stale (r_PricingComplete row)
    ReservationExpired n Hb Hq Hf Hr Ha Htn) as (entryID & now & Hrun).
  pose proof (reachable_run t (ReclaimRow row) E n Ht I) as Hreach.
  assert (Heq : (reclaim_one row E t n).1
    = (Ok 1, finish_spec r tn stale (r_PricingComplete row) ReservationExpired entryID now t)).
  { unfold reclaim_one, mbind, M_bind, attempt. fold stale.
    destruct (finishReservation _ _ _ _ E t n) as [[a t1] c1]. cbn in Hrun. by injection Hrun as -> ->. }
  assert (Ht' : (run (ReclaimRow row) E t n).1.2 = (reclaim_one row E t n).1.2).
  { cbn [run]. unfold mbind, M_bind. destruct (reclaim_one row E t n) as [[[a|e] t1] c1]; done. }
  rewrite Ht' in Hreach. rewrite Heq in *. cbn [fst snd] in *.
  pose proof (filed_reservations _ (bk_filed _ Hb) _ _ Hr) as Hid. cbn in Hid.
  destruct (finish_tables t r tn stale (r_PricingComplete row) ReservationExpired entryID now) as [Hres _].
  set (t' := finish_spec _ _ _ _ _ _ _ _) in *.
  assert (Hr' : tb_reservations t' !! r_RequestID row
    = Some (finished r stale (r_PricingComplete row) ReservationExpired now)).
  { rewrite Hres, <- Hid. apply lookup_insert_eq. }
  split_and!; [done|by eexists|]. intros Hu.
  refine (proj1 (requests_pay_their_cost t' (r_RequestID row) _ Hreach Hr') _ _); done.
Qed.

(** The scan saw the request before its turn was charged: the turn is free. *)
Lemma reclaim_trusts_the_scanned_row_witness :
  ∃ r, tb_reservations funded_store !! "req" = Some r ∧ r_ActualNanoUSD r = Some 40 ∧
  let stale := r <| r_ActualNanoUSD := (None : option Z) |> in
  wrap64 (- request_total "req" (tb_ledger (reclaim_one stale later funded_store 0%nat).1.2)) = 0.
Proof.
  destruct (tb_reservations funded_store !! "req") as [r|] eqn:Hr; [|by vm_compute in Hr].
  assert (Hrow : r_RequestID r = "req" ∧ is_active r = true ∧ r_TenantID r = "acme" ∧
    r_ActualNanoUSD r = Some 40 ∧ reservationUsesBalance r = true)
    by (vm_compute in Hr; by injection Hr as <-).
  destruct Hrow as (Hid & Hactive & Howner & Hactual & Hbalance).
  destruct (tb_tenants funded_store !! "acme") as [tn|] eqn:Htn; [|by vm_compute in Htn].
  rewrite <- Howner in Htn. exists r. split; [done|]. split; [done|]. cbn zeta.
  set (stale := r <| r_ActualNanoUSD := (None : option Z) |>).
  pose proof (reclaim_trusts_the_scanned_row later funded_store stale r tn 0%nat
    reachable_funded_store later_quiet (later_fresh funded_store ltac:(by vm_compute))) as Hreclaim.
  change (r_RequestID stale) with (r_RequestID r) in Hreclaim. rewrite Hid in Hreclaim.
  exact (proj2 (proj2 (Hreclaim Hr Hactive Htn)) Hbalance).
Defined.
