(* ===== verification/RateLimits.v ===== *)
(** * Limits of a request (internal/app/rate.go, limits.go, quota_backoff.go; store/hotpath.go)

    The per-minute window of a key, the daily token limits, the backoff of quota
    probes and the throttle of the key's last-use column.  All four are
    process-local maps under a mutex: one call is one atomic step. *)

From S2P Require Import Prelude.
From S2P Require Import Float64.
From S2P Require Import Database.
From S2P Require Import Schema.
From S2P Require Import RequestLogs.
From S2P Require Import ModelAccess.

(** ** Requests per minute *)

(* src/internal/app/rate.go:8-12 rateState *)
Record rateState := { requests : gmap string (list Z); lastSweep : Z }.

Definition no_requests : rateState := {| requests := ∅; lastSweep := 0 |}.

(** [for first < len(values) && values[first].Before(cutoff) { first++ }; values[first:]] *)
(* src/internal/app/rate.go:36-41 App.allowRate *)
Fixpoint live (cutoff : Z) (values : list Z) : list Z :=
  match values with
  | [] => []
  | t :: rest => if t <? cutoff then live cutoff rest else values
  end.

(** The sweep: keys without a live request go, the others keep their live tail. *)
(* src/internal/app/rate.go:23-34 App.allowRate *)
Definition sweep (st : rateState) (now cutoff : Z) : rateState :=
  {| requests := omap (λ timestamps, match live cutoff timestamps with
                                     | [] => None
                                     | kept => Some kept
                                     end) (requests st);
     lastSweep := now |}.

(* src/internal/app/rate.go:14-49 App.allowRate *)
Definition allowRate (st : rateState) (key : string) (limit now : Z) : bool * rateState :=
  if limit <=? 0 then (true, st)
  else
    let cutoff := now - minute in
    let st := if (lastSweep st =? 0) || (minute <=? time_sub now (lastSweep st))
              then sweep st now cutoff else st in
    let values := live cutoff (default [] (requests st !! key)) in
    if limit <=? Z.of_nat (length values)
    then (false, {| requests := <[key := values]> (requests st); lastSweep := lastSweep st |})
    else (true, {| requests := <[key := values ++ [now]]> (requests st); lastSweep := lastSweep st |}).

(** ** The limits of a request *)

(* src/internal/app/limits.go:47-50 requestLimitError *)
Record requestLimitError := { le_Code : string; le_Message : string }.

(** [Scan] into a zero struct leaves it zero when no row matches. *)
Definition scan_row {K V A : Type} `{Countable K} (tb : table tables K V) (k : K) (f : V → A) (zero : A) : DB A :=
  row ← attempt (first tb k);
  match row with
  | Ok v => mret (f v)
  | Err ErrRecordNotFound => mret zero
  | Err e => fail e
  end.

Section limits.
Context `{TimeZone}.

(* src/internal/store/store.go:481-502 DailyTokens *)
Definition DailyTokens (tenantID keyID : string) : DB (Z * Z) :=
  now ← time_now;
  tenantRow ← scan_row tenants tenantID (λ t, (t_TokensUsedToday t, t_TokensUsedOn t)) (0, None);
  keyRow ← scan_row api_keys keyID (λ k, (k_TokensUsedToday k, k_TokensUsedOn k)) (0, None);
  mret (dailyTokensForDay tenantRow.1 tenantRow.2 now, dailyTokensForDay keyRow.1 keyRow.2 now).

Definition reached (used : Z) (limit : option Z) : bool :=
  match limit with Some limit => limit <=? used | None => false end.

(* src/internal/app/limits.go:55-66 App.enforceLimits *)
Definition daily_limit (key : KeyContext) : DB (option requestLimitError) :=
  let k := kc_APIKey key in
  if bool_decide (is_Some (kc_TenantTokenLimit key)) || bool_decide (is_Some (k_TokenLimitDaily k)) then
    used ← DailyTokens (k_TenantID k) (k_ID k);
    if reached used.1 (kc_TenantTokenLimit key)
    then mret (Some {| le_Code := "tenant_daily_token_limit_exceeded";
                       le_Message := "Your account has reached its daily token limit. Wait for the daily reset." |})
    else if reached used.2 (k_TokenLimitDaily k)
    then mret (Some {| le_Code := "api_key_daily_token_limit_exceeded";
                       le_Message := "This API key has reached its daily token limit. Wait for the daily reset." |})
    else mret None
  else mret None.

(* src/internal/app/limits.go:54-76 App.enforceLimits *)
Definition enforceLimits (st : rateState) (key : KeyContext) : DB (option requestLimitError * rateState) :=
  daily ← daily_limit key;
  match daily with
  | Some e => mret (Some e, st)
  | None =>
      let k := kc_APIKey key in
      let limit := match k_RateLimitPerMinute k with Some n => Some n | None => kc_TenantRateLimit key end in
      match limit with
      | None => mret (None, st)
      | Some limit =>
          now ← time_now;
          let '(allowed, st) := allowRate st (k_ID k) limit now in
          mret (if allowed then None
                else Some {| le_Code := "api_key_rate_limit_exceeded";
                             le_Message := "This API key has reached its per-minute request limit. Try again later." |}, st)
      end
  end.
End limits.

(** ** Backoff of quota probes *)

(* src/internal/app/quota_backoff.go:20-24 quotaProbeAttempt *)
Record quotaProbeAttempt := { qp_running : bool; qp_delay : Z; qp_retryAt : Z }.

Definition no_attempt : quotaProbeAttempt := {| qp_running := false; qp_delay := 0; qp_retryAt := 0 |}.

(* src/internal/app/quota_backoff.go:27-40 quotaProbeBackoff.begin *)
Definition begin_probe (entries : gmap string quotaProbeAttempt) (id : string) (now : Z)
    : (bool * Z) * gmap string quotaProbeAttempt :=
  let entry := default no_attempt (entries !! id) in
  if qp_running entry || (now <? qp_retryAt entry) then ((false, qp_retryAt entry), entries)
  else ((true, 0), <[id := {| qp_running := true; qp_delay := qp_delay entry;
                              qp_retryAt := qp_retryAt entry |}]> entries).

(** How a probe ended: well or cancelled, or with an error that may carry the upstream's status and
    retry time. *)
Inductive probe_end := ProbeDone | ProbeFailed (upstream : option (Z * Z)).

(** The jitter is a random number up to a fifth of the delay. *)
(* src/internal/app/quota_backoff.go:42-63 quotaProbeBackoff.finish *)
Definition finish_probe (entries : gmap string quotaProbeAttempt) (id : string) (now : Z)
    (ended : probe_end) (provider : string) (random : Z) : Z * gmap string quotaProbeAttempt :=
  let entry := default no_attempt (entries !! id) in
  match ended with
  | ProbeDone => (0, delete id entries)
  | ProbeFailed upstream =>
      let minimum := if equal_fold provider "claude" || equal_fold provider "anthropic"
                     then 5 * minute else minute in
      let delay := Z.min (Z.max minimum (mul64 (qp_delay entry) 2)) (60 * minute) in
      let retryAt := now + (delay + random mod (Z.quot delay 5 + 1)) in
      let retryAt :=
        match upstream with
        | Some (statusCode, upstreamRetry) =>
            if ((statusCode =? 429) || (statusCode =? 503)) && (retryAt <? upstreamRetry)
            then upstreamRetry else retryAt
        | None => retryAt
        end in
      (retryAt, <[id := {| qp_running := false; qp_delay := delay; qp_retryAt := retryAt |}]> entries)
  end.

(** ** Last use of a key *)

(* src/internal/store/hotpath.go:12-16 keyTouchState *)
Record keyTouchState := { touch_last : gmap string Z; touch_minGap : Z }.

(* src/internal/store/hotpath.go:18-20 newKeyTouchState *)
Definition newKeyTouchState : keyTouchState := {| touch_last := ∅; touch_minGap := minute |}.

(* src/internal/store/hotpath.go:22-41 keyTouchState.ShouldWrite *)
Definition ShouldWrite (t : option keyTouchState) (id : string) (now : Z) : bool * option keyTouchState :=
  match t with
  | None => (true, t)
  | Some s =>
      if bool_decide (id = "") then (true, t)
      else if match touch_last s !! id with
              | Some prev => time_sub now prev <? touch_minGap s
              | None => false
              end
      then (false, t)
      else
        let last := <[id := now]> (touch_last s) in
        let last :=
          if bool_decide (4096 < size last)%nat
          then filter (λ entry : string * Z, now - touch_minGap s ≤ entry.2) last else last in
        (true, Some {| touch_last := last; touch_minGap := touch_minGap s |})
  end.
