(* ===== verification/RateGuarantees.v ===== *)
(** * What the limits of a request guarantee

    The per-minute limiter answers like a log of every accepted request, probes of
    one credential never overlap, and a key's last use is written at most once a
    minute. *)

From S2P Require Import Prelude.
From S2P Require Import Schema.
From S2P Require Import RateLimits.

(** ** The sliding window *)

(** The reference: the log of all accepted requests of each key. *)
Abbreviation accepted_log := (gmap string (list Z)).

Definition in_last_minute (now : Z) (log : list Z) : list Z := filter (λ t, now - minute ≤ t) log.

(** Fewer than [limit] requests accepted in the minute before, or no limit at all. *)
Definition reference (log : accepted_log) (key : string) (limit now : Z) : bool * accepted_log :=
  if limit <=? 0 then (true, log)
  else
    let accepted := default [] (log !! key) in
    if Z.of_nat (length (in_last_minute now accepted)) <? limit
    then (true, <[key := accepted ++ [now]]> log) else (false, log).

Definition call := (string * Z * Z)%type.

(** The answers of a sequence of calls. *)
Fixpoint answers {S : Type} (f : S → string → Z → Z → bool * S) (s : S) (calls : list call) : list bool :=
  match calls with
  | [] => []
  | (key, limit, now) :: calls => let '(b, s) := f s key limit now in b :: answers f s calls
  end.

(** The clock does not run backwards from [last] on. *)
Fixpoint forward (last : Z) (calls : list call) : Prop :=
  match calls with [] => True | (_, _, now) :: calls => last ≤ now ∧ forward now calls end.

(** A stored list is the live part of the log: what is missing was older than a minute. *)
Definition tail_of (last : Z) (log stored : list Z) : Prop :=
  ∃ old, log = old ++ stored ∧ Forall (λ t, t < last - minute) old.

Definition tracks (st : rateState) (log : accepted_log) (last : Z) : Prop :=
  ∀ key, let l := default [] (log !! key) in
    Sorted Z.le l ∧ Forall (λ t, t ≤ last) l ∧ tail_of last l (default [] (requests st !! key)).

Lemma live_split cutoff values :
  ∃ old, values = old ++ live cutoff values ∧ Forall (λ t, t < cutoff) old.
Proof.
  induction values as [|t rest (old & Heq & Hold)]; cbn.
  - exists []. split; [done|apply Forall_nil_2].
  - destruct (Z.ltb_spec t cutoff).
    + exists (t :: old). split; [cbn; congruence|by apply list.Forall_cons_2].
    + exists []. split; [done|apply Forall_nil_2].
Qed.

(** On a sorted list the live tail is what is not older than the cutoff. *)
Lemma live_filter cutoff values : Sorted Z.le values → live cutoff values = filter (λ t, cutoff ≤ t) values.
Proof.
  induction values as [|t rest IH]; intros Hs; [done|]. cbn [live].
  apply Sorted_StronglySorted in Hs; [|intros ???; lia].
  inversion Hs as [|? ? Hs' Hall]; subst. rewrite filter_cons. destruct (Z.ltb_spec t cutoff).
  - rewrite decide_False by lia. apply IH. by apply StronglySorted_Sorted.
  - rewrite decide_True by lia. f_equal. clear -Hall H. induction rest as [|u rest IH]; [done|].
    apply list.Forall_cons in Hall as [Hu Hall]. rewrite filter_cons, decide_True by lia. by rewrite <- IH.
Qed.

Lemma sorted_app_r (l l' : list Z) : Sorted Z.le (l ++ l') → Sorted Z.le l'.
Proof. induction l as [|x l IH]; [done|]. cbn. intros Hs. apply IH. by inversion Hs. Qed.

Lemma sorted_snoc (l : list Z) x : Sorted Z.le l → Forall (λ t, t ≤ x) l → Sorted Z.le (l ++ [x]).
Proof.
  intros Hs Hall. apply StronglySorted_Sorted, StronglySorted_app_2.
  - intros a b Ha ->%list_elem_of_singleton. rewrite list.Forall_forall in Hall. by apply Hall.
  - apply Sorted_StronglySorted; [intros ???; lia|done].
  - constructor; constructor.
Qed.

Lemma tail_of_live last now l stored :
  last ≤ now → tail_of last l stored → tail_of now l (live (now - minute) stored).
Proof.
  intros Hle (old & -> & Hold). destruct (live_split (now - minute) stored) as (old' & Heq & Hold').
  exists (old ++ old'). split; [by rewrite <- app_assoc, <- Heq|]. apply Forall_app. split; [|done].
  eapply list.Forall_impl; [exact Hold|]. intros t Ht. cbn in *. lia.
Qed.

Lemma tail_of_mono last now l stored : last ≤ now → tail_of last l stored → tail_of now l stored.
Proof.
  intros Hle (old & -> & Hold). exists old. split; [done|].
  eapply list.Forall_impl; [exact Hold|]. intros t Ht. cbn in *. lia.
Qed.

(** What the window counts. *)
Lemma live_counts last now l stored :
  last ≤ now → Sorted Z.le l → tail_of last l stored →
  live (now - minute) stored = in_last_minute now l.
Proof.
  intros Hle Hs (old & -> & Hold). rewrite live_filter by by eapply sorted_app_r.
  unfold in_last_minute. rewrite list.filter_app.
  assert (filter (λ t, now - minute ≤ t) old = []) as ->; [|done].
  clear -Hold Hle. induction old as [|t old IH]; [done|]. apply list.Forall_cons in Hold as [Ht Hold].
  rewrite filter_cons, decide_False by lia. by apply IH.
Qed.

Lemma sweep_tracks st log last now :
  last ≤ now → tracks st log last → tracks (sweep st now (now - minute)) log now.
Proof.
  intros Hle Ht key. destruct (Ht key) as (Hs & Hall & Htail). split; [done|]. split.
  { eapply list.Forall_impl; [exact Hall|]. intros t ?. cbn in *. lia. }
  apply (tail_of_live last now) in Htail; [|done]. cbn [sweep requests]. rewrite lookup_omap.
  destruct (requests st !! key) as [v|]; cbn in *; [|done]. by destruct (live (now - minute) v).
Qed.

Lemma tracks_mono st log last now : last ≤ now → tracks st log last → tracks st log now.
Proof.
  intros Hle Ht key. destruct (Ht key) as (Hs & Hall & Htail). split; [done|]. split.
  - eapply list.Forall_impl; [exact Hall|]. intros t ?. cbn in *. lia.
  - by eapply tail_of_mono.
Qed.

Lemma allowRate_tracks st log last key limit now :
  last ≤ now → tracks st log last →
  let '(b, st') := allowRate st key limit now in
  let '(b', log') := reference log key limit now in
  b = b' ∧ tracks st' log' now.
Proof.
  intros Hle Ht. unfold allowRate, reference. destruct (Z.leb_spec limit 0) as [|Hlimit].
  { split; [done|]. by eapply tracks_mono. }
  cbv zeta.
  set (st1 := if (lastSweep st =? 0) || _ then _ else st).
  assert (tracks st1 log now) as Ht1.
  { subst st1. destruct (_ || _); [by eapply sweep_tracks|by eapply tracks_mono]. }
  clearbody st1. clear Ht. destruct (Ht1 key) as (Hs & Hall & Htail).
  rewrite (live_counts now now _ _ ltac:(lia) Hs Htail).
  pose proof (tail_of_live now now _ _ ltac:(lia) Htail) as Hlive.
  rewrite (live_counts now now _ _ ltac:(lia) Hs Htail) in Hlive.
  set (l := default [] (log !! key)) in *.
  destruct (Z.leb_spec limit (Z.of_nat (length (in_last_minute now l))));
    destruct (Z.ltb_spec (Z.of_nat (length (in_last_minute now l))) limit); try lia;
    (split; [done|]); intros key'; cbn [requests].
  - destruct (decide (key = key')) as [<-|Hne]; [|rewrite lookup_insert_ne by done; apply Ht1].
    rewrite lookup_insert_eq. cbn. by split_and!.
  - destruct (decide (key = key')) as [<-|Hne]; [|rewrite !lookup_insert_ne by done; apply Ht1].
    rewrite !lookup_insert_eq. cbn. split_and!.
    + by apply sorted_snoc.
    + apply Forall_app. split; [done|]. apply list.Forall_singleton. lia.
    + destruct Hlive as (old & Heq & Hold). exists old. split; [|done]. by rewrite Heq, <- app_assoc at 1.
Qed.

(** C33: The per-minute limiter is exact.  It keeps only the last minute of each key and sweeps the
    keys that went quiet, yet as long as the clock does not run backwards it answers every
    sequence of calls, of any keys with any limits, exactly like a log that never forgets: a
    request is let through when its key has no limit, or when fewer requests than the limit were
    let through in the minute before it. *)
Theorem rate_limiter_is_exact calls :
  forward 0 calls → answers allowRate no_requests calls = answers reference ∅ calls.
Proof.
  assert (∀ st log last, tracks st log last → forward last calls →
    answers allowRate st calls = answers reference log calls) as Hgen.
  { induction calls as [|[[key limit] now] calls IH]; intros st log last Ht Hf; [done|].
    destruct Hf as [Hle Hf]. cbn [answers].
    pose proof (allowRate_tracks st log last key limit now Hle Ht) as Hstep.
    destruct (allowRate st key limit now) as [b st'], (reference log key limit now) as [b' log'].
    destruct Hstep as [-> Ht']. f_equal. by eapply IH. }
  apply Hgen. intros key. rewrite !lookup_empty. cbn. split; [constructor|].
  split; [apply Forall_nil_2|]. exists []. split; [done|apply Forall_nil_2].
Qed.

Lemma rate_limiter_is_exact_witness :
let calls := [("k", 2, 1); ("k", 2, 2); ("q", 1, 3); ("k", 2, 60); ("k", 2, minute + 2); ("k", 0, minute + 3)] in
answers allowRate no_requests calls = [true; true; true; false; true; true] ∧
answers allowRate no_requests calls = answers reference ∅ calls.
Proof.
  cbv zeta. split; [vm_compute; reflexivity|]. apply rate_limiter_is_exact. cbn. unfold minute, second. lia.
Defined.

(** ** Probes *)

(** Delays between a minute and an hour, for whatever was probed. *)
Definition backoff_ok (entries : gmap string quotaProbeAttempt) : Prop :=
  map_Forall (λ _ entry, 0 ≤ qp_delay entry ≤ 60 * minute) entries.

Definition minimum_delay (provider : string) : Z :=
  if equal_fold provider "claude" || equal_fold provider "anthropic" then 5 * minute else minute.

Lemma minimum_delay_bounds provider : minute ≤ minimum_delay provider ≤ 5 * minute.
Proof. unfold minimum_delay, minute, second. case_if; lia. Qed.

Lemma doubled entry : 0 ≤ qp_delay entry ≤ 60 * minute → mul64 (qp_delay entry) 2 = qp_delay entry * 2.
Proof. intros Hd. unfold mul64. apply wrap64_id. unfold minute, second in Hd. int64_lia. Qed.

Lemma delay_of entries id : backoff_ok entries → 0 ≤ qp_delay (default no_attempt (entries !! id)) ≤ 60 * minute.
Proof.
  intros Hok. destruct (entries !! id) as [entry|] eqn:He; cbn; [by apply (Hok id)|]. unfold minute, second. lia.
Qed.

(** The delay after one more failure. *)
Definition next_delay (provider : string) (delay : Z) : Z :=
  Z.min (Z.max (minimum_delay provider) (delay * 2)) (60 * minute).

(** Failures of the probes of one credential, with their instants and random numbers. *)
Definition fail_all (entries : gmap string quotaProbeAttempt) (id provider : string)
    (failures : list (Z * Z)) : gmap string quotaProbeAttempt :=
  foldl (λ entries failure, (finish_probe entries id failure.1 (ProbeFailed None) provider failure.2).2)
    entries failures.

Lemma fail_all_delay id provider failures entries :
  backoff_ok entries →
  backoff_ok (fail_all entries id provider failures) ∧
  qp_delay (default no_attempt (fail_all entries id provider failures !! id)) =
    Nat.iter (length failures) (next_delay provider) (qp_delay (default no_attempt (entries !! id))).
Proof.
  revert entries. induction failures as [|[now random] failures IH] using rev_ind; intros entries Hok; [done|].
  unfold fail_all. rewrite foldl_app. cbn [foldl].
  change (foldl _ entries failures) with (fail_all entries id provider failures).
  destruct (IH entries Hok) as [Hok' Hd]. pose proof (delay_of _ id Hok') as Hrange.
  unfold finish_probe. cbv zeta. cbn [snd fst]. rewrite (doubled _ Hrange). rewrite Hd in Hrange |- *.
  change (if equal_fold provider "claude" || equal_fold provider "anthropic" then 5 * minute else minute)
    with (minimum_delay provider).
  pose proof (minimum_delay_bounds provider) as Hmin. split.
  - apply map_Forall_insert_2; [|done]. cbn [qp_delay]. unfold minute, second in *. lia.
  - rewrite lookup_insert_eq. cbn. rewrite length_app, Nat.add_1_r. cbn. reflexivity.
Qed.

Lemma iterated_delay provider n :
  Nat.iter (S n) (next_delay provider) 0 = Z.min (minimum_delay provider * 2 ^ Z.of_nat n) (60 * minute).
Proof.
  pose proof (minimum_delay_bounds provider) as Hmin. unfold minute, second in *. induction n as [|n IH].
  - cbn. unfold next_delay, minute, second. lia.
  - change (Nat.iter (S (S n)) (next_delay provider) 0)
      with (next_delay provider (Nat.iter (S n) (next_delay provider) 0)). rewrite IH. unfold next_delay, minute, second.
    rewrite Nat2Z.inj_succ, Z.pow_succ_r by lia.
    pose proof (Z.pow_pos_nonneg 2 (Z.of_nat n) ltac:(lia) ltac:(lia)). nia.
Qed.

(** Probes of a credential are serialised and back off.  While a probe runs every other probe
    of the same credential is refused; after the n-th failure in a row the next one has to wait
    the minimum of its provider doubled n-1 times, but at most an hour, plus at most a fifth of it
    (or longer when the upstream asks for it), and is refused until then; a success forgets it
    all, and no credential delays another. *)
Theorem quota_probes_back_off entries id provider failures now random :
  entries !! id = None → backoff_ok entries →
  let failed := fail_all entries id provider (failures ++ [(now, random)]) in
  let delay := Z.min (minimum_delay provider * 2 ^ Z.of_nat (length failures)) (60 * minute) in
  (∀ t, t < now + delay → (begin_probe failed id t).1.1 = false) ∧
  (∀ t, now + delay + delay / 5 ≤ t → (begin_probe failed id t).1.1 = true) ∧
  (∀ t, (begin_probe failed id t).1.1 = true →
     ∀ t', (begin_probe (begin_probe failed id t).2 id t').1.1 = false) ∧
  (∀ id' t, id' ≠ id → begin_probe failed id' t = ((begin_probe entries id' t).1, (begin_probe failed id' t).2)) ∧
  (∀ t r, (finish_probe failed id t ProbeDone provider r).2 !! id = None).
Proof.
  intros Hnone Hok. cbv zeta. destruct (fail_all_delay id provider failures entries Hok) as [Hok' Hd].
  destruct (fail_all_delay id provider (failures ++ [(now, random)]) entries Hok) as [_ Hd'].
  rewrite Hnone, length_app, Nat.add_1_r in Hd'. cbn [default no_attempt qp_delay] in Hd'.
  rewrite iterated_delay in Hd'. set (delay := Z.min _ _) in *.
  assert (Hlast : ∃ r, 0 ≤ r ≤ delay / 5 ∧
    fail_all entries id provider (failures ++ [(now, random)]) !! id =
      Some {| qp_running := false; qp_delay := delay; qp_retryAt := now + (delay + r) |}).
  { revert Hd'. unfold fail_all. rewrite foldl_app. cbn [foldl]. unfold finish_probe. cbv zeta.
    cbn [fst snd]. rewrite !lookup_insert_eq. cbn. intros ->. eexists. split; [|done].
    assert (0 ≤ delay).
    { pose proof (minimum_delay_bounds provider). unfold minute, second in *.
      pose proof (Z.pow_nonneg 2 (Z.of_nat (length failures))). nia. }
    rewrite Z.quot_div_nonneg by lia. pose proof (Z.div_pos delay 5).
    pose proof (Z.mod_pos_bound random (delay / 5 + 1)). lia. }
  destruct Hlast as (r & Hr & Hlast).
  assert (Hother : ∀ id', id' ≠ id →
    fail_all entries id provider (failures ++ [(now, random)]) !! id' = entries !! id').
  { intros id' Hne. clear -Hne. unfold fail_all. generalize (failures ++ [(now, random)]) as l. intros l.
    induction l as [|f l IH] using rev_ind; [done|]. rewrite foldl_app. cbn. by rewrite lookup_insert_ne. }
  set (failed := fail_all _ _ _ _) in *. clearbody failed.
  split_and!.
  - intros t Ht. unfold begin_probe. rewrite Hlast. cbn.
    destruct (Z.ltb_spec t (now + (delay + r))); [done|lia].
  - intros t Ht. unfold begin_probe. rewrite Hlast. cbn.
    destruct (Z.ltb_spec t (now + (delay + r))); [lia|done].
  - intros t Ht t'. unfold begin_probe in Ht |- *. rewrite Hlast in Ht |- *. cbn in Ht |- *.
    destruct (t <? now + (delay + r)); [done|]. cbn. by rewrite lookup_insert_eq.
  - intros id' t Hne. unfold begin_probe. rewrite Hother by done.
    by destruct (qp_running _ || _).
  - intros t rr. unfold finish_probe. apply lookup_delete_eq.
Qed.

Lemma quota_probes_back_off_witness :
let failed := fail_all ∅ "cred" "Claude" [(0, 7); (10 * minute, 8)] in
(begin_probe failed "cred" (15 * minute)).1.1 = false ∧ (begin_probe failed "cred" (22 * minute)).1.1 = true.
Proof.
  destruct (quota_probes_back_off ∅ "cred" "Claude" [(0, 7)] (10 * minute) 8) as (H1 & H2 & _);
    [done|apply map_Forall_empty|].
  split; [apply H1; by vm_compute|apply H2; vm_compute; congruence].
Defined.

(** ** Touches *)

(** The reference never forgets a key. *)
Definition reference_touch (last : gmap string Z) (id : string) (minGap now : Z) : bool * gmap string Z :=
  if bool_decide (id = "") then (true, last)
  else if match last !! id with Some prev => now - prev <? minGap | None => false end
  then (false, last) else (true, <[id := now]> last).

Definition touch (s : keyTouchState) (id : string) (_ now : Z) : bool * keyTouchState :=
  let '(b, s') := ShouldWrite (Some s) id now in (b, default s s').

(** What was forgotten is too old to matter. *)
Definition touched (s : keyTouchState) (log : gmap string Z) (last : Z) : Prop :=
  ∀ id, match log !! id with
        | Some at_ => at_ ≤ last ∧ (touch_last s !! id = Some at_ ∨
                        touch_last s !! id = None ∧ at_ < last - touch_minGap s)
        | None => touch_last s !! id = None
        end.

Lemma time_sub_gap now prev gap :
  prev ≤ now → 0 ≤ gap ≤ max_int64 → (time_sub now prev <? gap) = (now - prev <? gap).
Proof.
  intros Hle Hgap. unfold time_sub. apply Bool.eq_iff_eq_true. rewrite !Z.ltb_lt. int64_lia.
Qed.

Lemma touch_tracks s log last id ignored now :
  last ≤ now → 0 ≤ touch_minGap s ≤ max_int64 → touched s log last →
  let '(b, s') := touch s id ignored now in
  let '(b', log') := reference_touch log id (touch_minGap s) now in
  b = b' ∧ touched s' log' now ∧ touch_minGap s' = touch_minGap s.
Proof.
  intros Hle Hgap Ht. unfold touch, ShouldWrite, reference_touch.
  assert (Hnow : touched s log now).
  { intros id'. specialize (Ht id'). destruct (log !! id'); [|done]. destruct Ht as [? [?|[??]]]; split; try lia; auto.
    right. split; [done|lia]. }
  case_bool_decide as Hid; [done|].
  assert (match touch_last s !! id with Some prev => time_sub now prev <? touch_minGap s | None => false end =
    match log !! id with Some prev => now - prev <? touch_minGap s | None => false end) as ->.
  { specialize (Ht id). destruct (log !! id) as [at_|]; [|by rewrite Ht].
    destruct Ht as [Hat [->|[-> Hold]]]; [by apply time_sub_gap; [lia|]|]. symmetry. apply Z.ltb_ge. lia. }
  destruct (match log !! id with Some prev => _ | None => false end); [done|].
  cbn. split; [done|]. split; [|done]. intros id'. cbn.
  assert (Hins : match <[id := now]> log !! id' with
    | Some at_ => at_ ≤ now ∧ (<[id := now]> (touch_last s) !! id' = Some at_ ∨
        <[id := now]> (touch_last s) !! id' = None ∧ at_ < now - touch_minGap s)
    | None => <[id := now]> (touch_last s) !! id' = None end).
  { destruct (decide (id = id')) as [<-|Hne]; [rewrite !lookup_insert_eq; split; [lia|by left]|].
    rewrite !lookup_insert_ne by done. apply Hnow. }
  case_bool_decide; [|exact Hins].
  destruct (<[id := now]> log !! id') as [at_|].
  - destruct Hins as [Hat [Hs|[Hs Hold]]]; (split; [done|]).
    + destruct (decide (now - touch_minGap s ≤ at_)).
      * left. apply map_lookup_filter_Some. by split.
      * right. split; [|lia]. apply map_lookup_filter_None. right. intros x Hx. cbn.
        by assert (x = at_) as -> by congruence.
    + right. split; [|done]. apply map_lookup_filter_None. by left.
  - apply map_lookup_filter_None. by left.
Qed.

(** The last use of a key is written at most once a minute, and no needed write is skipped.
    Although the map forgets old keys when it grows past 4096, for a clock that does not run
    backwards every sequence of uses is answered as by a map that never forgets: a write happens
    exactly when the key has none in the minute before. *)
Theorem touches_are_throttled calls :
  forward 0 calls →
  answers touch newKeyTouchState calls = answers (λ log id _ now, reference_touch log id minute now) ∅ calls.
Proof.
  assert (∀ s log last, touch_minGap s = minute → touched s log last → forward last calls →
    answers touch s calls = answers (λ log id _ now, reference_touch log id minute now) log calls) as Hgen.
  { induction calls as [|[[id ignored] now] calls IH]; intros s log last Hgap Ht Hf; [done|].
    destruct Hf as [Hle Hf]. cbn [answers].
    pose proof (touch_tracks s log last id ignored now Hle) as Hstep. rewrite Hgap in Hstep.
    specialize (Hstep ltac:(unfold minute, second; int64_lia) Ht).
    destruct (touch s id ignored now) as [b s'], (reference_touch log id minute now) as [b' log'].
    destruct Hstep as (-> & Ht' & Hgap'). f_equal. eapply IH; [congruence|exact Ht'|exact Hf]. }
  apply Hgen; [done|]. intros id. by rewrite lookup_empty.
Qed.

Lemma touches_are_throttled_witness :
let calls := [("k", 0, 1); ("k", 0, 2); ("q", 0, 3); ("k", 0, minute + 1)] in
answers touch newKeyTouchState calls = [true; false; true; true] ∧
answers touch newKeyTouchState calls = answers (λ log id _ now, reference_touch log id minute now) ∅ calls.
Proof.
  cbv zeta. split; [vm_compute; reflexivity|]. apply touches_are_throttled. cbn. unfold minute, second. lia.
Defined.
