(* ===== verification/Admitting.v ===== *)
(** * What admission decides

    The share a window may reserve, who pays for a request that was admitted,
    and why a request was refused. *)

From S2P Require Import Prelude.
From S2P Require Import Float64.
From S2P Require Import Database.
From S2P Require Import Schema.
From S2P Require Import QuotaMath.
From S2P Require Import QuotaWindows.
From S2P Require Import ModelAccess.
From S2P Require Import RequestLogs.
From S2P Require Import Reservation.
From S2P Require Import Settlement.
From S2P Require Import Sample.
From S2P Require Import Books.
From S2P Require Import Accounting.
From S2P Require Import Machine.
From S2P Require Import History.
From S2P Require Import Guarantees.
From S2P Require Import Effects.

(** C12: Reserving in a quota window respects the child's share.  Over well-formed windows and for
    a positive amount, a reservation that commits writes one row only, the window of that child
    and kind, in the parent's current generation and with the child's fraction of the parent's
    limit, which is positive; it keeps the usage of the same generation and adds the amount to
    what is reserved, or starts from zero when the parent has moved on (never back); and
    afterwards settled plus reserved is within the limit, unless that sum leaves int64. *)
Theorem reserve_window_within_share E quota child pw t :
  0 < quota ≤ max_int64 → keyed window_key (tb_child_windows t) →
  (∀ k w, tb_child_windows t !! k = Some w → window_row_ok w) →
  success E (reserve_window quota child pw) t (λ q t', ∃ w,
    q = {| qr_Kind := pw_Kind pw; qr_ResetsAt := pw_ResetsAt pw |} ∧
    t' = t <| tb_child_windows := <[(c_ID child, pw_Kind pw) := w]> (tb_child_windows t) |> ∧
    window_key w = (c_ID child, pw_Kind pw) ∧ w_ResetsAt w = pw_ResetsAt pw ∧
    w_LimitNanoUSD w = fraction (pw_LimitNanoUSD pw) (c_AllocationPPM child) ∧
    0 < w_LimitNanoUSD w ∧
    match tb_child_windows t !! (c_ID child, pw_Kind pw) with
    | Some old =>
        w_ResetsAt old ≤ w_ResetsAt w ∧
        (if bool_decide (w_ResetsAt old = w_ResetsAt w)
         then w_SettledNanoUSD w = w_SettledNanoUSD old ∧
              w_ReservedNanoUSD w = w_ReservedNanoUSD old + quota
         else w_SettledNanoUSD w = 0 ∧ w_ReservedNanoUSD w = quota)
    | None => w_SettledNanoUSD w = 0 ∧ w_ReservedNanoUSD w = quota
    end ∧
    (w_SettledNanoUSD w + w_ReservedNanoUSD w ≤ max_int64 →
     w_SettledNanoUSD w + w_ReservedNanoUSD w ≤ w_LimitNanoUSD w)).
Proof.
  intros Hq Hk Hrows. apply success_reserve_window; [done|done|done|].
  intros w [[Hkey Hgen Hlim Hpos Huse Hwithin] Hok%window_row_ok_iff].
  exists w. split_and!; try done. intros Hmax.
  rewrite wrap64_id in Hwithin; [done|]. int64_lia.
Qed.

(** Half of 2000 is the share: 300 fit. *)
Lemma reserve_window_within_share_witness :
  keyed window_key (tb_child_windows shared_store) ∧
  let '(r, t', _) := reserve_window 300 half_share weekly calm shared_store 0%nat in
  r = Ok {| qr_Kind := "weekly"; qr_ResetsAt := week |} ∧
  ∃ w, t' = shared_store <| tb_child_windows := <[("share", "weekly") := w]> (∅ : window_map) |> ∧
    w_LimitNanoUSD w = 1000 ∧ w_ReservedNanoUSD w = 300.
Proof.
  assert (Hk : keyed window_key (tb_child_windows shared_store)) by (by intros k w).
  split; [exact Hk|].
  pose proof (reserve_window_within_share calm 300 half_share weekly shared_store ltac:(int64_lia) Hk
    ltac:(by intros k w)) as Hw.
  specialize (Hw 0%nat).
  destruct (reserve_window 300 half_share weekly calm shared_store 0%nat) as [[[a|e] t'] c] eqn:Hrun;
    [|by vm_compute in Hrun].
  destruct Hw as [[_ Hf]|(w & -> & -> & _ & _ & Hlim & _ & Huse & _)];
    [by rewrite (quiet_not_faulty calm _ _ calm_quiet) in Hf|].
  split; [done|]. exists w. split; [done|]. split; [by rewrite Hlim|by destruct Huse].
Defined.

(** ** Who pays *)

(** What a new reservation says about its funding, and what it did to the tenant. *)
Record funded (input : AdmissionInput) (t t' : tables) (r : RequestReservation) (tn tn' : Tenant) : Prop := {
  fd_row : tb_reservations t' !! ai_RequestID input = Some r;
  fd_tenant : tb_tenants t !! k_TenantID (kc_APIKey (ai_Key input)) = Some tn;
  fd_tenant' : tb_tenants t' !! k_TenantID (kc_APIKey (ai_Key input)) = Some tn';
  fd_enabled : t_Enabled tn = true;
  fd_owner : r_TenantID r = k_TenantID (kc_APIKey (ai_Key input));
  fd_active : is_active r = true ∧ r_ActualNanoUSD r = None;
  fd_source :
    (r_QuotaReservedNanoUSD r = 0 ∧ r_BalanceReservedNanoUSD r = ai_BalanceReserve input) ∨
    (r_QuotaReservedNanoUSD r = ai_QuotaReserve input ∧ 0 < ai_QuotaReserve input ∧
     r_QuotaWindows r ≠ [] ∧ is_Some (r_ChildSubscriptionID r) ∧ r_BalanceReservedNanoUSD r = 0);
  fd_balance : t_BalanceNanoUSD tn' = t_BalanceNanoUSD tn - r_BalanceReservedNanoUSD r;
  fd_solvent : 0 ≤ t_BalanceNanoUSD tn'
}.


Section funding.
Context (E : env) (t : tables) (input : AdmissionInput).
Context (Hbooks : books t) (Hin : input_ok input).
Context (Hnew : tb_reservations t !! ai_RequestID input = None).

(** What one successful attempt at a candidate, or at the balance, leaves behind. *)
Definition admission_by (candidate : option SubscriptionCandidate) (ad : Admission) (t' : tables) : Prop :=
  ∃ r tn tn', funded input t t' r tn tn' ∧ ad = admissionFromReservation r ∧
    match candidate with
    | None => r_ChildSubscriptionID r = None ∧ tb_child_windows t' = tb_child_windows t
    | Some candidate => paid_through t candidate r
    end.

Lemma reserveCandidate_funded x candidate :
  wp x E (reserveCandidate input candidate) t (λ a t',
    match a with Ok ad => admission_by candidate ad t' | Err _ => t' = t end).
Proof.
  destruct Hin as [Hbal Hq].
  apply (success_reserveCandidate x E input candidate t (admission_by candidate)); [done|done|congruence|].
  intros r tn entryID m Ha Hm Hok Htn Hnone He Hle Hc.
  destruct (admit_tables t r tn entryID m) as (Hres & Hwin & _).
  pose proof (filed_tenants _ (bk_filed _ Hbooks) _ _ Htn) as Htid. cbn in Htid.
  assert (Hpos : 0 ≤ r_BalanceReservedNanoUSD r).
  { destruct Ha as [_ _ _ _ [(_ & _ & ->)|(_ & _ & _ & _ & ->)]]; lia. }
  assert (Hrange : in_int64 (t_BalanceNanoUSD tn)).
  { rewrite (tb_balance _ (bk_tenants _ Hbooks) _ _ Htn). apply wrap64_in_range. }
  assert (Htn' : ∃ tn', tb_tenants (admit_spec r tn entryID m t) !! r_TenantID r = Some tn' ∧
            t_BalanceNanoUSD tn' = t_BalanceNanoUSD tn - r_BalanceReservedNanoUSD r).
  { unfold admit_spec. destruct (Z.ltb_spec 0 (r_BalanceReservedNanoUSD r)).
    - eexists. cbn. rewrite Htid, lookup_insert_eq. split; [done|]. cbn.
      unfold add64. autorewrite with wrap. apply wrap64_id. int64_lia.
    - exists tn. split; [done|]. lia. }
  destruct Htn' as (tn' & Htn' & Hbal'). destruct Ha as [Hid Hten Hact Hun Hfund].
  exists r, tn, tn'. split_and!; [|done|].
  - rewrite Hten in *. split; try done.
    + rewrite Hres, <- Hid. apply lookup_insert_eq.
    + destruct Hfund as [(? & ? & ?)|?]; [left; by split|by right].
    + rewrite Hbal'. lia.
  - destruct candidate; [done|]. rewrite Hwin. exact Hc.
Qed.

(** A candidate that admission goes past. *)
Definition passed_over (candidate : SubscriptionCandidate) : Prop :=
  (ps_CapacityMode (sc_Parent candidate) ≠ ParentCapacityUnmetered ∧ ai_PriceConfigured input = false) ∨
  ∃ n e, (reserveCandidate input (Some candidate) E t n).1.1 = Err e ∧
         (e = ErrSubscriptionUnavailable ∨ e = ErrSubscriptionExhausted).

Lemma try_candidates_first_fit candidates : ∀ u p e n ad t' c,
  try_candidates input candidates u p e E t n = (Ok ad, t', c) →
  ∃ skipped i rest, candidates = skipped ++ i :: rest ∧ Forall passed_over skipped ∧
    (ps_CapacityMode (sc_Parent i) = ParentCapacityUnmetered ∨ ai_PriceConfigured input = true) ∧
    admission_by (Some i) ad t'.
Proof.
  induction candidates as [|i candidates IH]; intros u p e n ad t' c; cbn [try_candidates]; [done|].
  assert (Hskip : ∀ u p e n c, passed_over i → try_candidates input candidates u p e E t n = (Ok ad, t', c) →
    ∃ skipped j rest, i :: candidates = skipped ++ j :: rest ∧ Forall passed_over skipped ∧
    (ps_CapacityMode (sc_Parent j) = ParentCapacityUnmetered ∨ ai_PriceConfigured input = true) ∧
    admission_by (Some j) ad t').
  { intros u' p' e' n' c' Hi Hrun. destruct (IH _ _ _ _ _ _ _ Hrun) as (skipped & j & rest & -> & Hs & Hj).
    exists (i :: skipped), j, rest. split; [done|]. split; [by constructor|done]. }
  destruct (negb (bool_decide _) && negb _) eqn:Hprice.
  { intros Hrun. eapply Hskip; [|exact Hrun]. left. by reflect_bools. }
  pose proof (reserveCandidate_funded Direct (Some i) n) as Hw.
  unfold mbind, M_bind, attempt.
  destruct (reserveCandidate input (Some i) E t n) as [[a t1] c1] eqn:Hrun.
  destruct Hw as [[? _]|Hw]; [done|]. destruct a as [ad'|err].
  - cbn. intros [= -> -> _]. exists [], i, candidates. split; [done|]. split; [done|]. split; [|done].
    apply andb_false_iff in Hprice as [Hp|Hp]; reflect_bools; [by left|by right].
  - subst t1.
    assert (Hpass : err = ErrSubscriptionUnavailable ∨ err = ErrSubscriptionExhausted → passed_over i).
    { intros He. right. exists n, err. by rewrite Hrun. }
    destruct err; try done.
    + destruct (try_candidates input candidates true p e E t (n + c1)%nat) as [[a2 t2] c2] eqn:Hr2.
      intros [= -> -> _]. eapply Hskip; [apply Hpass; by left|exact Hr2].
    + destruct (try_candidates input candidates u p true E t (n + c1)%nat) as [[a2 t2] c2] eqn:Hr2.
      intros [= -> -> _]. eapply Hskip; [apply Hpass; by right|exact Hr2].
Qed.
End funding.

(** The candidates at an instant, highest priority first. *)
Definition lists_candidates (input : AdmissionInput) (now : Z) (t : tables)
    (candidates : list SubscriptionCandidate) (assigned unavailable : bool) : Prop :=
  candidates_of (k_TenantID (kc_APIKey (ai_Key input))) (ai_Model input) now t
    candidates assigned unavailable.

(** C6: A request that is admitted is paid for, by the right party.  From any reachable state, an
    admission of a new request that succeeds stores one active reservation for an enabled tenant
    and leaves that tenant's balance non-negative, reduced by exactly the amount held: the balance
    estimate, or nothing when a subscription holds the quota estimate in at least one window.
    The balance alone pays only when, at that instant, no active subscription of the tenant
    covers the model and none that might is broken; otherwise the request goes to the first
    usable subscription, in order of priority, that is neither metered without a price nor
    refused as unavailable or exhausted; every one before it was passed over for these reasons. *)
Theorem admission_charges_the_right_party E t input n ad t' c :
  reachable t → input_ok input → tb_reservations t !! ai_RequestID input = None →
  AdmitRequest input E t n = (Ok ad, t', c) →
  ∃ r tn tn' candidates assigned unavailable,
    funded input t t' r tn tn' ∧ ad = admissionFromReservation r ∧
    lists_candidates input (env_now E n) t candidates assigned unavailable ∧
    ((r_ChildSubscriptionID r = None ∧ candidates = [] ∧ assigned = false ∧ unavailable = false ∧
      tb_child_windows t' = tb_child_windows t) ∨
     ∃ skipped i rest, candidates = skipped ++ i :: rest ∧ paid_through t i r ∧
       Forall (passed_over E t input) skipped ∧
       (ps_CapacityMode (sc_Parent i) = ParentCapacityUnmetered ∨ ai_PriceConfigured input = true)).
Proof.
  intros Ht%reachable_books Hi Hnew. unfold AdmitRequest, mbind at 1, M_bind at 1, time_now.
  set (now := env_now E n). set (tenantID := k_TenantID (kc_APIKey (ai_Key input))).
  unfold mbind at 1, M_bind at 1.
  pose proof (SubscriptionCandidates_wp Direct E tenantID (ai_Model input) now t
    (filed_parents _ (bk_filed _ Ht)) (n + 1)%nat) as Hc.
  destruct (SubscriptionCandidates _ _ _ E t _) as [[[[[candidates assigned] unavailable]|e] t1] c1];
    [|done].
  destruct Hc as [[? _]|[-> Hc]]; [done|].
  destruct (bool_decide (length candidates = 0%nat)) eqn:Hlen.
  - destruct candidates; [|by reflect_bools].
    destruct unavailable; [done|]. destruct assigned; [done|].
    pose proof (reserveCandidate_funded E t input Ht Hi Hnew Direct None (n + 1 + c1)%nat) as Hr.
    destruct (reserveCandidate input None E t _) as [[a t2] c2]. destruct Hr as [[? _]|Hr]; [done|].
    intros [= -> -> _]. destruct Hr as (r & tn & tn' & Hf & Had & Hchild & Hwin).
    exists r, tn, tn', [], false, false. split_and!; [done|done|exact Hc|]. left. by split_and!.
  - destruct (try_candidates input candidates unavailable false false E t _) as [[a t2] c2] eqn:Hrun.
    intros [= -> -> _].
    destruct (try_candidates_first_fit E t input Ht Hi Hnew _ _ _ _ _ _ _ _ Hrun)
      as (skipped & i & rest & -> & Hs & Hp & r & tn & tn' & Hf & Had & Hpaid).
    exists r, tn, tn', (skipped ++ i :: rest), assigned, unavailable.
    split_and!; [done|done|exact Hc|]. right. by exists skipped, i, rest.
Qed.

Lemma admission_charges_the_right_party_witness :
  ∃ ad t' c, AdmitRequest (ask "next") calm running_store 300%nat = (Ok ad, t', c) ∧
  ∃ r tn tn', funded (ask "next") running_store t' r tn tn' ∧ ad_QuotaReservedNanoUSD ad = 300.
Proof.
  destruct (AdmitRequest (ask "next") calm running_store 300%nat) as [[[ad|e] t'] c] eqn:Hrun;
    [|by vm_compute in Hrun].
  exists ad, t', c. split; [done|].
  assert (Hok : operation_ok (Admit (ask "next"))) by (apply (bool_decide_unpack _); by vm_compute).
  destruct (admission_charges_the_right_party calm running_store (ask "next") 300%nat ad t' c
    reachable_running_store Hok ltac:(by vm_compute) Hrun) as (r & tn & tn' & _ & _ & _ & Hf & _).
  exists r, tn, tn'. split; [exact Hf|].
  vm_compute in Hrun. by injection Hrun as <- _ _.
Defined.

(** In the shared store Acme's share of the account is the only candidate. *)
Lemma SubscriptionCandidates_spec_witness :
(∃ item t' c, SubscriptionCandidates "acme" "gpt-5" 0 calm shared_store 0%nat = (Ok ([item], true, false), t', c)) ∧
wp Direct calm (SubscriptionCandidates "acme" "gpt-5" 0) shared_store (λ r t', t' = shared_store ∧
  match r with
  | Ok (items, hasModelAssignment, hasUnavailableAssignment) =>
      (∀ i, i ∈ items ↔
         (child_active "acme" 0 (sc_Child i) = true ∧ ∃ k, tb_children shared_store !! k = Some (sc_Child i)) ∧
         usable "gpt-5" (tb_parents shared_store) (sc_Child i) (sc_Parent i)) ∧
      Sorted candidate_order items ∧
      (hasModelAssignment = true ↔ ∃ c p, (child_active "acme" 0 c = true ∧ ∃ k, tb_children shared_store !! k = Some c) ∧
         serves "gpt-5" (tb_parents shared_store) c p) ∧
      (hasUnavailableAssignment = true ↔ ∃ c, (child_active "acme" 0 c = true ∧ ∃ k, tb_children shared_store !! k = Some c) ∧
         broken "gpt-5" (tb_parents shared_store) c)
  | Err _ => ¬ quiet calm
  end).
Proof.
  split; [eexists _, _, _; by vm_compute|]. apply SubscriptionCandidates_spec.
  apply (bool_decide_unpack _). by vm_compute.
Defined.
