(* ===== verification/WindowSync.v ===== *)
(** * Quota windows move forward

    How the windows of the children follow their parent's, and how an observation
    or an override moves the parent's. *)

From Stdlib Require Import SpecFloat.
From S2P Require Import Prelude.
From S2P Require Import Float64.
From S2P Require Import Database.
From S2P Require Import Schema.
From S2P Require Import QuotaMath.
From S2P Require Import QuotaWindows.
From S2P Require Import ModelAccess.
From S2P Require Import RequestLogs.
From S2P Require Import Reservation.
From S2P Require Import Settlement.
From S2P Require Import Sample.
From S2P Require Import Books.
From S2P Require Import SubscriptionBooks.
From S2P Require Import History.

(** ** The children *)

(** What a synchronisation makes of a child's window. *)
Definition synced (kind : string) (parentLimit resetsAt startedAt : Z) (child : ChildSubscription)
    (old : option ChildQuotaWindow) : ChildQuotaWindow :=
  let limit := fraction parentLimit (c_AllocationPPM child) in
  match old with
  | Some w =>
      if w_ResetsAt w =? resetsAt then w <| w_LimitNanoUSD := limit |>
      else if w_ResetsAt w <? resetsAt then
        w <| w_StartedAt := startedAt; w_ResetsAt := resetsAt; w_LimitNanoUSD := limit;
             w_SettledNanoUSD := 0; w_ReservedNanoUSD := 0 |>
      else w
  | None => {| w_ChildSubscriptionID := c_ID child; w_Kind := kind; w_StartedAt := startedAt;
               w_ResetsAt := resetsAt; w_LimitNanoUSD := limit; w_SettledNanoUSD := 0;
               w_ReservedNanoUSD := 0 |}
  end.

Definition sync_all (kind : string) (parentLimit resetsAt startedAt : Z)
    (rows : list ChildSubscription) (m : window_map) : window_map :=
  foldl (λ m child, <[(c_ID child, kind) :=
    synced kind parentLimit resetsAt startedAt child (m !! (c_ID child, kind))]> m) m rows.

Section sync.
Context (E : env) (kind : string) (parentLimit resetsAt startedAt : Z).
Notation synced := (synced kind parentLimit resetsAt startedAt).
Notation sync_all := (sync_all kind parentLimit resetsAt startedAt).

Lemma success_sync_child child t :
  keyed window_key (tb_child_windows t) →
  success E (sync_child kind parentLimit resetsAt startedAt child) t (λ _ t',
    t' = t <| tb_child_windows := sync_all [child] (tb_child_windows t) |>).
Proof.
  intros Hk. unfold sync_child. cbv zeta. step_success. step_success; cbn.
  - intros w Hw. pose proof (Hk _ _ Hw) as Hkey. unfold window_key in Hkey. rewrite Hw. cbn.
    destruct (w_ResetsAt w =? resetsAt); [|destruct (w_ResetsAt w <? resetsAt)].
    + step_success. rewrite Hkey. apply success_update; cbn; [|congruence].
      intros w' Hw' _. step_success. by assert (w' = w) as -> by congruence.
    + step_success. rewrite Hkey. apply success_update; cbn; [|congruence].
      intros w' Hw' _. step_success. by assert (w' = w) as -> by congruence.
    + step_success. rewrite insert_id by done. by destruct t.
  - intros Hn. rewrite Hn. step_success. by intros _ _.
Qed.

Lemma synced_key child old :
  (∀ w, old = Some w → window_key w = (c_ID child, kind)) →
  window_key (synced child old) = (c_ID child, kind).
Proof.
  intros Hold. unfold WindowSync.synced. destruct old as [w|]; [|done]. specialize (Hold w eq_refl).
  destruct (_ =? _); [done|]. by destruct (_ <? _).
Qed.

Lemma sync_all_keyed rows : ∀ m : window_map, keyed window_key m → keyed window_key (sync_all rows m).
Proof.
  induction rows as [|child rows IH]; intros m Hm; [done|]. apply IH, keyed_insert; [done|].
  apply synced_key. intros w Hw. exact (Hm _ _ Hw).
Qed.

Lemma sync_all_other rows c k : (∀ child, child ∈ rows → (c, k) ≠ (c_ID child, kind)) →
  ∀ m : window_map, sync_all rows m !! (c, k) = m !! (c, k).
Proof.
  induction rows as [|child rows IH]; intros Hne m; [done|]. cbn.
  change (foldl _ ?m rows) with (sync_all rows m). rewrite IH by set_solver.
  apply lookup_insert_ne, not_eq_sym, Hne. set_solver.
Qed.

Lemma sync_all_lookup rows child : NoDup (c_ID <$> rows) → child ∈ rows →
  ∀ m : window_map, sync_all rows m !! (c_ID child, kind)
                    = Some (synced child (m !! (c_ID child, kind))).
Proof.
  induction rows as [|child' rows IH]; intros Hnd Hin m; [by apply not_elem_of_nil in Hin|].
  cbn in Hnd. apply list.NoDup_cons in Hnd as [Hnew Hnd]. cbn.
  change (foldl _ ?m rows) with (sync_all rows m).
  apply elem_of_cons in Hin as [->|Hin].
  - rewrite sync_all_other, lookup_insert_eq; [done|]. intros child Hchild [= Heq].
    apply Hnew, list_elem_of_fmap. eauto.
  - rewrite IH by done. rewrite lookup_insert_ne; [done|]. intros [= Heq].
    apply Hnew, list_elem_of_fmap. eauto.
Qed.

Lemma success_sync parentID t :
  filed t →
  success E (syncChildQuotaWindowGeneration parentID kind parentLimit resetsAt startedAt) t
    (λ _ t', ∃ rows, t' = t <| tb_child_windows := sync_all rows (tb_child_windows t) |> ∧
       NoDup (c_ID <$> rows) ∧
       ∀ child, child ∈ rows ↔ tb_children t !! c_ID child = Some child ∧
                               c_ParentSubscriptionID child = parentID).
Proof.
  intros Hf. unfold syncChildQuotaWindowGeneration. step_success. step_success.
  intros rows Hrows. step_success.
  eapply success_mono.
  - apply (success_for_each E _ rows (λ rest _ t', ∃ m, keyed window_key m ∧
      t' = t <| tb_child_windows := m |> ∧ sync_all rest m = sync_all rows (tb_child_windows t))).
    + exists (tb_child_windows t). split_and!; [apply Hf|by destruct t|done].
    + intros child rest l t' (m & Hm & -> & Heq). eapply success_mono; [by apply success_sync_child|].
      intros ? t'' ->. exists (sync_all [child] m). split_and!; [by apply sync_all_keyed|done|exact Heq].
  - intros ? t' (m & _ & -> & Heq). cbn in Heq. subst m. step_success. exists rows. split; [done|].
    pose proof (filed_children _ Hf) as Hk. split.
    + rewrite Hrows. eapply sublist_NoDup; [|apply fmap_sublist, sublist_filter].
      rewrite (keyed_ids c_ID) by done. apply NoDup_fst_map_to_list.
    + intros child. rewrite (elem_of_rows children _ t rows child Hrows). cbn. split.
      * intros [Hp [k Hkc]]. reflect_bools. pose proof (Hk _ _ Hkc) as Hid. cbn in Hid. by subst k.
      * intros [Hc Hp]. rewrite bool_decide_eq_true. split; [done|by eexists].
Qed.
End sync.

(** C39: The windows of the children follow their parent's.  In a store filed by key, when a
    synchronisation commits, it has touched only child windows of that kind, and for every child
    of that parent there is now a window: with the child's share of the new limit and its usage
    kept if it was in the same generation already; with the new generation, the share and no
    usage if it was in an older one or did not exist; and untouched, usage and generation, if it
    was already ahead.  The windows of every other child or kind are as before. *)
Theorem children_follow_the_parent E parentID kind limit resetsAt startedAt t :
  filed t →
  success E (syncChildQuotaWindowGeneration parentID kind limit resetsAt startedAt) t (λ _ t',
    t' = t <| tb_child_windows := tb_child_windows t' |> ∧
    ∀ c k, tb_child_windows t' !! (c, k) =
      match tb_children t !! c with
      | Some child =>
          if bool_decide (k = kind ∧ c_ParentSubscriptionID child = parentID)
          then Some (synced kind limit resetsAt startedAt child (tb_child_windows t !! (c, k)))
          else tb_child_windows t !! (c, k)
      | None => tb_child_windows t !! (c, k)
      end).
Proof.
  intros Hf. eapply success_mono; [by apply success_sync|].
  intros ? t' (rows & -> & Hnd & Hrows). split; [done|]. cbn. intros c k.
  destruct (tb_children t !! c) as [child|] eqn:Hc.
  - pose proof (filed_children _ Hf _ _ Hc) as Hid. cbn in Hid. subst c. case_bool_decide as Hk.
    + destruct Hk as [-> Hp]. apply sync_all_lookup; [done|]. by apply Hrows.
    + apply sync_all_other. intros child' [Hc' Hp']%Hrows [= Heq ->]. rewrite <- Heq in Hc'.
      assert (child' = child) as -> by congruence. by apply Hk.
  - apply sync_all_other. intros child' [Hc' _]%Hrows [= -> _]. congruence.
Qed.

Lemma children_follow_the_parent_witness :
  filed shared_store ∧
  let '(r, t', _) := syncChildQuotaWindowGeneration "account" "weekly" 2000 week 0 calm shared_store 0%nat in
  r = Ok () ∧ w_LimitNanoUSD <$> tb_child_windows t' !! ("share", "weekly") = Some 1000.
Proof.
  assert (Hf : filed shared_store) by (split; apply (bool_decide_unpack _); by vm_compute).
  split; [exact Hf|].
  pose proof (children_follow_the_parent calm "account" "weekly" 2000 week 0 shared_store Hf 0%nat) as Hs.
  destruct (syncChildQuotaWindowGeneration "account" "weekly" 2000 week 0 calm shared_store 0%nat)
    as [[[[]|e] t'] c] eqn:Hrun; [|by vm_compute in Hrun].
  destruct Hs as [[_ Hfault]|[_ Hs]]; [by rewrite (quiet_not_faulty calm _ _ calm_quiet) in Hfault|].
  split; [done|]. rewrite Hs. by vm_compute.
Defined.

(** ** The parent *)

(** What an observation may do to a window that exists: [w] becomes [w']. *)
Definition advances (resetsAt : Z) (w w' : ParentQuotaWindow) : Prop :=
  pw_ResetsAt w ≤ pw_ResetsAt w' ∧
  (within_jitter (time_sub resetsAt (pw_ResetsAt w)) = true → pw_ResetsAt w' = pw_ResetsAt w) ∧
  (pw_Source w = ParentQuotaSourceManualConversion →
   pw_LimitNanoUSD w' = pw_LimitNanoUSD w ∧ pw_Source w' = ParentQuotaSourceManualConversion).

Lemma advances_refl resetsAt w : advances resetsAt w w.
Proof. by split. Qed.

Lemma time_sub_sign t u : 0 ≤ time_sub t u → u ≤ t.
Proof. unfold time_sub. int64_lia. Qed.

(** The parent windows do not change before the verdict is stored. *)
Definition same_parent_windows (t t' : tables) : Prop := tb_parent_windows t' = tb_parent_windows t.

#[export] Instance same_parent_windows_observations t : Ignores observations (same_parent_windows t).
Proof. by intros ?. Qed.
#[export] Instance same_parent_windows_resets t : Ignores resets (same_parent_windows t).
Proof. by intros ?. Qed.
#[export] Instance same_parent_windows_child_windows t : Ignores child_windows (same_parent_windows t).
Proof. by intros ?. Qed.

Lemma snap_forward w resetsAt z :
  snap_to_window (Ok w) resetsAt = Ok z →
  pw_ResetsAt w ≤ z ∧ (within_jitter (time_sub resetsAt (pw_ResetsAt w)) = true → z = pw_ResetsAt w).
Proof.
  unfold snap_to_window. cbv zeta. destruct (within_jitter _); [intros [= <-]; by split|].
  destruct (Z.ltb_spec (time_sub resetsAt (pw_ResetsAt w)) 0) as [|Hpos]; [done|].
  intros [= <-]. split; [by apply time_sub_sign|done].
Qed.

Section observation.
Context (E : env) `{FloatToInt}.

Lemma success_next_limit current o z t :
  success E (next_limit current o z) t (λ r t', t' = t ∧
    (∀ w, current = Ok w → pw_Source w = ParentQuotaSourceManualConversion →
          r = (pw_LimitNanoUSD w, ParentQuotaSourceManualConversion))).
Proof.
  unfold next_limit. destruct current as [w|e].
  - case_bool_decide as Hs; [step_success; split; [done|]; by intros ? [= <-]|].
    case_bool_decide.
    + step_success. eapply success_mono; [apply success_estimate|]. intros limit t' ->.
      step_success. split; [done|]. by intros ? [= <-].
    + step_success. split; [done|]. by intros ? [= <-].
  - case_bool_decide; [|by step_success]. step_success.
    eapply success_mono; [apply success_estimate|]. intros limit t' ->. by step_success.
Qed.

Lemma observe_forward parentID kind used resetsAt observedAt t :
  wp Direct E (RecordParentQuotaObservation parentID kind used resetsAt observedAt) t (λ r t',
    match r with
    | Ok _ =>
        (∀ k, k ≠ (parentID, trim_space kind) → tb_parent_windows t' !! k = tb_parent_windows t !! k) ∧
        (∀ w, tb_parent_windows t !! (parentID, trim_space kind) = Some w →
           ∃ w', tb_parent_windows t' !! (parentID, trim_space kind) = Some w' ∧ advances resetsAt w w')
    | Err _ => t' = t
    end).
Proof.
  apply wp_bind, wp_new_id. intros id. apply wp_bind, wp_now. intros now. cbv zeta.
  apply wp_bind, wp_guard; [|done]. intros _. apply success_transaction.
  set (key := (parentID, trim_space kind)). step_success.
  apply success_map_error, success_first. intros parent _. step_success.
  eapply (success_mono _ _ _ (λ current t', t' = t ∧
    ∀ w, tb_parent_windows t !! key = Some w → current = Ok w)).
  { step_success; cbn; intros; split; try done; naive_solver congruence. }
  intros current t' [-> Hcur]. step_success.
  eapply (success_mono _ _ _ (λ z t', t' = t ∧ snap_to_window current resetsAt = Ok z)).
  { unfold of_result. destruct (snap_to_window current resetsAt); by step_success. }
  intros z t' [-> Hsnap]. step_success. apply success_attempt_first_ordered. intros previous.
  cbv zeta. step_success. apply (books_find_only _ _ _ _ (success_judge _ _ _ _ _ _ _ _)).
  intros [o unchanged]. step_success. eapply (success_mono _ _ _ (λ _ t', same_parent_windows t t')).
  { apply success_preserves; [|done]. destruct unchanged; [preserve|]. unfold store_sample. preserve. }
  intros ? t1 Ht1. step_success. eapply success_mono; [apply success_next_limit|].
  intros [limit source] t' [-> Hlimit]. step_success.
  set (z' := snap_to_sample current previous z) in *.
  eapply (success_mono _ _ _ (λ _ t', ∀ k, tb_parent_windows t' !! k =
    (if 0 <? limit then <[key :=
       let w := {| pw_ParentSubscriptionID := parentID; pw_Kind := trim_space kind;
                   pw_LimitNanoUSD := limit; pw_ResetsAt := z'; pw_Source := source;
                   pw_ObservedUsedPercent := Some used; pw_ObservedAt := Some observedAt |} in
       match tb_parent_windows t !! key with Some old => assign_parent_window old w | None => w end]>
         (tb_parent_windows t) else tb_parent_windows t) !! k)).
  { case_match; [|step_success; intros k; by rewrite Ht1]. step_success. apply success_upsert.
    cbv zeta. intros _. set (t2 := tb_set parent_windows _ t1).
    eapply success_mono; [apply (success_preserves E (same_parent_windows t2)); [|done]|].
    - unfold syncChildQuotaWindowGeneration, sync_child. preserve.
    - intros ? t3 -> k. unfold t2. cbn. by rewrite Ht1. }
  intros ? t2 Ht2. step_success. split.
  - intros k Hk. rewrite Ht2. case_match; [|done]. by rewrite lookup_insert_ne.
  - intros w Hw. rewrite Ht2, Hw. specialize (Hcur w Hw). subst current.
    apply snap_forward in Hsnap as [Hle Hjit]. change z' with z in *. destruct (0 <? limit).
    + rewrite lookup_insert_eq. eexists. split; [done|]. cbn zeta. split; [done|]. split; [done|].
      intros Hs. specialize (Hlimit w eq_refl Hs). injection Hlimit as -> ->. by split.
    + exists w. split; [done|apply advances_refl].
Qed.
End observation.

(** An observed percentage never moves a quota window of an account backwards and never
    overrules an administrator.  Recording an observation touches no other window; when it
    succeeds, the window it is about, if there was one, is still there, its reset time has not
    decreased, has not moved at all if the reported one is within a minute of it, and a limit
    that was set by hand is still that limit and still marked as manual. *)
Theorem observations_move_windows_forward `{FloatToInt} E t t' parentID kind used resetsAt observedAt n o c :
  RecordParentQuotaObservation parentID kind used resetsAt observedAt E t n = (Ok o, t', c) →
  (∀ k, k ≠ (parentID, trim_space kind) → tb_parent_windows t' !! k = tb_parent_windows t !! k) ∧
  (∀ w, tb_parent_windows t !! (parentID, trim_space kind) = Some w →
     ∃ w', tb_parent_windows t' !! (parentID, trim_space kind) = Some w' ∧
       pw_ResetsAt w ≤ pw_ResetsAt w' ∧
       (within_jitter (time_sub resetsAt (pw_ResetsAt w)) = true → pw_ResetsAt w' = pw_ResetsAt w) ∧
       (pw_Source w = ParentQuotaSourceManualConversion →
        pw_LimitNanoUSD w' = pw_LimitNanoUSD w ∧ pw_Source w' = ParentQuotaSourceManualConversion)).
Proof.
  intros Hrun. pose proof (observe_forward E parentID kind used resetsAt observedAt t n) as Hw.
  rewrite Hrun in Hw. by destruct Hw as [[? _]|Hw].
Qed.

(** An observation ten seconds off the known reset of a limit that was set by hand. *)
Lemma observations_move_windows_forward_witness :
  let t := (SetParentQuotaWindows "account" [weekly] calm shared_store 0%nat).1.2 in
  ∃ o t' c w', RecordParentQuotaObservation "account" "weekly" (f64_of_Z 10) (week + 10 * second)
      (500 * second) calm t 600%nat = (Ok o, t', c) ∧
    tb_parent_windows t' !! ("account", "weekly") = Some w' ∧
    pw_ResetsAt w' = week ∧ pw_LimitNanoUSD w' = 2000.
Proof.
  cbn zeta. set (t := (SetParentQuotaWindows "account" [weekly] calm shared_store 0%nat).1.2).
  destruct (RecordParentQuotaObservation "account" "weekly" (f64_of_Z 10) (week + 10 * second)
      (500 * second) calm t 600%nat) as [[[o|e] t'] c] eqn:Hrun; [|by vm_compute in Hrun].
  destruct (tb_parent_windows t !! ("account", "weekly")) as [w|] eqn:Hw; [|by vm_compute in Hw].
  assert (Hrow : (λ w, (pw_ResetsAt w, pw_LimitNanoUSD w, pw_Source w)) <$>
    tb_parent_windows t !! ("account", "weekly") = Some (week, 2000, ParentQuotaSourceManualConversion))
    by (by vm_compute).
  rewrite Hw in Hrow. injection Hrow as Hz Hl Hs.
  destruct (observations_move_windows_forward calm t t' "account" "weekly" (f64_of_Z 10)
    (week + 10 * second) (500 * second) 600%nat o c Hrun) as [_ Hmove].
  destruct (Hmove w Hw) as (w' & Hw' & _ & Hjit & Hman).
  exists o, t', c, w'. split; [reflexivity|]. split; [exact Hw'|]. split.
  - rewrite Hjit; [exact Hz|]. rewrite Hz. by vm_compute.
  - rewrite (proj1 (Hman Hs)). exact Hl.
Defined.
