(* ===== verification/Billing.v ===== *)
(** * Logs, charges and daily counters agree

    The request log row of a settled request says what the ledger charged, and
    the daily token counters move with it. *)

From S2P Require Import Prelude.
From S2P Require Import Float64.
From S2P Require Import Cost.
From S2P Require Import Database.
From S2P Require Import Schema.
From S2P Require Import ModelAccess.
From S2P Require Import RequestLogs.
From S2P Require Import Reservation.
From S2P Require Import Settlement.
From S2P Require Import Sample.
From S2P Require Import Books.
From S2P Require Import Accounting.
From S2P Require Import Machine.
From S2P Require Import History.
From S2P Require Import Guarantees.
From S2P Require Import Effects.

(** ** Log rows *)

(** The table of log rows is as in [t]. *)
Definition same_logs (t t' : tables) : Prop := tb_request_logs t' = tb_request_logs t.

#[export] Instance same_logs_tenants t : Ignores tenants (same_logs t).
Proof. by intros ?. Qed.
#[export] Instance same_logs_api_keys t : Ignores api_keys (same_logs t).
Proof. by intros ?. Qed.
#[export] Instance same_logs_details t : Ignores log_details (same_logs t).
Proof. by intros ?. Qed.
#[export] Instance same_logs_child_windows t : Ignores child_windows (same_logs t).
Proof. by intros ?. Qed.
#[export] Instance same_logs_reservations t : Ignores reservations (same_logs t).
Proof. by intros ?. Qed.
#[export] Instance same_logs_ledger t : IgnoresLedger (same_logs t).
Proof. by intros ?. Qed.

(** The columns of a log row that the bill depends on. *)
Definition billed (l : LogInput) (row : RequestLog) : Prop :=
  rl_ID row = li_ID l ∧ rl_TenantID row = li_TenantID l ∧ rl_APIKeyID row = li_APIKeyID l ∧
  rl_CostNanoUSD row = li_CostNanoUSD l ∧ rl_Settled row = li_Settled l ∧
  rl_PricingComplete row = li_PricingComplete l ∧ rl_BillingSource row = li_BillingSource l ∧
  rl_Usage row = li_Usage l ∧ rl_LogUnit row = LogUnitStep.

Section logs.
Context (E : env) `{TimeZone} `{NameUUID}.

Lemma preserves_logs_daily x t tenantID keyID started previous next :
  preserves x E (same_logs t) (applyDailyTokenDelta tenantID keyID started previous next).
Proof. unfold applyDailyTokenDelta. preserve. Qed.

Lemma preserves_logs_finish x t id actual complete status :
  preserves x E (same_logs t) (finishReservationTx id actual complete status).
Proof. unfold finishReservationTx, post_ledger, finish_window, window_of. preserve. Qed.

Lemma success_decorate_billed {V} (tb : table tables string V) key f l item t :
  (∀ item v, billed l item → billed l (f item v)) → billed l item →
  success E (decorate tb key f item) t (λ item' t', t' = t ∧ billed l item').
Proof.
  intros Hf Hi. unfold decorate. destruct key as [id|]; [|by step_success].
  step_success. step_success; intros; step_success; split; auto.
Qed.

Lemma success_new_log l t :
  success E (writeLogTx l false) t (λ _ t',
    if isBillingDetail l
    then tb_request_logs t !! li_ID l = None ∧
         ∃ row, billed l row ∧ tb_request_logs t' = <[li_ID l := row]> (tb_request_logs t)
    else t' = t).
Proof.
  unfold writeLogTx. destruct (isBillingDetail l) eqn:Hb; cbn [negb]; [|by step_success]. cbv zeta.
  step_success. step_success.
  assert (Hitem : billed l (requestLogItem l)).
  { unfold isBillingDetail in Hb. repeat split. cbn. by destruct (li_LogUnit l). }
  step_success. eapply success_mono; [by apply (success_decorate_billed _ _ _ l)|].
  intros item t0 [-> Hi]. step_success.
  eapply success_mono; [by apply (success_decorate_billed _ _ _ l)|].
  intros item' t0 [-> Hi']. step_success. step_success. intros Hnone _. cbn in Hnone.
  assert (Hid : rl_ID item' = li_ID l) by apply Hi'. rewrite Hid in *.
  set (t1 := tb_set request_logs _ t).
  eapply success_mono; [apply (success_preserves E (same_logs t1)); [|done]|].
  - pose proof (preserves_logs_daily InTx t1) as Hd. preserve.
  - intros ? t2 Hs. split; [done|]. exists item'. by split.
Qed.
End logs.

(** What a settlement with its log leaves behind. *)
Definition settled_as_logged (t : tables) (id : string) (l : LogInput) (r : RequestReservation)
    (t' : tables) : Prop :=
  (∃ r', tb_reservations t' !! id = Some r' ∧ r_Status r' = ReservationSettled ∧
         r_ActualNanoUSD r' = Some (settled_charge l) ∧
         r_PricingComplete r' = li_PricingComplete l) ∧
  (if 0 <? settled_charge l then
     tb_request_logs t !! id = None ∧
     ∃ row, tb_request_logs t' = <[id := row]> (tb_request_logs t) ∧
       rl_ID row = id ∧ rl_CostNanoUSD row = Some (settled_charge l) ∧ rl_Settled row = true ∧
       rl_TenantID row = r_TenantID r ∧ rl_APIKeyID row = r_APIKeyID r ∧
       rl_BillingSource row = reservationBillingSource r ∧ rl_Usage row = li_Usage l
   else tb_request_logs t' = tb_request_logs t).

(** A settlement with its log, when it commits. *)
Lemma settle_with_log `{TimeZone} `{NameUUID} `{FloatToInt} E t id l r :
  books t → tb_reservations t !! id = Some r → is_active r = true →
  wp Direct E (SettleRequestWithLog id l) t (λ a t',
    match a with Ok _ => settled_as_logged t id l r t' | Err _ => t' = t end).
Proof.
  intros Ht Hr Ha. apply (success_transaction E Direct _ t (λ _ t', settled_as_logged t id l r t')).
  step_success. apply success_map_error, success_first. cbn. intros r0 Hr0.
  assert (r0 = r) as -> by congruence. rewrite Ha. cbn [negb]. cbv zeta. step_success.
  set (actual := settled_charge l) in *.
  assert (Hfin : success E (finishReservationTx id actual (li_PricingComplete l) ReservationSettled) t
    (λ _ t', ∃ r', tb_reservations t' !! id = Some r' ∧ r_Status r' = ReservationSettled ∧
       r_ActualNanoUSD r' = Some actual ∧ r_PricingComplete r' = li_PricingComplete l)).
  { apply success_finish; [apply Ht|congruence|]. intros r' tn entryID now Hr' _ _.
    assert (r' = r) as -> by congruence.
    pose proof (filed_reservations _ (bk_filed _ Ht) _ _ Hr) as Hid. cbn in Hid.
    destruct (finish_tables t r tn actual (li_PricingComplete l) ReservationSettled entryID now) as [Hres _].
    rewrite Hres, Hid, lookup_insert_eq. by eexists. }
  assert (Hlogs : success E (finishReservationTx id actual (li_PricingComplete l) ReservationSettled) t
    (λ _ t', same_logs t t')).
  { apply success_preserves; [apply preserves_logs_finish|done]. }
  eapply success_mono; [exact (success_and E _ t _ _ Hfin Hlogs)|]. clear Hfin Hlogs.
  intros ? t1 [Hfin Hlogs]. step_success. step_success.
  match goal with |- success _ (writeLogTx ?l' _) _ _ => set (final := l') in * end.
  eapply success_mono; [exact (success_and E _ t1 _ _ (success_write_log E final false t1)
                                 (success_new_log E final t1))|].
  intros ? t2 [Hs Hnew]. unfold settled_as_logged. fold actual. split.
  { destruct Hfin as (r' & Hr' & Hst). exists r'. by rewrite (sm_reservations _ _ Hs). }
  assert (Hdetail : isBillingDetail final = (0 <? actual)).
  { destruct (Z.ltb_spec 0 actual) as [Hpos|Hzero]; cbn [andb] in *.
    - destruct (isBillingDetail final); [done|]. done.
    - unfold isBillingDetail, final. cbn. rewrite (proj2 (Z.ltb_ge 0 actual)) by lia.
      by rewrite andb_false_r. }
  rewrite Hdetail in Hnew. unfold same_logs in Hlogs. destruct (0 <? actual).
  - destruct Hnew as [Hnone (row & Hrow & Hins)]. unfold final in Hnone, Hins, Hrow. cbn in Hnone, Hins.
    rewrite Hlogs in Hnone, Hins. split; [done|]. exists row. split; [done|].
    destruct Hrow as (? & ? & ? & ? & ? & ? & ? & ? & _). by split_and!.
  - by rewrite Hnew, Hlogs.
Qed.

(** The log of a settled request agrees with what was charged.  When a settlement with its
    log commits for an active reservation, the reservation is settled with the confirmed cost of
    the log (zero if it is missing, incomplete or not positive); a positive cost leaves exactly
    one new log row, filed under the request, settled, with that very cost, the tenant and key
    of the reservation and the side that paid; a zero cost leaves no row at all.  A committed
    settlement never charges without logging, nor logs without charging. *)
Theorem settled_log_matches_charge `{TimeZone} `{NameUUID} `{FloatToInt} E t id l r n t' c :
  reachable t → tb_reservations t !! id = Some r → is_active r = true →
  SettleRequestWithLog id l E t n = (Ok (), t', c) → settled_as_logged t id l r t'.
Proof.
  intros Ht%reachable_books Hr Ha Hrun.
  exact (wp_direct _ _ _ _ _ _ _ _ (settle_with_log E t id l r Ht Hr Ha) Hrun).
Qed.

Lemma settled_log_matches_charge_witness :
  let '(a, t', _) := SettleRequestWithLog "req" (paid 70 10 second) later funded_store 0%nat in
  a = Ok () ∧ rl_CostNanoUSD <$> tb_request_logs t' !! "req" = Some (Some 70).
Proof.
  assert (∃ r, tb_reservations funded_store !! "req" = Some r ∧ is_active r = true)
    as (r & Hr & Hactive) by (eexists; split; [by vm_compute|done]).
  destruct (SettleRequestWithLog "req" (paid 70 10 second) later funded_store 0%nat)
    as [[[[]|e] t'] c] eqn:Hrun; [|by vm_compute in Hrun].
  split; [done|].
  destruct (settled_log_matches_charge later funded_store "req" (paid 70 10 second) r 0%nat t' c
    reachable_funded_store Hr Hactive Hrun) as [_ [_ (row & -> & _ & Hcost & _)]].
  rewrite lookup_insert_eq. cbn [fmap option_fmap option_map]. by rewrite Hcost.
Defined.

(** ** Daily counters *)

Section daily.
Context (E : env) `{TimeZone}.

Lemma success_daily_exact tenantID keyID started previous next t :
  success E (applyDailyTokenDelta tenantID keyID started previous next) t (λ _ t',
    let delta := next -₆₄ previous in
    let day := localCalendarDate started in
    if delta =? 0 then t' = t
    else
      tb_tenants t' = (match tb_tenants t !! tenantID with
        | Some tn => <[tenantID := tn <| t_TokensUsedToday :=
              next_daily_tokens day delta (t_TokensUsedToday tn) (t_TokensUsedOn tn);
              t_TokensUsedOn := Some day |>]> (tb_tenants t)
        | None => tb_tenants t end) ∧
      tb_api_keys t' = (match tb_api_keys t !! keyID with
        | Some k => <[keyID := k <| k_TokensUsedToday :=
              next_daily_tokens day delta (k_TokensUsedToday k) (k_TokensUsedOn k);
              k_TokensUsedOn := Some day |>]> (tb_api_keys t)
        | None => tb_api_keys t end)).
Proof.
  unfold applyDailyTokenDelta. cbv zeta. destruct (next -₆₄ previous =? 0); [by step_success|].
  step_success. step_success. step_success. step_success. step_success.
  set (f := λ tn : Tenant, tn <| t_TokensUsedToday :=
              next_daily_tokens (localCalendarDate started) (next -₆₄ previous)
                (t_TokensUsedToday tn) (t_TokensUsedOn tn);
              t_TokensUsedOn := Some (localCalendarDate started) |>).
  eapply (success_mono _ _ _ (λ _ t', t' = t <| tb_tenants :=
    match tb_tenants t !! tenantID with
    | Some tn => <[tenantID := f tn]> (tb_tenants t) | None => tb_tenants t end |>)).
  { apply success_update; cbn; [intros tn -> _; done|]. intros ->. by destruct t. }
  intros ? t1 ->. step_success. step_success. step_success. step_success. step_success.
  apply success_update; cbn.
  - intros k Hk _. step_success. cbn. split; [done|]. cbn in Hk. by rewrite Hk.
  - intros Hn. step_success. cbn in Hn |- *. by rewrite Hn.
Qed.
End daily.

(** A committed log moves the daily counters of its tenant and key by the tokens it adds.  If
    the counter is on the day the request started, the tokens are added to it; on any other day,
    earlier or later, the counter is restarted at the added tokens (at zero for a correction) and
    dated with that day.  The tenant's and the key's other columns, and all other tenants and
    keys, are as before, and no tokens added means nothing written. *)
Theorem daily_tokens_follow_logs `{TimeZone} E tenantID keyID started previous next t :
  in_int64 (next - previous) →
  let day := localCalendarDate started in
  success E (applyDailyTokenDelta tenantID keyID started previous next) t (λ _ t',
    (next = previous → t' = t) ∧
    (∀ id tn, tb_tenants t !! id = Some tn → next ≠ previous →
       tb_tenants t' !! id = Some (if bool_decide (id = tenantID) then
         tn <| t_TokensUsedToday :=
                 (if bool_decide (t_TokensUsedOn tn = Some day)
                  then t_TokensUsedToday tn + (next - previous) else Z.max (next - previous) 0);
               t_TokensUsedOn := Some day |> else tn)) ∧
    (∀ id k, tb_api_keys t !! id = Some k → next ≠ previous →
       tb_api_keys t' !! id = Some (if bool_decide (id = keyID) then
         k <| k_TokensUsedToday :=
                (if bool_decide (k_TokensUsedOn k = Some day)
                 then k_TokensUsedToday k + (next - previous) else Z.max (next - previous) 0);
              k_TokensUsedOn := Some day |> else k))).
Proof.
  intros Hrange day. eapply success_mono; [apply success_daily_exact|]. cbv zeta. fold day.
  intros ? t'. assert (Hdelta : next -₆₄ previous = next - previous) by by apply wrap64_id.
  rewrite Hdelta. destruct (Z.eqb_spec (next - previous) 0) as [Hz|Hz].
  - intros ->. split; [done|]. split; intros; lia.
  - intros [-> ->]. split; [intros; lia|]. unfold next_daily_tokens. split.
    + intros id tn Htn _. case_bool_decide as Hid.
      * subst id. by rewrite Htn, lookup_insert_eq.
      * destruct (tb_tenants t !! tenantID); [|done]. by rewrite lookup_insert_ne.
    + intros id k Hk _. case_bool_decide as Hid.
      * subst id. by rewrite Hk, lookup_insert_eq.
      * destruct (tb_api_keys t !! keyID); [|done]. by rewrite lookup_insert_ne.
Qed.

(** The counter forgets today when a request that started on an earlier day is logged late.
    If the tenant's counter is on the current day, and a log is committed for a request that
    started on another day, then the usage that the limit check reads for the current day is zero
    afterwards, whatever it was: the tokens used today no longer count against today's limit. *)
Theorem late_log_forgets_today `{TimeZone} E tenantID keyID started previous next now tn t key :
  in_int64 (next - previous) → next ≠ previous →
  tb_tenants t !! tenantID = Some tn → calendarDateEquals (t_TokensUsedOn tn) now = true →
  localCalendarDate started ≠ localCalendarDate now →
  success E (applyDailyTokenDelta tenantID keyID started previous next) t (λ _ t',
    ∀ tn', tb_tenants t' !! tenantID = Some tn' →
      fst (DailyTokenUsage (key <| kc_TenantDailyTokens := t_TokensUsedToday tn';
                                   kc_TenantDailyTokensDay := t_TokensUsedOn tn' |>) now) = 0).
Proof.
  intros Hrange Hne Htn Hnow Hday. eapply success_mono; [apply success_daily_exact|]. cbv zeta.
  assert (Hdelta : next -₆₄ previous = next - previous) by by apply wrap64_id.
  rewrite Hdelta. destruct (Z.eqb_spec (next - previous) 0) as [Hz|Hz]; [lia|].
  intros ? t' [-> _] tn'. rewrite Htn, lookup_insert_eq. intros [= <-].
  unfold DailyTokenUsage, dailyTokensForDay, calendarDateEquals. cbn.
  rewrite (proj2 (Z.eqb_neq (localCalendarDate started) _) Hday). by rewrite andb_false_r.
Qed.

(** A store where Acme used 500 tokens on day 3. *)
Definition busy : Tenant := acme <| t_TokensUsedToday := 500; t_TokensUsedOn := Some 3 |>.
Definition busy_store : tables :=
  balance_store <| tb_tenants := <["acme" := busy]> (∅ : gmap string Tenant) |>.

Lemma daily_tokens_follow_logs_witness :
  let '(r, t', _) := applyDailyTokenDelta "acme" "key" (3 * day_ns + 5) 0 20 calm busy_store 0%nat in
  r = Ok () ∧ t_TokensUsedToday <$> tb_tenants t' !! "acme" = Some 520.
Proof.
  pose proof (daily_tokens_follow_logs calm "acme" "key" (3 * day_ns + 5) 0 20 busy_store
    ltac:(int64_lia) 0%nat) as Hs.
  destruct (applyDailyTokenDelta "acme" "key" (3 * day_ns + 5) 0 20 calm busy_store 0%nat)
    as [[[[]|e] t'] c] eqn:Hrun; [|by vm_compute in Hrun].
  destruct Hs as [[_ Hf]|(_ & Hs & _)]; [by rewrite (quiet_not_faulty calm _ _ calm_quiet) in Hf|].
  split; [done|]. rewrite (Hs "acme" busy ltac:(by vm_compute) ltac:(done)). by vm_compute.
Defined.

Lemma late_log_forgets_today_witness :
  let '(r, t', _) := applyDailyTokenDelta "acme" "key" (2 * day_ns + 5) 0 20 calm busy_store 0%nat in
  r = Ok () ∧ ∀ tn', tb_tenants t' !! "acme" = Some tn' →
    fst (DailyTokenUsage (acme_context <| kc_TenantDailyTokens := t_TokensUsedToday tn';
           kc_TenantDailyTokensDay := t_TokensUsedOn tn' |>) (3 * day_ns + 9)) = 0.
Proof.
  pose proof (late_log_forgets_today calm "acme" "key" (2 * day_ns + 5) 0 20 (3 * day_ns + 9) busy
    busy_store acme_context ltac:(int64_lia) ltac:(done) ltac:(by vm_compute) ltac:(by vm_compute)
    ltac:(by vm_compute) 0%nat) as Hs.
  destruct (applyDailyTokenDelta "acme" "key" (2 * day_ns + 5) 0 20 calm busy_store 0%nat)
    as [[[[]|e] t'] c] eqn:Hrun; [|by vm_compute in Hrun].
  destruct Hs as [[_ Hf]|Hs]; [by rewrite (quiet_not_faulty calm _ _ calm_quiet) in Hf|].
  by split.
Defined.
