(* ===== verification/RequestGuarantees.v ===== *)
(** * The bill of a response

    What [finalize] makes of a response: the charge is the one its usage and its
    price call for, failures are free, and the reservation and the log row agree
    with it. *)

From S2P Require Import Prelude.
From S2P Require Import Float64.
From S2P Require Import Cost.
From S2P Require Import Pricing.
From S2P Require Import Json.
From S2P Require Import Usage.
From S2P Require Import UsageGuarantees.
From S2P Require Import Capture.
From S2P Require Import Database.
From S2P Require Import Schema.
From S2P Require Import ModelAccess.
From S2P Require Import RequestLogs.
From S2P Require Import Reservation.
From S2P Require Import Settlement.
From S2P Require Import Requests.
From S2P Require Import Sample.
From S2P Require Import Books.
From S2P Require Import Accounting.
From S2P Require Import Machine.
From S2P Require Import History.
From S2P Require Import Guarantees.
From S2P Require Import Effects.
From S2P Require Import Billing.

(** ** What is charged *)

(** Evidence that a charge rests on. *)
Definition evidence (r : Result) (price : SnapshotPrice) : Prop :=
  br_Found r = true ∧ br_UsageQuality r ∈ [""; "complete"] ∧
  (p_ImageOutputNanoUSDPerToken (sp_Price price) ≠ 0 → 0 < u_ImageOutput (br_Usage r)).

Lemma assess_cases r price :
  Assess r price = Build_Assessment 0 (as_Complete (Assess r price)) ∨
  ∃ p, price = Some p ∧ evidence r p ∧ Assess r price = Build_Assessment (CostNanoUSD p (br_Usage r)) true.
Proof.
  unfold Assess, NonGenerated. case_bool_decide as Hgen; [by left|].
  destruct (_ && bool_decide (br_UsageQuality r ≠ "complete")) eqn:Hq; [by left|].
  destruct (br_Found r && bool_decide (br_Usage r = zero_usage)); [by left|].
  destruct price as [p|]; [|by left]. destruct (br_Found r) eqn:Hf; [|by left]. cbn [andb].
  destruct (UsageComplete p (br_Usage r)) eqn:Hc; [|by left]. right. exists p. split; [done|]. split; [|done].
  split; [done|]. split.
  - apply andb_false_iff in Hq as [Hq|Hq]; apply bool_decide_eq_false in Hq; apply dec_stable in Hq; rewrite Hq; set_solver.
  - unfold UsageComplete in Hc. apply orb_true_iff in Hc as [Hc|Hc]; [apply Z.eqb_eq in Hc|apply Z.ltb_lt in Hc]; done.
Qed.

Lemma cost_nonneg p u : price_int64 (sp_Price p) → usage_int64 u → 0 ≤ CostNanoUSD p u ≤ max_int64.
Proof.
  intros Hp Hu. rewrite CostNanoUSD_eq by done. assert (0 ≤ max_int64) by int64_lia.
  assert (0 ≤ exact_cost p u); [|lia]. unfold exact_cost. apply sum_by_nonneg. intros [count rate] _. nia.
Qed.

Lemma zero_costs_nothing p : exact_cost p zero_usage = 0.
Proof.
  unfold exact_cost, cost_items. replace (split_tokens zero_usage) with (Build_TokenSplit 0 0 0 0 0 0 0) by by vm_compute. done.
Qed.

(** On evidence the assessment is complete and comes to the exact cost. *)
Lemma assess_evidence r p :
  price_int64 (sp_Price p) → usage_int64 (br_Usage r) → evidence r p →
  Assess r (Some p) = Build_Assessment (Z.min max_int64 (exact_cost p (br_Usage r))) true.
Proof.
  intros Hp Hu (Hf & Hq & Himage). unfold Assess, NonGenerated, Cost. rewrite Hf.
  assert (UsageComplete p (br_Usage r) = true) as ->.
  { unfold UsageComplete. destruct (Z.eqb_spec (p_ImageOutputNanoUSDPerToken (sp_Price p)) 0); [done|]. cbn. apply Z.ltb_lt. auto. }
  assert (bool_decide (br_UsageQuality r = "not_generated") = false ∧
    bool_decide (br_UsageQuality r ≠ "") && bool_decide (br_UsageQuality r ≠ "complete") = false) as [-> ->].
  { rewrite !elem_of_cons, elem_of_nil in Hq. by destruct Hq as [->|[->|[]]]. }
  cbn [andb]. case_bool_decide as Hzero; [|by rewrite CostNanoUSD_eq]. rewrite Hzero, zero_costs_nothing.
  f_equal; int64_lia.
Qed.

(** The price on the bill. *)
Definition billed_price (prices : price_service) (call : publicInference) (path : string) (parsed : Result)
    : SnapshotPrice :=
  let found :=
    if pi_priceConfigured call && br_Found parsed && negb (NonGenerated parsed)
    then prices {| d_APIGroupKey := k_ID (kc_APIKey (pi_key call)); d_Model := rm_Model (pi_meta call);
                   d_ModelAlias := ""; d_AuthIndex := admissionAuthIndex (pi_admission call);
                   d_ServiceTier := rm_ServiceTier (pi_meta call);
                   d_ResponseServiceTier := br_ResponseServiceTier parsed;
                   d_ReasoningEffort := rm_ReasoningEffort (pi_meta call); d_Endpoint := path;
                   d_ExecutorType := ""; d_PromptTokens := u_Prompt (br_Usage parsed) |}
    else None in
  match found, pi_deferredAdmissionPrice call with
  | Some price, _ => price
  | None, Some (Some price) => price
  | None, _ => pi_price call
  end.

(** The reservation [id] still waits for its bill, as [r] does. *)
Definition awaits (t : tables) (id : string) (r : RequestReservation) (t' : tables) : Prop :=
  books t' ∧ tb_request_logs t' = tb_request_logs t ∧
  ∃ r', tb_reservations t' !! id = Some r' ∧ is_active r' = true ∧
    r_TenantID r' = r_TenantID r ∧ r_APIKeyID r' = r_APIKeyID r ∧
    reservationBillingSource r' = reservationBillingSource r.

Section bill.
Context `{TimeZone} `{NameUUID} `{FloatToInt} `{StatusText} `{PriceEncoding}.
Context (E : env).

Lemma wp_price_snapshot t id r snapshot :
books t → tb_reservations t !! id = Some r → is_active r = true →
wp Direct E (UpdateReservationPriceSnapshot id snapshot) t (λ _ t', awaits t id r t').
Proof.
intros Ht Hr Ha.
assert (wp Direct E (UpdateReservationPriceSnapshot id snapshot) t (λ _ t',
  tb_request_logs t' = tb_request_logs t ∧ ∃ r', tb_reservations t' !! id = Some r' ∧ is_active r' = true ∧
    r_TenantID r' = r_TenantID r ∧ r_APIKeyID r' = r_APIKeyID r ∧
    reservationBillingSource r' = reservationBillingSource r)) as Hw.
{ apply wp_bind, wp_update_where; cbn.
  - intros r0 Hr0 _ _. assert (r0 = r) as -> by congruence. apply wp_ret. split; [done|].
    eexists. split; [apply lookup_insert_eq|]. done.
  - intros Hnone. apply wp_fail. split; [done|]. by exists r.
  - done.
  - intros. split; [done|]. by exists r. }
eapply wp_mono; [exact (wp_and _ _ _ _ _ _ (books_UpdateReservationPriceSnapshot Direct E id snapshot t Ht) Hw)|].
intros ? t' [Hb Hrest]. by split.
Qed.

Lemma wp_final_price prices call path parsed t r :
books t → tb_reservations t !! pi_requestID call = Some r → is_active r = true →
wp Direct E (final_price prices call path parsed) t (λ a t',
  awaits t (pi_requestID call) r t' ∧ ∃ c, a = Ok (billed_price prices call path parsed, c)).
Proof.
intros Ht Hr Ha.
assert (awaits t (pi_requestID call) r t) as Hself by (split; [done|]; split; [done|]; by exists r).
unfold final_price, billed_price, requestPriceDimensions.
cbn [d_APIGroupKey d_Model d_ModelAlias d_AuthIndex d_ServiceTier d_ResponseServiceTier d_ReasoningEffort
     d_Endpoint d_ExecutorType].
set (found := prices _). destruct (_ && negb (NonGenerated parsed)).
- destruct found as [p|].
  + destruct (match pi_deferredAdmissionPrice call with Some (Some p) => _ | _ => _ end) as [p0 c0].
    apply wp_bind, wp_attempt. eapply wp_mono; [by apply wp_price_snapshot|].
    intros a t' Haw. apply wp_ret. split; [done|]. by eexists.
  + destruct (pi_deferredAdmissionPrice call) as [[p0|]|]; apply wp_ret; (split; [done|]); by eexists.
- destruct (pi_deferredAdmissionPrice call) as [[p0|]|]; apply wp_ret; (split; [done|]); by eexists.
Qed.

Lemma wp_requestLogInput key id admission meta req status started parsed (complete settled : bool) (cost : Z) message c t
  (Q : result LogInput → tables → Prop) :
(∀ input, li_CostNanoUSD input = (if complete then Some cost else None) → li_PricingComplete input = complete →
   li_Usage input = br_Usage (default empty_result parsed) → Q (Ok input) t) →
wp Direct E (requestLogInput key id admission meta req status started parsed complete settled cost message c) t Q.
Proof.
intros HQ. unfold requestLogInput. apply wp_bind.
apply (wp_mono _ _ _ _ (λ (a : result Z) (t' : tables), t' = t ∧ ∃ now, a = Ok now)).
- destruct (lc_completedAt c =? 0); [apply wp_now; eauto|apply wp_ret; eauto].
- intros a t' [-> [now ->]]. apply wp_ret. by apply HQ.
Qed.

(** What a response owes: on evidence, its exact cost, up to the largest int64; otherwise nothing. *)
Definition owes (call : publicInference) (parsed : Result) (price : SnapshotPrice) (status charge : Z) : Prop :=
let due := status < 400 ∧ pi_priceConfigured call = true ∧ evidence parsed price in
(due → charge = Z.min max_int64 (exact_cost price (br_Usage parsed))) ∧ (¬ due → charge = 0).

(** What the bill of a response comes to. *)
Record billed_response (t : tables) (r : RequestReservation) (call : publicInference) (parsed : Result)
  (price : SnapshotPrice) (charge status : Z) (t' : tables) : Prop := {
charge_is_owed : owes call parsed price status charge;
reservation_settled : ∃ r', tb_reservations t' !! pi_requestID call = Some r' ∧
  r_Status r' = ReservationSettled ∧ r_ActualNanoUSD r' = Some charge;
charge_is_logged : if 0 <? charge
  then ∃ row, tb_request_logs t' = <[pi_requestID call := row]> (tb_request_logs t) ∧
    rl_CostNanoUSD row = Some charge ∧ rl_Usage row = br_Usage parsed ∧
    rl_TenantID row = r_TenantID r ∧ rl_BillingSource row = reservationBillingSource r
  else tb_request_logs t' = tb_request_logs t
}.

Lemma assessment_range call status parsed price :
usage_int64 (br_Usage parsed) → price_int64 (sp_Price price) →
let a := assess_response call status parsed price in
0 ≤ as_CostNanoUSD a ∧ (400 ≤ status → as_CostNanoUSD a = 0) ∧
(as_CostNanoUSD a ≠ 0 → as_Complete a = true ∧ pi_priceConfigured call = true ∧ evidence parsed price ∧
   as_CostNanoUSD a = CostNanoUSD price (br_Usage parsed)).
Proof.
intros Hu Hp. cbn zeta. unfold assess_response.
destruct (pi_billable call); cbn [andb]; [|done].
destruct (Z.ltb_spec status 400) as [Hs|Hs]; [|done].
destruct (assess_cases parsed (if pi_priceConfigured call then Some price else None)) as [->|(p & Hsome & Hev & ->)];
  [done|].
destruct (pi_priceConfigured call); [|done]. injection Hsome as <-. cbn [as_CostNanoUSD as_Complete].
pose proof (cost_nonneg _ _ Hp Hu). split; [lia|]. split; [lia|done].
Qed.

Lemma assessment_owed call status parsed price :
usage_int64 (br_Usage parsed) → price_int64 (sp_Price price) → pi_billable call = true →
owes call parsed price status (as_CostNanoUSD (assess_response call status parsed price)).
Proof.
intros Hu Hp Hb. pose proof (assessment_range call status parsed price Hu Hp) as (_ & Hfail & Hev). split.
- intros (Hs & Hconf & Hevidence). unfold assess_response. rewrite Hb, Hconf, (proj2 (Z.ltb_lt _ _) Hs). cbn [andb].
  by rewrite assess_evidence.
- intros Hnot. destruct (decide (as_CostNanoUSD (assess_response call status parsed price) = 0)) as [|Hne]; [done|].
  destruct Hnot. destruct (Hev Hne) as (_ & Hconf & Hevidence & _). split; [|done].
  destruct (Z.lt_ge_cases status 400) as [|Hs]; [done|]. by specialize (Hfail Hs).
Qed.

(** C7: A response is charged exactly what it owes.  If its status is below 400, its price is
  configured and its usage is evidence - it was reported, as complete, with image output where that has
  a price - the charge is the sum of tokens times rates at the price that applies, up to the largest
  int64; in every other case, a success that reports no usage included, it is nothing, and the hold
  is given back.  The reservation is settled with exactly that charge, and a row with the same cost
  and usage is filed if there is a charge at all. *)
Theorem responses_pay_for_their_usage cfg prices runtime call req sv t n r input t' c :
reachable t → tb_reservations t !! pi_requestID call = Some r → is_active r = true → pi_billable call = true →
let parsed := response_usage runtime call (hr_Path req) sv in
let price := billed_price prices call (hr_Path req) parsed in
usage_int64 (br_Usage parsed) → price_int64 (sp_Price price) →
finalize cfg prices runtime call req sv E t n = (Ok (input, Ok ()), t', c) →
∃ charge, billed_response t r call parsed price charge (sv_status sv) t'.
Proof.
intros Ht%reachable_books Hr Ha Hbill parsed price Hu Hp Hrun.
exists (as_CostNanoUSD (assess_response call (sv_status sv) parsed price)).
pose proof (assessment_owed call (sv_status sv) parsed price Hu Hp Hbill) as Howed.
destruct (assessment_range call (sv_status sv) parsed price Hu Hp) as (Hpos & Hfail & Hev).
assert (wp Direct E (finalize cfg prices runtime call req sv) t (λ a t',
  ∀ input, a = Ok (input, Ok ()) → billed_response t r call parsed price
    (as_CostNanoUSD (assess_response call (sv_status sv) parsed price)) (sv_status sv) t')) as Hw;
  [|exact (wp_direct _ _ _ _ _ _ _ _ Hw Hrun input eq_refl)].
clear Hrun input t' c. unfold finalize. apply wp_bind. eapply wp_mono; [by apply wp_final_price with (r := r)|].
intros a t1 [(Ht1 & Hlogs & r1 & Hr1 & Ha1 & Htenant & Hkey & Hsource) [ctx ->]]. cbn zeta. cbn [fst snd].
fold parsed. fold price. set (a := assess_response _ _ parsed price) in *. clearbody a.
apply wp_bind, wp_requestLogInput. intros input Hcost Hcomplete Husage.
assert (li_Usage input = br_Usage parsed) as Hsame by (rewrite Husage; by destruct (sv_upstreamModel sv)). clear Husage. rewrite Hbill.
apply wp_bind, wp_attempt. eapply wp_mono; [by apply (settle_with_log E t1 (pi_requestID call) input r1)|].
intros [u|e] t2 Hs; apply wp_ret; intros input' Heq; [|done]. clear Heq input'.
assert (settled_charge input = as_CostNanoUSD a) as Hcharge.
{ unfold settled_charge. rewrite Hcost, Hcomplete. destruct (as_Complete a) eqn:Hc; cbn [andb].
  - destruct (Z.ltb_spec 0 (as_CostNanoUSD a)); lia.
  - destruct (decide (as_CostNanoUSD a = 0)) as [|Hne]; [done|]. destruct (Hev Hne). congruence. }
destruct Hs as [(r' & Hr' & Hst & Hact & _) Hrow]. rewrite Hcharge in Hact, Hrow. split; [done|by eauto|].
rewrite Hlogs in Hrow. destruct (0 <? as_CostNanoUSD a); [|done].
  destruct Hrow as (_ & row & Ht2 & _ & Hc & _ & Ht' & _ & Hs & Hu'). exists row. split_and!; try done; congruence.
Qed.
End bill.

(** ** Example *)

#[export] Instance plain_status : StatusText := λ _, "error".
#[export] Instance plain_price : PriceEncoding := sp_PricedModel.

Definition chat_meta : requestMeta := Build_requestMeta "gpt-5" false "" "" 0 "gpt-5" "" false.
Definition chat_post : HTTPRequest :=
  {| hr_Method := "POST"; hr_Path := "/v1/chat/completions"; hr_Upgrade := "";
     hr_Client := Build_clientIdentity "curl" "8" "curl/8" |}.
Definition no_context : requestLogContext :=
  Build_requestLogContext LogUnitUnset None None None None "" "" 0 0 0 "{}" 0.

Definition chat_call : publicInference :=
  {| pi_key := acme_context; pi_requestID := "req"; pi_admission := Build_Admission "req" "" "" "" "" 100 0;
     pi_meta := chat_meta; pi_started := second; pi_billable := true; pi_logContext := no_context;
     pi_price := text_price; pi_priceConfigured := true; pi_deferredAdmissionPrice := Some None |}.

Definition no_detail : LogDetailInput :=
  Build_LogDetailInput "" "" "" "" "" "" false false false 0 0 0 0 "" "" "" "" "" "{}".

Definition chat_settings : settings := Build_settings 100 400 "deny" (600 * second) 0.

Definition chat_served : served :=
  {| sv_status := 200; sv_writeErr := None;
     sv_capture := capture 200 [String.list_ascii_of_string body_counted_in]; sv_traceID := "";
     sv_firstTokenMS := None; sv_ttftMS := None; sv_completedAt := 3 * second; sv_stageTimings := "{}";
     sv_upstreamModel := None; sv_detail := no_detail |}.

Lemma responses_pay_for_their_usage_witness :
  let '(a, t', _) := finalize chat_settings (λ _, None) None chat_call chat_post chat_served later funded_store 0%nat in
  r_ActualNanoUSD <$> tb_reservations t' !! "req" = Some (Some 166) ∧
  rl_CostNanoUSD <$> tb_request_logs t' !! "req" = Some (Some 166).
Proof.
  assert (∃ r, tb_reservations funded_store !! "req" = Some r ∧ is_active r = true)
    as (r & Hr & Hactive) by (eexists; split; [by vm_compute|done]).
  destruct (finalize chat_settings (λ _, None) None chat_call chat_post chat_served later funded_store 0%nat)
    as [[[[input [[]|e]]|e] t'] c] eqn:Hrun; [|by vm_compute in Hrun..].
  destruct (responses_pay_for_their_usage later chat_settings (λ _, None) None chat_call chat_post chat_served
    funded_store 0%nat r input t' c reachable_funded_store Hr Hactive eq_refl ltac:(vm_dec) ltac:(vm_dec) Hrun)
    as [charge [[Howed _] (r' & Hr' & _ & Hact) Hrow]].
  assert (charge = 166) as ->.
  { rewrite Howed; [by vm_compute|]. split; [by vm_compute|]. split; [by vm_compute|]. split; [by vm_compute|]. split.
    - assert (br_UsageQuality (response_usage None chat_call (hr_Path chat_post) chat_served) = "") as ->
        by (vm_compute; reflexivity). by left.
    - intros Himage. exfalso. apply Himage. vm_compute. reflexivity. }
  cbn [pi_requestID chat_call] in Hr', Hrow.
  rewrite Hr'. cbn in Hrow. destruct Hrow as (row & -> & Hc & _).
  split; [by cbn; rewrite Hact|]. rewrite lookup_insert_eq. by cbn; rewrite Hc.
Defined.
