(* ===== verification/Encoding.v ===== *)
(** * Text encodings and calendar months of the standard library

    [base64.RawURLEncoding], [base64.RawStdEncoding], [base32.StdEncoding] without
    padding, hexadecimal text, [time.Time.AddDate] for months, instants in RFC 3339
    and quoted strings. *)

From stdpp Require Import pretty.
From S2P Require Import Prelude.
From S2P Require Import RequestLogs.

(** ** Bits and alphabets *)

Definition b64_alphabet : string := "ABCDEFGHIJKLMNOPQRSTUVWXYZabcdefghijklmnopqrstuvwxyz0123456789-_".
Definition b32_alphabet : string := "ABCDEFGHIJKLMNOPQRSTUVWXYZ234567".

(** The number whose bits are listed from the most significant one. *)
Fixpoint bits_value (l : list bool) (acc : nat) : nat :=
  match l with
  | [] => acc
  | b :: l => bits_value l (2 * acc + if b then 1 else 0)%nat
  end.

(** The [k] lowest bits of a number, the most significant one first. *)
Fixpoint value_bits (k n : nat) : list bool :=
  match k with
  | O => []
  | S k => value_bits k (Nat.div2 n) ++ [Nat.odd n]
  end.

Definition digit (alphabet : string) (l : list bool) : ascii :=
  default Ascii.zero (String.get (bits_value l 0) alphabet).

Fixpoint position (c : ascii) (s : string) (n : nat) : option nat :=
  match s with
  | EmptyString => None
  | String d s => if bool_decide (c = d) then Some n else position c s (S n)
  end.

Definition undigit (alphabet : string) (k : nat) (c : ascii) : option (list bool) :=
  value_bits k <$> position c alphabet 0.

Lemma undigit64 b1 b2 b3 b4 b5 b6 :
  undigit b64_alphabet 6 (digit b64_alphabet [b1; b2; b3; b4; b5; b6]) = Some [b1; b2; b3; b4; b5; b6].
Proof. destruct b1, b2, b3, b4, b5, b6; reflexivity. Qed.

(** ** Base 64, URL alphabet, no padding *)

Fixpoint b64_encode (bytes : list ascii) : list ascii :=
  let dg := digit b64_alphabet in
  match bytes with
  | Ascii a0 a1 a2 a3 a4 a5 a6 a7 :: Ascii b0 b1 b2 b3 b4 b5 b6 b7 ::
    Ascii c0 c1 c2 c3 c4 c5 c6 c7 :: rest =>
      dg [a7; a6; a5; a4; a3; a2] :: dg [a1; a0; b7; b6; b5; b4] ::
      dg [b3; b2; b1; b0; c7; c6] :: dg [c5; c4; c3; c2; c1; c0] :: b64_encode rest
  | [Ascii a0 a1 a2 a3 a4 a5 a6 a7; Ascii b0 b1 b2 b3 b4 b5 b6 b7] =>
      [dg [a7; a6; a5; a4; a3; a2]; dg [a1; a0; b7; b6; b5; b4]; dg [b3; b2; b1; b0; false; false]]
  | [Ascii a0 a1 a2 a3 a4 a5 a6 a7] =>
      [dg [a7; a6; a5; a4; a3; a2]; dg [a1; a0; false; false; false; false]]
  | [] => []
  end.

(** Four digits are three bytes; what is left over of the last bits is ignored. *)
Fixpoint b64_decode (chars : list ascii) : option (list ascii) :=
  let ud := undigit b64_alphabet 6 in
  match chars with
  | c1 :: c2 :: c3 :: c4 :: rest =>
      d1 ← ud c1; d2 ← ud c2; d3 ← ud c3; d4 ← ud c4; bytes ← b64_decode rest;
      match d1, d2, d3, d4 with
      | [a7; a6; a5; a4; a3; a2], [a1; a0; b7; b6; b5; b4],
        [b3; b2; b1; b0; e7; e6], [e5; e4; e3; e2; e1; e0] =>
          Some (Ascii a0 a1 a2 a3 a4 a5 a6 a7 :: Ascii b0 b1 b2 b3 b4 b5 b6 b7 ::
                Ascii e0 e1 e2 e3 e4 e5 e6 e7 :: bytes)
      | _, _, _, _ => None
      end
  | [c1; c2; c3] =>
      d1 ← ud c1; d2 ← ud c2; d3 ← ud c3;
      match d1, d2, d3 with
      | [a7; a6; a5; a4; a3; a2], [a1; a0; b7; b6; b5; b4], (b3 :: b2 :: b1 :: b0 :: _) =>
          Some [Ascii a0 a1 a2 a3 a4 a5 a6 a7; Ascii b0 b1 b2 b3 b4 b5 b6 b7]
      | _, _, _ => None
      end
  | [c1; c2] =>
      d1 ← ud c1; d2 ← ud c2;
      match d1, d2 with
      | [a7; a6; a5; a4; a3; a2], (a1 :: a0 :: _) => Some [Ascii a0 a1 a2 a3 a4 a5 a6 a7]
      | _, _ => None
      end
  | [_] => None
  | [] => Some []
  end.

Definition is_newline (c : ascii) : bool := bool_decide (c = "013"%char) || bool_decide (c = "010"%char).

(** [EncodeToString]; [DecodeString] skips line breaks. *)
Definition b64_string (bytes : string) : string :=
  String.string_of_list_ascii (b64_encode (String.list_ascii_of_string bytes)).

Definition b64_bytes (s : string) : option string :=
  String.string_of_list_ascii <$>
    b64_decode (filter (λ c, is_newline c = false) (String.list_ascii_of_string s)).

Lemma digit64_plain b1 b2 b3 b4 b5 b6 :
  is_newline (digit b64_alphabet [b1; b2; b3; b4; b5; b6]) = false.
Proof. destruct b1, b2, b3, b4, b5, b6; reflexivity. Qed.

Lemma three_at_a_time {A} (P : list A → Prop) :
  P [] → (∀ a, P [a]) → (∀ a b, P [a; b]) → (∀ a b c l, P l → P (a :: b :: c :: l)) → ∀ l, P l.
Proof.
  intros H0 H1 H2 H3. fix IH 1. intros [|a [|b [|c l]]]; [done|apply H1|apply H2|apply H3, IH].
Qed.

Lemma b64_encode_plain bytes : filter (λ c, is_newline c = false) (b64_encode bytes) = b64_encode bytes.
Proof.
  revert bytes. apply three_at_a_time.
  - done.
  - intros []. cbn [b64_encode]. by rewrite !filter_cons, !digit64_plain.
  - intros [] []. cbn [b64_encode]. by rewrite !filter_cons, !digit64_plain.
  - intros [] [] [] l IH. cbn [b64_encode]. by rewrite !filter_cons, !digit64_plain, IH.
Qed.

Lemma b64_decode_encode bytes : b64_decode (b64_encode bytes) = Some bytes.
Proof.
  revert bytes. apply three_at_a_time.
  - done.
  - intros []. cbn [b64_encode b64_decode]. by rewrite !undigit64.
  - intros [] []. cbn [b64_encode b64_decode]. by rewrite !undigit64.
  - intros [] [] [] l IH. cbn [b64_encode b64_decode]. by rewrite !undigit64, IH.
Qed.

Lemma b64_bytes_string s : b64_bytes (b64_string s) = Some s.
Proof.
  unfold b64_bytes, b64_string.
  rewrite String.list_ascii_of_string_of_list_ascii, b64_encode_plain, b64_decode_encode. cbn.
  by rewrite String.string_of_list_ascii_of_string.
Qed.

(** ** Base 64, standard alphabet, no padding

    [RawStdEncoding] writes [+] and [/] where [RawURLEncoding] writes [-] and [_]. *)

Definition map_string (f : ascii → ascii) (s : string) : string :=
  String.string_of_list_ascii (f <$> String.list_ascii_of_string s).

Definition std_char (c : ascii) : ascii :=
  if bool_decide (c = "-"%char) then "+"%char else if bool_decide (c = "_"%char) then "/"%char else c.

Definition url_char (c : ascii) : ascii :=
  if bool_decide (c = "+"%char) then "-"%char else if bool_decide (c = "/"%char) then "_"%char else c.

Definition b64std_string (bytes : string) : string := map_string std_char (b64_string bytes).

Definition b64std_bytes (s : string) : option string :=
  if existsb (λ c, bool_decide (c = "-"%char) || bool_decide (c = "_"%char))
       (String.list_ascii_of_string s)
  then None else b64_bytes (map_string url_char s).

Lemma b64_encode_digits (P : ascii → Prop) :
  (∀ b1 b2 b3 b4 b5 b6, P (digit b64_alphabet [b1; b2; b3; b4; b5; b6])) →
  ∀ bytes, Forall P (b64_encode bytes).
Proof.
  intros HP. apply three_at_a_time.
  - constructor.
  - intros []. cbn [b64_encode]. repeat constructor; apply HP.
  - intros [] []. cbn [b64_encode]. repeat constructor; apply HP.
  - intros [] [] [] l IH. cbn [b64_encode]. repeat constructor; [apply HP..|exact IH].
Qed.

Lemma b64std_chars (P : ascii → Prop) s :
  (∀ b1 b2 b3 b4 b5 b6, P (std_char (digit b64_alphabet [b1; b2; b3; b4; b5; b6]))) →
  Forall P (String.list_ascii_of_string (b64std_string s)).
Proof.
  intros HP. unfold b64std_string, map_string, b64_string.
  rewrite !String.list_ascii_of_string_of_list_ascii. apply list.Forall_fmap.
  by apply (b64_encode_digits (P ∘ std_char)).
Qed.

Lemma b64std_bytes_string s : b64std_bytes (b64std_string s) = Some s.
Proof.
  unfold b64std_bytes.
  assert (existsb (λ c, bool_decide (c = "-"%char) || bool_decide (c = "_"%char))
    (String.list_ascii_of_string (b64std_string s)) = false) as ->.
  { apply not_true_is_false. intros (c & Hin%list_elem_of_In & Hc)%existsb_exists.
    pose proof (b64std_chars (λ c, (bool_decide (c = "-"%char) || bool_decide (c = "_"%char)) = false) s)
      as Hall. rewrite list.Forall_forall in Hall.
    rewrite Hall in Hc; [done| |exact Hin]. intros [] [] [] [] [] []; reflexivity. }
  unfold b64std_string, map_string. rewrite String.list_ascii_of_string_of_list_ascii.
  rewrite <- list_fmap_compose. assert (url_char ∘ std_char <$> String.list_ascii_of_string (b64_string s)
    = String.list_ascii_of_string (b64_string s)) as ->.
  { unfold b64_string. rewrite String.list_ascii_of_string_of_list_ascii.
    rewrite <- (list_fmap_id (b64_encode _)) at 2. apply Forall_fmap_ext_1, b64_encode_digits.
    intros [] [] [] [] [] []; reflexivity. }
  by rewrite String.string_of_list_ascii_of_string, b64_bytes_string.
Qed.

(** [fmt.Sprintf("%x", bytes)]. *)
Definition hex_string (bytes : string) : string :=
  String.string_of_list_ascii (String.list_ascii_of_string bytes ≫= λ c,
    (λ n, default Ascii.zero (String.get n "0123456789abcdef")) <$>
      [Nat.div (Ascii.nat_of_ascii c) 16; Nat.modulo (Ascii.nat_of_ascii c) 16]).

(** ** Base 32, no padding *)

(** Five bytes are eight digits. *)
Definition b32_encode5 (bytes : list ascii) : list ascii :=
  let dg := digit b32_alphabet in
  match bytes with
  | [Ascii a0 a1 a2 a3 a4 a5 a6 a7; Ascii b0 b1 b2 b3 b4 b5 b6 b7; Ascii c0 c1 c2 c3 c4 c5 c6 c7;
     Ascii d0 d1 d2 d3 d4 d5 d6 d7; Ascii e0 e1 e2 e3 e4 e5 e6 e7] =>
      [dg [a7; a6; a5; a4; a3]; dg [a2; a1; a0; b7; b6]; dg [b5; b4; b3; b2; b1];
       dg [b0; c7; c6; c5; c4]; dg [c3; c2; c1; c0; d7]; dg [d6; d5; d4; d3; d2];
       dg [d1; d0; e7; e6; e5]; dg [e4; e3; e2; e1; e0]]
  | _ => []
  end.

(** [DecodeString] fails exactly on a character outside the alphabet. *)
Definition b32_valid (s : string) : bool :=
  forallb (λ c, is_newline c || bool_decide (is_Some (position c b32_alphabet 0)))
    (String.list_ascii_of_string s).

(** ** Calendar months *)

(** Days from 0001-01-01 to a date of the proleptic Gregorian calendar, and back. *)
Definition days_from_civil (y m d : Z) : Z :=
  let y := if m <=? 2 then y - 1 else y in
  let era := y / 400 in
  let yoe := y - era * 400 in
  let doy := (153 * (m + (if 2 <? m then -3 else 9)) + 2) / 5 + d - 1 in
  let doe := yoe * 365 + yoe / 4 - yoe / 100 + doy in
  era * 146097 + doe - 306.

Definition civil_from_days (z : Z) : Z * Z * Z :=
  let z := z + 306 in
  let era := z / 146097 in
  let doe := z - era * 146097 in
  let yoe := (doe - doe / 1460 + doe / 36524 - doe / 146096) / 365 in
  let doy := doe - (365 * yoe + yoe / 4 - yoe / 100) in
  let mp := (5 * doy + 2) / 153 in
  let m := if mp <? 10 then mp + 3 else mp - 9 in
  (yoe + era * 400 + (if m <=? 2 then 1 else 0), m, doy - (153 * mp + 2) / 5 + 1).

(** [t.AddDate(0, months, 0)] in the local zone: the same wall clock on the same day of a later
    month, a day past the end of that month running over into the next. *)
Definition add_months `{TimeZone} (t months : Z) : Z :=
  let wall := t + tz_offset t in
  let '(y, m, d) := civil_from_days (wall / day_ns) in
  let m0 := m - 1 + months in
  let day := days_from_civil (y + m0 / 12) (m0 mod 12 + 1) 1 + d - 1 in
  let wall := day * day_ns + wall mod day_ns in
  let offset := tz_offset wall in
  if offset =? 0 then wall else wall - tz_offset (wall - offset).

Example epoch_days : days_from_civil 1 1 1 = 0 ∧ days_from_civil 1970 1 1 = 719162.
Proof. by split. Qed.

Example leap_day : civil_from_days (days_from_civil 2024 2 29) = (2024, 2, 29).
Proof. reflexivity. Qed.

(** ** Instants as text *)

(** The last [n] decimal digits of a number. *)
Fixpoint decimal_digits (n : nat) (z : Z) : string :=
  match n with
  | O => ""
  | S n => decimal_digits n (z / 10) +:+ String (Ascii.ascii_of_nat (48 + Z.to_nat (z mod 10))) ""
  end.

(** A year has at least four digits. *)
Definition year_digits (y : Z) : string :=
  if y <? 10000 then decimal_digits 4 y else pretty (Z.to_N y).

Fixpoint trim_zeros (s : string) : string :=
  match s with
  | EmptyString => EmptyString
  | String c s' =>
      match trim_zeros s' with
      | EmptyString => if bool_decide (c = "0"%char) then EmptyString else String c EmptyString
      | s' => String c s'
      end
  end.

(** [t.UTC().Format(time.RFC3339Nano)]: the zeros at the end of the fraction are left out. *)
Definition rfc3339_nano (t : Z) : string :=
  let '(y, m, d) := civil_from_days (t / day_ns) in
  let seconds := t mod day_ns / 1000000000 in
  let fraction := trim_zeros (decimal_digits 9 (t mod 1000000000)) in
  year_digits y +:+ "-" +:+ decimal_digits 2 m +:+ "-" +:+ decimal_digits 2 d +:+ "T" +:+
  decimal_digits 2 (seconds / 3600) +:+ ":" +:+ decimal_digits 2 (seconds / 60 mod 60) +:+ ":" +:+
  decimal_digits 2 (seconds mod 60) +:+
  (if bool_decide (fraction = "") then "" else "." +:+ fraction) +:+ "Z".

Example instants_as_text :
  rfc3339_nano 0 = "0001-01-01T00:00:00Z" ∧
  rfc3339_nano ((days_from_civil 2026 7 23 * 86400 + 3661) * 1000000000 + 120) =
    "2026-07-23T01:01:01.00000012Z".
Proof. by vm_compute. Qed.

(** The verb [%q] of package fmt: a double-quoted Go string literal. *)
Definition quoted_char (c : ascii) : string :=
  let n := Ascii.nat_of_ascii c in
  let escaped c := String "\"%char (String c "") in
  if bool_decide (n = 34 ∨ n = 92)%nat then escaped c
  else match n with
       | 7 => escaped "a"%char
       | 8 => escaped "b"%char
       | 9 => escaped "t"%char
       | 10 => escaped "n"%char
       | 11 => escaped "v"%char
       | 12 => escaped "f"%char
       | 13 => escaped "r"%char
       | _ => if bool_decide (n < 32 ∨ n = 127)%nat
              then escaped "x"%char +:+ hex_string (String c "") else String c ""
       end%nat.

Fixpoint quoted_chars (s : string) : string :=
  match s with
  | EmptyString => EmptyString
  | String c s => quoted_char c +:+ quoted_chars s
  end.

Definition quoted (s : string) : string :=
  let mark := String (Ascii.ascii_of_nat 34) "" in mark +:+ quoted_chars s +:+ mark.
