(* ===== verification/Passwords.v ===== *)
(** * Password hashes (internal/store/password.go)

    A password is stored as the PHC text of an Argon2id digest with its salt and
    parameters; two older formats are still verified and replaced at the next
    login.  The three key derivation functions of golang.org/x/crypto are
    parameters. *)

From Stdlib Require Import SpecFloat.
From S2P Require Import Prelude.
From S2P Require Import Float64.
From S2P Require Import Database.
From S2P Require Import Schema.
From S2P Require Import RequestLogs.
From S2P Require Import Encoding.
From S2P Require Import Pricing.

(** [argon2.IDKey(password, salt, time, memory, threads, keyLen)],
    [bcrypt.CompareHashAndPassword(hash, password) == nil] and
    [scrypt.Key(password, salt, N, r, p, keyLen)], which may refuse its parameters. *)
Class PasswordHashing := {
  argon2_IDKey : string → string → Z → Z → Z → Z → string;
  bcrypt_matches : string → string → bool;
  scrypt_Key : string → string → Z → Z → Z → Z → option string
}.

(** The documentation of IDKey: a key of [keyLen] bytes. *)
Class LawfulPasswordHashing `{PasswordHashing} : Prop :=
  argon2_length password salt time memory threads keyLen :
    0 ≤ keyLen → Z.of_nat (String.length (argon2_IDKey password salt time memory threads keyLen)) = keyLen.

(* src/internal/store/password.go:17-17 argonMemory *)
Definition argonMemory : Z := 64 * 1024.
(* src/internal/store/password.go:18-18 argonTime *)
Definition argonTime : Z := 3.
(* src/internal/store/password.go:19-19 argonThreads *)
Definition argonThreads : Z := 2.
(* src/internal/store/password.go:20-20 argonKeyLen *)
Definition argonKeyLen : Z := 32.
(* src/internal/store/password.go:21-21 argonSaltLen *)
Definition argonSaltLen : nat := 16.

(** [strings.Split] at one character. *)
Fixpoint split_on (sep : ascii) (s : string) : list string :=
  match s with
  | EmptyString => [""]
  | String c s =>
      if bool_decide (c = sep) then "" :: split_on sep s
      else match split_on sep s with
           | part :: parts => String c part :: parts
           | [] => [String c ""]
           end
  end.

(** ** [fmt.Sscanf(s, "m=%d,t=%d,p=%d", ...)]

    A verb skips spaces, where a line break is an error, and takes as many digits as there
    are; what follows the last verb is not looked at. *)
Fixpoint skip_spaces (s : string) : option string :=
  match s with
  | EmptyString => Some ""
  | String c s' =>
      if bool_decide (c = "010"%char) then None
      else if ascii_space c then skip_spaces s' else Some s
  end.

Fixpoint take_digits (s : string) : string * string :=
  match s with
  | EmptyString => ("", "")
  | String c s' =>
      if is_digit c then let '(digits, rest) := take_digits s' in (String c digits, rest) else ("", s)
  end.

(** [%d] into an unsigned integer of the given width. *)
Definition scan_uint (bits : Z) (s : string) : option (Z * string) :=
  s ← skip_spaces s;
  let '(digits, rest) := take_digits s in
  value ← unsigned_value digits;
  if value <? 2 ^ bits then Some (value, rest) else None.

(** The memory, the iterations and the threads. *)
(* src/internal/store/password.go:51-56 verifyArgon2id *)
Definition scan_argon_parameters (s : string) : option (Z * Z * Z) :=
  s ← strip_prefix "m=" s;
  memory ← scan_uint 32 s;
  s ← strip_prefix ",t=" memory.2;
  iterations ← scan_uint 32 s;
  s ← strip_prefix ",p=" iterations.2;
  threads ← scan_uint 8 s;
  Some (memory.1, iterations.1, threads.1).

(** ** Hashing and verifying *)

Section passwords.
Context `{PasswordHashing}.

(** The text that is stored. *)
(* src/internal/store/password.go:30-32 hashPassword *)
Definition argon2id_text (salt hash : string) : string :=
"$argon2id$v=19$m=65536,t=3,p=2$" +:+ b64std_string salt +:+ "$" +:+ b64std_string hash.

(* src/internal/store/password.go:24-33 hashPassword *)
Definition hashPassword (password : string) : DB string :=
salt ← random_bytes argonSaltLen;
let salt := String.string_of_list_ascii salt in
let hash := argon2_IDKey password salt argonTime argonMemory argonThreads argonKeyLen in
mret (argon2id_text salt hash).

(* src/internal/store/password.go:46-64 verifyArgon2id *)
Definition verifyArgon2id (encoded password : string) : bool :=
match split_on "$" encoded with
| [_; kind; version; parameters; salt; want] =>
    if bool_decide (kind ≠ "argon2id") || bool_decide (version ≠ "v=19") then false
    else
      match scan_argon_parameters parameters, b64std_bytes salt, b64std_bytes want with
      | Some (memory, iterations, threads), Some salt, Some want =>
          if (memory =? 0) || (iterations =? 0) || (threads =? 0) || bool_decide (want = "") then false
          else bool_decide (argon2_IDKey password salt iterations memory threads
                              (Z.of_nat (String.length want) mod 2 ^ 32) = want)
      | _, _, _ => false
      end
| _ => false
end.

(* src/internal/store/password.go:66-81 verifyScrypt *)
Definition verifyScrypt (encoded password : string) : bool :=
match split_on "$" encoded with
| [kind; n; r; p; salt; want] =>
    let '(n, okN) := parse_int n in
    let '(r, okR) := parse_int r in
    let '(p, okP) := parse_int p in
    match b64_bytes salt, b64_bytes want with
    | Some salt, Some want =>
        bool_decide (kind = "scrypt") && okN && okR && okP &&
        negb (n <=? 1) && negb (r <=? 0) && negb (p <=? 0) && negb (bool_decide (want = "")) &&
        bool_decide (scrypt_Key password salt n r p (Z.of_nat (String.length want)) = Some want)
    | _, _ => false
    end
| _ => false
end.

(** Whether the password is right, and whether its hash should be replaced. *)
(* src/internal/store/password.go:35-44 verifyPassword *)
Definition verifyPassword (hash password : string) : bool * bool :=
if has_prefix hash "$argon2id$" then (verifyArgon2id hash password, false)
else if has_prefix hash "$2" then (bcrypt_matches hash password, true)
else (verifyScrypt hash password, true).

(** ** What was hashed verifies *)

Lemma split_on_plain sep s :
  Forall (λ c, c ≠ sep) (String.list_ascii_of_string s) → split_on sep s = [s].
Proof.
  induction s as [|c s IH]; [done|]. cbn. intros Hall. apply list.Forall_cons in Hall as [Hc Hs].
  rewrite bool_decide_eq_false_2 by done. by rewrite IH.
Qed.

Lemma split_on_some sep s : split_on sep s ≠ [].
Proof. destruct s as [|c s]; [done|]. cbn. repeat case_match; done. Qed.

Lemma split_on_app sep s rest :
  split_on sep (s +:+ String sep rest) = split_on sep s ++ split_on sep rest.
Proof.
  induction s as [|c s IH].
  { change ("" +:+ ?x) with x. cbn. by rewrite bool_decide_eq_true_2. }
  change (String c s +:+ String sep rest) with (String c (s +:+ String sep rest)). cbn.
  case_bool_decide; [by rewrite IH|]. rewrite IH. pose proof (split_on_some sep s).
  by destruct (split_on sep s).
Qed.

Lemma b64std_no_dollar s : Forall (λ c, c ≠ "$"%char) (String.list_ascii_of_string (b64std_string s)).
Proof. apply b64std_chars. intros [] [] [] [] [] []; by vm_compute. Qed.

Lemma split_argon2id salt hash :
  split_on "$" (argon2id_text salt hash) =
  [""; "argon2id"; "v=19"; "m=65536,t=3,p=2"; b64std_string salt; b64std_string hash].
Proof.
  change (argon2id_text salt hash) with ("$argon2id$v=19$m=65536,t=3,p=2" +:+
    String "$" (b64std_string salt +:+ String "$" (b64std_string hash))).
  rewrite !split_on_app, (split_on_plain _ (b64std_string salt)),
    (split_on_plain _ (b64std_string hash)) by apply b64std_no_dollar. reflexivity.
Qed.

Lemma verify_argon2id_text `{!LawfulPasswordHashing} salt p q :
  verifyPassword (argon2id_text salt (argon2_IDKey p salt argonTime argonMemory argonThreads argonKeyLen)) q =
  (bool_decide (argon2_IDKey q salt argonTime argonMemory argonThreads argonKeyLen =
                argon2_IDKey p salt argonTime argonMemory argonThreads argonKeyLen), false).
Proof.
  pose proof (argon2_length p salt argonTime argonMemory argonThreads argonKeyLen ltac:(done)) as Hlen.
  unfold verifyPassword, has_prefix. rewrite bool_decide_eq_true_2 by (by eexists).
  unfold verifyArgon2id. rewrite split_argon2id, !b64std_bytes_string, Hlen.
  rewrite (bool_decide_eq_false_2 (_ = "")) by (intros Hw; by rewrite Hw in Hlen). reflexivity.
Qed.
End passwords.
