(* ===== verification/DeviceGrants.v ===== *)
(** * Device grants (internal/store/rai_authorizations.go, rai_oauth.go, rai_devices.go)

    A device that wants to act for a user creates an authorization with a PKCE
    challenge, the user approves or denies it in an authenticated browser, and
    the device exchanges it once for tokens with the matching verifier.  The
    access token is a sealed claim that names an OAuth session; the refresh
    token rotates.  Identifiers are arbitrary strings here; the syntax check of
    the uuid columns is not modelled. *)

From Stdlib Require Import SpecFloat.
From S2P Require Import Prelude.
From S2P Require Import Float64.
From S2P Require Import Database.
From S2P Require Import Schema.
From S2P Require Import RequestLogs.
From S2P Require Import Encoding.

(** ** Cryptography

    SHA-256 and AES-GCM are primitives of the standard library: a digest is a
    string of 32 bytes, and the cipher opens what it sealed under the same nonce
    and associated data.  What is sealed is the JSON of a token answer or of an
    access claim, held decoded. *)

Class Digest := sha256 : string → string.

(* src/internal/store/rai_oauth.go:20-27 RAIOAuthTokens *)
Record RAIOAuthTokens := {
  to_AccessToken : string;
  to_RefreshToken : string;
  to_TokenType : string;
  to_Purpose : string;
  to_ExpiresIn : Z;
  to_RefreshExpiresIn : Z
}.
#[export] Instance RAIOAuthTokens_eta : Eta RAIOAuthTokens := λ r, Build_RAIOAuthTokens
  (to_AccessToken r) (to_RefreshToken r) (to_TokenType r) (to_Purpose r) (to_ExpiresIn r)
  (to_RefreshExpiresIn r).

Definition no_tokens : RAIOAuthTokens := Build_RAIOAuthTokens "" "" "" "" 0 0.

(* src/internal/store/rai_oauth.go:29-32 raiAccessClaims *)
Record raiAccessClaims := { cl_SessionID : string; cl_Expires : Z }.

Inductive plaintext :=
  | TokensJSON (tokens : RAIOAuthTokens)
  | ClaimsJSON (claims : raiAccessClaims).

(** [json.Unmarshal] ignores members it does not know: the other document decodes to zeros. *)
Definition decode_tokens (p : plaintext) : RAIOAuthTokens :=
  match p with TokensJSON tokens => tokens | ClaimsJSON _ => no_tokens end.

Definition decode_claims (p : plaintext) : raiAccessClaims :=
  match p with ClaimsJSON claims => claims | TokensJSON _ => Build_raiAccessClaims "" 0 end.

Definition nonce_size : nat := 12.
Definition aead_overhead : nat := 16.

(** The cipher for plaintexts of type [P]. *)
Class AEAD (P : Type) := {
  aead_seal : list ascii → P → string → list ascii;
  aead_open : list ascii → list ascii → string → option P
}.

Class LawfulAEAD (P : Type) `{AEAD P} : Prop := {
  aead_open_seal nonce (p : P) ad : aead_open nonce (aead_seal nonce p ad) ad = Some p;
  aead_length nonce (p : P) ad : (aead_overhead ≤ length (aead_seal nonce p ad))%nat
}.

(** The JSON of the claims takes at most 6 bytes a character and 32 around, then 16 of tag. *)
Class ShortClaims `{AEAD plaintext} : Prop :=
  aead_claims_length nonce c ad :
    (String.length (cl_SessionID c) ≤ 36)%nat → in_int64 (cl_Expires c) →
    (length (aead_seal nonce (ClaimsJSON c) ad) ≤ 300)%nat.

(* src/internal/identity/identity.go:18-18 sealedSecretVersion *)
Definition sealedSecretVersion : ascii := Ascii.ascii_of_nat 1.

(* src/internal/identity/identity.go:117-120 HashKey *)
Definition HashKey `{Digest} (value : string) : string := sha256 value.

(** The version byte, the nonce, then the sealed text. *)
(* src/internal/identity/identity.go:40-52 SecretBox.Seal *)
Definition Seal {T P} `{AEAD P} (plain : P) (associatedData : string) : M T string :=
nonce ← random_bytes nonce_size;
mret (String.string_of_list_ascii
        (sealedSecretVersion :: nonce ++ aead_seal nonce plain associatedData)).

(* src/internal/identity/identity.go:54-67 SecretBox.Open *)
Definition Open {P} `{AEAD P} (sealed associatedData : string) : option P :=
let bytes := String.list_ascii_of_string sealed in
if bool_decide (length bytes < 1 + nonce_size + aead_overhead)%nat ||
   negb (bool_decide (head bytes = Some sealedSecretVersion))
then None
else aead_open (take nonce_size (tail bytes)) (drop nonce_size (tail bytes)) associatedData.

Section grants.
Context `{TimeZone} `{FloatToInt} `{Digest} `{AEAD plaintext}.

(* src/internal/identity/identity.go:84-91 NewAPIKey *)
Definition NewAPIKey : DB (string * string * string) :=
value ← random_bytes 32;
let plain := "relay_" +:+ b64_string (String.string_of_list_ascii value) in
mret (plain, String.substring 0 14 plain, sha256 plain).

(** [rand.Text()]: 26 random digits of the base 32 alphabet. *)
Definition rand_text : DB string :=
src ← random_bytes 26;
mret (String.string_of_list_ascii ((λ c, default Ascii.zero
        (String.get (Nat.modulo (Ascii.nat_of_ascii c) 32) b32_alphabet)) <$> src)).

(** ** Normalisation *)

(* src/internal/store/rai_authorizations.go:22-22 RAIAuthorizationPending *)
Definition RAIAuthorizationPending : string := "pending".
(* src/internal/store/rai_authorizations.go:23-23 RAIAuthorizationApproved *)
Definition RAIAuthorizationApproved : string := "approved".
(* src/internal/store/rai_authorizations.go:24-24 RAIAuthorizationDenied *)
Definition RAIAuthorizationDenied : string := "denied".
(* src/internal/store/rai_authorizations.go:25-25 RAIAuthorizationConsumed *)
Definition RAIAuthorizationConsumed : string := "consumed".
(* src/internal/store/rai_authorizations.go:26-26 raiAuthorizationTTL *)
Definition raiAuthorizationTTL : Z := 10 * minute.
(* src/internal/store/rai_authorizations.go:27-27 raiAuthorizationInterval *)
Definition raiAuthorizationInterval : Z := 3.

(* src/internal/store/rai_oauth.go:17-17 raiAccessTTL *)
Definition raiAccessTTL : Z := 15 * minute.
(* src/internal/store/rai_oauth.go:18-18 raiRefreshMonths *)
Definition raiRefreshMonths : Z := 6.

(** [unicode.IsPrint] on ASCII. *)
Definition is_print (c : ascii) : bool :=
let n := Ascii.nat_of_ascii c in bool_decide (32 ≤ n ∧ n ≤ 126)%nat.

Definition all_chars (f : ascii → bool) (s : string) : bool :=
forallb f (String.list_ascii_of_string s).

(* src/internal/store/rai_authorizations.go:54-59 RAIDeviceMetadata *)
Record RAIDeviceMetadata := {
md_Purpose : string;
md_DeviceOS : string;
md_DeviceArch : string;
md_RAIVersion : string
}.

(** One of the three descriptive fields. *)
(* src/internal/store/rai_authorizations.go:333-343 normalizeRAIDeviceMetadata *)
Definition normalize_field (field : string) : result string :=
let field := trim_space field in
if bool_decide (64 < String.length field)%nat then Err (ErrMessage "device metadata is too long")
else if negb (all_chars is_print field) then Err (ErrMessage "device metadata is invalid")
else Ok field.

Definition res_bind {A B} (r : result A) (k : A → result B) : result B :=
match r with Ok a => k a | Err e => Err e end.

(* src/internal/store/rai_authorizations.go:326-345 normalizeRAIDeviceMetadata *)
Definition normalizeRAIDeviceMetadata (device : RAIDeviceMetadata) : result RAIDeviceMetadata :=
let purpose := if bool_decide (md_Purpose device = "") then "inference" else md_Purpose device in
if bool_decide (purpose ≠ "inference") && bool_decide (purpose ≠ "account")
then Err (ErrMessage "purpose must be inference or account")
else
  res_bind (normalize_field (md_DeviceOS device)) (λ os,
  res_bind (normalize_field (md_DeviceArch device)) (λ arch,
  res_bind (normalize_field (md_RAIVersion device)) (λ version,
  Ok {| md_Purpose := purpose; md_DeviceOS := os; md_DeviceArch := arch;
        md_RAIVersion := version |}))).

(* src/internal/store/rai_authorizations.go:347-361 normalizeRAIDeviceName *)
Definition normalizeRAIDeviceName (name : string) : result string :=
let name := trim_space name in
if bool_decide (name = "") then Ok "rai"
else if bool_decide (64 < String.length name)%nat then Err (ErrMessage "device name is too long")
else if negb (all_chars (λ c, negb (is_newline c || bool_decide (c = Ascii.zero) ||
                                    negb (is_print c))) name)
then Err (ErrMessage "device name is invalid")
else Ok name.

Definition in_range (c lo hi : ascii) : bool :=
bool_decide (Ascii.nat_of_ascii lo ≤ Ascii.nat_of_ascii c ∧
             Ascii.nat_of_ascii c ≤ Ascii.nat_of_ascii hi)%nat.

(* src/internal/store/rai_authorizations.go:363-375 normalizePKCEChallenge *)
Definition normalizePKCEChallenge (value : string) : result string :=
let value := trim_space value in
if bool_decide (String.length value < 43)%nat || bool_decide (128 < String.length value)%nat
then Err (ErrMessage "code_challenge must be 43-128 characters")
else if negb (all_chars (λ r, in_range r "A" "Z" || in_range r "a" "z" || in_range r "0" "9" ||
                              bool_decide (r ∈ ["-"; "."; "_"; "~"]%char)) value)
then Err (ErrMessage "code_challenge is invalid")
else Ok value.

(* src/internal/store/rai_authorizations.go:383-386 PKCEChallengeS256 *)
Definition PKCEChallengeS256 (verifier : string) : string := b64_string (sha256 verifier).

(* src/internal/store/rai_authorizations.go:377-381 pkceChallengeMatches *)
Definition pkceChallengeMatches (challenge verifier : string) : bool :=
bool_decide (b64_string (sha256 verifier) = challenge).

(* src/internal/store/rai_authorizations.go:119-122 raiUserCodeHash *)
Definition raiUserCodeHash (code : string) : string := b64_string (sha256 code).

(* src/internal/store/rai_authorizations.go:50-52 raiAuthorizationAssociatedData *)
Definition raiAuthorizationAssociatedData (id : string) : string := "rai-authorization/" +:+ id.

Definition of_res {A} (r : result A) : DB A :=
match r with Ok a => mret a | Err e => fail e end.

(** ** Authorizations *)

(* src/internal/store/rai_authorizations.go:37-48 RAIAuthorization *)
Record RAIAuthorization := {
ra_UserCode : string;
ra_Purpose : string;
ra_ID : string;
ra_DeviceName : string;
ra_DeviceOS : string;
ra_DeviceArch : string;
ra_RAIVersion : string;
ra_Status : string;
ra_ExpiresAt : Z;
ra_CreatedAt : Z
}.

(** The part of a row that the device and the browser may see. *)
(* src/internal/store/rai_authorizations.go:148-156 RAIAuthorization *)
Definition describe_authorization (code status : string) (item : RAIAuthorizationRow) : RAIAuthorization :=
{| ra_UserCode := code; ra_Purpose := a_Purpose item; ra_ID := a_ID item;
   ra_DeviceName := a_DeviceName item; ra_DeviceOS := a_DeviceOS item;
   ra_DeviceArch := a_DeviceArch item; ra_RAIVersion := a_RAIVersion item;
   ra_Status := status; ra_ExpiresAt := a_ExpiresAt item; ra_CreatedAt := a_CreatedAt item |}.

(* src/internal/store/rai_authorizations.go:61-117 CreateRAIAuthorization *)
Definition CreateRAIAuthorization (deviceName challenge method : string) (now : Z)
  (metadata : option RAIDeviceMetadata) : DB (RAIAuthorization * Z) :=
deviceName ← of_res (normalizeRAIDeviceName deviceName);
challenge ← of_res (normalizePKCEChallenge challenge);
guard_that (bool_decide (method = "") || equal_fold method "S256")
  (ErrMessage "code_challenge_method must be S256");;
now ← (if now =? 0 then time_now else mret now);
device ← of_res (normalizeRAIDeviceMetadata
                   (default (Build_RAIDeviceMetadata "" "" "" "") metadata));
codeBytes ← random_bytes 5;
let code := String.string_of_list_ascii (b32_encode5 codeBytes) in
id ← new_id;
let item := {| a_UserCodeHash := Some (raiUserCodeHash code); a_Purpose := md_Purpose device;
               a_DeviceOS := md_DeviceOS device; a_DeviceArch := md_DeviceArch device;
               a_RAIVersion := md_RAIVersion device; a_ID := id; a_TenantID := None;
               a_DeviceName := deviceName; a_CodeChallenge := challenge;
               a_CodeChallengeMethod := "S256"; a_Status := RAIAuthorizationPending;
               a_APIKeyID := None; a_APIKeyCiphertext := None; a_CreatedAt := now;
               a_ExpiresAt := now + raiAuthorizationTTL; a_ApprovedAt := None;
               a_ConsumedAt := None |} in
create_unique authorizations id item
  (λ other, bool_decide (a_UserCodeHash other = a_UserCodeHash item));;
mret (describe_authorization
        (String.substring 0 4 code +:+ "-" +:+ String.substring 4 (String.length code - 4) code)
        (a_Status item) item, raiAuthorizationInterval).

Fixpoint to_upper (s : string) : string :=
match s with
| EmptyString => EmptyString
| String c s =>
    let n := Ascii.nat_of_ascii c in
    String (if bool_decide (97 ≤ n ∧ n ≤ 122)%nat then Ascii.ascii_of_nat (n - 32) else c) (to_upper s)
end.

Definition without_dashes (s : string) : string :=
String.string_of_list_ascii (filter (λ c, c ≠ "-"%char) (String.list_ascii_of_string s)).

(** The first row that matches, on a column with a unique index. *)
Definition first_matching {K V : Type} `{Countable K} (tb : table tables K V) (cond : V → bool) : DB V :=
rows ← find tb cond;
match rows with [] => fail ErrRecordNotFound | v :: _ => mret v end.

(* src/internal/store/rai_authorizations.go:126-137 ResolveRAIUserCode *)
Definition ResolveRAIUserCode (code : string) : DB string :=
let code := to_upper (without_dashes (trim_space code)) in
guard_that (bool_decide (String.length code = 8%nat)) ErrNotFound;;
guard_that (b32_valid code) ErrNotFound;;
now ← time_now;
item ← map_error notFound (first_matching authorizations (λ a,
         bool_decide (a_UserCodeHash a = Some (raiUserCodeHash code)) &&
         bool_decide (a_Status a = RAIAuthorizationPending) && (now <? a_ExpiresAt a)));
mret (a_ID item).

(* src/internal/store/rai_authorizations.go:317-324 loadRAIAuthorization *)
Definition loadRAIAuthorization (id : string) : DB RAIAuthorizationRow :=
guard_that (negb (bool_decide (id = ""))) ErrNotFound;;
map_error notFound (first authorizations id).

(* src/internal/store/rai_authorizations.go:139-157 RAIAuthorization *)
Definition RAIAuthorization_ (id : string) : DB RAIAuthorization :=
item ← loadRAIAuthorization (trim_space id);
expired ← (if bool_decide (a_Status item = RAIAuthorizationPending) ||
              bool_decide (a_Status item = RAIAuthorizationApproved)
           then now ← time_now; mret (negb (now <? a_ExpiresAt item))
           else mret false);
mret (describe_authorization "" (if expired : bool then "expired" else a_Status item) item).

(** ** Sessions and tokens *)

(** [int(d.Seconds())]. *)
Definition whole_seconds (d : Z) : Z :=
f64_to_int64 (f64_add (f64_of_Z (Z.quot d second))
                      (f64_div (f64_of_Z (Z.rem d second)) (f64_of_Z 1000000000))).

(** Seconds since 1970. *)
Definition unix_seconds (t : Z) : Z := t / second - 62135596800.

Definition access_prefix : string := "rai_at_".
Definition refresh_prefix : string := "rai_rt_".
Definition access_data : string := "rai-oauth-access/v1".

(* src/internal/store/rai_oauth.go:34-47 issueRAIOAuthTokens *)
Definition issueRAIOAuthTokens (session : RAIOAuthSession) : DB RAIOAuthTokens :=
now ← time_now;
let expires := now + raiAccessTTL in
let expires := if os_ExpiresAt session <? expires then os_ExpiresAt session else expires in
sealed ← Seal (ClaimsJSON {| cl_SessionID := os_ID session; cl_Expires := unix_seconds expires |})
           access_data;
text ← rand_text;
until ← time_now;
until_refresh ← time_now;
mret {| to_AccessToken := access_prefix +:+ b64_string sealed;
        to_RefreshToken := refresh_prefix +:+ text; to_TokenType := "Bearer";
        to_Purpose := os_Purpose session;
        to_ExpiresIn := whole_seconds (time_sub expires until);
        to_RefreshExpiresIn := whole_seconds (time_sub (os_ExpiresAt session) until_refresh) |}.

Definition after (expiresAt : option Z) (now : Z) : bool :=
match expiresAt with Some e => now <? e | None => true end.

(** A tenant whose devices may act for it. *)
(* src/internal/store/rai_authorizations.go:180-180 ApproveRAIAuthorization *)
Definition may_delegate (tenant : Tenant) (now : Z) : bool :=
t_Enabled tenant && negb (t_MustChangePassword tenant) && after (t_ExpiresAt tenant) now.

(** The join of the query: the session, if its tenant still vouches for it. *)
(* src/internal/store/rai_oauth.go:66-70 RAIOAuthSession *)
Definition session_valid (t : tables) (session : RAIOAuthSession) (now now' : Z) : bool :=
(now <? os_ExpiresAt session) &&
match tb_tenants t !! os_TenantID session with
| Some tenant => may_delegate tenant now' &&
                 (t_PasswordVersion tenant =? os_PasswordVersion session)
| None => false
end.

(* src/internal/store/rai_oauth.go:49-72 RAIOAuthSession *)
Definition RAIOAuthSession_ (token : string) : DB RAIOAuthSession :=
guard_that (has_prefix token access_prefix && bool_decide (String.length token ≤ 2048)%nat)
  ErrInvalidGrant;;
match b64_bytes (trim_prefix token access_prefix) with
| None => fail ErrInvalidGrant
| Some sealed =>
    match Open sealed access_data with
    | None => fail ErrInvalidGrant
    | Some opened =>
        let claims := decode_claims opened in
        now ← time_now;
        guard_that (unix_seconds now <? cl_Expires claims) ErrInvalidGrant;;
        now ← time_now;
        now' ← time_now;
        map_error notFound (
          statement;;
          t ← gets id;
          match tb_sessions t !! cl_SessionID claims with
          | Some session => if session_valid t session now now' then mret session
                            else fail ErrRecordNotFound
          | None => fail ErrRecordNotFound
          end)
    end
end.

(** ** Decisions *)

(** What approval creates for the device: for inference, a key row whose secret nobody knows. *)
(* src/internal/store/rai_authorizations.go:187-192 ApproveRAIAuthorization *)
Definition device_key (item : RAIAuthorizationRow) (id tenantID hash : string) (expires : Z) : APIKey :=
{| k_ID := id; k_TenantID := tenantID; k_Name := a_DeviceName item; k_Source := "rai";
   k_DeviceName := a_DeviceName item; k_DeviceOS := a_DeviceOS item;
   k_DeviceArch := a_DeviceArch item; k_RAIVersion := a_RAIVersion item; k_KeyHash := hash;
   k_KeyCiphertext := None; k_Prefix := "oauth"; k_Enabled := true;
   k_RateLimitPerMinute := None; k_TokenLimitDaily := None; k_TokensUsedToday := 0;
   k_TokensUsedOn := None; k_ModelAllowlist := []; k_ExpiresAt := Some expires |}.

(* src/internal/store/rai_authorizations.go:198-203 ApproveRAIAuthorization *)
Definition device_session (item : RAIAuthorizationRow) (tenant : Tenant) (id tenantID : string)
  (keyID : option string) (now expires : Z) : RAIOAuthSession :=
{| os_ID := id; os_TenantID := tenantID; os_Purpose := a_Purpose item; os_APIKeyID := keyID;
   os_RefreshTokenHash := ""; os_PasswordVersion := t_PasswordVersion tenant;
   os_DeviceName := a_DeviceName item; os_DeviceOS := a_DeviceOS item;
   os_DeviceArch := a_DeviceArch item; os_RAIVersion := a_RAIVersion item;
   os_CreatedAt := now; os_ExpiresAt := expires |}.

(** The credentials of an approved grant: a key row for inference, a session, and its first
  tokens, sealed into the grant. *)
(* src/internal/store/rai_authorizations.go:183-224 ApproveRAIAuthorization *)
Definition grant_to (item : RAIAuthorizationRow) (tenant : Tenant) (tenantID : string) : DB unit :=
fresh ← NewAPIKey;
now ← time_now;
let expires := add_months now raiRefreshMonths in
keyID ← (if bool_decide (a_Purpose item = "inference") then
           keyID ← new_id;
           let key := device_key item keyID tenantID fresh.2 expires in
           create_unique api_keys keyID key (λ k, bool_decide (k_KeyHash k = k_KeyHash key));;
           mret (Some keyID)
         else mret None);
sessionID ← new_id;
now ← time_now;
let session := device_session item tenant sessionID tenantID keyID now expires in
tokens ← issueRAIOAuthTokens session;
let session := session <| os_RefreshTokenHash := HashKey (to_RefreshToken tokens) |> in
create_unique sessions sessionID session
  (λ s, bool_decide (os_RefreshTokenHash s = os_RefreshTokenHash session));;
sealed ← Seal (TokensJSON tokens) (raiAuthorizationAssociatedData (a_ID item));
now ← time_now;
update authorizations (a_ID item) (λ a,
  a <| a_TenantID := Some tenantID; a_Status := RAIAuthorizationApproved;
       a_APIKeyID := keyID; a_APIKeyCiphertext := Some sealed; a_ApprovedAt := Some now |>);;
mret ().

(* src/internal/store/rai_authorizations.go:159-226 ApproveRAIAuthorization *)
Definition ApproveRAIAuthorization (id tenantID : string) : DB unit :=
let id := trim_space id in
let tenantID := trim_space tenantID in
guard_that (negb (bool_decide (id = "") || bool_decide (tenantID = ""))) ErrNotFound;;
transaction (
  item ← map_error notFound (first authorizations id);
  now ← time_now;
  guard_that (now <? a_ExpiresAt item) ErrAuthorizationExpired;;
  guard_that (bool_decide (a_Status item = RAIAuthorizationPending)) ErrInvalidGrant;;
  tenant ← first tenants tenantID;
  now ← time_now;
  guard_that (may_delegate tenant now) ErrInvalidGrant;;
  grant_to item tenant tenantID).

(* src/internal/store/rai_authorizations.go:228-248 DenyRAIAuthorization *)
Definition DenyRAIAuthorization (id tenantID : string) : DB unit :=
let id := trim_space id in
guard_that (negb (bool_decide (id = ""))) ErrNotFound;;
transaction (
  item ← map_error notFound (first authorizations id);
  guard_that (bool_decide (a_Status item = RAIAuthorizationPending)) ErrInvalidGrant;;
  now ← time_now;
  update authorizations (a_ID item) (λ a,
    a <| a_TenantID := Some (trim_space tenantID); a_Status := RAIAuthorizationDenied;
         a_ApprovedAt := Some now |>);;
  mret ()).

(** The verdict on the row of an exchange, before the verifier is looked at. *)
(* src/internal/store/rai_authorizations.go:267-280 ConsumeRAIOAuthAuthorization *)
Definition exchange_error (item : RAIAuthorizationRow) (now : Z) : option error :=
if negb (now <? a_ExpiresAt item) && negb (bool_decide (a_Status item = RAIAuthorizationConsumed))
then Some ErrAuthorizationExpired
else if bool_decide (a_Status item = RAIAuthorizationPending) then Some ErrAuthorizationPending
else if bool_decide (a_Status item = RAIAuthorizationDenied) then Some ErrAuthorizationDenied
else if bool_decide (a_Status item = RAIAuthorizationConsumed) then Some ErrInvalidGrant
else if bool_decide (a_Status item = RAIAuthorizationApproved) then None
else Some ErrInvalidGrant.

(* src/internal/store/rai_authorizations.go:255-307 ConsumeRAIOAuthAuthorization *)
Definition ConsumeRAIOAuthAuthorization (id verifier : string) : DB RAIOAuthTokens :=
let id := trim_space id in
let verifier := trim_space verifier in
guard_that (negb (bool_decide (id = "") || bool_decide (verifier = ""))) ErrInvalidGrant;;
transaction (
  item ← map_error (λ _, ErrInvalidGrant) (first authorizations id);
  now ← time_now;
  match exchange_error item now with Some e => fail e | None => mret () end;;
  guard_that (pkceChallengeMatches (a_CodeChallenge item) verifier) ErrInvalidGrant;;
  match Open (default "" (a_APIKeyCiphertext item)) (raiAuthorizationAssociatedData (a_ID item)) with
  | None => fail ErrInvalidGrant
  | Some opened =>
      now ← time_now;
      update authorizations (a_ID item) (λ a,
        a <| a_Status := RAIAuthorizationConsumed; a_APIKeyCiphertext := (None : option string);
             a_ConsumedAt := Some now |>);;
      let tokens := decode_tokens opened in
      match a_ApprovedAt item with
      | Some at_ =>
          now ← time_now;
          let elapsed := whole_seconds (time_sub now at_) in
          mret (tokens <| to_ExpiresIn := to_ExpiresIn tokens -₆₄ elapsed;
                          to_RefreshExpiresIn := to_RefreshExpiresIn tokens -₆₄ elapsed |>)
      | None => mret tokens
      end
  end).

(* src/internal/store/rai_authorizations.go:250-253 ConsumeRAIAuthorization *)
Definition ConsumeRAIAuthorization (id verifier : string) : DB string :=
tokens ← ConsumeRAIOAuthAuthorization id verifier;
mret (to_AccessToken tokens).

(* src/internal/store/rai_authorizations.go:309-315 DeleteExpiredRAIAuthorizations *)
Definition DeleteExpiredRAIAuthorizations (now : Z) : DB Z :=
delete_where sessions (λ s, os_ExpiresAt s <=? now);;
delete_where authorizations (λ a, a_ExpiresAt a <=? now).

(** ** Refresh and revocation *)

(* src/internal/store/rai_oauth.go:76-76 RefreshRAIOAuth *)
Definition refresh_token_ok (refreshToken : string) : bool :=
has_prefix refreshToken refresh_prefix && bool_decide (String.length refreshToken ≤ 256)%nat.

(* src/internal/store/rai_oauth.go:81-81 RefreshRAIOAuth *)
Definition holds_refresh (refreshToken : string) (s : RAIOAuthSession) : bool :=
bool_decide (os_RefreshTokenHash s = HashKey refreshToken).

(* src/internal/store/rai_oauth.go:74-108 RefreshRAIOAuth *)
Definition RefreshRAIOAuth (refreshToken : string) : DB RAIOAuthTokens :=
guard_that (refresh_token_ok refreshToken) ErrInvalidGrant;;
transaction (
  session ← map_error (λ _, ErrInvalidGrant) (first_matching sessions (holds_refresh refreshToken));
  now ← time_now;
  guard_that (now <? os_ExpiresAt session) ErrInvalidGrant;;
  tenant ← map_error (λ _, ErrInvalidGrant) (first tenants (os_TenantID session));
  now ← time_now;
  guard_that (may_delegate tenant now && (t_PasswordVersion tenant =? os_PasswordVersion session))
    ErrInvalidGrant;;
  match os_APIKeyID session with
  | Some keyID =>
      map_error (λ _, ErrInvalidGrant) (first_where api_keys keyID
        (λ k, bool_decide (k_TenantID k = t_ID tenant) && k_Enabled k));;
      mret ()
  | None => mret ()
  end;;
  tokens ← issueRAIOAuthTokens session;
  rows ← gets tb_sessions;
  guard_that (bool_decide (map_Forall (λ id s, id = os_ID session ∨
      os_RefreshTokenHash s ≠ HashKey (to_RefreshToken tokens)) (rows : gmap string RAIOAuthSession)))
    ErrDuplicatedKey;;
  update sessions (os_ID session) (λ s,
    s <| os_RefreshTokenHash := HashKey (to_RefreshToken tokens) |>);;
  mret tokens).

(* src/internal/store/rai_oauth.go:110-116 RevokeRAIOAuthSession *)
Definition RevokeRAIOAuthSession (tenantID id : string) : DB unit :=
count ← delete_where sessions (λ s, bool_decide (os_TenantID s = tenantID) && bool_decide (os_ID s = id));
guard_that (negb (count =? 0)) ErrNotFound.

(* src/internal/store/rai_oauth.go:118-137 RevokeRAIOAuth *)
Definition RevokeRAIOAuth (refreshToken : string) : DB unit :=
if negb (refresh_token_ok refreshToken) then mret ()
else
  transaction (
    session ← attempt (first_matching sessions (holds_refresh refreshToken));
    match session with
    | Err ErrRecordNotFound => mret ()
    | Err e => fail e
    | Ok session =>
        match os_APIKeyID session with
        | Some keyID =>
            update_where api_keys keyID
              (λ k, bool_decide (k_TenantID k = os_TenantID session) && bool_decide (k_Source k = "rai"))
              (λ k, k <| k_Enabled := false |>);;
            mret ()
        | None => mret ()
        end;;
        delete_where sessions (λ s, bool_decide (os_ID s = os_ID session));;
        mret ()
    end).

(* src/internal/store/rai_devices.go:49-57 RevokeRAIDevice *)
Definition RevokeRAIDevice (tenantID id : string) : DB unit :=
updated ← update_where api_keys id
  (λ k, bool_decide (k_TenantID k = tenantID) && bool_decide (k_Source k = "rai"))
  (λ k, k <| k_Enabled := false; k_KeyCiphertext := (None : option string) |>);
if updated : bool then mret () else RevokeRAIOAuthSession tenantID id.

(* src/internal/store/rai_devices.go:60-64 IsManualKey *)
Definition IsManualKey (tenantID id : string) : DB unit :=
map_error notFound (first_where api_keys id
  (λ k, bool_decide (k_TenantID k = tenantID) && bool_decide (k_Source k = "manual")));;
mret ().
End grants.
