(* ===== verification/Accounts.v ===== *)
(** * Tenants, invitations and keys (internal/store/store.go, github.go, identity/identity.go)

    The first registration makes the administrator, every other one spends an
    invitation.  A tenant signs in with its password and owns API keys, which the
    store finds by the digest of their secret and can show again to their owner.
    The browser session that the handlers of internal/app hold is a value here:
    the signature and the JSON of the cookie are not modelled. *)

From Stdlib Require Import SpecFloat.
From S2P Require Import Prelude.
From S2P Require Import Float64.
From S2P Require Import Database.
From S2P Require Import Schema.
From S2P Require Import ModelAccess.
From S2P Require Import RequestLogs.
From S2P Require Import Encoding.
From S2P Require Import Passwords.
From S2P Require Import DeviceGrants.

Section accounts.
Context `{TimeZone} `{FloatToInt} `{Digest} `{AEAD plaintext} `{AEAD string} `{PasswordHashing}.

(** ** Secrets *)

(** A secret with its prefix, and the digest that is stored. *)
Definition new_token (prefix : string) (size : nat) : DB (string * string) :=
value ← random_bytes size;
let plain := prefix +:+ b64_string (String.string_of_list_ascii value) in
mret (plain, HashKey plain).

(* src/internal/identity/identity.go:93-98 NewInvitationToken *)
Definition NewInvitationToken : DB (string * string) := new_token "invite_" 32.

(* src/internal/identity/identity.go:100-107 NewAgentSetupToken *)
Definition NewAgentSetupToken : DB (string * string) := new_token "setup_" 16.

(* src/internal/identity/identity.go:109-115 NewTemporaryPassword *)
Definition NewTemporaryPassword : DB string :=
value ← random_bytes 18;
mret (b64_string (String.string_of_list_ascii value)).

(** ** Tenants *)

(** A new row: no balance, nothing used, no linked account. *)
(* src/internal/store/store.go:137-141 CreateTenant *)
Definition fresh_tenant (id name email hash : string) (admin : bool) (rate tokens : option Z)
  (models : list string) : Tenant :=
{| t_ID := id; t_Name := name; t_OwnerEmail := email; t_PasswordHash := hash;
   t_MustChangePassword := false; t_PasswordVersion := 0; t_Enabled := true;
   t_IsAdmin := admin; t_BalanceNanoUSD := 0; t_RateLimitPerMinute := rate;
   t_TokenLimitDaily := tokens; t_TokensUsedToday := 0; t_TokensUsedOn := None;
   t_ModelAllowlist := models; t_ExpiresAt := None; t_GitHubID := None; t_GitHubLogin := "";
   t_HeatmapShareToken := None |}.

(** The unique index on the address. *)
Definition same_email (a b : Tenant) : bool := bool_decide (t_OwnerEmail a = t_OwnerEmail b).

(* src/internal/store/store.go:126-130 GetTenant *)
Definition GetTenant (id : string) : DB Tenant := map_error notFound (first tenants id).

(* src/internal/store/store.go:132-144 CreateTenant *)
Definition CreateTenant (name email password : string) (rate tokens : option Z)
  (models : list string) : DB Tenant :=
hash ← hashPassword password;
id ← new_id;
let item := fresh_tenant id (trim_space name) (to_lower (trim_space email)) hash false rate tokens
              models in
create_unique tenants id item (same_email item);;
mret item.

(* src/internal/store/store.go:147-151 UpdateTenant *)
Definition rewrite_tenant (name email : string) (enabled : bool) (rate tokens : option Z)
  (models : list string) (t : Tenant) : Tenant :=
(t <| t_Name := trim_space name; t_OwnerEmail := to_lower (trim_space email);
      t_Enabled := enabled; t_RateLimitPerMinute := rate; t_TokenLimitDaily := tokens |>)
   <| t_ModelAllowlist := models |>.

(* src/internal/store/store.go:146-159 UpdateTenant *)
Definition UpdateTenant (id name email : string) (enabled : bool) (rate tokens : option Z)
  (models : list string) : DB Tenant :=
updated ← update_unique tenants id (λ _, true) (rewrite_tenant name email enabled rate tokens models)
            same_email;
guard_that updated ErrNotFound;;
GetTenant id.

(** The rows a tenant owns, table by table; the turns of a reservation go with it.  Its lifecycle
  events and daily facts are in the archive of [Retention], where [delete_archived] deletes them. *)
(* src/internal/store/store.go:171-195 DeleteTenant *)
Definition delete_owned (id : string) : DB unit :=
logIDs ← gets (λ t, filter (λ kl : string * RequestLog, rl_TenantID kl.2 = id) (tb_request_logs t));
childIDs ← gets (λ t, filter (λ kc : string * ChildSubscription, c_TenantID kc.2 = id) (tb_children t));
keyIDs ← gets (λ t, filter (λ kk : string * APIKey, k_TenantID kk.2 = id) (tb_api_keys t));
requestIDs ← gets (λ t, filter (λ kr : string * RequestReservation, r_TenantID kr.2 = id)
                          (tb_reservations t));
delete_rows log_details (λ logID _, bool_decide (is_Some (logIDs !! logID)));;
delete_where reservations (λ r, bool_decide (r_TenantID r = id));;
cascade turns (λ w, bool_decide (is_Some (requestIDs !! wt_RequestID w)));;
delete_where child_windows (λ w, bool_decide (is_Some (childIDs !! w_ChildSubscriptionID w)));;
delete_where children (λ c, bool_decide (c_TenantID c = id));;
statement;;
modify (λ t, t <| tb_ledger := filter (λ e, l_TenantID e ≠ id) (tb_ledger t) |>);;
delete_where request_logs (λ l, bool_decide (rl_TenantID l = id));;
delete_where agent_setups (λ s, bool_decide (as_TenantID s = id));;
delete_where authorizations (λ a, bool_decide (a_TenantID a = Some id));;
delete_where key_aliases (λ a, bool_decide (is_Some (keyIDs !! ma_APIKeyID a)));;
delete_where api_keys (λ k, bool_decide (k_TenantID k = id));;
mret ().

(* src/internal/store/store.go:164-202 DeleteTenant *)
Definition DeleteTenant (id : string) : DB unit :=
transaction (
  map_error notFound (first tenants id);;
  delete_owned id;;
  update_all invitations (λ i, bool_decide (i_UsedByTenantID i = Some id))
    (λ i, i <| i_UsedByTenantID := (None : option string) |>);;
  delete_where tenants (λ t, bool_decide (t_ID t = id));;
  mret ()).

(* src/internal/store/store.go:204-218 ResetPassword *)
Definition ResetPassword (tenantID password : string) : DB unit :=
hash ← hashPassword password;
tenant ← gets (λ t, tb_tenants t !! tenantID);
guard_that (bigint_ok tenant (λ t, t_PasswordVersion t + 1)) (ErrMessage "bigint out of range");;
updated ← update tenants tenantID (λ t,
  t <| t_PasswordHash := hash; t_MustChangePassword := true;
       t_PasswordVersion := t_PasswordVersion t + 1 |>);
guard_that updated ErrNotFound.

(* src/internal/store/store.go:220-231 ChangePassword *)
Definition ChangePassword (tenantID password : string) : DB unit :=
hash ← hashPassword password;
updated ← update tenants tenantID (λ t,
  t <| t_PasswordHash := hash; t_MustChangePassword := false |>);
guard_that updated ErrNotFound.

(** Rows by primary key, as [First] reads them. *)
Definition by_id (a b : Tenant) : Prop := String.leb (t_ID a) (t_ID b) = true.
#[export] Instance by_id_dec a b : Decision (by_id a b).
Proof. unfold by_id. apply _. Defined.

(* src/internal/store/store.go:235-236 Login *)
Definition may_sign_in (email : string) (now : Z) (t : Tenant) : bool :=
equal_fold (t_OwnerEmail t) email && t_Enabled t && after (t_ExpiresAt t) now.

(* src/internal/store/store.go:233-252 Login *)
Definition Login (email password : string) : DB Tenant :=
now ← time_now;
tenant ← map_error (λ _, ErrNotFound)
           (first_ordered tenants (may_sign_in (trim_space email) now) by_id);
let '(valid, needsRehash) := verifyPassword (t_PasswordHash tenant) password in
guard_that valid ErrNotFound;;
if needsRehash : bool then
  hash ← hashPassword password;
  attempt (update tenants (t_ID tenant) (λ t, t <| t_PasswordHash := hash |>));;
  mret tenant
else mret tenant.

(* src/internal/store/store.go:254-258 SetupRequired *)
Definition SetupRequired : DB bool :=
statement;;
rows ← gets tb_tenants;
mret (bool_decide (size (rows : gmap string Tenant) = 0%nat)).

(** ** Invitations *)

(* src/internal/store/store.go:1123-1131 CreateInvitation *)
Definition CreateInvitation (email : string) (expiresAt : Z) : DB (Invitation * string) :=
token ← NewInvitationToken;
id ← new_id;
now ← time_now;
let item := {| i_ID := id; i_TokenHash := token.2; i_Email := to_lower (trim_space email);
               i_ExpiresAt := expiresAt; i_UsedAt := None; i_UsedByTenantID := None;
               i_RevokedAt := None; i_CreatedAt := now |} in
create_unique invitations id item (λ i, bool_decide (i_TokenHash i = i_TokenHash item));;
mret (item, token.1).

(* src/internal/store/store.go:1142-1142 RevokeInvitation *)
Definition invitation_open (now : Z) (i : Invitation) : bool :=
bool_decide (i_UsedAt i = None) && bool_decide (i_RevokedAt i = None) && (now <? i_ExpiresAt i).

(* src/internal/store/store.go:1139-1148 RevokeInvitation *)
Definition RevokeInvitation (id : string) : DB unit :=
now ← time_now;
updated ← update_where invitations id (invitation_open now) (λ i, i <| i_RevokedAt := Some now |>);
guard_that updated ErrNotFound.

(** The invitation that a token opens for an address. *)
(* src/internal/store/store.go:1177-1186 Register *)
Definition claim_invitation (token email : string) : DB Invitation :=
guard_that (negb (bool_decide (token = ""))) ErrNotFound;;
now ← time_now;
invitation ← map_error (λ _, ErrNotFound) (first_matching invitations (λ i,
               bool_decide (i_TokenHash i = HashKey token) && invitation_open now i));
guard_that (bool_decide (i_Email invitation = "") || equal_fold (i_Email invitation) email)
  ErrNotFound;;
mret invitation.

(* src/internal/store/store.go:1150-1200 Register *)
Definition Register (token name email password : string) : DB Tenant :=
let token := trim_space token in
let email := to_lower (trim_space email) in
passwordHash ← hashPassword password;
transaction (
  statement;;
  setup ← SetupRequired;
  if setup : bool then
    id ← new_id;
    let user := fresh_tenant id (trim_space name) email passwordHash true None None [] in
    create_unique tenants id user (same_email user);;
    mret user
  else
    invitation ← claim_invitation token email;
    id ← new_id;
    let user := fresh_tenant id (trim_space name) email passwordHash false None None [] in
    create_unique tenants id user (same_email user);;
    now ← time_now;
    update invitations (i_ID invitation) (λ i,
      i <| i_UsedAt := Some now; i_UsedByTenantID := Some id |>);;
    mret user).

(** ** GitHub accounts *)

(** The unique index on the GitHub account. *)
Definition same_github (a b : Tenant) : bool :=
bool_decide (is_Some (t_GitHubID a)) && bool_decide (t_GitHubID a = t_GitHubID b).

(* src/internal/store/github.go:12-26 BindGitHub *)
Definition BindGitHub (tenantID : string) (version githubID : Z) (login : string) : DB unit :=
guard_that (0 <? githubID) (ErrMessage "invalid GitHub identity");;
now ← time_now;
updated ← update_unique tenants tenantID
  (λ t, (t_PasswordVersion t =? version) && may_delegate t now &&
        bool_decide (t_GitHubID t = None))
  (λ t, t <| t_GitHubID := Some githubID; t_GitHubLogin := login |>) same_github;
guard_that updated ErrNotFound.

(* src/internal/store/github.go:28-32 GitHubTenant *)
Definition GitHubTenant (githubID : Z) : DB Tenant :=
now ← time_now;
first_ordered tenants (λ t, bool_decide (t_GitHubID t = Some githubID) && t_Enabled t &&
                            after (t_ExpiresAt t) now) by_id.

(* src/internal/store/github.go:34-44 UnbindGitHub *)
Definition UnbindGitHub (tenantID : string) (version : Z) : DB unit :=
tenant ← gets (λ t, tb_tenants t !! tenantID);
guard_that (bigint_ok tenant (λ t, if t_PasswordVersion t =? version then t_PasswordVersion t + 1 else 0))
  (ErrMessage "bigint out of range");;
updated ← update_where tenants tenantID (λ t, t_PasswordVersion t =? version)
  (λ t, t <| t_GitHubID := (None : option Z); t_GitHubLogin := "";
             t_PasswordVersion := t_PasswordVersion t + 1 |>);
guard_that updated ErrNotFound.

(** ** Keys *)

(* src/internal/store/store.go:271-273 keySecretAssociatedData *)
Definition keySecretAssociatedData (tenantID keyID : string) : string :=
"api-key/" +:+ tenantID +:+ "/" +:+ keyID.

(* src/internal/store/store.go:277-280 CreateKey *)
Definition manual_key (id tenantID name hash prefix sealed : string) (rate tokens : option Z)
  (models : list string) : APIKey :=
{| k_ID := id; k_TenantID := tenantID; k_Name := trim_space name; k_Source := "manual";
   k_DeviceName := ""; k_DeviceOS := ""; k_DeviceArch := ""; k_RAIVersion := ""; k_KeyHash := hash;
   k_KeyCiphertext := Some sealed; k_Prefix := prefix; k_Enabled := true;
   k_RateLimitPerMinute := rate; k_TokenLimitDaily := tokens; k_TokensUsedToday := 0;
   k_TokensUsedOn := None; k_ModelAllowlist := models; k_ExpiresAt := None |}.

(** Fresh identifiers for the alias rows of a key. *)
(* src/internal/store/store.go:287-290 CreateKey *)
Definition alias_rows (keyID : string) (aliases : list (string * string)) : DB (list APIKeyModelAlias) :=
for_each (λ am : string * string,
  id ← new_id;
  mret {| ma_ID := id; ma_APIKeyID := keyID; ma_Alias := am.1; ma_Model := am.2 |}) aliases.

(** The unique index on a key's aliases. *)
Definition same_alias (a b : APIKeyModelAlias) : bool :=
bool_decide (ma_APIKeyID a = ma_APIKeyID b) && bool_decide (ma_Alias a = ma_Alias b).

Definition insert_aliases (rows : list APIKeyModelAlias) : DB unit :=
for_each (λ a, create_unique key_aliases (ma_ID a) a (same_alias a)) rows;;
mret ().

(* src/internal/store/store.go:275-302 CreateKey *)
Definition CreateKey (tenantID name : string) (rate tokens : option Z) (models : list string)
  (aliases : list (string * string)) : DB (APIKey * list APIKeyModelAlias * string) :=
fresh ← NewAPIKey;
let '(plain, prefix, hash) := fresh in
id ← new_id;
ciphertext ← Seal plain (keySecretAssociatedData tenantID id);
let item := manual_key id tenantID name hash prefix ciphertext rate tokens models in
rows ← alias_rows id aliases;
transaction (
  create_unique api_keys id item (λ k, bool_decide (k_KeyHash k = k_KeyHash item));;
  insert_aliases rows);;
mret (item, rows, plain).

(** The key a tenant manages by hand. *)
(* src/internal/store/store.go:307-307 RevealKey *)
Definition own_manual_key (tenantID : string) (k : APIKey) : bool :=
bool_decide (k_TenantID k = tenantID) && bool_decide (k_Source k = "manual").

(* src/internal/store/store.go:304-319 RevealKey *)
Definition RevealKey (tenantID id : string) : DB string :=
item ← map_error notFound (first_where api_keys id (own_manual_key tenantID));
let ciphertext := default "" (k_KeyCiphertext item) in
guard_that (negb (bool_decide (ciphertext = ""))) ErrKeyNotRecoverable;;
match Open ciphertext (keySecretAssociatedData (k_TenantID item) (k_ID item)) with
| Some plain => mret plain
| None => fail (ErrMessage "decrypt api key")
end.

(** The key with its aliases in order. *)
Definition alias_order (a b : APIKeyModelAlias) : Prop := String.leb (ma_Alias a) (ma_Alias b) = true.
#[export] Instance alias_order_dec a b : Decision (alias_order a b).
Proof. unfold alias_order. apply _. Defined.

Definition aliases_of (keyID : string) : DB (list APIKeyModelAlias) :=
find_ordered key_aliases (λ a, bool_decide (ma_APIKeyID a = keyID)) alias_order.

(* src/internal/store/store.go:369-403 UpdateKey *)
Definition UpdateKey (tenantID id name : string) (enabled : bool) (rate tokens : option Z)
  (models : list string) (aliases : list (string * string)) : DB (APIKey * list APIKeyModelAlias) :=
transaction (
  updated ← update_where api_keys id (own_manual_key tenantID) (λ k,
    k <| k_Name := trim_space name; k_Enabled := enabled; k_RateLimitPerMinute := rate;
         k_TokenLimitDaily := tokens; k_ModelAllowlist := models |>);
  guard_that updated ErrNotFound;;
  delete_where key_aliases (λ a, bool_decide (ma_APIKeyID a = id));;
  rows ← alias_rows id aliases;
  insert_aliases rows);;
item ← first_where api_keys id (λ k, bool_decide (k_TenantID k = tenantID));
rows ← aliases_of id;
mret (item, rows).

(** The aliases of a deleted key go with it. *)
(* src/internal/store/store.go:405-411 DeleteKey *)
Definition DeleteKey (tenantID id : string) : DB unit :=
count ← delete_where api_keys (λ k, bool_decide (k_ID k = id) && bool_decide (k_TenantID k = tenantID));
guard_that (negb (count =? 0)) ErrNotFound;;
cascade key_aliases (λ a, bool_decide (ma_APIKeyID a = id)).

(** Which row a credential names: the key of the session behind an access token, or the key whose
  secret it is. *)
(* src/internal/store/store.go:427-438 ResolveKey *)
Definition named_key (plain : string) : DB (APIKey → bool) :=
if has_prefix plain access_prefix then
  session ← map_error (λ _, ErrNotFound) (RAIOAuthSession_ plain);
  guard_that (bool_decide (os_Purpose session = "inference")) ErrNotFound;;
  match os_APIKeyID session with
  | Some keyID => mret (λ k, bool_decide (k_ID k = keyID))
  | None => fail ErrNotFound
  end
else mret (λ k, bool_decide (k_KeyHash k = HashKey plain)).

(** The key rows that match, each joined with its tenant. *)
(* src/internal/store/store.go:440-455 ResolveKey *)
Definition joined_key (cond : APIKey → bool) : DB (APIKey * Tenant) :=
statement;;
t ← gets id;
rows ← any_order (omap (λ k, tenant ← tb_tenants t !! k_TenantID k; Some (k, tenant))
                    (filter (λ k, cond k = true) (map_to_list (tb_api_keys t)).*2));
match rows with
| [] => fail ErrRecordNotFound
| row :: _ => mret row
end.

(* src/internal/store/store.go:463-470 ResolveKey *)
Definition key_context (k : APIKey) (tenant : Tenant) (grants : list SubscriptionModelGrant) : KeyContext :=
{| kc_APIKey := k; kc_TenantName := t_Name tenant; kc_TenantEnabled := t_Enabled tenant;
   kc_TenantBalance := t_BalanceNanoUSD tenant; kc_TenantRateLimit := t_RateLimitPerMinute tenant;
   kc_TenantTokenLimit := t_TokenLimitDaily tenant; kc_TenantModels := t_ModelAllowlist tenant;
   kc_TenantDailyTokens := t_TokensUsedToday tenant;
   kc_TenantDailyTokensDay := t_TokensUsedOn tenant; kc_SubscriptionModelGrants := grants;
   kc_TenantExpiresAt := t_ExpiresAt tenant |}.

(* src/internal/store/store.go:426-471 ResolveKey *)
Definition ResolveKey (plain : string) : DB (KeyContext * list APIKeyModelAlias) :=
cond ← named_key plain;
row ← map_error notFound (joined_key cond);
aliases ← aliases_of (k_ID row.1);
now ← time_now;
grants ← ActiveSubscriptionModelGrants (k_TenantID row.1) now;
mret (key_context row.1 row.2 grants, aliases).

(** ** The door of the public interface *)

(* src/internal/app/limits.go:78-78 expired *)
Definition expired (value : option Z) (now : Z) : bool := negb (after value now).

(** Both expiries are compared with the clock only when all before is in order. *)
(* src/internal/app/public.go:70-74 App.handlePublic *)
Definition authenticate (plain : string) : DB (KeyContext * list APIKeyModelAlias) :=
let refused := ErrMessage "invalid_api_key" in
key ← map_error (λ _, refused) (ResolveKey plain);
guard_that (k_Enabled (kc_APIKey key.1) && kc_TenantEnabled key.1) refused;;
now ← time_now;
guard_that (negb (expired (k_ExpiresAt (kc_APIKey key.1)) now)) refused;;
now ← time_now;
guard_that (negb (expired (kc_TenantExpiresAt key.1) now)) refused;;
mret key.

(** The model that a request means, and the alias it used. *)
(* src/internal/app/request_meta.go:112-123 resolveAPIKeyModel *)
Fixpoint resolveAPIKeyModel (requested : string) (aliases : list APIKeyModelAlias) : string * string :=
match aliases with
| [] => (trim_space requested, "")
| item :: aliases =>
    if equal_fold (trim_space (ma_Alias item)) (trim_space requested)
    then (trim_space (ma_Model item), trim_space requested)
    else resolveAPIKeyModel requested aliases
end.

(** ** Agent setups *)

(* src/internal/store/store.go:321-323 agentSetupAssociatedData *)
Definition agentSetupAssociatedData (tenantID tokenHash : string) : string :=
"agent-setup/" +:+ tenantID +:+ "/" +:+ hex_string tokenHash.

(* src/internal/store/store.go:325-345 CreateAgentSetup *)
Definition CreateAgentSetup (tenantID payload : string) (expiresAt : Z) : DB string :=
token ← NewAgentSetupToken;
ciphertext ← Seal payload (agentSetupAssociatedData tenantID token.2);
created ← time_now;
transaction (
  now ← time_now;
  delete_where agent_setups (λ s, as_ExpiresAt s <=? now);;
  create agent_setups token.2 {| as_TokenHash := token.2; as_TenantID := tenantID;
    as_PayloadCiphertext := ciphertext; as_ExpiresAt := expiresAt; as_CreatedAt := created |});;
mret token.1.

(* src/internal/store/store.go:347-362 AgentSetup *)
Definition AgentSetup_ (token : string) : DB string :=
guard_that (negb (bool_decide (String.length token < 26)%nat || bool_decide (64 < String.length token)%nat))
  ErrNotFound;;
now ← time_now;
item ← map_error notFound (first_where agent_setups (HashKey token) (λ s, now <? as_ExpiresAt s));
match Open (as_PayloadCiphertext item) (agentSetupAssociatedData (as_TenantID item) (as_TokenHash item)) with
| Some payload => mret payload
| None => fail (ErrMessage "decrypt agent setup")
end.

(* src/internal/store/store.go:364-367 DeleteExpiredAgentSetups *)
Definition DeleteExpiredAgentSetups (now : Z) : DB Z :=
delete_where agent_setups (λ s, as_ExpiresAt s <=? now).

(** ** The doors of the console

  A handler runs behind these with the session of its cookie. *)

(* src/internal/identity/identity.go:69-74 Session *)
Record Session := {
ss_Role : string;
ss_TenantID : string;
ss_PasswordVersion : Z;
ss_Expires : Z
}.

(* src/internal/app/app.go:627-644 App.withTenantSession *)
Definition withTenantSession {A} (session : Session) (next : DB A) : DB A :=
guard_that (negb (bool_decide (ss_TenantID session = ""))) (ErrMessage "forbidden");;
tenant ← map_error (λ _, ErrMessage "unauthorized") (GetTenant (ss_TenantID session));
guard_that (t_Enabled tenant && (t_PasswordVersion tenant =? ss_PasswordVersion session))
  (ErrMessage "unauthorized");;
next.

(* src/internal/app/app.go:611-625 App.withAdmin *)
Definition withAdmin {A} (session : Session) (next : DB A) : DB A :=
withTenantSession session (
  tenant ← map_error (λ _, ErrMessage "forbidden") (GetTenant (ss_TenantID session));
  guard_that (t_Enabled tenant && t_IsAdmin tenant) (ErrMessage "forbidden");;
  guard_that (negb (t_MustChangePassword tenant)) (ErrMessage "password_change_required");;
  next).

(* src/internal/app/app.go:646-659 App.withTenant *)
Definition withTenant {A} (session : Session) (next : DB A) : DB A :=
withTenantSession session (
  tenant ← map_error (λ _, ErrMessage "unauthorized") (GetTenant (ss_TenantID session));
  guard_that (t_Enabled tenant) (ErrMessage "unauthorized");;
  guard_that (negb (t_MustChangePassword tenant)) (ErrMessage "password_change_required");;
  next).
End accounts.
