(* ===== verification/GrantSample.v ===== *)
(** * A concrete cipher and a concrete grant

    The witnesses of the theorems on device grants run here: a digest and a
    cipher that satisfy what the development assumes of the real ones (and hide
    nothing), and a store in which a device waits for the approval of Acme. *)

From Stdlib Require Import SpecFloat.
From S2P Require Import Prelude.
From S2P Require Import Float64.
From S2P Require Import Database.
From S2P Require Import Schema.
From S2P Require Import RequestLogs.
From S2P Require Import Encoding.
From S2P Require Import DeviceGrants.
From S2P Require Import Sample.

(** ** A self-delimiting code for plaintexts *)

Fixpoint code_pos (p : positive) : list ascii :=
  match p with
  | xH => ["h"%char]
  | xO p => "o"%char :: code_pos p
  | xI p => "i"%char :: code_pos p
  end.

Definition code_Z (z : Z) : list ascii :=
  match z with
  | Z0 => ["z"%char]
  | Zpos p => "p"%char :: code_pos p
  | Zneg p => "n"%char :: code_pos p
  end.

Fixpoint code_string (s : string) : list ascii :=
  match s with
  | EmptyString => ["e"%char]
  | String c s => "c"%char :: c :: code_string s
  end.

Definition code (p : plaintext) : list ascii :=
  match p with
  | TokensJSON t =>
      "t"%char :: code_string (to_AccessToken t) ++ code_string (to_RefreshToken t) ++
      code_string (to_TokenType t) ++ code_string (to_Purpose t) ++
      code_Z (to_ExpiresIn t) ++ code_Z (to_RefreshExpiresIn t)
  | ClaimsJSON c => "a"%char :: code_string (cl_SessionID c) ++ code_Z (cl_Expires c)
  end.

Fixpoint read_pos (l : list ascii) : option (positive * list ascii) :=
  match l with
  | "h"%char :: l => Some (xH, l)
  | "o"%char :: l => pl ← read_pos l; Some (xO pl.1, pl.2)
  | "i"%char :: l => pl ← read_pos l; Some (xI pl.1, pl.2)
  | _ => None
  end.

Definition read_Z (l : list ascii) : option (Z * list ascii) :=
  match l with
  | "z"%char :: l => Some (0, l)
  | "p"%char :: l => pl ← read_pos l; Some (Zpos pl.1, pl.2)
  | "n"%char :: l => pl ← read_pos l; Some (Zneg pl.1, pl.2)
  | _ => None
  end.

Fixpoint read_string (l : list ascii) : option (string * list ascii) :=
  match l with
  | "e"%char :: l => Some (EmptyString, l)
  | "c"%char :: c :: l => sl ← read_string l; Some (String c sl.1, sl.2)
  | _ => None
  end.

Definition read (l : list ascii) : option plaintext :=
  match l with
  | "t"%char :: l =>
      a ← read_string l; b ← read_string a.2; c ← read_string b.2; d ← read_string c.2;
      e ← read_Z d.2; f ← read_Z e.2;
      Some (TokensJSON (Build_RAIOAuthTokens a.1 b.1 c.1 d.1 e.1 f.1))
  | "a"%char :: l =>
      a ← read_string l; e ← read_Z a.2; Some (ClaimsJSON (Build_raiAccessClaims a.1 e.1))
  | _ => None
  end.

Lemma read_code_pos p l : read_pos (code_pos p ++ l) = Some (p, l).
Proof. induction p as [p IH|p IH|]; cbn; [by rewrite IH|by rewrite IH|done]. Qed.

Lemma read_code_Z z l : read_Z (code_Z z ++ l) = Some (z, l).
Proof. destruct z; cbn; by rewrite ?read_code_pos. Qed.

Lemma read_code_string s l : read_string (code_string s ++ l) = Some (s, l).
Proof. induction s as [|c s IH]; cbn; [done|]. by rewrite IH. Qed.

Lemma read_code p : read (code p) = Some p.
Proof.
  destruct p as [[a b c d e f]|[a e]]; cbn.
  - rewrite <- (app_nil_r (code_Z f)), !read_code_string. cbn. rewrite read_code_string. cbn.
    rewrite read_code_string. cbn. rewrite read_code_string. cbn. rewrite read_code_Z. cbn.
    by rewrite read_code_Z.
  - rewrite <- (app_nil_r (code_Z e)), read_code_string. cbn. by rewrite read_code_Z.
Qed.

Lemma length_code_pos n p : Z.pos p < 2 ^ Z.of_nat n → (length (code_pos p) ≤ n)%nat.
Proof.
  revert p. induction n as [|n IH]; intros p Hp; [cbn in Hp; lia|].
  rewrite Nat2Z.inj_succ, Z.pow_succ_r in Hp by lia.
  destruct p as [p|p|]; cbn; [| |lia]; specialize (IH p); lia.
Qed.

Lemma length_code_string s : length (code_string s) = (2 * String.length s + 1)%nat.
Proof. induction s as [|c s IH]; cbn; [done|]. rewrite IH. lia. Qed.

Lemma length_code_claims c :
  in_int64 (cl_Expires c) → (length (code (ClaimsJSON c)) ≤ 2 * String.length (cl_SessionID c) + 67)%nat.
Proof.
  intros Hint. cbn. rewrite length_app, length_code_string.
  assert (length (code_Z (cl_Expires c)) ≤ 65)%nat as Hz; [|lia].
  destruct (cl_Expires c) as [|p|p]; cbn; [lia| |].
  - pose proof (length_code_pos 64 p ltac:(change (2 ^ Z.of_nat 64) with (2 ^ 64); int64_lia)). lia.
  - pose proof (length_code_pos 64 p ltac:(change (2 ^ Z.of_nat 64) with (2 ^ 64); int64_lia)). lia.
Qed.

#[export] Instance plain_cipher : AEAD plaintext :=
  {| aead_seal _ p _ := replicate aead_overhead "="%char ++ code p;
     aead_open _ l _ := read (drop aead_overhead l) |}.

#[export] Instance plain_cipher_lawful : LawfulAEAD plaintext.
Proof.
  split.
  - intros nonce p ad. apply read_code.
  - intros nonce p ad. unfold aead_overhead. cbn. lia.
Qed.

#[export] Instance plain_cipher_short : ShortClaims.
Proof.
  intros nonce c ad Hid Hint. pose proof (length_code_claims c Hint).
  unfold aead_seal, plain_cipher, aead_overhead. rewrite length_app, length_replicate. lia.
Qed.

(** The same for texts. *)
#[export] Instance plain_text_cipher : AEAD string :=
  {| aead_seal _ p _ := replicate aead_overhead "="%char ++ String.list_ascii_of_string p;
     aead_open _ l _ := Some (String.string_of_list_ascii (drop aead_overhead l)) |}.

#[export] Instance plain_text_cipher_lawful : LawfulAEAD string.
Proof.
  split.
  - intros nonce p ad. unfold aead_open, aead_seal, plain_text_cipher.
    rewrite drop_app_length', String.string_of_list_ascii_of_string; [done|]. by rewrite length_replicate.
  - intros nonce p ad. unfold aead_overhead. cbn. lia.
Qed.

#[export] Instance plain_digest : Digest := λ s,
  String.string_of_list_ascii (resize 32 "000"%char (String.list_ascii_of_string s)).

(** ** A device that waits for Acme *)

Definition verifier : string := "a-verifier-that-only-the-device-knows-0123456789".

Definition waiting_store : tables :=
  (CreateRAIAuthorization "laptop" (PKCEChallengeS256 verifier) "S256" 0 None calm balance_store 0%nat).1.2.

(** The identifier of the grant in this world. *)
Definition grant_id : string := default "" (head (map_to_list (tb_authorizations waiting_store)).*1).

Definition approved_store : tables :=
  (ApproveRAIAuthorization grant_id "acme" calm waiting_store 50%nat).1.2.

Definition exchanged_tokens : result RAIOAuthTokens :=
  (ConsumeRAIOAuthAuthorization grant_id verifier calm approved_store 100%nat).1.1.

Definition exchanged_store : tables :=
  (ConsumeRAIOAuthAuthorization grant_id verifier calm approved_store 100%nat).1.2.

Definition exchanged_session : result RAIOAuthSession :=
  (RAIOAuthSession_ (match exchanged_tokens with Ok t => to_AccessToken t | Err _ => "" end)
     calm exchanged_store 200%nat).1.1.

(** The whole dance: the access token of the exchange answers a session of Acme. *)
Example device_gets_a_session :
  (os_TenantID <$> match exchanged_session with Ok s => Some s | Err _ => None end) = Some "acme".
Proof. vm_compute. reflexivity. Qed.
