(* ===== verification/GrantGuarantees.v ===== *)
(** * What the device grants guarantee

    A grant is exchanged at most once, only by who knows the verifier and only
    after approval; rows move along the edges of the protocol; tokens stop
    working when the account that issued them changes. *)

From Stdlib Require Import SpecFloat.
From S2P Require Import Prelude.
From S2P Require Import Float64.
From S2P Require Import Database.
From S2P Require Import Schema.
From S2P Require Import RequestLogs.
From S2P Require Import Encoding.
From S2P Require Import DeviceGrants.
From S2P Require Import Sample.
From S2P Require Import GrantSample.

(** ** The protocol *)

(** What never changes about a grant. *)
Definition same_grant (a b : RAIAuthorizationRow) : Prop :=
  a_ID a = a_ID b ∧ a_CodeChallenge a = a_CodeChallenge b ∧
  a_CodeChallengeMethod a = a_CodeChallengeMethod b ∧ a_Purpose a = a_Purpose b ∧
  a_DeviceName a = a_DeviceName b ∧ a_UserCodeHash a = a_UserCodeHash b ∧
  a_CreatedAt a = a_CreatedAt b ∧ a_ExpiresAt a = a_ExpiresAt b.

(** The edges: pending to approved or denied, approved to consumed, nothing else. *)
Inductive grant_edge : RAIAuthorizationRow → RAIAuthorizationRow → Prop :=
  | edge_approve a b tenantID :
      same_grant a b → a_Status a = RAIAuthorizationPending → a_Status b = RAIAuthorizationApproved →
      a_TenantID b = Some tenantID → is_Some (a_APIKeyCiphertext b) → grant_edge a b
  | edge_deny a b :
      same_grant a b → a_Status a = RAIAuthorizationPending → a_Status b = RAIAuthorizationDenied →
      a_APIKeyCiphertext b = a_APIKeyCiphertext a → grant_edge a b
  | edge_consume a b :
      same_grant a b → a_Status a = RAIAuthorizationApproved → a_Status b = RAIAuthorizationConsumed →
      a_TenantID b = a_TenantID a → a_APIKeyCiphertext b = None → grant_edge a b.

(** A new grant. *)
Definition new_grant (a : RAIAuthorizationRow) : Prop :=
  a_Status a = RAIAuthorizationPending ∧ a_TenantID a = None ∧ a_APIKeyCiphertext a = None ∧
  a_ExpiresAt a = a_CreatedAt a + 10 * minute ∧ a_CodeChallengeMethod a = "S256" ∧
  (43 ≤ String.length (a_CodeChallenge a) ≤ 128)%nat.

Inductive grant_operation :=
  | CreateGrant (deviceName challenge method : string) (now : Z) (metadata : option RAIDeviceMetadata)
  | ApproveGrant (id tenantID : string)
  | DenyGrant (id tenantID : string)
  | ExchangeGrant (id verifier : string)
  | PurgeGrants (now : Z)
  | RefreshToken (token : string)
  | RevokeToken (token : string)
  | RevokeDevice (tenantID id : string).

Section protocol.
Context `{TimeZone} `{FloatToInt} `{Digest} `{AEAD plaintext}.

Definition run_grant (op : grant_operation) : DB unit :=
  match op with
  | CreateGrant name challenge method now metadata =>
      CreateRAIAuthorization name challenge method now metadata;; mret ()
  | ApproveGrant id tenantID => ApproveRAIAuthorization id tenantID
  | DenyGrant id tenantID => DenyRAIAuthorization id tenantID
  | ExchangeGrant id verifier => ConsumeRAIOAuthAuthorization id verifier;; mret ()
  | PurgeGrants now => DeleteExpiredRAIAuthorizations now;; mret ()
  | RefreshToken token => RefreshRAIOAuth token;; mret ()
  | RevokeToken token => RevokeRAIOAuth token
  | RevokeDevice tenantID id => RevokeRAIDevice tenantID id
  end.

(** One step of the table of grants: every row is as before, moved along an edge, is new, or has
    been purged after its expiry. *)
Definition grant_step (now : option Z) (m m' : gmap string RAIAuthorizationRow) : Prop :=
  (∀ id b, m' !! id = Some b →
     m !! id = Some b ∨ (m !! id = None ∧ new_grant b) ∨ ∃ a, m !! id = Some a ∧ grant_edge a b) ∧
  (∀ id a, m !! id = Some a → m' !! id = None → ∃ z, now = Some z ∧ a_ExpiresAt a ≤ z).

Lemma grant_step_refl now m : grant_step now m m.
Proof. split; [by left|congruence]. Qed.

Lemma grant_step_edge now m id a b :
  m !! id = Some a → grant_edge a b → grant_step now m (<[id := b]> m).
Proof.
  intros Ha Hab. split.
  - intros id' b'. rewrite lookup_insert_Some. intros [[<- <-]|[_ Hb]]; [|by left].
    right. right. by exists a.
  - intros id' a' Ha'. rewrite lookup_insert_None. intros [? _]. congruence.
Qed.

(** The grants are as in [t]. *)
Definition same_grants (t t' : tables) : Prop := tb_authorizations t' = tb_authorizations t.

#[export] Instance same_grants_tenants t : Ignores tenants (same_grants t).
Proof. by intros ?. Qed.
#[export] Instance same_grants_api_keys t : Ignores api_keys (same_grants t).
Proof. by intros ?. Qed.
#[export] Instance same_grants_sessions t : Ignores sessions (same_grants t).
Proof. by intros ?. Qed.

Lemma preserves_Seal x E (I : tables → Prop) p ad : preserves x E I (Seal p ad).
Proof. unfold Seal. preserve. Qed.
Lemma preserves_issue x E (I : tables → Prop) s : preserves x E I (issueRAIOAuthTokens s).
Proof. unfold issueRAIOAuthTokens, rand_text, Seal. preserve. Qed.
Lemma preserves_NewAPIKey x E (I : tables → Prop) : preserves x E I NewAPIKey.
Proof. unfold NewAPIKey. preserve. Qed.
Lemma preserves_first_matching x E (I : tables → Prop) {K V : Type} `{Countable K}
    (tb : table tables K V) cond : preserves x E I (first_matching tb cond).
Proof. unfold first_matching. preserve. Qed.
End protocol.

#[export] Hint Resolve preserves_Seal preserves_issue preserves_NewAPIKey
  preserves_first_matching : preserves.

Section steps.
Context (E : env) `{TimeZone} `{FloatToInt} `{Digest} `{AEAD plaintext}.

(** Reading or writing elsewhere. *)
Lemma elsewhere {A} (m : DB A) t t1 :
  preserves InTx E (same_grants t) m → same_grants t t1 → success E m t1 (λ _ t', same_grants t t').
Proof. apply success_preserves. Qed.

Lemma success_grant_to item id tenantID tenant t :
  keyed a_ID (tb_authorizations t) → tb_authorizations t !! id = Some item →
  a_Status item = RAIAuthorizationPending →
  success E (grant_to item tenant tenantID) t (λ _ t', ∃ b, grant_edge item b ∧
    tb_authorizations t' = <[id := b]> (tb_authorizations t)).
Proof.
  intros Hk Hitem Hst. pose proof (Hk _ _ Hitem) as Hid. cbn in Hid. unfold grant_to.
  step_success. eapply success_mono; [apply (elsewhere _ t); [preserve|done]|]. intros fresh t1 G1.
  step_success. step_success. cbv zeta. step_success.
  eapply (success_mono _ _ _ (λ _ t', same_grants t t')).
  { apply (elsewhere _ _ t1); [preserve|exact G1]. }
  intros keyID t2 G2. do 5 step_success. eapply (success_mono _ _ _ (λ _ t', same_grants t t')).
  { apply (elsewhere _ _ t2); [preserve|exact G2]. }
  intros tokens t3 G3. step_success. apply success_create_unique. intros _ _ _. step_success.
  eapply (success_mono _ _ _ (λ _ t', same_grants t t')).
  { apply elsewhere; [preserve|exact G3]. }
  intros sealed t4 G4. step_success. step_success. step_success. unfold same_grants in G4.
  apply success_update; cbn; rewrite G4, Hid; [|congruence].
  intros a Ha _. assert (a = item) as -> by congruence. step_success. eexists. split; [|done].
  by eapply (edge_approve _ _ tenantID).
Qed.

(** The instant up to which an operation purges. *)
Definition purges (op : grant_operation) : option Z :=
  match op with PurgeGrants now => Some now | _ => None end.

Notation steps op t := (λ _ t', grant_step (purges op) (tb_authorizations t) (tb_authorizations t')).

Lemma normalized_challenge value c :
  normalizePKCEChallenge value = Ok c → (43 ≤ String.length c ≤ 128)%nat.
Proof.
  unfold normalizePKCEChallenge. cbv zeta.
  destruct (bool_decide (String.length (trim_space value) < 43)%nat ||
            bool_decide (128 < String.length (trim_space value))%nat) eqn:Hlen; [done|].
  destruct (negb _); [done|]. intros [= <-]. reflect_bools. lia.
Qed.

Lemma wp_of_res {A} x (r : result A) t (Q : result A → tables → Prop) :
  Q r t → wp x E (of_res r) t Q.
Proof. intros HQ. destruct r; [by apply wp_ret|by apply wp_fail]. Qed.

Lemma step_create name challenge method now metadata t :
  wp Direct E (CreateRAIAuthorization name challenge method now metadata) t (λ _ t',
    grant_step None (tb_authorizations t) (tb_authorizations t')).
Proof.
  assert (Hrefl := grant_step_refl None (tb_authorizations t)).
  apply wp_bind, wp_of_res. destruct (normalizeRAIDeviceName name); [|exact Hrefl].
  apply wp_bind, wp_of_res. destruct (normalizePKCEChallenge challenge) as [c|e] eqn:Hc; [|exact Hrefl].
  apply normalized_challenge in Hc. apply wp_bind, wp_guard; [intros _|intros _; exact Hrefl].
  apply wp_bind. eapply (wp_mono _ _ _ _ (λ _ t', t' = t)).
  { case_match; [by apply wp_now|by apply wp_ret]. }
  intros [created|e] t' ->; [|exact Hrefl]. apply wp_bind, wp_of_res.
  destruct (normalizeRAIDeviceMetadata _); [|exact Hrefl]. apply wp_bind, wp_random_bytes. intros code _.
  cbv zeta. apply wp_bind, wp_new_id. intros id. apply wp_bind.
  apply wp_create_unique; [|exact Hrefl|intros _; exact Hrefl|intros _ _ ?; exact Hrefl]. cbn. intros Hnone _ _. apply wp_ret. split.
  - intros id' b. cbn. rewrite lookup_insert_Some. intros [[<- <-]|[_ Hb]]; [|by left].
    right. left. split; [exact Hnone|]. destruct Hc. repeat split; cbn; try done; exact eq_refl.
  - intros id' b Hb. cbn. rewrite lookup_insert_None. intros [? _]. congruence.
Qed.

(** A transaction that moves one row. *)
Lemma step_transaction {A} x (body : DB A) op t :
  success E body t (steps op t) → wp x E (transaction body) t (steps op t).
Proof.
  intros Hs. eapply wp_mono; [by apply success_transaction|]. intros [a|e] t' Ha; [done|].
  rewrite Ha. apply grant_step_refl.
Qed.

Lemma step_approve id tenantID t :
  keyed a_ID (tb_authorizations t) →
  wp Direct E (ApproveRAIAuthorization id tenantID) t (steps (ApproveGrant id tenantID) t).
Proof.
  intros Hk. apply wp_bind, wp_guard; [intros _|intros _; apply grant_step_refl].
  apply step_transaction. step_success. apply success_map_error, success_first. cbn.
  intros item Hitem. do 8 step_success. intros tenant _. do 4 step_success.
  eapply success_mono; [by eapply success_grant_to|]. intros ? t' (b & Hedge & ->).
  by eapply grant_step_edge.
Qed.

Lemma step_deny id tenantID t :
  keyed a_ID (tb_authorizations t) →
  wp Direct E (DenyRAIAuthorization id tenantID) t (steps (DenyGrant id tenantID) t).
Proof.
  intros Hk. apply wp_bind, wp_guard; [intros _|intros _; apply grant_step_refl].
  apply step_transaction. step_success. apply success_map_error, success_first. cbn.
  intros item Hitem. pose proof (Hk _ _ Hitem) as Hid. cbn in Hid. do 5 step_success.
  apply success_update; cbn; rewrite Hid; [|congruence]. intros a Ha _.
  assert (a = item) as -> by congruence. step_success. eapply grant_step_edge; [done|].
  by eapply edge_deny.
Qed.

(** What a successful exchange was given and what it leaves. *)
Definition exchanged (id verifier : string) (t t' : tables) : Prop :=
  ∃ a b i, tb_authorizations t !! id = Some a ∧ grant_edge a b ∧
    a_Status a = RAIAuthorizationApproved ∧ env_now E i < a_ExpiresAt a ∧
    PKCEChallengeS256 verifier = a_CodeChallenge a ∧
    tb_authorizations t' = <[id := b]> (tb_authorizations t) ∧
    a_Status b = RAIAuthorizationConsumed ∧ a_APIKeyCiphertext b = None.

Lemma exchange_ok item now :
  exchange_error item now = None →
  a_Status item = RAIAuthorizationApproved ∧ now < a_ExpiresAt item.
Proof.
  unfold exchange_error. repeat case_match; try done. intros _. reflect_bools.
  split; [done|]. destruct (Z.ltb_spec now (a_ExpiresAt item)); done.
Qed.

(** A grant once exchanged. *)
Definition consumed_at (a : RAIAuthorizationRow) (z : Z) : RAIAuthorizationRow :=
  a <| a_Status := RAIAuthorizationConsumed; a_APIKeyCiphertext := (None : option string);
       a_ConsumedAt := Some z |>.

(** The instant is one of the world's. *)
Lemma wp_now_at x t (Q : result Z → tables → Prop) :
  (∀ i, Q (Ok (env_now E i)) t) → wp x E time_now t Q.
Proof. intros Hi n. right. apply Hi. Qed.

Lemma pkce_matches challenge verifier :
  pkceChallengeMatches challenge verifier = true → PKCEChallengeS256 verifier = challenge.
Proof. apply bool_decide_eq_true. Qed.

Lemma wp_exchange id verifier t :
  keyed a_ID (tb_authorizations t) →
  wp Direct E (ConsumeRAIOAuthAuthorization id verifier) t (λ r t', match r with
    | Ok _ => exchanged (trim_space id) (trim_space verifier) t t'
    | Err _ => t' = t
    end).
Proof.
  intros Hk. apply wp_bind, wp_guard; [intros _|done]. apply success_transaction.
  step_success. apply success_map_error, success_first. cbn.
  intros item Hitem. pose proof (Hk _ _ Hitem) as Hid. cbn in Hid.
  step_success. apply wp_now_at. intros i. step_success.
  destruct (exchange_error item (env_now E i)) eqn:Hex; [by apply success_fail|].
  apply exchange_ok in Hex as [Hst Hlt]. do 3 step_success.
  case_match; [|by apply success_fail]. do 3 step_success.
  apply success_update; cbn; rewrite Hid; [|congruence]. intros a Ha _.
  assert (a = item) as -> by congruence.
  assert (exchanged (trim_space id) (trim_space verifier) t
    (t <| tb_authorizations := <[trim_space id := consumed_at item z]> (tb_authorizations t) |>))
    as Hdone.
  { exists item, (consumed_at item z), i. split; [exact Hitem|]. split; [by apply edge_consume|].
    repeat split; try done. by apply pkce_matches. }
  apply (success_preserves E (exchanged (trim_space id) (trim_space verifier) t)); [clear; preserve|exact Hdone].
Qed.

Lemma step_purge now t :
  wp Direct E (DeleteExpiredRAIAuthorizations now) t (steps (PurgeGrants now) t).
Proof.
  apply wp_bind. apply wp_delete_where; [|intros; apply grant_step_refl]. intros z. cbn.
  apply wp_delete_where; [|intros; apply grant_step_refl]. intros z'. cbn. split.
  - intros id b [Hb _]%map_lookup_filter_Some. by left.
  - intros id a Ha Hnone. exists now. split; [done|].
    rewrite map_lookup_filter_None in Hnone. destruct Hnone as [?|Hf]; [congruence|].
    specialize (Hf _ Ha). cbn in Hf. apply not_false_iff_true in Hf. lia.
Qed.

Lemma same_step op t : ∀ t', same_grants t t' → grant_step (purges op) (tb_authorizations t) (tb_authorizations t').
Proof. intros t' ->. apply grant_step_refl. Qed.

Lemma preserves_revoke_session x t tenantID id :
  preserves x E (same_grants t) (RevokeRAIOAuthSession tenantID id).
Proof. unfold RevokeRAIOAuthSession. preserve. Qed.

Lemma preserves_tokens t op :
  match op with RefreshToken _ | RevokeToken _ | RevokeDevice _ _ => True | _ => False end →
  preserves Direct E (same_grants t) (run_grant op).
Proof.
  destruct op; try done; intros _; cbn.
  - unfold RefreshRAIOAuth. preserve.
  - unfold RevokeRAIOAuth. preserve.
  - unfold RevokeRAIDevice, RevokeRAIOAuthSession. preserve.
Qed.

(** ** Tokens *)

(** No two sessions share a refresh token: the unique index. *)
Definition refresh_unique (t : tables) : Prop :=
  ∀ i j s s', tb_sessions t !! i = Some s → tb_sessions t !! j = Some s' →
    os_RefreshTokenHash s = os_RefreshTokenHash s' → i = j.

Lemma success_first_matching {K V : Type} `{Countable K} (tb : table tables K V) cond t P :
  (∀ k v, tb_get tb t !! k = Some v → cond v = true → P v t) →
  success E (first_matching tb cond) t P.
Proof.
  intros HP. apply success_bind, success_find. intros l Hl. destruct l as [|v l]; [by step_success|].
  step_success. assert (v ∈ v :: l) as Hv by left. apply (elem_of_rows tb cond t) in Hv; [|done].
  destruct Hv as (Hc & k & Hk). by eapply HP.
Qed.

(** What a rotation needs and does. *)
Definition rotated (token : string) (fresh : RAIOAuthTokens) (t t' : tables) : Prop :=
  ∃ s i j tn, tb_sessions t !! os_ID s = Some s ∧ os_RefreshTokenHash s = HashKey token ∧
    env_now E i < os_ExpiresAt s ∧ tb_tenants t !! os_TenantID s = Some tn ∧
    may_delegate tn (env_now E j) = true ∧ t_PasswordVersion tn = os_PasswordVersion s ∧
    tb_sessions t' =
      <[os_ID s := s <| os_RefreshTokenHash := HashKey (to_RefreshToken fresh) |> ]> (tb_sessions t).

Lemma preserves_issue_exactly t s : preserves InTx E (λ t', t' = t) (issueRAIOAuthTokens s).
Proof. auto with preserves. Qed.

Lemma wp_refresh token t :
  keyed os_ID (tb_sessions t) → refresh_unique t →
  wp Direct E (RefreshRAIOAuth token) t (λ r t', match r with
    | Ok fresh => rotated token fresh t t' ∧ refresh_unique t'
    | Err _ => t' = t
    end).
Proof.
  intros Hk Hu. apply wp_bind, wp_guard; [intros _|done]. apply success_transaction.
  step_success. apply success_map_error, success_first_matching. cbn. intros i s Hs Hhash.
  pose proof (Hk _ _ Hs) as Hid. cbn in Hid. subst i. apply bool_decide_eq_true in Hhash.
  step_success. apply wp_now_at. intros i. do 2 step_success. step_success.
  apply success_map_error, success_first. cbn. intros tn Htn. step_success. apply wp_now_at. intros j.
  do 2 step_success. step_success. apply (success_mono _ _ _ (λ _ t', t' = t)).
  { apply (success_preserves E (λ t', t' = t)); [|done]. preserve. }
  intros ? ? ->. step_success. apply (success_mono _ _ _ (λ _ t', t' = t)).
  { by apply (success_preserves E (λ t', t' = t)); [apply preserves_issue_exactly|]. }
  intros fresh ? ->. do 4 step_success.
  step_success. apply success_update; cbn; [|congruence]. intros s' Hs' _.
  assert (s' = s) as -> by congruence. step_success. split.
  { exists s, i, j, tn. by repeat split. }
  intros k1 k2 s1 s2. cbn. rewrite !lookup_insert_Some. intros [[<- <-]|[? H1']] [[<- <-]|[? H2']]; cbn.
  - done.
  - intros Heq. destruct (H6 _ _ H2') as [?|[]]; [done|by rewrite <- Heq].
  - intros Heq. destruct (H6 _ _ H1') as [?|[]]; done.
  - by apply Hu.
Qed.

(** The keys of the sessions survive a rotation. *)
Lemma rotated_keyed token fresh t t' :
  keyed os_ID (tb_sessions t) → rotated token fresh t t' → keyed os_ID (tb_sessions t').
Proof.
  intros Hk (s & i & j & tn & Hs & _ & _ & _ & _ & _ & ->). by apply keyed_insert.
Qed.
End steps.

(** ** The guarantees *)

Section guarantees.
Context `{TimeZone} `{FloatToInt} `{Digest} `{AEAD plaintext}.

(** C20: Whatever the device, the browser and the janitor do, and whatever fails, a device grant
  only moves along its protocol: it is created pending, with an S256 challenge of 43 to 128
  characters and ten minutes to live; it goes from pending to approved, which names the tenant
  and seals the tokens, or to denied; from approved to consumed, which erases the sealed tokens;
  it never leaves denied or consumed, never changes its challenge or its expiry, and disappears
  only in a purge after its expiry. *)
Theorem grants_follow_the_protocol E op t :
keyed a_ID (tb_authorizations t) →
wp Direct E (run_grant op) t (λ _ t',
  grant_step (purges op) (tb_authorizations t) (tb_authorizations t')).
Proof.
  assert (Hunit : ∀ {A} (m : DB A) Q, wp Direct E m t (λ _ t', Q t') → wp Direct E (m;; mret ()) t (λ _ t', Q t')).
  { intros A m Q Hm. apply wp_bind. eapply wp_mono; [exact Hm|]. intros [a|e] t' Ht'; [by apply wp_ret|done]. }
  intros Hk. destruct op; cbn [run_grant].
  - apply Hunit, step_create.
  - by apply step_approve.
  - by apply step_deny.
  - apply Hunit. eapply wp_mono; [by apply wp_exchange|]. intros [tokens|e] t'; [|intros ->; apply grant_step_refl].
    intros (a & b & i & Ha & Hab & _ & _ & _ & -> & _). by eapply grant_step_edge.
  - apply Hunit, step_purge.
  - eapply wp_mono; [exact (preserves_tokens E t (RefreshToken token) I t eq_refl)|]. intros r t'. apply same_step.
  - eapply wp_mono; [exact (preserves_tokens E t (RevokeToken token) I t eq_refl)|]. intros r t'. apply same_step.
  - eapply wp_mono; [exact (preserves_tokens E t (RevokeDevice tenantID id) I t eq_refl)|]. intros r t'. apply same_step.
Qed.

(** C9: A grant yields tokens at most once, and only to the device that asked: an exchange
  succeeds only when the grant had been approved, has not expired and the S256 hash of the
  verifier is the challenge the device sent at the start; it then consumes the grant and
  erases the sealed tokens, so that every later exchange of the grant fails, with any verifier
  and whatever the database does, and changes nothing.  A failed exchange changes nothing. *)
Theorem grants_are_exchanged_once E E' id verifier verifier' t :
keyed a_ID (tb_authorizations t) →
wp Direct E (ConsumeRAIOAuthAuthorization id verifier) t (λ r t1, match r with
  | Ok _ => exchanged E (trim_space id) (trim_space verifier) t t1 ∧
            wp Direct E' (ConsumeRAIOAuthAuthorization id verifier') t1
              (λ r2 t2, (∃ e, r2 = Err e) ∧ t2 = t1)
  | Err _ => t1 = t
  end).
Proof.
  intros Hk. eapply wp_mono; [by apply wp_exchange|]. intros [tokens|e] t1; [|done].
  intros Hex. split; [exact Hex|]. destruct Hex as (a & b & i & Ha & Hab & _ & _ & _ & Ht1 & Hst & _).
  assert (Hk1 : keyed a_ID (tb_authorizations t1)).
  { rewrite Ht1. apply keyed_insert; [done|]. pose proof (Hk _ _ Ha) as Hid. cbn in Hid.
    destruct Hab as [??? [Hs _]|?? [Hs _]|?? [Hs _]]; by rewrite <- Hs. }
  eapply wp_mono; [by apply wp_exchange|]. intros [tokens'|e] t2; [|intros ->; split; [by eexists|done]].
  intros (a' & b' & i' & Ha' & _ & Hst' & _). rewrite Ht1, lookup_insert_eq in Ha'.
  injection Ha' as <-. by rewrite Hst in Hst'.
Qed.

(** A refresh token works once: a refresh succeeds only for a live session whose tenant is
  enabled, unexpired and still has the password version under which the device was approved; it replaces
  the stored hash of the token, keeps the hashes of all sessions distinct, and the old token is
  refused from then on (unless the digest of the new token collides with its own).  A failed
  refresh changes nothing. *)
Theorem refresh_tokens_rotate E E' token t :
keyed os_ID (tb_sessions t) → refresh_unique t →
wp Direct E (RefreshRAIOAuth token) t (λ r t1, match r with
  | Ok fresh => rotated E token fresh t t1 ∧ refresh_unique t1 ∧
      (HashKey (to_RefreshToken fresh) ≠ HashKey token →
       wp Direct E' (RefreshRAIOAuth token) t1 (λ r2 t2, (∃ e, r2 = Err e) ∧ t2 = t1))
  | Err _ => t1 = t
  end).
Proof.
  intros Hk Hu. eapply wp_mono; [by apply wp_refresh|]. intros [fresh|e] t1; [|done].
  intros [Hrot Hu1]. split; [exact Hrot|]. split; [exact Hu1|]. intros Hne.
  pose proof (rotated_keyed _ _ _ _ _ Hk Hrot) as Hk1.
  eapply wp_mono; [by apply wp_refresh|]. intros [fresh'|e] t2; [|intros ->; split; [by eexists|done]].
  intros [(s' & _ & _ & _ & Hs' & Hh' & _) _]. exfalso.
  destruct Hrot as (s & _ & _ & _ & Hs & Hh & _ & _ & _ & _ & Ht1).
  rewrite Ht1, lookup_insert_Some in Hs'. destruct Hs' as [[_ <-]|[Hid Hs']]; [done|].
  apply Hid. eapply Hu; [exact Hs|exact Hs'|congruence].
Qed.
End guarantees.

(** ** Acme's laptop *)

Lemma keyed_waiting : keyed a_ID (tb_authorizations waiting_store).
Proof. apply (bool_decide_unpack _). by vm_compute. Qed.

Lemma keyed_approved : keyed a_ID (tb_authorizations approved_store).
Proof. apply (bool_decide_unpack _). by vm_compute. Qed.

Lemma keyed_exchanged : keyed os_ID (tb_sessions exchanged_store).
Proof. apply (bool_decide_unpack _). by vm_compute. Qed.

Definition refresh_of_exchange : string :=
  match exchanged_tokens with Ok tokens => to_RefreshToken tokens | Err _ => "" end.

Lemma grants_follow_the_protocol_witness :
wp Direct calm (run_grant (ApproveGrant grant_id "acme")) waiting_store (λ _ t',
  grant_step None (tb_authorizations waiting_store) (tb_authorizations t')).
Proof. apply (grants_follow_the_protocol calm (ApproveGrant grant_id "acme")), keyed_waiting. Defined.

Lemma grants_are_exchanged_once_witness :
(∃ tokens, exchanged_tokens = Ok tokens) ∧
wp Direct calm (ConsumeRAIOAuthAuthorization grant_id verifier) approved_store (λ r t1, match r with
  | Ok _ => exchanged calm (trim_space grant_id) (trim_space verifier) approved_store t1 ∧
            wp Direct later (ConsumeRAIOAuthAuthorization grant_id verifier) t1
              (λ r2 t2, (∃ e, r2 = Err e) ∧ t2 = t1)
  | Err _ => t1 = approved_store
  end).
Proof.
  split; [eexists; by vm_compute|]. apply grants_are_exchanged_once, keyed_approved.
Defined.

Lemma refresh_tokens_rotate_witness :
(∃ fresh t' c, RefreshRAIOAuth refresh_of_exchange calm exchanged_store 300%nat = (Ok fresh, t', c)) ∧
wp Direct calm (RefreshRAIOAuth refresh_of_exchange) exchanged_store (λ r t1, match r with
  | Ok fresh => rotated calm refresh_of_exchange fresh exchanged_store t1 ∧ refresh_unique t1 ∧
      (HashKey (to_RefreshToken fresh) ≠ HashKey refresh_of_exchange →
       wp Direct later (RefreshRAIOAuth refresh_of_exchange) t1 (λ r2 t2, (∃ e, r2 = Err e) ∧ t2 = t1))
  | Err _ => t1 = exchanged_store
  end).
Proof.
  split; [eexists _, _, _; by vm_compute|].
  apply refresh_tokens_rotate; [apply keyed_exchanged|].
  assert (map_Forall (λ i _, i = default "" (head (map_to_list (tb_sessions exchanged_store)).*1))
            (tb_sessions exchanged_store)) as Hone by (apply (bool_decide_unpack _); by vm_compute).
  intros i j s s' Hi%Hone Hj%Hone _. by rewrite Hi, Hj.
Defined.
