(* ===== verification/AccessTokens.v ===== *)
(** * What an access token is worth

    An access token is a sealed claim.  Presented later, to any store, it stands
    for the session it names as long as the claim has not expired and the tenant
    still vouches for the session. *)

From Stdlib Require Import SpecFloat.
From S2P Require Import Prelude.
From S2P Require Import Float64.
From S2P Require Import Database.
From S2P Require Import Schema.
From S2P Require Import RequestLogs.
From S2P Require Import Encoding.
From S2P Require Import DeviceGrants.
From S2P Require Import GrantGuarantees.
From S2P Require Import Sample.
From S2P Require Import GrantSample.

Section sealing.
Context {P : Type} `{LawfulAEAD P}.

Lemma Open_sealed nonce (p : P) ad :
  length nonce = nonce_size →
  Open (String.string_of_list_ascii (sealedSecretVersion :: nonce ++ aead_seal nonce p ad)) ad = Some p.
Proof.
  intros Hn. unfold Open. rewrite String.list_ascii_of_string_of_list_ascii. cbn [head tail].
  pose proof (aead_length nonce p ad) as Hl.
  rewrite bool_decide_eq_false_2 by (cbn; rewrite length_app, Hn; unfold nonce_size, aead_overhead in *; lia).
  rewrite bool_decide_eq_true_2 by done. cbn [negb orb].
  rewrite <- Hn, take_app_length, drop_app_length. apply aead_open_seal.
Qed.

(** What a sealing leaves: bytes that open. *)
Lemma wp_Seal {T} x E (p : P) ad (t : T) (Q : result string → T → Prop) :
  (∀ s, Open s ad = Some p → Q (Ok s) t) → wp x E (Seal p ad) t Q.
Proof.
  intros HQ. apply wp_bind, wp_random_bytes. intros nonce Hn. apply wp_ret, HQ. by apply Open_sealed.
Qed.

Lemma b64_encode_length bytes : (length (b64_encode bytes) ≤ 2 * length bytes)%nat.
Proof.
  revert bytes. apply three_at_a_time.
  - done.
  - intros []. cbn. lia.
  - intros [] []. cbn. lia.
  - intros [] [] [] l IH. cbn [b64_encode length]. lia.
Qed.

Lemma length_string_of_list l : String.length (String.string_of_list_ascii l) = length l.
Proof. induction l as [|c l IH]; cbn; [done|]. by rewrite IH. Qed.

Lemma length_list_of_string s : length (String.list_ascii_of_string s) = String.length s.
Proof. induction s as [|c s IH]; cbn; [done|]. by rewrite IH. Qed.

Lemma length_append (a b : string) : String.length (a +:+ b) = (String.length a + String.length b)%nat.
Proof. induction a as [|c a IH]; cbn; [done|]. by rewrite <- IH. Qed.

(** What [Seal] seals, [Open] opens: under the same associated data it gives back the
  plaintext, also after the sealed bytes have travelled as the URL-safe text of a token; and
  bytes that are too short to carry a nonce and a tag, or carry another version byte, never
  open, whatever the cipher does. *)
Theorem sealed_secrets_open_again {T} x E (p : P) ad (t : T) :
wp x E (Seal p ad) t (λ r t', t' = t ∧ ∃ s, r = Ok s ∧
  Open s ad = Some p ∧ b64_bytes (b64_string s) ≫= (λ s', Open s' ad) = Some p) ∧
(∀ s ad', (String.length s < 29)%nat ∨ String.get 0 s ≠ Some sealedSecretVersion → Open (P := P) s ad' = None).
Proof.
  split.
  - apply wp_Seal. intros s Hs. split; [done|]. exists s. split; [done|]. split; [done|].
    by rewrite b64_bytes_string.
  - intros s ad' Hs. unfold Open. rewrite <- length_list_of_string in Hs.
    match goal with |- (if ?b then _ else _) = _ => assert (b = true) as ->; [|done] end.
    apply orb_true_intro. destruct Hs as [Hl|Hv].
    + left. apply bool_decide_eq_true_2. unfold nonce_size, aead_overhead. lia.
    + right. rewrite bool_decide_eq_false_2; [done|]. intros Hh. apply Hv. by destruct s; inversion Hh.
Qed.

End sealing.

Section tokens.
Context `{TimeZone} `{FloatToInt} `{Digest} `{AEAD plaintext} `{!LawfulAEAD plaintext} `{!ShortClaims}.

(** The access token of a claim. *)
Definition access_token (nonce : list ascii) (c : raiAccessClaims) : string :=
  access_prefix +:+ b64_string (String.string_of_list_ascii
    (sealedSecretVersion :: nonce ++ aead_seal nonce (ClaimsJSON c) access_data)).

Lemma access_token_shape nonce c :
  length nonce = nonce_size → (String.length (cl_SessionID c) ≤ 36)%nat →
  in_int64 (cl_Expires c) →
  has_prefix (access_token nonce c) access_prefix = true ∧
  (String.length (access_token nonce c) ≤ 2048)%nat.
Proof.
  intros Hn Hid Hint. split; [by apply bool_decide_eq_true_2|].
  pose proof (aead_claims_length nonce c access_data Hid Hint) as Hl.
  unfold access_token, b64_string. rewrite String.list_ascii_of_string_of_list_ascii.
  pose proof (b64_encode_length (sealedSecretVersion :: nonce ++
    aead_seal nonce (ClaimsJSON c) access_data)) as He.
  cbn [length] in He. rewrite length_app, Hn in He. unfold nonce_size in He.
  rewrite length_append, length_string_of_list. cbn [String.length access_prefix]. lia.
Qed.

Lemma wp_issue x E s t :
  wp x E (issueRAIOAuthTokens s) t (λ r t', t' = t ∧ ∃ tok i nonce, r = Ok tok ∧
    length nonce = nonce_size ∧
    to_AccessToken tok = access_token nonce {| cl_SessionID := os_ID s;
      cl_Expires := unix_seconds (Z.min (os_ExpiresAt s) (env_now E i + raiAccessTTL)) |}).
Proof.
  apply wp_bind, wp_now_at. intros i. cbv zeta. apply wp_bind, wp_bind, wp_random_bytes.
  intros nonce Hn. apply wp_ret. apply wp_bind, wp_bind, wp_random_bytes. intros src _.
  apply wp_ret. apply wp_bind, wp_now. intros u. apply wp_bind, wp_now. intros u'.
  apply wp_ret. split; [done|]. eexists _, i, nonce. split; [done|]. split; [done|]. cbn.
  replace (Z.min (os_ExpiresAt s) (env_now E i + raiAccessTTL)) with
    (if os_ExpiresAt s <? env_now E i + raiAccessTTL then os_ExpiresAt s else env_now E i + raiAccessTTL).
  - done.
  - destruct (Z.ltb_spec (os_ExpiresAt s) (env_now E i + raiAccessTTL)); lia.
Qed.

(** The verdict on an access token that names session [id] until [expires] (in seconds). *)
Definition verdict (E : env) (id : string) (expires : Z) (t : tables) (r : result RAIOAuthSession) : Prop :=
  match r with
  | Ok s => tb_sessions t !! id = Some s ∧ ∃ i j k, unix_seconds (env_now E i) < expires ∧
              session_valid t s (env_now E j) (env_now E k) = true
  | Err ErrInvalidGrant => ∃ i, expires ≤ unix_seconds (env_now E i)
  | Err ErrNotFound => ∀ s, tb_sessions t !! id = Some s →
                         ∃ j k, session_valid t s (env_now E j) (env_now E k) = false
  | Err (ErrConnection _) => ¬ quiet E
  | Err _ => False
  end.

Lemma wp_access E nonce c t :
  length nonce = nonce_size → (String.length (cl_SessionID c) ≤ 36)%nat →
  in_int64 (cl_Expires c) →
  wp Direct E (RAIOAuthSession_ (access_token nonce c)) t (λ r t', t' = t ∧
    verdict E (cl_SessionID c) (cl_Expires c) t r).
Proof.
  intros Hn Hid Hint. destruct (access_token_shape nonce c Hn Hid Hint) as [Hp Hl].
  unfold RAIOAuthSession_. rewrite Hp, bool_decide_eq_true_2 by done.
  apply wp_bind, wp_guard; [intros _|done].
  change (trim_prefix (access_token nonce c) access_prefix) with (b64_string
    (String.string_of_list_ascii (sealedSecretVersion :: nonce ++ aead_seal nonce (ClaimsJSON c) access_data))).
  rewrite b64_bytes_string, (Open_sealed nonce (ClaimsJSON c) access_data Hn). cbv zeta. cbn [decode_claims].
  apply wp_bind, wp_now_at. intros i. apply wp_bind, wp_guard; [intros Hi|intros Hi; split; [done|]; exists i; lia].
  apply wp_bind, wp_now_at. intros j. apply wp_bind, wp_now_at. intros k. apply wp_map_error.
  apply wp_bind, wp_statement; [|done]. apply wp_bind, wp_gets. cbn [id].
  destruct (tb_sessions t !! cl_SessionID c) as [s|] eqn:Hs.
  - destruct (session_valid t s (env_now E j) (env_now E k)) eqn:Hv.
    + apply wp_ret. split; [done|]. split; [done|]. exists i, j, k. split; [lia|done].
    + apply wp_fail. split; [done|]. cbn. intros s' Hs'. exists j, k. congruence.
  - apply wp_fail. split; [done|]. cbn. congruence.
Qed.

(** The year 292277026596, when 64 bits of seconds end. *)
Definition latest : Z := 2 ^ 63 * second - 15 * minute.

Lemma unix_seconds_int64 z : 0 ≤ z ≤ latest + 15 * minute → in_int64 (unix_seconds z).
Proof.
  unfold latest, unix_seconds. intros Hz.
  assert (0 ≤ z / second ≤ 2 ^ 63) as Hd.
  { split; [apply Z.div_pos; unfold second; lia|]. apply Z.div_le_upper_bound; unfold second in *; lia. }
  int64_lia.
Qed.

(** C23: An access token stands for its session and nothing else: shown later to the store, in
  whatever state it is by then, it is accepted exactly when its claim has not expired (fifteen
  minutes after its issue, or at the end of the session if that is sooner) and the session is
  still there, unexpired, for a tenant that is enabled, need not change its password, is not
  past its own expiry and still has the password version of the approval; then it answers that
  session.  A password reset, a disabled account or a revoked session ends it at once, and
  reading it changes nothing. *)
Theorem access_tokens_stand_for_their_session E E' s t0 t :
(String.length (os_ID s) ≤ 36)%nat → 0 ≤ os_ExpiresAt s →
wp Direct E (issueRAIOAuthTokens s) t0 (λ r t0', t0' = t0 ∧ ∃ tok i, r = Ok tok ∧
  (0 ≤ env_now E i ≤ latest → wp Direct E' (RAIOAuthSession_ (to_AccessToken tok)) t (λ r t', t' = t ∧
    verdict E' (os_ID s) (unix_seconds (Z.min (os_ExpiresAt s) (env_now E i + raiAccessTTL))) t r))).
Proof.
  intros Hid Hexp. eapply wp_mono; [apply wp_issue|]. intros r t0' [-> (tok & i & nonce & -> & Hn & Htok)].
  split; [done|]. exists tok, i. split; [done|]. intros Hnow. rewrite Htok. apply wp_access; [done|done|]. cbn [cl_Expires]. apply unix_seconds_int64.
  unfold raiAccessTTL, minute, second in *. lia.
Qed.
End tokens.

Lemma access_tokens_stand_for_their_session_witness :
let s := default (Build_RAIOAuthSession "" "" "" None "" 0 "" "" "" "" 0 0)
           (head (map_to_list (tb_sessions exchanged_store)).*2) in
wp Direct calm (issueRAIOAuthTokens s) exchanged_store (λ r t0', t0' = exchanged_store ∧ ∃ tok i, r = Ok tok ∧
  (0 ≤ env_now calm i ≤ latest → wp Direct later (RAIOAuthSession_ (to_AccessToken tok)) exchanged_store (λ r t', t' = exchanged_store ∧
    verdict later (os_ID s) (unix_seconds (Z.min (os_ExpiresAt s) (env_now calm i + raiAccessTTL)))
      exchanged_store r))).
Proof.
  cbv zeta. apply access_tokens_stand_for_their_session.
  - apply (bool_decide_unpack _). by vm_compute.
  - apply (bool_decide_unpack _). by vm_compute.
Defined.

Lemma sealed_secrets_open_again_witness :
wp Direct calm (Seal (ClaimsJSON {| cl_SessionID := "session"; cl_Expires := 900 |}) access_data) balance_store
  (λ r t', t' = balance_store ∧ ∃ s, r = Ok s ∧
     Open s access_data = Some (ClaimsJSON {| cl_SessionID := "session"; cl_Expires := 900 |})).
Proof.
  eapply wp_mono; [apply (sealed_secrets_open_again Direct calm
    (ClaimsJSON {| cl_SessionID := "session"; cl_Expires := 900 |}) access_data balance_store)|].
  intros r t' (-> & s & -> & Hs & _). split; [done|]. by exists s.
Defined.
