(* ===== verification/AccountRules.v ===== *)
(** * The rules that accounts obey

    Addresses, linked accounts, key digests and invitation tokens are unique, at
    most one tenant is the administrator, an invitation is spent once, and every
    operation on accounts keeps it so. *)

From Stdlib Require Import SpecFloat.
From S2P Require Import Prelude.
From S2P Require Import Float64.
From S2P Require Import Database.
From S2P Require Import Schema.
From S2P Require Import ModelAccess.
From S2P Require Import RequestLogs.
From S2P Require Import Encoding.
From S2P Require Import Passwords.
From S2P Require Import DeviceGrants.
From S2P Require Import GrantGuarantees.
From S2P Require Import Accounts.

(** ** Unique columns *)

(** No two rows agree on a column that is not null. *)
Definition distinct_on {V W : Type} (f : V → option W) (m : gmap string V) : Prop :=
  ∀ i j a b w, m !! i = Some a → m !! j = Some b → f a = Some w → f b = Some w → i = j.

Section distinct.
Context {V W : Type} (f : V → option W).
Implicit Types m : gmap string V.

Lemma distinct_insert m i a :
  distinct_on f m → (∀ j b, m !! j = Some b → j ≠ i → is_Some (f a) → f b ≠ f a) →
  distinct_on f (<[i := a]> m).
Proof.
  intros Hm Ha i1 j1 b1 b2 w. rewrite !lookup_insert_Some.
  intros [[<- <-]|[H1 Hb1]] [[<- <-]|[H2 Hb2]] Hw1 Hw2; [done|..].
  - exfalso. apply (Ha j1 b2); [done|congruence|by eexists|congruence].
  - exfalso. apply (Ha i1 b1); [done|congruence|by eexists|congruence].
  - by eapply Hm.
Qed.

Lemma distinct_filter m (P : string * V → Prop) `{∀ x, Decision (P x)} :
  distinct_on f m → distinct_on f (filter P m).
Proof.
  intros Hm i j a b w [Ha _]%map_lookup_filter_Some [Hb _]%map_lookup_filter_Some. by eapply Hm.
Qed.

Lemma distinct_fmap m (g : V → V) : (∀ a, f (g a) = f a) → distinct_on f m → distinct_on f (g <$> m).
Proof.
  intros Hg Hm i j a b w. rewrite !lookup_fmap_Some. intros (a' & <- & Ha) (b' & <- & Hb).
  rewrite !Hg. by eapply Hm.
Qed.

Lemma distinct_empty : distinct_on f (∅ : gmap string V).
Proof. intros i j a b w. by rewrite lookup_empty. Qed.
End distinct.

Lemma distinct_subset {V W : Type} (f : V → option W) (m m' : gmap string V) :
  m' ⊆ m → distinct_on f m → distinct_on f m'.
Proof. intros Hs Hm i j a b w Ha Hb. eapply Hm; by eapply lookup_weaken. Qed.

#[export] Hint Resolve distinct_filter distinct_empty : core.

(** ** The rules *)

Definition email_column (t : Tenant) : option string := Some (t_OwnerEmail t).
Definition admin_column (t : Tenant) : option unit := if t_IsAdmin t then Some () else None.
Definition hash_column (k : APIKey) : option string := Some (k_KeyHash k).
Definition token_column (i : Invitation) : option string := Some (i_TokenHash i).
Definition alias_column (a : APIKeyModelAlias) : option (string * string) :=
  Some (ma_APIKeyID a, ma_Alias a).

(** An address as it is stored: in lower case, without spaces around. *)
Definition canonical (email : string) : Prop := to_lower email = email ∧ trim_space email = email.

Record tenants_ok (m : gmap string Tenant) : Prop := {
  to_keyed : keyed t_ID m;
  to_canonical : map_Forall (λ _ t, canonical (t_OwnerEmail t)) m;
  to_emails : distinct_on email_column m;
  to_github : distinct_on t_GitHubID m;
  to_admins : distinct_on admin_column m
}.

(** Used and revoked exclude each other, and only a used invitation names a tenant. *)
Definition invitation_ok (i : Invitation) : Prop :=
  (is_Some (i_UsedAt i) → i_RevokedAt i = None) ∧ (is_Some (i_UsedByTenantID i) → is_Some (i_UsedAt i)).

Record invitations_ok (m : gmap string Invitation) : Prop := {
  io_keyed : keyed i_ID m;
  io_tokens : distinct_on token_column m;
  io_states : map_Forall (λ _ i, invitation_ok i) m
}.

Record keys_ok (m : gmap string APIKey) (aliases : gmap string APIKeyModelAlias) : Prop := {
  ko_keyed : keyed k_ID m;
  ko_hashes : distinct_on hash_column m;
  ko_aliases : distinct_on alias_column aliases;
  ko_owned : map_Forall (λ _ a, is_Some (m !! ma_APIKeyID a)) aliases
}.

Definition accounts_ok (t : tables) : Prop :=
  tenants_ok (tb_tenants t) ∧ invitations_ok (tb_invitations t) ∧
  keys_ok (tb_api_keys t) (tb_key_aliases t).

(** ** Steps *)

(** What a row may become: who administers does not change, no money moves, and versions of the
    password only grow. *)
Definition tenant_evolves (a b : Tenant) : Prop :=
  t_ID b = t_ID a ∧ t_IsAdmin b = t_IsAdmin a ∧ t_BalanceNanoUSD b = t_BalanceNanoUSD a ∧
  t_PasswordVersion a ≤ t_PasswordVersion b.

(** A row that was not there: only the first account of all is the administrator. *)
Definition tenant_appears (m : gmap string Tenant) (b : Tenant) : Prop :=
  t_BalanceNanoUSD b = 0 ∧ t_PasswordVersion b = 0 ∧ t_GitHubID b = None ∧
  (t_IsAdmin b = true → m = ∅).

Definition tenants_step (m m' : gmap string Tenant) : Prop :=
  ∀ id b, m' !! id = Some b →
    (∃ a, m !! id = Some a ∧ tenant_evolves a b) ∨ (m !! id = None ∧ tenant_appears m b).

(** A spent or revoked invitation stays so; what it says never changes. *)
Definition invitation_evolves (a b : Invitation) : Prop :=
  i_ID b = i_ID a ∧ i_TokenHash b = i_TokenHash a ∧ i_Email b = i_Email a ∧
  i_ExpiresAt b = i_ExpiresAt a ∧ (is_Some (i_UsedAt a) → i_UsedAt b = i_UsedAt a) ∧
  (is_Some (i_RevokedAt a) → i_RevokedAt b = i_RevokedAt a).

Definition invitations_step (m m' : gmap string Invitation) : Prop :=
  ∀ id a, m !! id = Some a → ∃ b, m' !! id = Some b ∧ invitation_evolves a b.

Lemma tenant_evolves_refl a : tenant_evolves a a.
Proof. by repeat split. Qed.

Lemma invitation_evolves_refl a : invitation_evolves a a.
Proof. by repeat split. Qed.

Lemma tenants_step_refl m : tenants_step m m.
Proof. intros id b Hb. left. exists b. split; [done|apply tenant_evolves_refl]. Qed.

Lemma invitations_step_refl m : invitations_step m m.
Proof. intros id a Ha. exists a. split; [done|apply invitation_evolves_refl]. Qed.

Lemma invitations_step_trans m1 m2 m3 :
  invitations_step m1 m2 → invitations_step m2 m3 → invitations_step m1 m3.
Proof.
  intros H12 H23 id a Ha. destruct (H12 id a Ha) as (b & Hb & Hab).
  destruct (H23 id b Hb) as (c & Hc & Hbc). exists c. split; [done|].
  destruct Hab as (? & ? & ? & ? & Hu & Hr), Hbc as (? & ? & ? & ? & Hu' & Hr').
  repeat split; try congruence.
  - intros Ha'. rewrite Hu'; [auto|]. by rewrite Hu.
  - intros Ha'. rewrite Hr'; [auto|]. by rewrite Hr.
Qed.

(** ** Rows of tenants *)

Lemma tenants_insert m id a :
  tenants_ok m → m !! id = None → t_ID a = id → canonical (t_OwnerEmail a) →
  map_Forall (λ _ b, same_email a b = false) m → tenant_appears m a →
  tenants_ok (<[id := a]> m) ∧ tenants_step m (<[id := a]> m).
Proof.
  intros [Hk Hc He Hg Had] Hnone Hid Hcan Hemail (Hbal & Hver & Hgit & Hadm). split; [split|].
  - by apply keyed_insert.
  - by apply map_Forall_insert_2.
  - apply distinct_insert; [done|]. intros j b Hb _ _ [= Heq].
    specialize (Hemail j b Hb). apply bool_decide_eq_false in Hemail. by apply Hemail.
  - apply distinct_insert; [done|]. intros j b _ _ Hsome. rewrite Hgit in Hsome. by destruct Hsome.
  - apply distinct_insert; [done|]. unfold admin_column. intros j b Hb _ Hsome.
    destruct (t_IsAdmin a); [|by destruct Hsome]. rewrite Hadm in Hb by done. by rewrite lookup_empty in Hb.
  - intros j b. rewrite lookup_insert_Some. intros [[<- <-]|[_ Hb]]; [by right|].
    left. exists b. split; [done|apply tenant_evolves_refl].
Qed.

(** A row rewritten in place, with a unique address and a unique linked account. *)
Lemma tenants_rewrite m id a b :
  tenants_ok m → m !! id = Some a → tenant_evolves a b → canonical (t_OwnerEmail b) →
  (∀ j c, m !! j = Some c → j ≠ id → t_OwnerEmail c ≠ t_OwnerEmail b) →
  (∀ j c, m !! j = Some c → j ≠ id → is_Some (t_GitHubID b) → t_GitHubID c ≠ t_GitHubID b) →
  tenants_ok (<[id := b]> m) ∧ tenants_step m (<[id := b]> m).
Proof.
  intros [Hk Hc He Hg Had] Ha Hev Hcan Hemail Hgit.
  destruct Hev as (Hid & Hadm & Hbal & Hver). split; [split|].
  - apply keyed_insert; [done|]. rewrite Hid. exact (Hk _ _ Ha).
  - by apply map_Forall_insert_2.
  - apply distinct_insert; [done|]. intros j c Hj Hne _ [= Heq]. by eapply Hemail.
  - apply distinct_insert; [done|]. intros j c Hj Hne Hsome. by eapply Hgit.
  - apply distinct_insert; [done|]. unfold admin_column. rewrite Hadm. intros j c Hj Hne Hsome Heq.
    apply Hne. destruct Hsome as [w Hw]. by apply (Had j id c a w); [done..|rewrite <- Hw|].
  - intros j c. rewrite lookup_insert_Some. intros [[<- <-]|[_ Hb]]; left.
    + exists a. by repeat split.
    + exists c. split; [done|apply tenant_evolves_refl].
Qed.

(** A rewrite that keeps the address and the linked account. *)
Lemma tenants_touch m id a b :
  tenants_ok m → m !! id = Some a → tenant_evolves a b → t_OwnerEmail b = t_OwnerEmail a →
  (t_GitHubID b = t_GitHubID a ∨ t_GitHubID b = None) →
  tenants_ok (<[id := b]> m) ∧ tenants_step m (<[id := b]> m).
Proof.
  intros Hok Ha Hev He Hg. pose proof Hok as [_ Hcan Hem Hgi _].
  apply (tenants_rewrite m id a); [done..| | |].
  - rewrite He. exact (Hcan _ _ Ha).
  - rewrite He. intros j c Hj Hne Heq. apply Hne. eapply (Hem j id c a); [done..| |done].
    unfold email_column. by rewrite Heq.
  - intros j c Hj Hne [g Hgb] Heq. apply Hne. destruct Hg as [Hg|Hg]; [|congruence].
    eapply (Hgi j id c a g); congruence.
Qed.

Lemma tenants_subset m m' : m' ⊆ m → tenants_ok m → tenants_ok m' ∧ tenants_step m m'.
Proof.
  intros Hs [Hk Hc He Hg Had]. split; [split|].
  - intros i a Ha. eapply (Hk i a), lookup_weaken; [exact Ha|exact Hs].
  - intros i a Ha. eapply (Hc i a), lookup_weaken; [exact Ha|exact Hs].
  - by eapply distinct_subset.
  - by eapply distinct_subset.
  - by eapply distinct_subset.
  - intros i a Ha. left. exists a. split; [by eapply lookup_weaken|apply tenant_evolves_refl].
Qed.

(** ** Rows of invitations *)

Lemma invitations_insert m id a :
  invitations_ok m → m !! id = None → i_ID a = id → invitation_ok a →
  map_Forall (λ _ b, bool_decide (i_TokenHash b = i_TokenHash a) = false) m →
  invitations_ok (<[id := a]> m) ∧ invitations_step m (<[id := a]> m).
Proof.
  intros [Hk Ht Hs] Hnone Hid Ha Hclash. split; [split|].
  - by apply keyed_insert.
  - apply distinct_insert; [done|]. intros j b Hb _ _ [= Heq]. specialize (Hclash j b Hb).
    by apply bool_decide_eq_false in Hclash.
  - by apply map_Forall_insert_2.
  - intros j b Hb. exists b. split; [|apply invitation_evolves_refl].
    rewrite lookup_insert_ne; congruence.
Qed.

Lemma invitations_rewrite m id a b :
  invitations_ok m → m !! id = Some a → invitation_evolves a b → invitation_ok b →
  invitations_ok (<[id := b]> m) ∧ invitations_step m (<[id := b]> m).
Proof.
  intros [Hk Ht Hs] Ha Hev Hb. split; [split|].
  - apply keyed_insert; [done|]. rewrite (proj1 Hev). exact (Hk _ _ Ha).
  - apply distinct_insert; [done|]. intros j c Hj Hne _ [= Heq]. apply Hne.
    eapply (Ht j id c a); [done..|]. unfold token_column. rewrite Heq.
    by destruct Hev as (_ & -> & _).
  - by apply map_Forall_insert_2.
  - intros j c Hj. destruct (decide (j = id)) as [->|Hne].
    + exists b. rewrite lookup_insert_eq. split; [done|]. by replace c with a by congruence.
    + exists c. rewrite lookup_insert_ne by done. split; [done|apply invitation_evolves_refl].
Qed.

(** A deleted tenant is forgotten by the invitation it used. *)
Lemma invitations_forget m (cond : Invitation → bool) :
  let forget i := if cond i then i <| i_UsedByTenantID := (None : option string) |> else i in
  invitations_ok m → invitations_ok (forget <$> m) ∧ invitations_step m (forget <$> m).
Proof.
  intros forget [Hk Ht Hs].
  assert (Hf : ∀ i, i_ID (forget i) = i_ID i ∧ i_TokenHash (forget i) = i_TokenHash i)
    by (intros i; unfold forget; by destruct (cond i)).
  split; [split|].
  - intros id a. rewrite lookup_fmap_Some. intros (b & <- & Hb). rewrite (proj1 (Hf b)). exact (Hk _ _ Hb).
  - apply distinct_fmap; [|done]. intros i. unfold token_column. by rewrite (proj2 (Hf i)).
  - intros id a. rewrite lookup_fmap_Some. intros (b & <- & Hb). specialize (Hs _ _ Hb).
    unfold forget. destruct (cond b); [|done]. destruct Hs as [Hs1 Hs2]. split; [done|].
    cbn. by intros [].
  - intros id a Ha. exists (forget a). rewrite lookup_fmap, Ha. split; [done|].
    unfold forget. destruct (cond a); by repeat split.
Qed.

(** ** Rows of keys and aliases *)

Lemma keys_insert m aliases id k :
  keys_ok m aliases → m !! id = None → k_ID k = id →
  map_Forall (λ _ j, bool_decide (k_KeyHash j = k_KeyHash k) = false) m →
  keys_ok (<[id := k]> m) aliases.
Proof.
  intros [Hk Hh Ha Ho] Hnone Hid Hclash. split; [by apply keyed_insert| |done|].
  - apply distinct_insert; [done|]. intros j b Hb _ _ [= Heq]. specialize (Hclash j b Hb).
    by apply bool_decide_eq_false in Hclash.
  - intros i a Hi. destruct (Ho i a Hi) as [k' Hk']. rewrite lookup_insert_is_Some'. right. by eexists.
Qed.

Lemma keys_rewrite m aliases id a b :
  keys_ok m aliases → m !! id = Some a → k_ID b = k_ID a → k_KeyHash b = k_KeyHash a →
  keys_ok (<[id := b]> m) aliases.
Proof.
  intros [Hk Hh Ha Ho] Hid Hbid Hbh. split; [|..|done|].
  - apply keyed_insert; [done|]. rewrite Hbid. exact (Hk _ _ Hid).
  - apply distinct_insert; [done|]. intros j c Hj Hne _ [= Heq]. apply Hne.
    eapply (Hh j id c a); [done..| |done]. unfold hash_column. congruence.
  - intros i c Hi. destruct (Ho i c Hi) as [k' Hk']. rewrite lookup_insert_is_Some'. right. by eexists.
Qed.

(** Keys go, and with them at least their aliases. *)
Lemma keys_remove m aliases (P : string * APIKey → Prop) (Q : string * APIKeyModelAlias → Prop)
    `{∀ x, Decision (P x)} `{∀ x, Decision (Q x)} :
  keys_ok m aliases →
  (∀ i a k, aliases !! i = Some a → Q (i, a) → m !! ma_APIKeyID a = Some k → P (ma_APIKeyID a, k)) →
  keys_ok (filter P m) (filter Q aliases).
Proof.
  intros [Hk Hh Ha Ho] HPQ. split; [by apply keyed_filter|auto|auto|].
  intros i a [Hi HQ]%map_lookup_filter_Some. destruct (Ho i a Hi) as [k Hmk]. exists k.
  apply map_lookup_filter_Some. split; [done|]. by eapply HPQ.
Qed.

Lemma aliases_remove m aliases (Q : string * APIKeyModelAlias → Prop) `{∀ x, Decision (Q x)} :
  keys_ok m aliases → keys_ok m (filter Q aliases).
Proof.
  intros [Hk Hh Ha Ho]. split; [done|done|auto|]. intros i a [Hi _]%map_lookup_filter_Some.
  exact (Ho i a Hi).
Qed.

Lemma aliases_insert m aliases i a :
  keys_ok m aliases → is_Some (m !! ma_APIKeyID a) →
  map_Forall (λ _ b, same_alias a b = false) aliases →
  keys_ok m (<[i := a]> aliases).
Proof.
  intros [Hk Hh Ha Ho] Hsome Hclash. split; [done|done| |by apply map_Forall_insert_2].
  apply distinct_insert; [done|]. intros j b Hb _ _ [= Heq1 Heq2]. specialize (Hclash j b Hb).
  unfold same_alias in Hclash. by rewrite Heq1, Heq2, !bool_decide_eq_true_2 in Hclash.
Qed.

(** ** Steps of the store *)

Definition accounts_step (t t' : tables) : Prop :=
  accounts_ok t' ∧ tenants_step (tb_tenants t) (tb_tenants t') ∧
  invitations_step (tb_invitations t) (tb_invitations t').

Lemma accounts_step_refl t : accounts_ok t → accounts_step t t.
Proof. intros Ht. split; [done|]. split; [apply tenants_step_refl|apply invitations_step_refl]. Qed.

Lemma step_tenants t m :
  accounts_ok t → tenants_ok m ∧ tenants_step (tb_tenants t) m →
  accounts_step t (t <| tb_tenants := m |>).
Proof. intros (_ & Hi & Hk) [Hm Hs]. split; [done|]. split; [done|apply invitations_step_refl]. Qed.

Lemma step_invitations t m :
  accounts_ok t → invitations_ok m ∧ invitations_step (tb_invitations t) m →
  accounts_step t (t <| tb_invitations := m |>).
Proof. intros (Ht & _ & Hk) [Hm Hs]. split; [done|]. split; [apply tenants_step_refl|done]. Qed.

(** Only keys and aliases have changed. *)
Definition same_people (t t' : tables) : Prop :=
  tb_tenants t' = tb_tenants t ∧ tb_invitations t' = tb_invitations t.

Lemma step_keys t t' :
  accounts_ok t → same_people t t' → keys_ok (tb_api_keys t') (tb_key_aliases t') → accounts_step t t'.
Proof.
  intros (Ht & Hi & _) [Heq1 Heq2] Hk. unfold accounts_step, accounts_ok. rewrite Heq1, Heq2.
  split; [done|]. split; [apply tenants_step_refl|apply invitations_step_refl].
Qed.

(** Nothing that the rules speak about has changed. *)
Definition same_accounts (t t' : tables) : Prop :=
  same_people t t' ∧ tb_api_keys t' = tb_api_keys t ∧ tb_key_aliases t' = tb_key_aliases t.

Lemma step_elsewhere t t' : accounts_ok t → same_accounts t t' → accounts_step t t'.
Proof.
  intros Ht (Hp & Hk & Ha). apply step_keys; [done|done|]. rewrite Hk, Ha. apply Ht.
Qed.

#[export] Instance same_accounts_agent_setups t : Ignores agent_setups (same_accounts t).
Proof. by intros ?. Qed.

Lemma canonical_email email : canonical (to_lower (trim_space email)).
Proof.
  split; [apply to_lower_idemp|apply trim_lower_trim].
Qed.
