(* ===== verification/TenantRemoval.v ===== *)
(** * What remains of a deleted tenant

    Deleting a tenant removes its rows from every table but one and touches
    nobody else's; the sessions of its devices stay, and stand for nothing. *)

From Stdlib Require Import SpecFloat.
From S2P Require Import Prelude.
From S2P Require Import Float64.
From S2P Require Import Cost.
From S2P Require Import Database.
From S2P Require Import Schema.
From S2P Require Import ModelAccess.
From S2P Require Import RequestLogs.
From S2P Require Import Encoding.
From S2P Require Import Passwords.
From S2P Require Import DeviceGrants.
From S2P Require Import Accounts.
From S2P Require Import AccountRules.

(** The rows of [m'] are those of [m] for which [P] does not hold. *)
Definition only_lost {K V : Type} `{Countable K} (P : K → V → Prop) (m m' : gmap K V) : Prop :=
  ∀ k v, m' !! k = Some v ↔ m !! k = Some v ∧ ¬ P k v.

Lemma only_lost_filter {K V : Type} `{Countable K} (P : K → V → Prop) (m : gmap K V) (Q : K * V → Prop)
    `{∀ kv, Decision (Q kv)} :
  (∀ k v, m !! k = Some v → Q (k, v) ↔ ¬ P k v) → only_lost P m (filter Q m).
Proof. intros HQ k v. rewrite map_lookup_filter_Some. naive_solver. Qed.

(** Whose rows they are, where the row itself does not say. *)
Definition log_of (t : tables) (id logID : string) : Prop :=
  ∃ l, tb_request_logs t !! logID = Some l ∧ rl_TenantID l = id.
Definition child_of (t : tables) (id childID : string) : Prop :=
  ∃ c, tb_children t !! childID = Some c ∧ c_TenantID c = id.
Definition request_of (t : tables) (id requestID : string) : Prop :=
  ∃ r, tb_reservations t !! requestID = Some r ∧ r_TenantID r = id.
Definition key_of (t : tables) (id keyID : string) : Prop :=
  ∃ k, tb_api_keys t !! keyID = Some k ∧ k_TenantID k = id.

(** The tenant is gone from the tables of [t']. *)
Record removed (id : string) (t t' : tables) : Prop := {
  rm_tenant : only_lost (λ k _, k = id) (tb_tenants t) (tb_tenants t');
  rm_keys : only_lost (λ _ k, k_TenantID k = id) (tb_api_keys t) (tb_api_keys t');
  rm_aliases : only_lost (λ _ a, key_of t id (ma_APIKeyID a)) (tb_key_aliases t) (tb_key_aliases t');
  rm_setups : only_lost (λ _ s, as_TenantID s = id) (tb_agent_setups t) (tb_agent_setups t');
  rm_grants : only_lost (λ _ a, a_TenantID a = Some id) (tb_authorizations t) (tb_authorizations t');
  rm_children : only_lost (λ _ c, c_TenantID c = id) (tb_children t) (tb_children t');
  rm_windows : only_lost (λ _ w, child_of t id (w_ChildSubscriptionID w))
                 (tb_child_windows t) (tb_child_windows t');
  rm_reservations : only_lost (λ _ r, r_TenantID r = id) (tb_reservations t) (tb_reservations t');
  rm_turns : only_lost (λ _ w, request_of t id (wt_RequestID w)) (tb_turns t) (tb_turns t');
  rm_logs : only_lost (λ _ l, rl_TenantID l = id) (tb_request_logs t) (tb_request_logs t');
  rm_details : only_lost (λ logID _, log_of t id logID) (tb_log_details t) (tb_log_details t');
  rm_ledger : tb_ledger t' = filter (λ e, l_TenantID e ≠ id) (tb_ledger t);
  rm_invitations : tb_invitations t' =
    (λ i, if bool_decide (i_UsedByTenantID i = Some id)
          then i <| i_UsedByTenantID := (None : option string) |> else i) <$> tb_invitations t;
  rm_parents : tb_parents t' = tb_parents t ∧ tb_parent_windows t' = tb_parent_windows t ∧
    tb_observations t' = tb_observations t ∧ tb_resets t' = tb_resets t;
  rm_sessions : tb_sessions t' = tb_sessions t
}.

Section removal.
Context (E : env) `{Digest} `{PasswordHashing}.

Lemma lookup_owned {V : Type} (owner : V → string) (id : string) (m : gmap string V) k :
  is_Some (filter (λ kv : string * V, owner kv.2 = id) m !! k) ↔
  ∃ v, m !! k = Some v ∧ owner v = id.
Proof.
  split.
  - intros [v [Hv Ho]%map_lookup_filter_Some]. by exists v.
  - intros (v & Hv & Ho). exists v. by apply map_lookup_filter_Some.
Qed.

Lemma not_decided (P : Prop) `{Decision P} : bool_decide P = false ↔ ¬ P.
Proof. apply bool_decide_eq_false. Qed.

Ltac lost := apply only_lost_filter; intros ? ? ?; cbn [fst snd];
  rewrite not_decided, ?lookup_owned; reflexivity.

Lemma success_delete_owned id t (P : unit → tables → Prop) :
  keyed t_ID (tb_tenants t) →
  (∀ t' : tables, removed id t (t' <| tb_tenants := filter (λ kt : string * Tenant,
            bool_decide (t_ID kt.2 = id) = false) (tb_tenants t);
          tb_invitations := (λ i, if bool_decide (i_UsedByTenantID i = Some id)
            then i <| i_UsedByTenantID := (None : option string) |> else i) <$> tb_invitations t |>) →
     tb_tenants t' = tb_tenants t → tb_invitations t' = tb_invitations t → P () t') →
  success E (delete_owned id) t P.
Proof.
  destruct t as [al se te ke le pa pw ob re ch cw rs tu lo de iv au ss]. intros Hk HP.
  unfold delete_owned. do 8 step_success. cbn in *.
  apply success_bind, success_delete_rows. cbn. apply success_bind, success_delete_where. intros _. cbn.
  apply success_bind, success_cascade. cbn.
  do 2 (apply success_bind, success_delete_where; intros _; cbn).
  apply success_bind, wp_statement; [|done]. apply success_bind, success_modify. cbn.
  do 5 (apply success_bind, success_delete_where; intros _; cbn).
  apply success_ret, HP; [|done|done]. cbn. split; cbn; [|lost..|done|done|done|done].
  apply only_lost_filter. intros k a Ha. cbn. rewrite not_decided. by rewrite (Hk _ _ Ha).
Qed.

(** C28: Deleting a tenant is all or nothing.  When it succeeds, the tenant's row, keys, aliases,
  agent setups, device grants, subscriptions with their windows, reservations with their turns,
  ledger entries and request logs with their details are gone, every row of anybody else is
  still there as it was, and the invitation that the tenant used no longer names it but stays
  used.  The rows of its device sessions are not deleted, but no session of that tenant is valid
  any more, whatever the clock says. *)
Theorem deleted_tenants_leave_nothing id t :
keyed t_ID (tb_tenants t) →
wp Direct E (DeleteTenant id) t (λ r t', match r with
  | Ok _ => is_Some (tb_tenants t !! id) ∧ removed id t t' ∧
            ∀ s now now', os_TenantID s = id → session_valid t' s now now' = false
  | Err _ => t' = t
  end).
Proof.
  intros Hk. apply success_transaction. apply success_bind, success_map_error, success_first. cbn.
  intros tenant Htenant. apply success_bind, success_delete_owned; [done|]. intros t' Hrm Ht Hi.
  apply success_bind, success_update_all. cbn. intros _ n. apply success_bind, success_delete_where.
  intros _. cbn. rewrite Ht, Hi. apply success_ret. split; [by eexists|]. split; [exact Hrm|].
  intros s now now' <-. unfold session_valid. cbn.
  destruct (filter _ (tb_tenants t) !! os_TenantID s) as [a|] eqn:Ha; [|by rewrite andb_false_r].
  apply (rm_tenant _ _ _ Hrm) in Ha as [_ Hne]. by destruct Hne.
Qed.

Lemma only_lost_subset {K V : Type} `{Countable K} (P : K → V → Prop) (m m' : gmap K V) :
  only_lost P m m' → m' ⊆ m.
Proof. intros Hl. apply map_subseteq_spec. intros k v Hv. by apply Hl in Hv as [? _]. Qed.

(** A removal keeps the rules. *)
Lemma removed_step id t t' : accounts_ok t → removed id t t' → accounts_step t t'.
Proof.
  intros (Ht & Hi & Hk) Hrm.
  destruct (tenants_subset _ _ (only_lost_subset _ _ _ (rm_tenant _ _ _ Hrm)) Ht) as [Ht' Hts].
  destruct (invitations_forget _ (λ i, bool_decide (i_UsedByTenantID i = Some id)) Hi) as [Hi' His].
  cbv zeta in Hi', His. rewrite <- (rm_invitations _ _ _ Hrm) in Hi', His.
  split; [|done]. split; [done|]. split; [done|].
  pose proof (rm_keys _ _ _ Hrm) as Hrk. pose proof (rm_aliases _ _ _ Hrm) as Hra.
  destruct Hk as [Hkk Hkh Hka Hko]. split.
  - intros i k Hik. apply Hrk in Hik as [Hik _]. exact (Hkk _ _ Hik).
  - by eapply distinct_subset, Hkh; eapply only_lost_subset.
  - by eapply distinct_subset, Hka; eapply only_lost_subset.
  - intros i a Hia. apply Hra in Hia as [Hia Hno]. destruct (Hko _ _ Hia) as [k Hak]. exists k.
    apply Hrk. split; [done|]. intros Hkt. apply Hno. by exists k.
Qed.
End removal.
