(* ===== verification/AccountGuarantees.v ===== *)
(** * What the accounts guarantee

    Every operation on accounts keeps the rules, invitations admit one account
    each, a password opens its own account, keys answer to their owner, and a
    deleted tenant leaves nothing but its sessions behind. *)

From Stdlib Require Import SpecFloat.
From S2P Require Import Prelude.
From S2P Require Import Float64.
From S2P Require Import Database.
From S2P Require Import Schema.
From S2P Require Import ModelAccess.
From S2P Require Import RequestLogs.
From S2P Require Import Encoding.
From S2P Require Import Passwords.
From S2P Require Import DeviceGrants.
From S2P Require Import GrantGuarantees.
From S2P Require Import AccessTokens.
From S2P Require Import Accounts.
From S2P Require Import AccountRules.
From S2P Require Import TenantRemoval.
From S2P Require Import Sample.
From S2P Require Import GrantSample.

Inductive account_operation :=
  | CreateAccount (name email password : string) (rate tokens : option Z) (models : list string)
  | UpdateAccount (id name email : string) (enabled : bool) (rate tokens : option Z) (models : list string)
  | DeleteAccount (id : string)
  | ResetAccount (id password : string)
  | ChangeAccount (id password : string)
  | SignIn (email password : string)
  | Invite (email : string) (expiresAt : Z)
  | RevokeInvite (id : string)
  | SignUp (token name email password : string)
  | LinkGitHub (id : string) (version githubID : Z) (login : string)
  | UnlinkGitHub (id : string) (version : Z)
  | NewKey (tenantID name : string) (rate tokens : option Z) (models : list string)
      (aliases : list (string * string))
  | EditKey (tenantID id name : string) (enabled : bool) (rate tokens : option Z)
      (models : list string) (aliases : list (string * string))
  | DropKey (tenantID id : string)
  | NewSetup (tenantID payload : string) (expiresAt : Z)
  | PurgeSetups (now : Z).

Section operations.
Context `{TimeZone} `{FloatToInt} `{Digest} `{AEAD plaintext} `{AEAD string} `{PasswordHashing}.

Definition run_account (op : account_operation) : DB unit :=
match op with
| CreateAccount name email password rate tokens models =>
    CreateTenant name email password rate tokens models;; mret ()
| UpdateAccount id name email enabled rate tokens models =>
    UpdateTenant id name email enabled rate tokens models;; mret ()
| DeleteAccount id => DeleteTenant id
| ResetAccount id password => ResetPassword id password
| ChangeAccount id password => ChangePassword id password
| SignIn email password => Login email password;; mret ()
| Invite email expiresAt => CreateInvitation email expiresAt;; mret ()
| RevokeInvite id => RevokeInvitation id
| SignUp token name email password => Register token name email password;; mret ()
| LinkGitHub id version githubID login => BindGitHub id version githubID login
| UnlinkGitHub id version => UnbindGitHub id version
| NewKey tenantID name rate tokens models aliases =>
    CreateKey tenantID name rate tokens models aliases;; mret ()
| EditKey tenantID id name enabled rate tokens models aliases =>
    UpdateKey tenantID id name enabled rate tokens models aliases;; mret ()
| DropKey tenantID id => DeleteKey tenantID id
| NewSetup tenantID payload expiresAt => CreateAgentSetup tenantID payload expiresAt;; mret ()
| PurgeSetups now => DeleteExpiredAgentSetups now;; mret ()
end.
End operations.

Section steps.
Context (E : env).
Context `{TimeZone} `{FloatToInt} `{Digest} `{AEAD plaintext} `{AEAD string} `{PasswordHashing}.
Notation steps t := (λ _ t', accounts_step t t').

(** The stored text of a password. *)
Definition hash_of (password h : string) : Prop :=
∃ salt, h = argon2id_text salt (argon2_IDKey password salt argonTime argonMemory argonThreads argonKeyLen).

Lemma wp_hashPassword x password t (Q : result string → tables → Prop) :
  (∀ h, hash_of password h → Q (Ok h) t) → wp x E (hashPassword password) t Q.
Proof. intros HQ. apply wp_bind, wp_random_bytes. intros salt _. apply wp_ret, HQ. by eexists. Qed.

(** ** Tenants *)

Lemma fresh_tenant_step t id name email hash admin rate tokens models :
  accounts_ok t → tb_tenants t !! id = None → (admin = true → tb_tenants t = ∅) →
  let a := fresh_tenant id (trim_space name) (to_lower (trim_space email)) hash admin rate tokens models in
  map_Forall (λ _ b, same_email a b = false) (tb_tenants t) →
  accounts_step t (t <| tb_tenants := <[id := a]> (tb_tenants t) |>).
Proof.
  intros Hok Hnone Hadm a Hemail. apply step_tenants; [done|].
  apply tenants_insert; [apply Hok|done|done|apply canonical_email|done|done].
Qed.

Lemma step_CreateTenant name email password rate tokens models t :
  accounts_ok t → wp Direct E (CreateTenant name email password rate tokens models) t (steps t).
Proof.
  intros Hok. pose proof (accounts_step_refl t Hok). apply wp_bind, wp_hashPassword. intros h _.
  apply wp_bind, wp_new_id. intros id. cbv zeta. apply wp_bind, wp_create_unique; [|done..].
  intros Hnone _ Hemail. apply wp_ret. by apply fresh_tenant_step.
Qed.

Lemma wp_GetTenant x id t (Q : result Tenant → tables → Prop) :
  (∀ a, tb_tenants t !! id = Some a → Q (Ok a) t) →
  (tb_tenants t !! id = None → Q (Err ErrNotFound) t) →
  (x = Direct → ¬ quiet E → ∀ d, Q (Err (ErrConnection d)) t) →
  wp x E (GetTenant id) t Q.
Proof. intros Q1 Q2 Q3. apply wp_map_error. by apply wp_first. Qed.

Lemma step_UpdateTenant id name email enabled rate tokens models t :
  accounts_ok t → wp Direct E (UpdateTenant id name email enabled rate tokens models) t (steps t).
Proof.
  intros Hok. pose proof (accounts_step_refl t Hok). pose proof Hok as [[_ _ _ Hg _] _].
  apply wp_bind, wp_update_unique; [|intros _|done..].
  - cbn. intros a Ha _ _ Hclash. set (b := rewrite_tenant name email enabled rate tokens models a) in *.
    assert (accounts_step t (t <| tb_tenants := <[id := b]> (tb_tenants t) |>)) as Hstep.
    { apply step_tenants; [done|]. apply (tenants_rewrite _ _ a); [apply Hok|done| |apply canonical_email|..].
      - by repeat split.
      - intros j c Hc Hne Heq. specialize (Hclash j c Hc Hne). apply bool_decide_eq_false in Hclash.
        by apply Hclash.
      - intros j c Hc Hne [g Hgb] Heq. apply Hne. by eapply (Hg j id c a g); [..|rewrite Heq|]. }
    apply wp_bind, wp_ret. apply wp_GetTenant; intros; exact Hstep.
  - apply wp_bind, wp_guard; done.
Qed.

(** A row rewritten where it stands. *)
Lemma touch_step t id a b :
  accounts_ok t → tb_tenants t !! id = Some a → tenant_evolves a b → t_OwnerEmail b = t_OwnerEmail a →
  (t_GitHubID b = t_GitHubID a ∨ t_GitHubID b = None) →
  accounts_step t (t <| tb_tenants := <[id := b]> (tb_tenants t) |>).
Proof. intros Hok **. apply step_tenants; [done|]. eapply tenants_touch; [apply Hok|done..]. Qed.

Lemma step_ResetPassword id password t :
  accounts_ok t → wp Direct E (ResetPassword id password) t (steps t).
Proof.
  intros Hok. pose proof (accounts_step_refl t Hok). apply wp_bind, wp_hashPassword. intros h _.
  apply wp_bind, wp_gets. apply wp_bind, wp_guard; [intros _|done].
  apply wp_bind, wp_update; [|intros _; by apply wp_guard|done..].
  cbn. intros a Ha _. apply wp_ret. apply (touch_step _ _ a); [done|done| |done|by left].
  split; [done|]. split; [done|]. split; [done|]. cbn. lia.
Qed.

Lemma step_ChangePassword id password t :
  accounts_ok t → wp Direct E (ChangePassword id password) t (steps t).
Proof.
  intros Hok. pose proof (accounts_step_refl t Hok). apply wp_bind, wp_hashPassword. intros h _.
  apply wp_bind, wp_update; [|intros _; by apply wp_guard|done..].
  cbn. intros a Ha _. apply wp_ret. by apply (touch_step _ _ a); [..|left].
Qed.

Lemma step_Login email password t :
  accounts_ok t → wp Direct E (Login email password) t (steps t).
Proof.
  intros Hok. pose proof (accounts_step_refl t Hok). apply wp_bind, wp_now. intros now.
  apply wp_bind, wp_map_error, wp_bind, wp_find_ordered; [|done]. intros rows _.
  destruct (merge_sort by_id rows) as [|a rest]; [by apply wp_fail|]. apply wp_ret.
  destruct (verifyPassword _ _) as [valid rehash]. apply wp_bind, wp_guard; [intros _|done].
  destruct rehash; [|by apply wp_ret]. apply wp_bind, wp_hashPassword. intros h _.
  apply wp_bind, wp_attempt, wp_update; [|intros _; by apply wp_ret|done|intros; by apply wp_ret].
  cbn. intros b Hb _. apply wp_ret. by apply (touch_step _ _ b); [..|left].
Qed.

Lemma step_BindGitHub id version githubID login t :
  accounts_ok t → wp Direct E (BindGitHub id version githubID login) t (steps t).
Proof.
  intros Hok. pose proof (accounts_step_refl t Hok). pose proof Hok as [[_ Hcan Hem _ _] _].
  apply wp_bind, wp_guard; [intros _|done]. apply wp_bind, wp_now. intros now.
  apply wp_bind, wp_update_unique; [|intros _; by apply wp_guard|done..].
  cbn. intros a Ha _ _ Hclash. apply wp_ret. apply step_tenants; [done|].
  apply (tenants_rewrite _ _ a); [apply Hok|done|by repeat split|exact (Hcan _ _ Ha)|..].
  - intros j c Hc Hne Heq. apply Hne. eapply (Hem j id c a); [done..| |done].
    unfold email_column. by rewrite Heq.
  - intros j c Hc Hne _ Heq. specialize (Hclash j c Hc Hne). unfold same_github in Hclash. cbn in Hclash.
    cbn in Heq. rewrite Heq, !bool_decide_eq_true_2 in Hclash by eauto. done.
Qed.

Lemma step_UnbindGitHub id version t :
  accounts_ok t → wp Direct E (UnbindGitHub id version) t (steps t).
Proof.
  intros Hok. pose proof (accounts_step_refl t Hok). apply wp_bind, wp_gets.
  apply wp_bind, wp_guard; [intros _|done].
  apply wp_bind, wp_update_where; [|intros _; by apply wp_guard|done..].
  cbn. intros a Ha _ _. apply wp_ret.
  apply (touch_step _ _ a); [done|done| |done|by right].
  split; [done|]. split; [done|]. split; [done|]. cbn. lia.
Qed.

(** ** Invitations *)

Lemma step_CreateInvitation email expiresAt t :
  accounts_ok t → wp Direct E (CreateInvitation email expiresAt) t (steps t).
Proof.
  intros Hok. pose proof (accounts_step_refl t Hok).
  apply wp_bind, wp_bind, wp_random_bytes. intros value _. apply wp_ret.
  apply wp_bind, wp_new_id. intros id. apply wp_bind, wp_now. intros now. cbv zeta.
  apply wp_bind, wp_create_unique; [|done..]. cbn. intros Hnone _ Hclash. apply wp_ret.
  apply step_invitations; [done|]. apply invitations_insert; [apply Hok|done|done| |done].
  split; [done|]. cbn. by intros [].
Qed.

Lemma step_RevokeInvitation id t :
  accounts_ok t → wp Direct E (RevokeInvitation id) t (steps t).
Proof.
  intros Hok. pose proof (accounts_step_refl t Hok). apply wp_bind, wp_now. intros now.
  apply wp_bind, wp_update_where; [|intros _; by apply wp_guard|done..].
  cbn. intros a Ha Hopen _. apply wp_ret. apply step_invitations; [done|].
  unfold invitation_open in Hopen. reflect_bools. pose proof Hok as (_ & [_ _ Hst] & _).
  apply (invitations_rewrite _ _ a); [apply Hok|done| |].
  - repeat split. intros [? Hr]. congruence.
  - specialize (Hst _ _ Ha). split; cbn; [intros [? ?]; congruence|apply Hst].
Qed.

(** A transaction that makes a step. *)
Lemma step_transaction' {A} x (body : DB A) t :
  accounts_ok t → success E body t (steps t) → wp x E (transaction body) t (steps t).
Proof.
  intros Hok Hs. eapply wp_mono; [by apply success_transaction|]. intros [a|e] t' Ha; [done|].
  rewrite Ha. by apply accounts_step_refl.
Qed.

(** What opens an invitation; by the clock of the world [E] it has not expired. *)
Definition opens (E : env) (t : tables) (token email : string) (i : Invitation) : Prop :=
∃ id, tb_invitations t !! id = Some i ∧ i_TokenHash i = HashKey token ∧ i_UsedAt i = None ∧
      i_RevokedAt i = None ∧ (i_Email i = "" ∨ to_lower (i_Email i) = to_lower email) ∧ token ≠ "" ∧
      ∃ k, env_now E k < i_ExpiresAt i.

Lemma success_now_at t (P : Z → tables → Prop) : (∀ k, P (env_now E k) t) → success E time_now t P.
Proof. intros HP n. right. apply HP. Qed.

Lemma success_claim token email t (P : Invitation → tables → Prop) :
  (∀ i, opens E t token email i → P i t) → success E (claim_invitation token email) t P.
Proof.
  intros HP. unfold claim_invitation. do 2 step_success. apply success_bind, success_now_at. intros k.
  apply success_bind, success_map_error, success_first_matching.
  cbn. intros id i Hi Hc. unfold invitation_open in Hc. do 3 step_success. apply HP. exists id.
  match goal with Hm : (_ || _) = true |- _ => apply orb_true_iff in Hm; unfold equal_fold in Hm;
    rewrite !bool_decide_eq_true in Hm end. reflect_bools. split_and!; [done..|]. exists k. lia.
Qed.

Lemma success_setup_required t (P : bool → tables → Prop) :
  (tb_tenants t = ∅ → P true t) → (tb_tenants t ≠ ∅ → P false t) → success E SetupRequired t P.
Proof.
  intros P1 P2. apply success_bind, wp_statement; [|done]. apply success_bind, success_gets.
  apply success_ret. case_bool_decide as Hs.
  - apply P1. by apply map_size_empty_inv.
  - apply P2. intros He. apply Hs. by rewrite He, map_size_empty.
Qed.

(** The two ways to register. *)
Definition registered (E : env) (token name email password : string) (user : Tenant) (t t' : tables) : Prop :=
let mail := to_lower (trim_space email) in
tb_tenants t !! t_ID user = None ∧ hash_of password (t_PasswordHash user) ∧
user = fresh_tenant (t_ID user) (trim_space name) mail (t_PasswordHash user)
         (bool_decide (tb_tenants t = ∅)) None None [] ∧
map_Forall (λ _ b, same_email user b = false) (tb_tenants t) ∧
match decide (tb_tenants t = ∅) with
| left _ => t' = t <| tb_tenants := ({[t_ID user := user]} : gmap string Tenant) |>
| right _ => ∃ i b now, opens E t (trim_space token) mail i ∧ (∃ k, now = env_now E k) ∧
    b = i <| i_UsedAt := Some now; i_UsedByTenantID := Some (t_ID user) |> ∧
    t' = t <| tb_tenants := <[t_ID user := user]> (tb_tenants t);
              tb_invitations := <[i_ID i := b]> (tb_invitations t) |>
end.

Lemma wp_Register token name email password t :
  keyed i_ID (tb_invitations t) →
  wp Direct E (Register token name email password) t (λ r t', match r with
    | Ok user => registered E token name email password user t t'
    | Err _ => t' = t
    end).
Proof.
  intros Hk. apply wp_bind, wp_hashPassword. intros h Hh. apply success_transaction.
  apply success_bind, wp_statement; [|done]. apply success_bind, success_setup_required; intros Ht.
  - step_success. step_success. cbv zeta. step_success. apply success_create_unique. cbn.
    intros Hnone _ Hemail. step_success. unfold registered. rewrite (bool_decide_eq_true_2 _ Ht).
    split; [done|]. split; [done|]. split; [done|]. split; [done|].
    case_match; [|done]. by rewrite Ht, insert_empty.
  - step_success. apply success_claim. intros i Hi. step_success. step_success. cbv zeta.
    step_success. apply success_create_unique. cbn. intros Hnone _ Hemail. step_success.
    apply success_now_at. intros k. step_success.
    pose proof Hi as (iid & Hiid & _). pose proof (Hk _ _ Hiid) as Hid. cbn in Hid. subst iid.
    apply success_update; cbn; [|congruence]. intros j Hj _. assert (j = i) as -> by congruence.
    step_success. unfold registered. rewrite (bool_decide_eq_false_2 _ Ht).
    split; [done|]. split; [done|]. split; [done|]. split; [done|].
    case_match; [done|]. eexists i, _, _. split_and!; [done|by exists k|done..].
Qed.

Lemma registered_step token name email password user t t' :
  accounts_ok t → registered E token name email password user t t' → accounts_step t t'.
Proof.
  intros Hok (Hnone & _ & Huser & Hemail & Hcase).
  assert (Hten : tenants_ok (<[t_ID user := user]> (tb_tenants t)) ∧
                 tenants_step (tb_tenants t) (<[t_ID user := user]> (tb_tenants t))).
  { apply tenants_insert; [apply Hok|done|done| |done|].
    - rewrite Huser. apply canonical_email.
    - rewrite Huser. repeat split. cbn. apply bool_decide_eq_true. }
  case_match.
  - subst t'. match goal with He : tb_tenants t = ∅ |- _ => rewrite <- insert_empty, <- He end.
    by apply step_tenants.
  - destruct Hcase as (i & b & now & (iid & Hi & _ & Hu & Hr & _) & _ & -> & ->).
    destruct Hok as (Ht & Hio & Hk). pose proof Hio as [Hki _ _].
    pose proof (Hki _ _ Hi) as Hid. cbn in Hid. subst iid.
    assert (Hinv := invitations_rewrite _ _ i
      (i <| i_UsedAt := Some now; i_UsedByTenantID := Some (t_ID user) |>) Hio Hi).
    destruct Hinv as [Hi1 Hi2].
    + repeat split; cbn; intros [? ?]; congruence.
    + split; cbn; by eauto.
    + split; [|split; [apply Hten|exact Hi2]]. split; [apply Hten|]. split; [exact Hi1|exact Hk].
Qed.

Lemma step_Register token name email password t :
  accounts_ok t → wp Direct E (Register token name email password) t (steps t).
Proof.
  intros Hok. eapply wp_mono; [apply wp_Register, Hok|]. intros [user|e] t' Hr.
  - by eapply registered_step.
  - subst. by apply accounts_step_refl.
Qed.

(** ** Keys *)

Lemma wp_alias_rows x keyID aliases t (Q : result (list APIKeyModelAlias) → tables → Prop) :
  (∀ rows, Forall (λ a, ma_APIKeyID a = keyID) rows →
     (λ a, (ma_Alias a, ma_Model a)) <$> rows = aliases → Q (Ok rows) t) →
  wp x E (alias_rows keyID aliases) t Q.
Proof.
  intros HQ. eapply wp_mono.
  - apply (wp_for_each x E _ aliases (λ rest rows t', t' = t ∧ Forall (λ a, ma_APIKeyID a = keyID) rows ∧
      ((λ a, (ma_Alias a, ma_Model a)) <$> rows) ++ rest = aliases) (λ _ _, False)).
    + done.
    + intros [alias model] rest rows t' (-> & Hall & Heq). apply wp_bind, wp_new_id. intros id.
      apply wp_ret. split; [done|]. rewrite fmap_app, <- app_assoc. split; [|done].
      apply list.Forall_app. by split; [|constructor].
  - intros [rows|e] t'; [|done]. rewrite app_nil_r. intros (-> & Hall & Heq). by apply HQ.
Qed.

(** Alias rows of one key are inserted. *)
Lemma success_insert_aliases keyID rows t (P : unit → tables → Prop) :
  keys_ok (tb_api_keys t) (tb_key_aliases t) → is_Some (tb_api_keys t !! keyID) →
  Forall (λ a, ma_APIKeyID a = keyID) rows →
  (∀ m : gmap string APIKeyModelAlias, keys_ok (tb_api_keys t) m →
     P () (t <| tb_key_aliases := m |>)) →
  success E (insert_aliases rows) t P.
Proof.
  intros Hk Hsome Hall HP. unfold insert_aliases. step_success. eapply success_mono.
  - apply (success_for_each E _ rows (λ rest _ t', Forall (λ a, ma_APIKeyID a = keyID) rest ∧
      ∃ m : gmap string APIKeyModelAlias, t' = t <| tb_key_aliases := m |> ∧ keys_ok (tb_api_keys t) m)).
    + split; [done|]. exists (tb_key_aliases t). split; [by destruct t|done].
    + intros a rest done' t' [[Ha Hrest]%list.Forall_cons (m & -> & Hm)].
      apply success_create_unique. cbn. intros _ _ Hclash. split; [done|].
      exists (<[ma_ID a := a]> m). split; [done|]. apply aliases_insert; [done|by rewrite Ha|done].
  - intros ys t' (_ & m & -> & Hm). step_success. by apply HP.
Qed.

(** What creating a key leaves. *)
Definition key_created (item : APIKey) (plain tenantID : string) (t t' : tables) : Prop :=
tb_api_keys t !! k_ID item = None ∧ k_TenantID item = tenantID ∧ k_Source item = "manual" ∧
k_Enabled item = true ∧ k_ExpiresAt item = None ∧
k_KeyHash item = HashKey plain ∧ (∃ text, plain = "relay_" +:+ text) ∧
(∃ s, k_KeyCiphertext item = Some s ∧
      (LawfulAEAD string → Open s (keySecretAssociatedData tenantID (k_ID item)) = Some plain)) ∧
∃ m : gmap string APIKeyModelAlias, t' = t <| tb_api_keys := <[k_ID item := item]> (tb_api_keys t); tb_key_aliases := m |> ∧
     keys_ok (tb_api_keys t') m.

Lemma wp_CreateKey tenantID name rate tokens models aliases t :
  accounts_ok t →
  wp Direct E (CreateKey tenantID name rate tokens models aliases) t (λ r t', match r with
    | Ok (item, _, plain) => key_created item plain tenantID t t'
    | Err _ => t' = t
    end).
Proof.
  intros Hok. apply wp_bind, wp_bind, wp_random_bytes. intros value _. cbv zeta. apply wp_ret.
  apply wp_bind, wp_new_id. intros id. apply wp_bind, wp_bind, wp_random_bytes. intros nonce Hn.
  apply wp_ret. apply wp_bind, wp_alias_rows. intros rows Hrows _.
  set (plain := "relay_" +:+ _). set (item := manual_key _ _ _ _ _ _ _ _ _).
  assert (Hopen : LawfulAEAD string → Open (default "" (k_KeyCiphertext item))
            (keySecretAssociatedData tenantID id) = Some plain).
  { intros ?. by apply Open_sealed. }
  apply wp_bind. eapply wp_mono.
  { apply (success_transaction _ _ _ _ (λ _ t', key_created item plain tenantID t t')). step_success.
    apply success_create_unique. cbn [tb_get tb_set api_keys]. intros Hnone _ Hclash.
    apply (success_insert_aliases id); cbn.
    - apply keys_insert; [apply Hok|done|done|done].
    - rewrite lookup_insert_eq. by eexists.
    - done.
    - intros m Hm. split; [done|]. do 5 (split; [done|]). split; [by eexists|].
      split; [eexists; split; [done|exact Hopen]|]. by exists m. }
  intros [u|e] t' Ht'; [|done]. by apply wp_ret.
Qed.

Lemma created_step item plain tenantID t t' :
  accounts_ok t → key_created item plain tenantID t t' → accounts_step t t'.
Proof.
  intros Hok (_ & _ & _ & _ & _ & _ & _ & _ & m & -> & Hm). apply step_keys; [done|done|exact Hm].
Qed.

Lemma step_CreateKey tenantID name rate tokens models aliases t :
  accounts_ok t → wp Direct E (CreateKey tenantID name rate tokens models aliases) t (steps t).
Proof.
  intros Hok. eapply wp_mono; [by apply wp_CreateKey|]. intros [[[item rows] plain]|e] t' Hr.
  - by eapply created_step.
  - subst. by apply accounts_step_refl.
Qed.

Lemma reads_aliases_of x keyID t (Q : result (list APIKeyModelAlias) → tables → Prop) :
  (∀ rows, (∀ a, a ∈ rows ↔ ma_APIKeyID a = keyID ∧ ∃ i, tb_key_aliases t !! i = Some a) → Q (Ok rows) t) →
  (x = Direct → ¬ quiet E → ∀ d, Q (Err (ErrConnection d)) t) →
  wp x E (aliases_of keyID) t Q.
Proof.
  intros HQ Hd. apply wp_find_ordered; [|done]. intros rows Hrows. apply HQ. intros a.
  rewrite merge_sort_Permutation, (elem_of_rows key_aliases _ t rows a Hrows).
  by rewrite bool_decide_eq_true.
Qed.

(** An edited key. *)
Lemma wp_UpdateKey tenantID id name enabled rate tokens models aliases t :
  accounts_ok t →
  wp Direct E (UpdateKey tenantID id name enabled rate tokens models aliases) t (λ r t',
    (t' = t ∨ (∃ k, tb_api_keys t !! id = Some k ∧ own_manual_key tenantID k = true) ∧ accounts_step t t') ∧
    ((∀ k, tb_api_keys t !! id = Some k → own_manual_key tenantID k = false) → ∃ e, r = Err e ∧ (quiet E → e = ErrNotFound))).
Proof.
  intros Hok. apply wp_bind.
  apply (wp_mono _ _ _ _ (λ r t', match r with
    | Ok _ => (∃ k, tb_api_keys t !! id = Some k ∧ own_manual_key tenantID k = true) ∧ accounts_step t t'
    | Err e => t' = t ∧ ((∀ k, tb_api_keys t !! id = Some k → own_manual_key tenantID k = false) →
                         quiet E → e = ErrNotFound)
    end)).
  - apply wp_transaction; [|intros Hq e; by split]. apply wp_bind, wp_update_where; [| |done|done].
    + cbn. intros k Hk Hown _. apply wp_bind, wp_ret. apply wp_bind, wp_delete_where; [|done]. intros n.
      apply wp_bind, wp_alias_rows. intros rows Hrows _. cbn.
      eapply wp_mono; [apply (success_insert_aliases id)|].
      * cbn. apply aliases_remove. by eapply (keys_rewrite _ _ id k); [apply Hok|..].
      * cbn. rewrite lookup_insert_eq. by eexists.
      * done.
      * intros m Hm. instantiate (1 := λ _ t', accounts_step t t'). apply step_keys; [done|done|exact Hm].
      * intros [u|e] t' Ht'; [by eauto|]. split; [done|]. intros Hno. specialize (Hno _ Hk). congruence.
    + intros Hno. apply wp_bind, wp_guard; [done|]. intros _. done.
  - intros [u|e] t' Hr.
    + destruct Hr as [Hown Hstep]. apply wp_bind, wp_first_where.
      * intros k Hk _. apply wp_bind, reads_aliases_of; [intros rows _; apply wp_ret|intros];
          (split; [by right|]); intros Hno; destruct Hown as (k' & Hk' & Hown'); specialize (Hno _ Hk'); congruence.
      * intros _. split; [by right|]. intros Hno. destruct Hown as (k' & Hk' & Hown'). specialize (Hno _ Hk'). congruence.
      * intros _ Hq d. split; [by right|]. intros _. eexists. by split.
    + destruct Hr as [-> He]. split; [by left|]. eauto.
Qed.

Lemma step_UpdateKey tenantID id name enabled rate tokens models aliases t :
  accounts_ok t → wp Direct E (UpdateKey tenantID id name enabled rate tokens models aliases) t (steps t).
Proof.
  intros Hok. eapply wp_mono; [by apply wp_UpdateKey|]. intros r t' [[->|[_ Hs]] _]; [|done].
  by apply accounts_step_refl.
Qed.

(** A dropped key, with its aliases. *)
Definition without_key (tenantID id : string) (t : tables) : tables :=
t <| tb_api_keys := filter (λ kk : string * APIKey,
       bool_decide (k_ID kk.2 = id) && bool_decide (k_TenantID kk.2 = tenantID) = false) (tb_api_keys t);
     tb_key_aliases := filter (λ ka : string * APIKeyModelAlias,
       bool_decide (ma_APIKeyID ka.2 = id) = false) (tb_key_aliases t) |>.

Lemma wp_DeleteKey tenantID id t :
  keyed k_ID (tb_api_keys t) →
  wp Direct E (DeleteKey tenantID id) t (λ r t', match r with
    | Ok _ => (∃ k, tb_api_keys t !! id = Some k ∧ k_TenantID k = tenantID) ∧ t' = without_key tenantID id t
    | Err e => t' = t ∧ (quiet E → e = ErrNotFound)
    end).
Proof.
  intros Hk. apply wp_bind. unfold delete_where. apply wp_bind, wp_statement; [|done].
  apply wp_bind, wp_gets. cbn [tb_get tb_set api_keys].
  set (kept := filter _ (tb_api_keys t)). apply wp_bind, wp_modify, wp_ret. apply wp_bind, wp_guard.
  - intros Hn. apply wp_cascade. split; [|done].
    destruct (tb_api_keys t !! id) as [k|] eqn:Hid;
      [destruct (decide (k_TenantID k = tenantID)); [by exists k|]|]; exfalso.
    all: assert (kept = tb_api_keys t) as Hall; [|rewrite Hall, Nat.sub_diag in Hn; done].
    all: apply map_filter_id; intros j c Hj; cbn; apply not_true_is_false; intros Hc; reflect_bools.
    all: pose proof (Hk _ _ Hj) as Hcid; cbn in Hcid; congruence.
  - intros Hn. split; [|done]. assert (kept = tb_api_keys t) as Hall; [|by rewrite Hall; destruct t].
    apply map_filter_id. intros j c Hj. cbn. apply not_true_is_false. intros Hc.
    apply negb_false_iff, Z.eqb_eq in Hn.
    assert (kept ⊆ delete j (tb_api_keys t)) as Hsub.
    2: { apply map_subseteq_size in Hsub. rewrite map_size_delete_Some in Hsub by (by eexists).
         assert (size (tb_api_keys t) ≠ 0%nat); [|lia]. apply (map_size_ne_0_lookup_2 _ j). by eexists. }
    apply map_subseteq_spec. intros i a [Ha Hf]%map_lookup_filter_Some. cbn in Hf.
    rewrite lookup_delete_ne; [done|]. intros <-. assert (a = c) as -> by (rewrite Hj in Ha; by injection Ha). by rewrite Hc in Hf.
Qed.

Lemma step_DeleteKey tenantID id t :
  accounts_ok t → wp Direct E (DeleteKey tenantID id) t (steps t).
Proof.
  intros Hok. eapply wp_mono; [apply wp_DeleteKey, Hok|]. intros [u|e] t'.
  - intros [_ ->]. apply step_keys; [done|done|]. cbn. apply keys_remove; [apply Hok|].
    intros i a k Ha Hq Hk'. cbn in *. destruct Hok as (_ & _ & [Hkk _ _ _]).
    pose proof (Hkk _ _ Hk') as Hid. cbn in Hid. by rewrite Hid, Hq.
  - intros [-> _]. by apply accounts_step_refl.
Qed.

(** ** Agent setups *)

Lemma step_setups op t :
  match op with NewSetup _ _ _ | PurgeSetups _ => True | _ => False end →
  accounts_ok t → wp Direct E (run_account op) t (steps t).
Proof.
  intros Hop Hok. eapply (wp_mono _ _ _ _ (λ _ t', same_accounts t t')).
  - assert (preserves Direct E (same_accounts t) (run_account op)) as Hp; [|by apply Hp].
    destruct op; try done; cbn.
    + unfold CreateAgentSetup, NewAgentSetupToken, new_token, Seal. preserve.
    + unfold DeleteExpiredAgentSetups. preserve.
  - intros r t' Ht'. by apply step_elsewhere.
Qed.
End steps.

Section guarantees.
Context `{TimeZone} `{FloatToInt} `{Digest} `{AEAD plaintext} `{AEAD string} `{PasswordHashing}.

Lemma run_account_step E op t :
  accounts_ok t → wp Direct E (run_account op) t (λ _ t', accounts_step t t').
Proof.
  intros Hok.
  assert (Hthen : ∀ A (m : DB A), wp Direct E m t (λ _ t', accounts_step t t') →
            wp Direct E (m;; mret ()) t (λ _ t', accounts_step t t')).
  { intros A m Hm. apply wp_bind. eapply wp_mono; [exact Hm|]. intros [a|e] t' Ht'; [|done].
    by apply wp_ret. }
  destruct op; try (by apply (step_setups E)); cbn [run_account]; try apply Hthen.
  - by apply step_CreateTenant.
  - by apply step_UpdateTenant.
  - eapply wp_mono; [apply deleted_tenants_leave_nothing, Hok|]. intros [u|e] t'.
    + intros (_ & Hrm & _). by eapply removed_step.
    + intros ->. by apply accounts_step_refl.
  - by apply step_ResetPassword.
  - by apply step_ChangePassword.
  - by apply step_Login.
  - by apply step_CreateInvitation.
  - by apply step_RevokeInvitation.
  - by apply step_Register.
  - by apply step_BindGitHub.
  - by apply step_UnbindGitHub.
  - by apply step_CreateKey.
  - by apply step_UpdateKey.
  - by apply step_DeleteKey.
Qed.

(** What a sequence of operations leads to, each in a world of its own. *)
Inductive accounts_path : tables → tables → Prop :=
  | path_here t : accounts_path t t
  | path_step t t1 t2 op E n r c :
      accounts_path t t1 → run_account op E t1 n = (r, t2, c) → accounts_path t t2.

Lemma path_ok t t' :
  accounts_path t t' → accounts_ok t →
  accounts_ok t' ∧ invitations_step (tb_invitations t) (tb_invitations t').
Proof.
  induction 1 as [t|t t1 t2 op E n r c _ IH Hrun]; intros Hok.
  - split; [done|apply invitations_step_refl].
  - destruct (IH Hok) as [Hok1 Hs1]. pose proof (run_account_step E op t1 Hok1 n) as Hstep.
    rewrite Hrun in Hstep. destruct Hstep as [[? _]|(Hok2 & _ & Hs2)]; [done|].
    split; [done|]. by eapply invitations_step_trans.
Qed.

Lemma accounts_ok_empty : accounts_ok empty_tables.
Proof.
  split; [|split]; split; try apply distinct_empty; try apply map_Forall_empty; intros i a Ha; by rewrite lookup_empty in Ha.
Qed.

(** C10: Starting from an empty store, whatever sequence of registrations, sign-ins, password
  changes, invitations, key operations, updates and deletions runs, with whatever failures:
  addresses are stored in one form and are unique, as are linked GitHub accounts, key digests,
  invitation tokens and the aliases of a key; every alias belongs to an existing key; at most
  one tenant is the administrator; no invitation is both used and revoked.  And every further
  operation only rewrites tenants without touching their balance or their rights, never lowers a
  password version, creates an administrator only in a store without tenants, and never reopens
  a used or revoked invitation. *)
Theorem accounts_stay_consistent t op E n :
accounts_path empty_tables t →
accounts_ok t ∧
let t' := (run_account op E t n).1.2 in
accounts_ok t' ∧ tenants_step (tb_tenants t) (tb_tenants t') ∧
invitations_step (tb_invitations t) (tb_invitations t').
Proof.
  intros Hpath. destruct (path_ok _ _ Hpath accounts_ok_empty) as [Hok _]. split; [done|].
  pose proof (run_account_step E op t Hok n) as Hstep.
  destruct (run_account op E t n) as [[r t'] c]. by destruct Hstep as [[? _]|?].
Qed.

(** C11: An invitation admits one account.  Registering in an empty store makes the administrator;
  otherwise it takes a token whose invitation is neither used nor revoked nor expired by the clock
  and is meant for that address (or for any), makes an ordinary account with an empty balance and spends the invitation.  From then on,
  whatever account operations happen in between, the same token registers nobody else as long as
  there are tenants: the attempt fails and changes nothing. *)
Theorem invitations_admit_one_account E E' token name email password token' name' email' password' t :
accounts_ok t → trim_space token' = trim_space token →
wp Direct E (Register token name email password) t (λ r t1, match r with
  | Ok user => registered E token name email password user t t1 ∧
      (tb_tenants t ≠ ∅ → ∀ t2, accounts_path t1 t2 → tb_tenants t2 ≠ ∅ →
       wp Direct E' (Register token' name' email' password') t2 (λ r2 t3, (∃ e, r2 = Err e) ∧ t3 = t2))
  | Err _ => t1 = t
  end).
Proof.
  intros Hok Htok. eapply wp_mono; [apply wp_Register, Hok|]. intros [user|e] t1; [|done].
  intros Hreg. split; [done|]. intros Hne t2 Hpath Hne2.
  assert (Hok1 : accounts_ok t1) by (by eapply registered_step).
  destruct (path_ok _ _ Hpath Hok1) as [Hok2 Hs]. eapply wp_mono; [apply wp_Register, Hok2|].
  intros [user'|e] t3; [|intros ->; split; [by eexists|done]]. intros (_ & _ & _ & _ & Hcase2). exfalso.
  destruct Hreg as (_ & _ & _ & _ & Hcase). case_match; [done|]. case_match; [done|].
  destruct Hcase as (i & b & now & (iid & Hi & Hih & _) & _ & -> & ->).
  destruct Hcase2 as (j & b' & now' & (jid & Hj & Hjh & Hju & _) & _). rewrite Htok in Hjh.
  pose proof Hok as (_ & [Hk _ _] & _). pose proof (Hk _ _ Hi) as Hid. cbn in Hid. subst iid.
  edestruct (Hs (i_ID i)) as (b2 & Hb2 & Hev); [apply lookup_insert_eq|].
  destruct Hev as (_ & Hbh & _ & _ & Hbu & _). cbn in Hbh, Hbu.
  pose proof Hok2 as (_ & [_ Htok2 _] & _).
  assert (i_ID i = jid) as <-.
  { eapply (Htok2 _ _ b2 j); [done..| |done]. unfold token_column. congruence. }
  assert (b2 = j) as -> by congruence. rewrite Hbu in Hju by eauto. done.
Qed.
End guarantees.
