(* ===== verification/SignIn.v ===== *)
(** * What signing in is worth

    A password opens its own account and nothing else; the doors of the console
    look at the account as it is now, so a reset ends every session and a device
    loses its tokens, but a password that its owner changes does not. *)

From Stdlib Require Import SpecFloat.
From S2P Require Import Prelude.
From S2P Require Import Float64.
From S2P Require Import Database.
From S2P Require Import Schema.
From S2P Require Import RequestLogs.
From S2P Require Import Encoding.
From S2P Require Import Passwords.
From S2P Require Import DeviceGrants.
From S2P Require Import GrantGuarantees.
From S2P Require Import Accounts.
From S2P Require Import AccountRules.
From S2P Require Import AccountGuarantees.

(** A non-empty list of copies. *)
Lemma all_same_head {A} (l : list A) a : (∀ x, x ∈ l → x = a) → a ∈ l → ∃ l', l = a :: l'.
Proof.
  intros Hall Hin. destruct l as [|x l]; [by apply not_elem_of_nil in Hin|].
  exists l. f_equal. apply Hall. by left.
Qed.

Section signing_in.
Context `{TimeZone} `{FloatToInt} `{Digest} `{AEAD plaintext} `{AEAD string} `{PasswordHashing} `{!LawfulPasswordHashing}.

(** The account [b] opens with [password]: a sign-in in a world that does not fail succeeds
  exactly with a password of the same digest, and changes nothing. *)
Definition opens_with (password : string) (b : Tenant) (t : tables) : Prop :=
∃ salt, let digest p := argon2_IDKey p salt argonTime argonMemory argonThreads argonKeyLen in
∀ E q, quiet E → wp Direct E (Login (t_OwnerEmail b) q) t (λ r t', t' = t ∧
  r = if bool_decide (digest q = digest password) then Ok b else Err ErrNotFound).

Lemma account_opens password id b t :
  accounts_ok t → tb_tenants t !! id = Some b → hash_of password (t_PasswordHash b) →
  t_Enabled b = true → t_ExpiresAt b = None → opens_with password b t.
Proof.
  intros [[Hk Hcan Hem _ _] _] Hb [salt Hsalt] Hen Hex. exists salt. cbv zeta. intros E q Hq.
  destruct (Hcan _ _ Hb) as [Hlow Htrim]. unfold Login. rewrite Htrim.
  apply wp_bind, wp_now. intros now. apply wp_bind, wp_map_error, wp_bind, wp_find_ordered; [|done].
  intros rows Hrows.
  destruct (all_same_head (merge_sort by_id rows) b) as [rest ->].
  - intros a. rewrite merge_sort_Permutation, (elem_of_rows tenants _ t rows a Hrows).
    intros [Hm (j & Ha)]. unfold may_sign_in, equal_fold in Hm. cbn in Ha. reflect_bools.
    destruct (Hcan _ _ Ha) as [Hlow' _].
    assert (j = id) as -> by (eapply (Hem j id a b); [done..| |done]; unfold email_column; congruence).
    congruence.
  - rewrite merge_sort_Permutation, (elem_of_rows tenants _ t rows b Hrows). split; [|by eexists].
    unfold may_sign_in, equal_fold. by rewrite Hen, Hex, bool_decide_eq_true_2.
  - apply wp_ret. rewrite Hsalt, verify_argon2id_text. case_bool_decide.
    + apply wp_bind, wp_ret. by apply wp_ret.
    + apply wp_bind, wp_fail. done.
Qed.

(** The operations that set a password, and what else they do to the row. *)
Definition password_set (op : account_operation) : option string :=
match op with
| CreateAccount _ _ password _ _ _ | SignUp _ _ _ password
| ResetAccount _ password | ChangeAccount _ password => Some password
| _ => None
end.

Definition password_effect (op : account_operation) (id : string) (old : option Tenant) (b : Tenant) : Prop :=
match op, old with
| ResetAccount id' _, Some a => id = id' ∧
    b = a <| t_PasswordHash := t_PasswordHash b; t_MustChangePassword := true;
             t_PasswordVersion := t_PasswordVersion a + 1 |>
| ChangeAccount id' _, Some a => id = id' ∧
    b = a <| t_PasswordHash := t_PasswordHash b; t_MustChangePassword := false |>
| CreateAccount _ _ _ _ _ _, None | SignUp _ _ _ _, None =>
    t_Enabled b = true ∧ t_ExpiresAt b = None ∧ t_MustChangePassword b = false
| _, _ => False
end.

(** The row that an operation left and the hash it holds. *)
Definition rehashed (op : account_operation) (password : string) (t t1 : tables) : Prop :=
∃ id b, tb_tenants t1 = <[id := b]> (tb_tenants t) ∧ hash_of password (t_PasswordHash b) ∧
  password_effect op id (tb_tenants t !! id) b.

Lemma wp_rehashed E op password t :
  accounts_ok t → password_set op = Some password →
  wp Direct E (run_account op) t (λ r t1, match r with
    | Ok _ => rehashed op password t t1
    | Err _ => t1 = t
    end).
Proof.
  intros Hok Hset. destruct op; try done; injection Hset as ->; cbn [run_account].
  - apply wp_bind, wp_bind, wp_hashPassword. intros h Hh. apply wp_bind, wp_new_id. intros id. cbv zeta.
    apply wp_bind, wp_create_unique; [|done..]. cbn. intros Hnone _ _. do 2 apply wp_ret.
    eexists id, _. split; [done|]. split; [exact Hh|]. by rewrite Hnone.
  - apply wp_bind, wp_hashPassword. intros h Hh. apply wp_bind, wp_gets. apply wp_bind, wp_guard; [intros _|done].
    apply wp_bind, wp_update; [|intros _; by apply wp_guard|done..]. cbn. intros a Ha _. apply wp_ret.
    eexists id, _. split; [done|]. split; [exact Hh|]. by rewrite Ha.
  - apply wp_bind, wp_hashPassword. intros h Hh.
    apply wp_bind, wp_update; [|intros _; by apply wp_guard|done..]. cbn. intros a Ha _. apply wp_ret.
    eexists id, _. split; [done|]. split; [exact Hh|]. by rewrite Ha.
  - apply wp_bind. eapply wp_mono; [apply wp_Register, Hok|]. intros [user|e] t1; [|done].
    intros (Hnone & Hh & Huser & _ & Hcase). apply wp_ret. exists (t_ID user), user. split; [|split; [done|]].
    + case_match; [subst t1; by match goal with He : tb_tenants t = ∅ |- _ => rewrite He, insert_empty end|].
      by destruct Hcase as (i & b & now & _ & _ & _ & ->).
    + rewrite Hnone, Huser. done.
Qed.

(** C24: A password opens its account, and only that password does.  When a registration, a creation
  by the administrator, a reset or a change of password succeeds, exactly one tenant row is new
  or rewritten, and, if it is enabled and does not expire, signing in with its address succeeds
  precisely with a password that has the digest of the new one under the stored salt, answering
  that row; any other password fails like an unknown address does.  A reset forces the owner to
  choose a new password and raises the password version; a change lifts that demand and leaves
  the version alone. *)
Theorem passwords_open_their_account E op password t :
accounts_ok t → password_set op = Some password →
wp Direct E (run_account op) t (λ r t1, match r with
  | Ok _ => ∃ id b, tb_tenants t1 = <[id := b]> (tb_tenants t) ∧
      password_effect op id (tb_tenants t !! id) b ∧
      (t_Enabled b = true → t_ExpiresAt b = None → opens_with password b t1)
  | Err _ => t1 = t
  end).
Proof.
  intros Hok Hset. eapply wp_mono.
  - apply wp_and; [by apply wp_rehashed|by apply run_account_step].
  - intros [u|e] t1 [Hr [Hok1 _]]; [|done]. destruct Hr as (id & b & Ht1 & Hh & Heff).
    exists id, b. split; [done|]. split; [done|]. intros Hen Hex.
    apply (account_opens password id); [done| |done..]. rewrite Ht1. apply lookup_insert_eq.
Qed.
End signing_in.

(** ** The doors of the console *)

Section doors.
Context `{TimeZone} `{FloatToInt} `{Digest} `{AEAD plaintext} `{AEAD string} `{PasswordHashing}.

(** Whom the doors let in, given the tenant as it is now. *)
Definition signed_in (session : Session) (t : tables) (a : Tenant) : Prop :=
ss_TenantID session ≠ "" ∧ tb_tenants t !! ss_TenantID session = Some a ∧ t_Enabled a = true ∧
t_PasswordVersion a = ss_PasswordVersion session.

Definition door_of {A} (admin : bool) (session : Session) (next : DB A) : DB A :=
if admin then withAdmin session next else withTenant session next.

Definition let_in (admin : bool) (session : Session) (t : tables) : Prop :=
∃ a, signed_in session t a ∧ t_MustChangePassword a = false ∧ (admin = true → t_IsAdmin a = true).

(** A door runs what is behind it only for whom it lets in. *)
Lemma wp_door {A} E admin session (next : DB A) t Q :
  (let_in admin session t → wp Direct E next t Q) →
  (¬ quiet E ∨ ¬ let_in admin session t → ∀ e, Q (Err e) t) →
  wp Direct E (door_of admin session next) t Q.
Proof.
  intros Hnext Hno. unfold door_of.
  assert (Hwithin : ∀ m : DB A,
    (∀ a, signed_in session t a → wp Direct E m t Q) → wp Direct E (withTenantSession session m) t Q).
  { intros m Hm. apply wp_bind, wp_guard; [intros Hne|intros Hne; apply Hno; right].
    2: { intros (a & (Hss & _) & _). by reflect_bools. }
    apply wp_bind, wp_map_error, wp_GetTenant.
    - intros a Ha. apply wp_bind, wp_guard.
      + intros Hc. apply (Hm a). unfold signed_in. by reflect_bools.
      + intros Hc. apply Hno. right. intros (a' & (_ & Ha' & Hen & Hv) & _).
        assert (a' = a) as -> by congruence. apply not_true_iff_false in Hc. apply Hc.
        rewrite Hen. cbn. by apply Z.eqb_eq.
    - intros Hnone. apply Hno. right. intros (a' & (_ & Ha' & _) & _). congruence.
    - intros _ Hq d. apply Hno. by left. }
  destruct admin; apply Hwithin; intros a (Hss & Ha & Hen & Hv).
  all: apply wp_bind, wp_map_error, wp_GetTenant;
    [intros a' Ha'; assert (a' = a) as -> by congruence; clear Ha'|congruence|intros _ Hq d; apply Hno; by left].
  - apply wp_bind, wp_guard; [intros Hadm|intros Hadm; apply Hno; right].
    + apply wp_bind, wp_guard; [intros Hmust|intros Hmust; apply Hno; right].
      * apply Hnext. exists a. by reflect_bools.
      * intros (a' & (_ & Ha' & _) & Hm & _). assert (a' = a) as -> by congruence. by rewrite Hm in Hmust.
    + intros (a' & (_ & Ha' & _) & _ & Hi). assert (a' = a) as -> by congruence.
      rewrite Hen, Hi in Hadm by done. done.
  - rewrite Hen. apply wp_bind, wp_ret.
    apply wp_bind, wp_guard; [intros Hmust|intros Hmust; apply Hno; right].
    + apply Hnext. exists a. by reflect_bools.
    + intros (a' & (_ & Ha' & _) & Hm & _). assert (a' = a) as -> by congruence. by rewrite Hm in Hmust.
Qed.

(** The doors of the console look at the account as it is when the request arrives.  A handler
  behind them is run, and decides the answer, when the session names a tenant that exists, is
  enabled, still has the session's password version and need not change its password, and, for
  the administrator's handlers, is the administrator; for everybody else the handler is not run:
  the answer is an error and nothing changes.  So when the administrator resets a password, every
  session opened before is shut out, and no device session of the account is valid. *)
Theorem sessions_follow_the_account {A} E admin session (next : DB A) t :
(¬ let_in admin session t →
   wp Direct E (door_of admin session next) t (λ r t', (∃ e, r = Err e) ∧ t' = t)) ∧
(quiet E → let_in admin session t → ∀ Q,
   wp Direct E next t Q → wp Direct E (door_of admin session next) t Q) ∧
(∀ a E' password, signed_in session t a →
   wp Direct E' (ResetPassword (ss_TenantID session) password) t (λ r t1, match r with
     | Ok _ => (∀ admin', ¬ let_in admin' session t1) ∧
         ∀ s now now', os_TenantID s = ss_TenantID session → session_valid t1 s now now' = false
     | Err _ => t1 = t
     end)).
Proof.
  split; [|split].
  - intros Hout. apply wp_door; [done|]. intros _ e. by eauto.
  - intros Hq Hin Q HQ. apply wp_door; [done|]. by intros [?|?].
  - intros a E' password (_ & Ha & _ & Hv). apply wp_bind, wp_hashPassword. intros h _.
    apply wp_bind, wp_gets. apply wp_bind, wp_guard; [intros _|done].
    apply wp_bind, wp_update; [|intros Hn; cbn in Hn; congruence|done..].
    cbn. intros a' Ha' _. assert (a' = a) as -> by congruence. apply wp_ret. split.
    + intros admin' (b & (_ & Hb & _ & Hbv) & _). cbn in Hb. rewrite lookup_insert_eq in Hb.
      injection Hb as <-. cbn in Hbv. lia.
    + intros s now now' Hs. unfold session_valid. cbn. rewrite Hs, lookup_insert_eq. cbn.
      unfold may_delegate. cbn. by rewrite !andb_false_r.
Qed.

(** Contrary to the documentation of the device client (docs/rai-cli.md, which promises that
  requests fail after a change of password), a password that its owner changes ends nothing: every
  browser session and every device session that was valid for the account stays valid. *)
Theorem a_new_password_keeps_sessions E id password session t :
wp Direct E (ChangePassword id password) t (λ r t1, match r with
  | Ok _ =>
      (∀ admin, let_in admin session t → let_in admin session t1) ∧
      ∀ s now now', session_valid t s now now' = true → session_valid t1 s now now' = true
  | Err _ => t1 = t
  end).
Proof.
  apply wp_bind, wp_hashPassword. intros h _.
  apply wp_bind, wp_update; [|intros _; by apply wp_guard|done..].
  cbn. intros a Ha _. apply wp_ret. split.
  - intros admin (b & (Hss & Hb & Hen & Hv) & Hm & Hadm). unfold let_in, signed_in. cbn.
    destruct (decide (ss_TenantID session = id)) as [Heq|Hne].
    + rewrite Heq in *. assert (b = a) as -> by congruence. rewrite lookup_insert_eq. by eexists.
    + rewrite lookup_insert_ne by done. by exists b.
  - intros s now now'. unfold session_valid. cbn. destruct (decide (os_TenantID s = id)) as [Heq|Hne].
    + rewrite Heq, lookup_insert_eq, Ha. unfold may_delegate. cbn. intros Hs.
      repeat match goal with Hx : _ && _ = true |- _ => apply andb_true_iff in Hx as [? ?] end.
      repeat (apply andb_true_iff; split); done.
    + by rewrite lookup_insert_ne.
Qed.
End doors.
