(* ===== verification/KeyGuarantees.v ===== *)
(** * What a key is worth

    A new key opens the public interface for its tenant until it is dropped, its
    owner can read it again, and nobody else can read, change or drop it. *)

From Stdlib Require Import SpecFloat.
From S2P Require Import Prelude.
From S2P Require Import Float64.
From S2P Require Import Database.
From S2P Require Import Schema.
From S2P Require Import ModelAccess.
From S2P Require Import RequestLogs.
From S2P Require Import Encoding.
From S2P Require Import Passwords.
From S2P Require Import DeviceGrants.
From S2P Require Import GrantGuarantees.
From S2P Require Import Accounts.
From S2P Require Import AccountRules.
From S2P Require Import AccountGuarantees.
From S2P Require Import SignIn.

Section keys.
Context `{TimeZone} `{FloatToInt} `{Digest} `{AEAD plaintext} `{AEAD string} `{PasswordHashing}.

(** The verdict on a key that is found with its tenant. *)
Definition admits (E : env) (k : APIKey) (tenant : Tenant)
  (r : result (KeyContext * list APIKeyModelAlias)) (t : tables) : Prop :=
match r with
| Ok (context, aliases) =>
    (∃ grants, context = key_context k tenant grants) ∧
    (∀ a, a ∈ aliases ↔ ma_APIKeyID a = k_ID k ∧ ∃ i, tb_key_aliases t !! i = Some a) ∧
    k_Enabled k = true ∧ t_Enabled tenant = true ∧
    ∃ i j, expired (k_ExpiresAt k) (env_now E i) = false ∧ expired (t_ExpiresAt tenant) (env_now E j) = false
| Err e => e = ErrMessage "invalid_api_key" ∧
    (¬ quiet E ∨ k_Enabled k = false ∨ t_Enabled tenant = false ∨
     ∃ i, expired (k_ExpiresAt k) (env_now E i) = true ∨ expired (t_ExpiresAt tenant) (env_now E i) = true)
end.

(** A key without an expiry that is enabled: only its tenant can close the door, or the database. *)
Definition opens_for (E : env) (k : APIKey) (tenant : Tenant)
  (r : result (KeyContext * list APIKeyModelAlias)) (t : tables) : Prop :=
match r with
| Ok (context, aliases) =>
    (∃ grants, context = key_context k tenant grants) ∧
    (∀ a, a ∈ aliases ↔ ma_APIKeyID a = k_ID k ∧ ∃ i, tb_key_aliases t !! i = Some a) ∧
    t_Enabled tenant = true ∧ ∃ i, expired (t_ExpiresAt tenant) (env_now E i) = false
| Err e => e = ErrMessage "invalid_api_key" ∧
    (¬ quiet E ∨ t_Enabled tenant = false ∨ ∃ i, expired (t_ExpiresAt tenant) (env_now E i) = true)
end.

Lemma admits_opens E k tenant r t :
  k_Enabled k = true → k_ExpiresAt k = None → admits E k tenant r t → opens_for E k tenant r t.
Proof.
  intros Hen Hex. unfold admits, opens_for. rewrite Hen, Hex. destruct r as [[context aliases]|e].
  - intros (? & ? & _ & ? & i & j & _ & ?). eauto 6.
  - intros (-> & [?|[?|[?|(i & [?|?])]]]); (split; [done|]); [by left|done|by right; left|done|]. right. right. by exists i.
Qed.

Lemma wp_joined_key x E (cond : APIKey → bool) t (Q : result (APIKey * Tenant) → tables → Prop) :
  (∀ rows, (∀ row, row ∈ rows ↔ cond row.1 = true ∧ (∃ i, tb_api_keys t !! i = Some row.1) ∧
              tb_tenants t !! k_TenantID row.1 = Some row.2) →
     Q (match rows with [] => Err ErrRecordNotFound | row :: _ => Ok row end) t) →
  (x = Direct → ¬ quiet E → ∀ d, Q (Err (ErrConnection d)) t) →
  wp x E (joined_key cond) t Q.
Proof.
  intros HQ Hd. apply wp_bind, wp_statement; [|done]. apply wp_bind, wp_gets. cbn [id].
  apply wp_bind, wp_any_order. intros rows Hrows. specialize (HQ rows).
  assert (Hin : ∀ row, row ∈ rows ↔ cond row.1 = true ∧ (∃ i, tb_api_keys t !! i = Some row.1) ∧
              tb_tenants t !! k_TenantID row.1 = Some row.2).
  { intros [k tenant]. rewrite Hrows, list_elem_of_omap. cbn. split.
    - intros (k' & Hk' & Heq). rewrite list_elem_of_filter, list_elem_of_fmap in Hk'.
      destruct Hk' as (Hc & [i k''] & Hk'' & Hi%elem_of_map_to_list). cbn in Hk''. subst k''.
      destruct (tb_tenants t !! k_TenantID k') eqn:Ht; [|done]. injection Heq as -> ->. eauto.
    - intros (Hc & [i Hi] & Ht). exists k. rewrite Ht. split; [|done].
      rewrite list_elem_of_filter, list_elem_of_fmap. split; [done|]. exists (i, k).
      by rewrite elem_of_map_to_list. }
  specialize (HQ Hin). destruct rows; [by apply wp_fail|by apply wp_ret].
Qed.

(** A credential that names no key. *)
Lemma wp_authenticate_unknown E plain t :
  has_prefix plain access_prefix = false →
  (∀ i k, tb_api_keys t !! i = Some k → k_KeyHash k ≠ HashKey plain) →
  wp Direct E (authenticate plain) t (λ r t', t' = t ∧ r = Err (ErrMessage "invalid_api_key")).
Proof.
  intros Hp Hno. apply wp_bind, wp_map_error, wp_bind. unfold named_key. rewrite Hp. apply wp_ret.
  apply wp_bind, wp_map_error, wp_joined_key; [|done]. intros [|row rows] Hin; [done|]. exfalso.
  destruct (proj1 (Hin row)) as (Hc & [i Hi] & _); [by left|]. apply bool_decide_eq_true in Hc.
  by eapply Hno.
Qed.

(** A credential whose digest is that of a key. *)
Lemma wp_authenticate E plain t id k tenant :
  accounts_ok t → has_prefix plain access_prefix = false →
  tb_api_keys t !! id = Some k → k_KeyHash k = HashKey plain →
  tb_tenants t !! k_TenantID k = Some tenant →
  wp Direct E (authenticate plain) t (λ r t', t' = t ∧ admits E k tenant r t).
Proof.
  intros (_ & _ & [_ Hh _ _]) Hp Hk Hhash Ht.
  assert (Hrefuse : ¬ quiet E → admits E k tenant (Err (ErrMessage "invalid_api_key")) t) by (split; [done|by left]).
  apply wp_bind, wp_map_error, wp_bind. unfold named_key. rewrite Hp. apply wp_ret.
  apply wp_bind, wp_map_error, wp_joined_key; [|by auto]. intros rows Hin.
  destruct (all_same_head rows (k, tenant)) as [rest ->].
  - intros [k' tenant'] Hrow. apply Hin in Hrow as (Hc & [i Hi] & Ht'). cbn in *.
    apply bool_decide_eq_true in Hc.
    assert (i = id) as -> by (eapply (Hh i id k' k); [done..| |done]; unfold hash_column; congruence).
    assert (k' = k) as -> by congruence. by assert (tenant' = tenant) as -> by congruence.
  - apply Hin. split; [by apply bool_decide_eq_true|]. eauto.
  - apply wp_bind, reads_aliases_of; [|by auto]. intros aliases Hal. apply wp_bind, wp_now. intros now.
    apply wp_bind. unfold ActiveSubscriptionModelGrants. apply wp_bind, wp_find; [|by auto].
    intros children _. apply wp_bind, wp_gets. apply wp_ret, wp_ret. cbn [fst snd].
    apply wp_bind, wp_guard; cbn [kc_APIKey kc_TenantEnabled kc_TenantExpiresAt key_context].
    2: { intros Hen. split; [done|]. split; [done|]. apply andb_false_iff in Hen. tauto. }
    intros Hen. apply wp_bind, wp_now_at. intros i.
    apply wp_bind, wp_guard; [intros Hi%negb_true_iff|intros Hi%negb_false_iff; split; [done|]; split; [done|]; eauto 6].
    apply wp_bind, wp_now_at. intros j.
    apply wp_bind, wp_guard; [intros Hj%negb_true_iff|intros Hj%negb_false_iff; split; [done|]; split; [done|]; eauto 6].
    apply wp_ret. split; [done|]. apply andb_true_iff in Hen as [Hen1 Hen2].
    split; [by eexists|]. split; [exact Hal|]. eauto 6.
Qed.

Lemma relay_not_access text : has_prefix ("relay_" +:+ text) access_prefix = false.
Proof. apply bool_decide_eq_false_2. by intros [s Hs]. Qed.

Lemma reveal_of_stranger E tenantID id t :
  (∀ k, tb_api_keys t !! id = Some k → own_manual_key tenantID k = false) →
  wp Direct E (RevealKey tenantID id) t (λ r t', t' = t ∧ ∃ e, r = Err e ∧ (quiet E → e = ErrNotFound)).
Proof.
  intros Hno. apply wp_bind, wp_map_error, wp_first_where.
  - intros k Hk Hc. rewrite Hno in Hc; done.
  - intros _. split; [done|]. by eexists.
  - intros _ Hq d. split; [done|]. by eexists.
Qed.

(** C27: A key works for its tenant until it is dropped.  A key that was just created
  is enabled and has no expiry, and its secret opens the public interface as that key, with the
  aliases stored for it, exactly while its tenant is enabled and not expired; its owner can read the same secret again; and once the
  owner has dropped the key, the secret opens nothing.  A creation that fails leaves no trace. *)
Theorem keys_work_until_dropped E E' E2 tenantID name rate tokens models aliases t tenant :
accounts_ok t → tb_tenants t !! tenantID = Some tenant → LawfulAEAD string →
wp Direct E (CreateKey tenantID name rate tokens models aliases) t (λ r t1, match r with
  | Ok (item, _, plain) =>
      k_Enabled item = true ∧ k_ExpiresAt item = None ∧ k_TenantID item = tenantID ∧
      wp Direct E' (authenticate plain) t1 (λ r2 t2, t2 = t1 ∧ opens_for E' item tenant r2 t1) ∧
      wp Direct E' (RevealKey tenantID (k_ID item)) t1 (λ r2 t2, t2 = t1 ∧ (quiet E' → r2 = Ok plain)) ∧
      wp Direct E' (DeleteKey tenantID (k_ID item)) t1 (λ r2 t2, match r2 with
        | Ok _ => wp Direct E2 (authenticate plain) t2 (λ r3 t3, t3 = t2 ∧
                    r3 = Err (ErrMessage "invalid_api_key"))
        | Err _ => t2 = t1
        end)
  | Err _ => t1 = t
  end).
Proof.
  intros Hok Htenant Hlaw. eapply wp_mono; [by apply wp_CreateKey|].
  intros [[[item rows] plain]|e] t1; [|done]. intros Hc.
  pose proof (created_step _ _ _ _ _ Hok Hc) as [Hok1 _].
  destruct Hc as (_ & Hten & Hsrc & Hen & Hex & Hhash & [text ->] & (s & Hs & Hopen) & m & Ht1 & _).
  assert (Hitem : tb_api_keys t1 !! k_ID item = Some item) by (rewrite Ht1; apply lookup_insert_eq).
  split; [done|]. split; [done|]. split; [done|]. split; [|split].
  - eapply wp_mono; [apply (wp_authenticate _ _ _ (k_ID item) item tenant); [done|apply relay_not_access|done|done|]|].
    + by rewrite Ht1, Hten.
    + intros r t' [-> Hr]. split; [done|]. by apply admits_opens.
  - apply wp_bind, wp_map_error, wp_first_where.
    + cbn. intros k Hk _. assert (k = item) as -> by congruence. rewrite Hs, Hten. cbn.
      apply wp_bind, wp_guard.
      * intros _. change (id s) with s. rewrite (Hopen Hlaw). by apply wp_ret.
      * intros Hempty%negb_false_iff%bool_decide_eq_true. exfalso. specialize (Hopen Hlaw).
        change (id s) with s in Hempty. by rewrite Hempty in Hopen.
    + intros Hno. specialize (Hno _ Hitem). unfold own_manual_key in Hno.
      by rewrite Hten, Hsrc, !bool_decide_eq_true_2 in Hno.
    + intros _ Hq d. by split.
  - eapply wp_mono; [apply wp_DeleteKey, Hok1|]. intros [u|e] t2; [|by intros [-> _]].
    intros [_ ->]. apply wp_authenticate_unknown; [apply relay_not_access|].
    intros i k [Hi Hkept]%map_lookup_filter_Some Hkh. cbn in Hkept.
    destruct Hok1 as (_ & _ & [_ Hh _ _]).
    assert (i = k_ID item) as -> by (eapply (Hh i (k_ID item) k item); [done..| |done]; unfold hash_column; congruence).
    assert (k = item) as -> by congruence. by rewrite Hten, !bool_decide_eq_true_2 in Hkept.
Qed.

(** Keys answer to their owner only: an identifier that is not that of a key of the tenant
  (or, for reading and editing, of a key it made by hand) can be neither read nor edited nor
  dropped on its behalf; each attempt fails, as if there were no such key when the database
  answers, and changes nothing. *)
Theorem keys_answer_to_their_owner E tenantID id name enabled rate tokens models aliases t :
accounts_ok t →
((∀ k, tb_api_keys t !! id = Some k → own_manual_key tenantID k = false) →
   wp Direct E (RevealKey tenantID id) t (λ r t', t' = t ∧ ∃ e, r = Err e ∧ (quiet E → e = ErrNotFound)) ∧
   wp Direct E (UpdateKey tenantID id name enabled rate tokens models aliases) t (λ r t',
     t' = t ∧ ∃ e, r = Err e ∧ (quiet E → e = ErrNotFound))) ∧
((∀ k, tb_api_keys t !! id = Some k → k_TenantID k ≠ tenantID) →
   wp Direct E (DeleteKey tenantID id) t (λ r t', t' = t ∧ ∃ e, r = Err e ∧ (quiet E → e = ErrNotFound))).
Proof.
  intros Hok. split; [intros Hno; split|intros Hno].
  - by apply reveal_of_stranger.
  - eapply wp_mono; [by apply wp_UpdateKey|]. intros r t' [Ht' Hr]. split; [|by apply Hr].
    destruct Ht' as [?|[(k & Hk & Hown) _]]; [done|]. by rewrite (Hno _ Hk) in Hown.
  - eapply wp_mono; [apply wp_DeleteKey, Hok|]. intros [u|e] t'.
    + intros [(k & Hk & Hten) _]. by specialize (Hno _ Hk).
    + intros [-> He]. split; [done|]. by eexists.
Qed.
End keys.
