(* ===== verification/WebSocket.v ===== *)
(** * The bill of a WebSocket (internal/app/native_websocket.go)

    A WebSocket is one admitted request with many generations.  Two pumps relay
    its messages; under one lock they keep the account of the generation that is
    running, of those that wait for it, and of those that were charged.  Every
    generation is charged when its terminal event comes by, the session is settled
    with the sum when it closes. *)

From S2P Require Import Prelude.
From S2P Require Import Float64.
From S2P Require Import Cost.
From S2P Require Import Pricing.
From S2P Require Import Json.
From S2P Require Import Usage.
From S2P Require Import Database.
From S2P Require Import Schema.
From S2P Require Import ModelAccess.
From S2P Require Import RequestLogs.
From S2P Require Import Reservation.
From S2P Require Import Settlement.
From S2P Require Import Capture.
From S2P Require Import Requests.
From S2P Require Import Encoding.
From S2P Require Import DeviceGrants.
From S2P Require Import Passwords.
From S2P Require Import Accounts.

(** ** Frames

    gjson is code of a library: a class of its answers. *)
Record gjson_value := {
  g_Exists : bool;
  g_IsString : bool;
  g_IsFalse : bool;
  g_String : string;
  g_Bool : bool;
  g_Int : Z;
  g_Index : nat;
  g_Raw : string
}.
Class GJSON := gjson_get : string → string → gjson_value.

(* src/internal/app/request_meta.go:29-46 readRequestMeta *)
Definition readRequestMeta `{GJSON} (body : string) : requestMeta :=
  let text path := trim_space (g_String (gjson_get body path)) in
  let model := text "model" in
  let effort := text "reasoning_effort" in
  {| rm_Model := if bool_decide (model = "") then text "session.model" else model;
     rm_Stream := g_Bool (gjson_get body "stream");
     rm_ServiceTier := text "service_tier";
     rm_ReasoningEffort := if bool_decide (effort = "") then text "reasoning.effort" else effort;
     rm_ImageCount := g_Int (gjson_get body "n");
     rm_RequestedModel := ""; rm_ModelAlias := "";
     rm_Prewarm := g_IsFalse (gjson_get body "generate") |}.

(** The encoding of a text as a JSON string. *)
Definition json_escape (c : ascii) : string :=
  let n := Ascii.nat_of_ascii c in
  let backslash s := String (Ascii.ascii_of_nat 92) s in
  if bool_decide (n = 34 ∨ n = 92)%nat then backslash (String c "")
  else if bool_decide (n = 8)%nat then backslash "b"
  else if bool_decide (n = 9)%nat then backslash "t"
  else if bool_decide (n = 10)%nat then backslash "n"
  else if bool_decide (n = 12)%nat then backslash "f"
  else if bool_decide (n = 13)%nat then backslash "r"
  else if bool_decide (n < 32 ∨ n = 38 ∨ n = 60 ∨ n = 62)%nat then
    backslash ("u00" +:+ hex_string (String c ""))
  else String c "".

Fixpoint json_escaped (s : string) : string :=
  match s with EmptyString => "" | String c s => json_escape c +:+ json_escaped s end.

Definition quote : string := String (Ascii.ascii_of_nat 34) "".
Definition marshal_string (s : string) : string := quote +:+ json_escaped (valid_utf8 s) +:+ quote.

Definition splice (body : string) (at_ size : nat) (replacement : string) : string :=
  String.substring 0 at_ body +:+ replacement +:+
  String.substring (at_ + size) (String.length body - (at_ + size)) body.

(** The model of a frame is replaced in place. *)
(* src/internal/app/request_meta.go:125-151 rewriteRequestModel *)
Definition rewriteRequestModel `{GJSON} (body requested actual : string) : string :=
  if bool_decide (requested = "") || bool_decide (actual = "") || equal_fold requested actual then body
  else
    let result := gjson_get body "model" in
    let result := if g_Exists result then result else gjson_get body "session.model" in
    let end_ := (g_Index result + String.length (g_Raw result))%nat in
    if g_IsString result && bool_decide (0 < g_Index result)%nat &&
       equal_fold (trim_space (g_String result)) requested && bool_decide (end_ ≤ String.length body)%nat
    then splice body (g_Index result) (String.length (g_Raw result)) (marshal_string actual)
    else body.

(* src/internal/app/codex_quota.go:187-189 isCodexQuotaEvent *)
Definition isCodexQuotaEvent `{GJSON} (payload : string) : bool :=
  bool_decide (g_String (gjson_get payload "type") = "codex.rate_limits").

(** The type of an event, unless the frame is not JSON or the type not a text. *)
Definition event_type (payload : string) : option string := unmarshal_field "type" payload.

Definition terminal_types : list string :=
  ["error"; "response.failed"; "response.completed"; "response.incomplete"; "response.done"].

(* src/internal/app/native_websocket.go:848-861 isNativeWebSocketTerminalEvent *)
Definition isNativeWebSocketTerminalEvent (payload : string) : bool :=
  match event_type payload with Some t => bool_decide (t ∈ terminal_types) | None => false end.

(* src/internal/app/native_websocket.go:863-876 isNativeWebSocketUsageTerminalEvent *)
Definition isNativeWebSocketUsageTerminalEvent (payload : string) : bool :=
  match event_type payload with Some t => bool_decide (t ∈ terminal_types) | None => false end.

(* src/internal/app/native_websocket.go:833-846 parseNativeWebSocketUsage *)
Definition parseNativeWebSocketUsage `{FloatToInt} (payload : string) : Result :=
  match event_type payload with
  | Some t => if bool_decide (t ∈ terminal_types) then ParseResponse payload else empty_result
  | None => empty_result
  end.

(* src/internal/app/native_websocket.go:933-938 saturatingAdd *)
Definition ws_saturatingAdd (left right : Z) : Z :=
  if (0 <? right) && (max_int64 -₆₄ right <? left) then max_int64 else left +₆₄ right.

(* src/internal/app/native_websocket.go:914-931 mergeNativeWebSocketResult *)
Definition mergeNativeWebSocketResult (target turn : Result) : Result :=
  let or_old new old := if bool_decide (new = "") then old else new in
  let u := br_Usage target in
  let v := br_Usage turn in
  {| br_RequestID := or_old (br_RequestID turn) (br_RequestID target);
     br_Model := or_old (br_Model turn) (br_Model target);
     br_ResponseServiceTier := or_old (br_ResponseServiceTier turn) (br_ResponseServiceTier target);
     br_Usage := {| u_Prompt := ws_saturatingAdd (u_Prompt u) (u_Prompt v);
                    u_Completion := ws_saturatingAdd (u_Completion u) (u_Completion v);
                    u_Cached := ws_saturatingAdd (u_Cached u) (u_Cached v);
                    u_CacheWrite := ws_saturatingAdd (u_CacheWrite u) (u_CacheWrite v);
                    u_Reasoning := ws_saturatingAdd (u_Reasoning u) (u_Reasoning v);
                    u_Total := ws_saturatingAdd (u_Total u) (u_Total v);
                    u_ImageInput := u_ImageInput u; u_CachedImageInput := u_CachedImageInput u;
                    u_ImageOutput := u_ImageOutput u |};
     br_Found := br_Found target || br_Found turn;
     br_UsageQuality := br_UsageQuality target |}.

(** ** The account *)

(** One generation. *)
(* src/internal/app/native_websocket.go:58-71 nativeWebSocketBillingEntry *)
Record nativeWebSocketBillingEntry := {
  we_Meta : requestMeta;
  we_Result : Result;
  we_Payload : string;
  we_StartedAt : Z;
  we_CompletedAt : Z;
  we_ReadyAt : Z;
  we_FirstAt : Z;
  we_FirstTokenAt : Z;
  we_RequestBody : string;
  we_RequestBytes : Z;
  we_ForwardedBytes : Z;
  we_ResponseBytes : Z
}.

(** The generation that is running: [currentMeta] and the fields beside it. *)
Record step := {
  cs_Meta : requestMeta;
  cs_Started : Z;
  cs_Ready : Z;
  cs_First : Z;
  cs_FirstToken : Z;
  cs_Body : string;
  cs_Active : bool;
  cs_Request : Z;
  cs_Forwarded : Z;
  cs_Response : Z;
  cs_Model : string
}.
#[export] Instance step_eta : Eta step := λ r, Build_step (cs_Meta r) (cs_Started r) (cs_Ready r) (cs_First r)
  (cs_FirstToken r) (cs_Body r) (cs_Active r) (cs_Request r) (cs_Forwarded r) (cs_Response r) (cs_Model r).

(* src/internal/app/native_websocket.go:27-56 nativeWebSocketAccounting *)
Record nativeWebSocketAccounting := {
  na_admission : Admission;
  na_price : option SnapshotPrice;
  na_billable : bool;
  na_result : Result;
  na_error : option (Z * string);
  na_requestBytes : Z;
  na_forwardedBytes : Z;
  na_responseBytes : Z;
  na_terminalSeen : bool;
  na_turnsSeen : Z;
  na_accruedNanoUSD : Z;
  na_pricingComplete : bool;
  na_current : step;
  na_pending : list nativeWebSocketBillingEntry;
  na_seenTurns : gset string
}.
#[export] Instance accounting_eta : Eta nativeWebSocketAccounting := λ r, Build_nativeWebSocketAccounting
  (na_admission r) (na_price r) (na_billable r) (na_result r) (na_error r) (na_requestBytes r)
  (na_forwardedBytes r) (na_responseBytes r) (na_terminalSeen r) (na_turnsSeen r) (na_accruedNanoUSD r)
  (na_pricingComplete r) (na_current r) (na_pending r) (na_seenTurns r).

(* src/internal/app/native_websocket.go:73-81 startStep *)
Definition startStep (entry : nativeWebSocketBillingEntry) (a : nativeWebSocketAccounting)
    : nativeWebSocketAccounting :=
  a <| na_current :=
    {| cs_Meta := we_Meta entry; cs_Started := we_StartedAt entry; cs_Ready := we_ReadyAt entry; cs_First := 0;
       cs_FirstToken := 0; cs_Body := we_RequestBody entry; cs_Active := true;
       cs_Request := we_RequestBytes entry; cs_Forwarded := we_ForwardedBytes entry; cs_Response := 0;
       cs_Model := "" |} |>.

(** A generation starts, or waits for the one that runs. *)
(* src/internal/app/native_websocket.go:432-436 serveNativeWebSocket *)
Definition enqueue (entry : nativeWebSocketBillingEntry) (a : nativeWebSocketAccounting)
    : nativeWebSocketAccounting :=
  if cs_Active (na_current a) then a <| na_pending := na_pending a ++ [entry] |> else startStep entry a.

(** The session: what the handler knows of it from its admission on. *)
Record ws_session := {
  wss_requestID : string;
  wss_key : KeyContext;
  wss_aliases : list APIKeyModelAlias;
  wss_request : HTTPRequest;
  wss_bearer : string;
  wss_logContext : requestLogContext;
  wss_cfg : settings;
  wss_runtime : option runtime_usage;
  wss_quotaEvents : bool
}.

(** What surrounds a message: the prices in force, the catalog of the runtime, the
    parents of review sessions, the model a temporary credential is bound to, the
    captured detail, and whether the quota projection could be written. *)
Record surroundings := {
  sr_prices : price_service;
  sr_upstream_model : option (string → string → string);
  sr_review_model : string → string;
  sr_scope : option string;
  sr_detail : LogDetailInput;
  sr_timings : string;
  sr_quota_error : option string
}.

(** A pump forwards a payload, drops it, or stops with an error. *)
Inductive relayed :=
  | Forward (payload : string)
  | Drop
  | Stop (message : string).

Definition websocket_authorization : string :=
  "device authorization expired or was revoked; reconnect with a renewed access token".

Section websocket.
Context `{TimeZone} `{NameUUID} `{FloatToInt} `{StatusText} `{GJSON}.
Context `{Digest} `{AEAD plaintext} `{AEAD string} `{PasswordHashing}.

(** The key of a turn: its identifier, or a digest of its terminal event. *)
(* src/internal/app/native_websocket.go:485-488 serveNativeWebSocket *)
Definition turn_key (turn : Result) (payload : string) : string :=
let id := trim_space (br_RequestID turn) in
if bool_decide (id = "") then "sha256:" +:+ hex_string (sha256 payload) else id.

(* src/internal/app/native_websocket.go:134-138 persistNativeWebSocketTurn *)
Definition failed_event (payload : string) : bool :=
bool_decide (event_type payload = Some "error" ∨ event_type payload = Some "response.failed").

(** The charge of a turn: none for a failure, whatever usage it reports. *)
(* src/internal/app/native_websocket.go:147-170 persistNativeWebSocketTurn *)
Definition assess_turn (s : ws_session) (prices : price_service) (a : nativeWebSocketAccounting)
  (entry : nativeWebSocketBillingEntry) : option SnapshotPrice * Z * bool :=
let turn := we_Result entry in
let meta := we_Meta entry in
let turnPrice :=
  if NonGenerated turn then None
  else prices {| d_APIGroupKey := k_ID (kc_APIKey (wss_key s)); d_Model := rm_Model meta; d_ModelAlias := "";
                 d_AuthIndex := admissionAuthIndex (na_admission a); d_ServiceTier := rm_ServiceTier meta;
                 d_ResponseServiceTier := br_ResponseServiceTier turn;
                 d_ReasoningEffort := rm_ReasoningEffort meta; d_Endpoint := hr_Path (wss_request s);
                 d_ExecutorType := ""; d_PromptTokens := u_Prompt (br_Usage turn) |} in
let '(turnCost, turnComplete) :=
  if na_billable a
  then (as_CostNanoUSD (Assess turn turnPrice), as_Complete (Assess turn turnPrice))
  else (0, NonGenerated turn) in
if failed_event (we_Payload entry) then (turnPrice, 0, true) else (turnPrice, turnCost, turnComplete).

(** The log of a turn. *)
(* src/internal/app/native_websocket.go:183-215 persistNativeWebSocketTurn *)
Definition turn_context (s : ws_session) (sr : surroundings) (entry : nativeWebSocketBillingEntry)
  (turnPrice : option SnapshotPrice) (turnCompleted : Z) (status : Z) (stepID : string) : requestLogContext :=
let c := wss_logContext s in
let code := if bool_decide (event_type (we_Payload entry) = Some "response.incomplete")
            then "response_incomplete"
            else if failed_event (we_Payload entry) then "upstream_response_failed" else lc_errorCode c in
let elapsed at_ := if at_ =? 0 then None else Some (Z.quot (time_sub at_ (we_StartedAt entry)) 1000000) in
let c := c <| lc_price := turnPrice; lc_requestBytes := we_RequestBytes entry;
              lc_forwardedBytes := we_ForwardedBytes entry; lc_responseBytes := we_ResponseBytes entry;
              lc_completedAt := turnCompleted |> in
let c := c <| lc_errorCode := code; lc_stageTimings := sr_timings sr |> in
c <| lc_firstTokenMS := match elapsed (we_FirstTokenAt entry) with Some e => Some e | None => lc_firstTokenMS c end;
     lc_ttftMS := match elapsed (we_FirstAt entry) with Some e => Some e | None => lc_ttftMS c end;
     lc_detail := if shouldRetainRequestDetail stepID status code (cfg_RequestSuccessSamplePPM (wss_cfg s))
                  then Some (sr_detail sr) else @None LogDetailInput |>.

(* src/internal/app/native_websocket.go:130-240 persistNativeWebSocketTurn *)
Definition persistNativeWebSocketTurn (s : ws_session) (sr : surroundings) (entry : nativeWebSocketBillingEntry)
  (a : nativeWebSocketAccounting) : DB (result bool * nativeWebSocketAccounting) :=
let turn := we_Result entry in
let meta := we_Meta entry in
let '(turnPrice, turnCost, turnComplete) := assess_turn s (sr_prices sr) a entry in
let failed := failed_event (we_Payload entry) in
let status := if failed then 502 else 200 in
let aggregateComplete :=
  if 0 <? na_turnsSeen a then na_pricingComplete a && turnComplete else turnComplete in
let aggregateCost := ws_saturatingAdd (na_accruedNanoUSD a) turnCost in
let turnID := turn_key turn (we_Payload entry) in
turnCompleted ← (if we_CompletedAt entry =? 0 then time_now else mret (we_CompletedAt entry));
let stepID := WebSocketStepID (wss_requestID s) turnID in
let errorMessage := if failed then upstreamErrorMessage status (we_Payload entry) else "" in
input ← requestLogInput (wss_key s) stepID (na_admission a) meta (wss_request s) status (we_StartedAt entry)
          (Some turn) turnComplete true turnCost errorMessage
          (turn_context s sr entry turnPrice turnCompleted status stepID);
let input := (input : LogInput) <| li_ReservationRequestID := wss_requestID s |> in
let input := input <| li_Texts := (li_Texts input) <| lt_Stream := true |> |> in
inserted ← attempt (AccrueWebSocketTurn {|
  ws_RequestID := wss_requestID s; ws_TurnID := turnID; ws_Model := rm_Model meta; ws_Usage := br_Usage turn;
  ws_CostNanoUSD := turnCost; ws_PricingComplete := turnComplete; ws_RequestBodyBytes := we_RequestBytes entry;
  ws_ResponseBodyBytes := we_ResponseBytes entry;
  ws_LatencyMS := Z.quot (time_sub turnCompleted (we_StartedAt entry)) 1000000;
  ws_StartedAt := we_StartedAt entry; ws_CompletedAt := turnCompleted; ws_Log := input |});
match inserted with
| Ok true =>
    mret (Ok true, a <| na_turnsSeen := na_turnsSeen a +₆₄ 1; na_accruedNanoUSD := aggregateCost;
                        na_pricingComplete := aggregateComplete; na_price := turnPrice |>)
| _ => mret (inserted, a)
end.

(** ** The client's messages *)

Definition detail_limit (payload : string) : string := String.substring 0 requestLogDetailLimit payload.
Definition size (payload : string) : Z := Z.of_nat (String.length payload).

(** A frame that is forwarded with the request it makes, or refused; [inl] carries
  the request that was refused, whether it begins a generation and the reason. *)
Definition prepared := (requestMeta * bool * string + string * requestMeta * bool)%type.

(** An access token is looked up again for every generation. *)
(* src/internal/app/native_websocket.go:720-726 prepareNativeWebSocketRequest *)
Definition current_key (s : ws_session) : DB (option (KeyContext * list APIKeyModelAlias)) :=
if has_prefix (wss_bearer s) access_prefix then
  current ← attempt (authenticate (wss_bearer s));
  mret (match current with Ok key => Some key | Err _ => None end)
else mret (Some (wss_key s, wss_aliases s)).

(* src/internal/app/native_websocket.go:764-778 prepareNativeWebSocketRequest *)
Definition upstream_rewrite (sr : surroundings) (a : nativeWebSocketAccounting) (payload : string)
  (requested model : string) : string :=
match sr_upstream_model sr with
| Some resolve =>
    let upstreamModel := resolve (ad_UpstreamCredentialID (na_admission a)) model in
    if bool_decide (requested = "") || bool_decide (upstreamModel = "") || bool_decide (upstreamModel = requested)
    then payload else rewriteRequestModel payload requested upstreamModel
| None => payload
end.

(** The model a frame asks for, checked against the key and the scope. *)
(* src/internal/app/native_websocket.go:732-754 prepareNativeWebSocketRequest *)
Definition frame_model (sr : surroundings) (key : KeyContext) (aliases : list APIKeyModelAlias)
  (frameMeta nextMeta : requestMeta) : requestMeta + string :=
if bool_decide (rm_Model frameMeta = "") then inl nextMeta
else
  let resolved := resolveAPIKeyModel (rm_Model frameMeta) aliases in
  let scoped := match sr_scope sr with Some model => negb (equal_fold resolved.1 model) | None => false end in
  if scoped then inr "realtime client secret cannot change its scoped model"
  else
    let resolved :=
      if bool_decide (resolved.2 = "") then
        let model := sr_review_model sr resolved.1 in
        (model, if equal_fold model (rm_Model frameMeta) then "" else rm_Model frameMeta)
      else resolved in
    if negb (key_AllowsModel key resolved.1) then inr "API key is not allowed to use this model"
    else inl (nextMeta <| rm_Model := resolved.1; rm_RequestedModel := trim_space (rm_Model frameMeta);
                          rm_ModelAlias := resolved.2 |>).

(** A session keeps the model it was admitted with. *)
(* src/internal/app/native_websocket.go:702-714 prepareNativeWebSocketRequest *)
Definition session_update (s : ws_session) (payload : string) (a : nativeWebSocketAccounting) : prepared :=
let currentMeta := cs_Meta (na_current a) in
let update := readRequestMeta payload in
let resolved := resolveAPIKeyModel (rm_Model update) (wss_aliases s) in
if bool_decide (rm_Model update = "") then inr (payload, currentMeta, false)
else if negb (equal_fold resolved.1 (rm_Model currentMeta)) then
  inl (currentMeta, false, "session.update cannot change the admitted model")
else if bool_decide (rm_Model update = resolved.1) then inr (payload, currentMeta, false)
else inr (rewriteRequestModel payload (rm_Model update) resolved.1, currentMeta, false).

(** A generation inherits from the one before it what its frame does not say. *)
(* src/internal/app/native_websocket.go:718-780 prepareNativeWebSocketRequest *)
Definition response_create (s : ws_session) (sr : surroundings) (payload : string) (a : nativeWebSocketAccounting)
  : DB prepared :=
let currentMeta := cs_Meta (na_current a) in
key ← current_key s;
match (key : option (KeyContext * list APIKeyModelAlias)) with
| None => mret (inl (currentMeta, true, websocket_authorization))
| Some (key, aliases) =>
    let frameMeta := readRequestMeta payload in
    let nextMeta := match list.last (na_pending a) with Some entry => we_Meta entry | None => currentMeta end in
    match frame_model sr key aliases frameMeta nextMeta with
    | inr message => mret (inl (nextMeta, true, message))
    | inl nextMeta =>
        let new_or_old new old := if bool_decide (new = "") then old else new in
        let nextMeta : requestMeta := nextMeta <|
          rm_ServiceTier := new_or_old (rm_ServiceTier frameMeta) (rm_ServiceTier nextMeta);
          rm_ReasoningEffort := new_or_old (rm_ReasoningEffort frameMeta) (rm_ReasoningEffort nextMeta);
          rm_Stream := true; rm_Prewarm := rm_Prewarm frameMeta |> in
        mret (inr (upstream_rewrite sr a payload (rm_Model frameMeta) (rm_Model nextMeta), nextMeta, true))
    end
end.

(* src/internal/app/native_websocket.go:694-780 prepareNativeWebSocketRequest *)
Definition prepareNativeWebSocketRequest (s : ws_session) (sr : surroundings) (payload : string)
  (a : nativeWebSocketAccounting) : DB prepared :=
if bool_decide (event_type payload = Some "session.update") then mret (session_update s payload a)
else if bool_decide (event_type payload = Some "response.create") then response_create s sr payload a
else mret (inr (payload, cs_Meta (na_current a), false)).

(** A refused frame still begins a step, which is never charged: the session ends. *)
(* src/internal/app/native_websocket.go:408-441 serveNativeWebSocket *)
Definition from_client (s : ws_session) (sr : surroundings) (payload : string) (a : nativeWebSocketAccounting)
  : DB (relayed * nativeWebSocketAccounting) :=
receivedAt ← time_now;
let a := a <| na_requestBytes := na_requestBytes a +₆₄ size payload |> in
frame ← prepareNativeWebSocketRequest s sr payload a;
match (frame : prepared) with
| inl (nextMeta, _, message) =>
    let error := if bool_decide (message = websocket_authorization) then (401, "invalid_api_key")
                 else (400, "invalid_request") in
    let rejected := {| we_Meta := nextMeta; we_Result := empty_result; we_Payload := ""; we_StartedAt := receivedAt;
      we_CompletedAt := 0; we_ReadyAt := 0; we_FirstAt := 0; we_FirstTokenAt := 0;
      we_RequestBody := detail_limit payload; we_RequestBytes := size payload; we_ForwardedBytes := 0;
      we_ResponseBytes := 0 |} in
    mret (Stop message, enqueue rejected (a <| na_error := Some error |>))
| inr (forwarded, nextMeta, startsTurn) =>
    let a := a <| na_forwardedBytes := na_forwardedBytes a +₆₄ size forwarded |> in
    if (startsTurn : bool) then
      readyAt ← time_now;
      mret (Forward forwarded, enqueue {| we_Meta := nextMeta; we_Result := empty_result; we_Payload := "";
        we_StartedAt := receivedAt; we_CompletedAt := 0; we_ReadyAt := readyAt; we_FirstAt := 0;
        we_FirstTokenAt := 0; we_RequestBody := detail_limit payload; we_RequestBytes := size payload;
        we_ForwardedBytes := size forwarded; we_ResponseBytes := 0 |} a)
    else
      let c := na_current a in
      mret (Forward forwarded, a <| na_current := c <| cs_Request := cs_Request c +₆₄ size payload;
                                                       cs_Forwarded := cs_Forwarded c +₆₄ size forwarded |> |>)
end.

(** ** The messages of the upstream *)

(** The usage that a terminal event reports: the runtime's own count if there is a
  runtime, which needs the identifier of the response to find it. *)
(* src/internal/app/native_websocket.go:473-484 serveNativeWebSocket *)
Definition terminal_usage (s : ws_session) (c : step) (payload : string) : Result :=
let turn := parseNativeWebSocketUsage payload in
let turn :=
  if bool_decide (is_Some (wss_runtime s)) && bool_decide (br_RequestID turn = "")
  then turn <| br_Found := false; br_Usage := zero_usage |>
  else cpaBillingUsage (wss_runtime s) (wss_requestID s) (br_RequestID turn) (hr_Path (wss_request s))
         (cs_Meta c) turn in
if bool_decide (br_Model turn = "") then turn <| br_Model := cs_Model c |> else turn.

(** A realtime session announces generations that no frame asked for. *)
(* src/internal/app/native_websocket.go:454-461 serveNativeWebSocket *)
Definition announce_step (s : ws_session) (payload : string) (observedAt : Z) (a : nativeWebSocketAccounting)
  : nativeWebSocketAccounting :=
if negb (cs_Active (na_current a)) && isRealtimeWebSocketPath (hr_Path (wss_request s)) &&
   bool_decide (event_type payload = Some "response.created")
then startStep {| we_Meta := cs_Meta (na_current a); we_Result := empty_result; we_Payload := "";
       we_StartedAt := observedAt; we_CompletedAt := 0; we_ReadyAt := observedAt; we_FirstAt := 0;
       we_FirstTokenAt := 0; we_RequestBody := ""; we_RequestBytes := 0; we_ForwardedBytes := 0;
       we_ResponseBytes := 0 |} a
else a.

(* src/internal/app/native_websocket.go:466-470 serveNativeWebSocket *)
Definition note_model (payload : string) (a : nativeWebSocketAccounting) : nativeWebSocketAccounting :=
let model := br_Model (ParseResponse payload) in
if contains payload (quote +:+ "model" +:+ quote) && negb (bool_decide (model = ""))
then a <| na_current := (na_current a) <| cs_Model := model |> |> else a.

(* src/internal/app/native_websocket.go:493-501 serveNativeWebSocket *)
Definition note_response (generated : bool) (payload : string) (observedAt : Z) (a : nativeWebSocketAccounting)
  : nativeWebSocketAccounting :=
let c := na_current a in
let c := c <| cs_FirstToken := if (cs_FirstToken c =? 0) && generated then observedAt else cs_FirstToken c;
              cs_First := if cs_First c =? 0 then observedAt else cs_First c;
              cs_Response := cs_Response c +₆₄ size payload |> in
a <| na_current := c; na_responseBytes := na_responseBytes a +₆₄ size payload;
     na_terminalSeen := na_terminalSeen a || isNativeWebSocketTerminalEvent payload |>.

(** The turn is done: the next one that waits begins. *)
(* src/internal/app/native_websocket.go:531-538 serveNativeWebSocket *)
Definition finish_step (key : string) (a : nativeWebSocketAccounting) : nativeWebSocketAccounting :=
let a := a <| na_seenTurns := {[key]} ∪ na_seenTurns a;
              na_current := (na_current a) <| cs_Active := false |> |> in
match na_pending a with
| [] => a
| next :: pending => startStep next (a <| na_pending := pending |>)
end.

(* src/internal/app/native_websocket.go:508-512 serveNativeWebSocket *)
Definition current_entry (turn : Result) (payload : string) (observedAt : Z) (c : step)
  : nativeWebSocketBillingEntry :=
{| we_Meta := cs_Meta c; we_Result := turn; we_Payload := payload; we_StartedAt := cs_Started c;
   we_CompletedAt := observedAt; we_ReadyAt := cs_Ready c; we_FirstAt := cs_First c;
   we_FirstTokenAt := cs_FirstToken c; we_RequestBody := cs_Body c; we_RequestBytes := cs_Request c;
   we_ForwardedBytes := cs_Forwarded c; we_ResponseBytes := cs_Response c |}.

(** [generated]: the event carries generated output ([hasGeneratedDelta]). *)
(* src/internal/app/native_websocket.go:446-548 serveNativeWebSocket *)
Definition from_upstream (s : ws_session) (sr : surroundings) (generated : bool) (payload : string)
  (a : nativeWebSocketAccounting) : DB (relayed * nativeWebSocketAccounting) :=
if isCodexQuotaEvent payload then mret (Drop, a)
else
  observedAt ← time_now;
  let a := announce_step s payload observedAt a in
  if negb (cs_Active (na_current a)) then mret (Forward payload, a)
  else
    let terminal := isNativeWebSocketUsageTerminalEvent payload in
    let a := note_model payload a in
    let turn := if terminal then terminal_usage s (na_current a) payload else empty_result in
    let key := if terminal then turn_key turn payload else "" in
    if terminal && bool_decide (key ∈ na_seenTurns a) then mret (Forward payload, a)
    else
      let a := note_response generated payload observedAt a in
      if negb terminal then mret (Forward payload, a)
      else
        let cumulative := mergeNativeWebSocketResult (na_result a) turn in
        persisted ← persistNativeWebSocketTurn s sr (current_entry turn payload observedAt (na_current a)) a;
        let '(inserted, a) := (persisted : result bool * nativeWebSocketAccounting) in
        match inserted with
        | Err _ => mret (Stop "persist websocket terminal usage", a)
        | Ok false => mret (Forward payload, a)
        | Ok true =>
            let a := (finish_step key a) <| na_result := cumulative |> in
            match sr_quota_error sr with
            | Some e => if wss_quotaEvents s then mret (Stop e, a) else mret (Forward payload, a)
            | None => mret (Forward payload, a)
            end
        end.

(** ** The session *)

(* src/internal/app/native_websocket.go:99-99 handleWebSocket *)
Definition open_accounting (admission : Admission) (price : option SnapshotPrice) (billable : bool)
  : nativeWebSocketAccounting :=
{| na_admission := admission; na_price := price; na_billable := billable; na_result := empty_result;
   na_error := None; na_requestBytes := 0; na_forwardedBytes := 0; na_responseBytes := 0;
   na_terminalSeen := false; na_turnsSeen := 0; na_accruedNanoUSD := 0; na_pricingComplete := false;
   na_current := {| cs_Meta := Build_requestMeta "" false "" "" 0 "" "" false; cs_Started := 0; cs_Ready := 0;
     cs_First := 0; cs_FirstToken := 0; cs_Body := ""; cs_Active := false; cs_Request := 0; cs_Forwarded := 0;
     cs_Response := 0; cs_Model := "" |};
   na_pending := []; na_seenTurns := ∅ |}.

(** The first frame begins the first generation. *)
(* src/internal/app/native_websocket.go:344-350 serveNativeWebSocket *)
Definition first_step (meta : requestMeta) (receivedAt : Z) (frame forwarded : string) (a : nativeWebSocketAccounting)
  : nativeWebSocketAccounting :=
let c := na_current a in
let c := c <| cs_Meta := meta; cs_Started := receivedAt; cs_Active := true; cs_Body := detail_limit frame |> in
a <| na_current := c <| cs_Request := size frame; cs_Forwarded := size forwarded; cs_Response := 0 |>;
     na_requestBytes := size frame |>.

(** When the session closes, only what was charged turn by turn remains. *)
(* src/internal/app/native_websocket.go:105-113 handleWebSocket *)
Definition close_session (s : ws_session) (established : bool) (a : nativeWebSocketAccounting)
  : DB (result unit) :=
if na_billable a then
  if established then attempt (SettleRequestReservation (wss_requestID s) (na_accruedNanoUSD a) true)
  else attempt (ReleaseRequestReservation (wss_requestID s))
else mret (Ok ()).
End websocket.
