(* ===== verification/WebSocketGuarantees.v ===== *)
(** * What a WebSocket costs

    A session is settled with the sum of the turns it was charged, each of them
    once; generations are billed in the order in which they began; and two equal
    failures without an identifier are taken for one. *)

From S2P Require Import Prelude.
From S2P Require Import Float64.
From S2P Require Import Cost.
From S2P Require Import Pricing.
From S2P Require Import Json.
From S2P Require Import Usage.
From S2P Require Import Database.
From S2P Require Import Schema.
From S2P Require Import ModelAccess.
From S2P Require Import RequestLogs.
From S2P Require Import Reservation.
From S2P Require Import Settlement.
From S2P Require Import Requests.
From S2P Require Import Books.
From S2P Require Import Accounting.
From S2P Require Import SubscriptionBooks.
From S2P Require Import Encoding.
From S2P Require Import DeviceGrants.
From S2P Require Import Passwords.
From S2P Require Import Accounts.
From S2P Require Import Effects.
From S2P Require Import RequestGuarantees.
From S2P Require Import Machine.
From S2P Require Import History.
From S2P Require Import WebSocket.

Lemma preserves_any_order {T A} x E (I : T → Prop) (l : list A) : preserves x E I (any_order l).
Proof. intros t Ht n. by right. Qed.
#[local] Hint Resolve preserves_any_order : preserves.

Section session.
Context `{TimeZone} `{NameUUID} `{FloatToInt} `{StatusText} `{GJSON}.
Context `{Digest} `{AEAD plaintext} `{AEAD string} `{PasswordHashing}.
Context (E : env).

(** ** The client's side writes nothing *)

Lemma reads_authenticate t plain : preserves Direct E (λ t', t' = t) (authenticate plain).
Proof. unfold authenticate, ResolveKey, named_key, joined_key, RAIOAuthSession_, aliases_of, ActiveSubscriptionModelGrants. preserve. Qed.

Lemma reads_prepare t s sr payload a : preserves Direct E (λ t', t' = t) (prepareNativeWebSocketRequest s sr payload a).
Proof.
pose proof (reads_authenticate t (wss_bearer s)).
unfold prepareNativeWebSocketRequest, response_create, current_key. preserve.
Qed.

(** ** The generations of a session, in order *)

(** The one that runs and those that wait. *)
Definition queue (a : nativeWebSocketAccounting) : list requestMeta :=
(if cs_Active (na_current a) then [cs_Meta (na_current a)] else []) ++ (we_Meta <$> na_pending a).

(** Nothing waits while nothing runs. *)
Definition in_order (a : nativeWebSocketAccounting) : Prop := cs_Active (na_current a) = false → na_pending a = [].

(** What the charges of the session come to. *)
Record same_charges (a a' : nativeWebSocketAccounting) : Prop := {
sc_accrued : na_accruedNanoUSD a' = na_accruedNanoUSD a;
sc_billable : na_billable a' = na_billable a;
sc_seen : na_seenTurns a' = na_seenTurns a;
sc_admission : na_admission a' = na_admission a
}.

Lemma enqueue_spec entry a : in_order a →
in_order (enqueue entry a) ∧ same_charges a (enqueue entry a) ∧
queue (enqueue entry a) = queue a ++ [we_Meta entry].
Proof.
intros Ho. unfold enqueue, startStep, in_order, queue in *.
destruct (cs_Active (na_current a)) eqn:Ha; cbn; rewrite ?Ha.
- split; [done|]. split; [done|]. by rewrite fmap_app.
- rewrite Ho by done. by split.
Qed.

Lemma wp_from_client s sr payload a t : in_order a →
wp Direct E (from_client s sr payload a) t (λ r t', t' = t ∧
  ∀ out a', r = Ok (out, a') → in_order a' ∧ same_charges a a' ∧ ∃ l, queue a' = queue a ++ l).
Proof.
intros Ho. unfold from_client. apply wp_bind, wp_now. intros receivedAt. apply wp_bind.
eapply wp_mono; [apply (reads_prepare t); done|]. intros [[[[nextMeta st] message]|[[fwd nextMeta] st]]|e] t' ->; [| |done].
- apply wp_ret. split; [done|]. intros out a' [= _ <-].
  match goal with |- in_order (enqueue ?e ?a1) ∧ _ => destruct (enqueue_spec e a1) as (? & [] & Hq); [done|] end.
  split; [done|]. split; [by split|]. eexists. exact Hq.
- destruct st.
  + apply wp_bind, wp_now. intros readyAt. apply wp_ret. split; [done|]. intros out a' [= _ <-].
    match goal with |- in_order (enqueue ?e ?a1) ∧ _ => destruct (enqueue_spec e a1) as (? & [] & Hq); [done|] end.
    split; [done|]. split; [by split|]. eexists. exact Hq.
  + apply wp_ret. split; [done|]. intros out a' [= _ <-]. split; [done|]. split; [done|].
    exists []. by rewrite app_nil_r.
Qed.

(** ** The charge of a turn *)

(** What the turns of a session were charged. *)
Definition spent (id : string) (t : tables) : Z := sum_map wt_CostNanoUSD (own_turns id t).

(** The reservation of the session is still open; [charged] was charged to it so far. *)
Definition open_for (id : string) (charged : Z) (t : tables) : Prop :=
∃ r, tb_reservations t !! id = Some r ∧ is_active r = true ∧ default 0 (r_ActualNanoUSD r) = charged.

(** The reservation has ended, or is gone. *)
Definition over (id : string) (t : tables) : Prop := ∀ r, tb_reservations t !! id = Some r → is_active r = false.

Lemma over_open id charged t : over id t → open_for id charged t → False.
Proof. intros Ho (r & Hr & Ha & _). by rewrite (Ho r Hr) in Ha. Qed.

(** A turn of [cost] was charged and filed under its key, with its model and usage. *)
Record turn_charged (id key model : string) (usage : Usage) (cost : Z) (t t' : tables) : Prop := {
tc_positive : 0 < cost;
tc_books : books t';
tc_open : ∃ charged charged', open_for id charged t ∧ open_for id charged' t' ∧
  (0 ≤ charged → charged + cost ≤ max_int64 → charged' = charged + cost);
tc_turn : ∃ row, wt_CostNanoUSD row = cost ∧ wt_Model row = trim_space model ∧ wt_Usage row = usage ∧
  tb_turns t !! (id, key) = None ∧
  tb_turns t' = <[(id, key) := row]> (tb_turns t)
}.

(** The account after a turn that counted. *)
Definition counted (a : nativeWebSocketAccounting) (price : option SnapshotPrice) (cost : Z) (complete : bool)
  : nativeWebSocketAccounting :=
a <| na_turnsSeen := na_turnsSeen a +₆₄ 1; na_accruedNanoUSD := ws_saturatingAdd (na_accruedNanoUSD a) cost;
     na_pricingComplete := if 0 <? na_turnsSeen a then na_pricingComplete a && complete else complete;
     na_price := price |>.

Lemma turn_charged_spent id key model usage cost t t' : turn_charged id key model usage cost t t' → spent id t' = spent id t + cost.
Proof.
intros [_ _ _ (row & Hcost & _ & _ & Hnone & Ht')]. unfold spent, own_turns. rewrite Ht', map_filter_insert_True by done.
rewrite sum_map_insert; [by rewrite Hcost, Z.add_comm|]. apply map_lookup_filter_None. by left.
Qed.

(** Nothing is charged to a reservation that is over. *)
Lemma accrue_over input t : over (ws_RequestID input) t →
wp Direct E (AccrueWebSocketTurn input) t (λ r t', t' = t ∧ (r = Ok true → ws_CostNanoUSD input = 0)).
Proof.
intros Hover. unfold AccrueWebSocketTurn. apply wp_bind, wp_guard; [intros _|done]. apply wp_bind, wp_guard; [intros _|done].
destruct (Z.eqb_spec (ws_CostNanoUSD input) 0) as [Hz|_]; [by apply wp_ret|].
eapply wp_mono; [apply (same_transaction _ _ _ _ (λ _, False))|by intros [b|e] t' []].
step_success. apply success_map_error, success_first. intros r Hr. cbn in Hr. apply success_bind. step_success.
by rewrite (Hover r Hr) in *.
Qed.

Lemma wp_accrue input t (Q : result bool → tables → Prop) :
over (ws_RequestID input) t ∨ books t → (∀ r, r ≠ Ok true → Q r t) → (ws_CostNanoUSD input = 0 → Q (Ok true) t) →
(∀ t', turn_charged (ws_RequestID input) (trim_space (ws_TurnID input)) (ws_Model input) (ws_Usage input)
   (ws_CostNanoUSD input) t t' → Q (Ok true) t') →
wp Direct E (AccrueWebSocketTurn input) t Q.
Proof.
intros [Hover|Hb] Hno Hfree Hcharge.
{ eapply wp_mono; [by apply accrue_over|]. intros r t' [-> Hr].
  destruct r as [[]|e]; [by apply Hfree, Hr|by apply Hno..]. }
apply wp_AccrueWebSocketTurn; [done..|].
intros r tenant entryID row t3 t1 t2 Hconf Hcost Hr Hid Ha Hkey Hrow Hnone Hb1 Hpay Hok Hs Ht.
rewrite Hkey in Hnone. apply Hcharge. split.
- unfold confirmed in Hconf. destruct (Z.ltb_spec (ws_CostNanoUSD input) 0); [done|lia].
- eapply books_same_money; [exact Hs|]. apply books_charge; try done. by rewrite Hid.
- destruct (charge_tables t1 r tenant _ _ entryID Ha Hpay Hok) as [Hres _].
  destruct (accrued_same r (ws_CostNanoUSD input) (ws_PricingComplete input) Ha) as (Hid' & _ & _ & Ha' & _ & _ & Hact).
  exists (default 0 (r_ActualNanoUSD r)), (default 0 (r_ActualNanoUSD (accrued r (ws_CostNanoUSD input) (ws_PricingComplete input)))).
  split; [by exists r|]. split.
  + exists (accrued r (ws_CostNanoUSD input) (ws_PricingComplete input)).
    rewrite (sm_reservations _ _ Hs). unfold t2. rewrite Hres, Hid', Hid, lookup_insert_eq. done.
  + intros Hpos Hmax. rewrite Hact. destruct (r_ActualNanoUSD r) as [before|]; cbn in *; [|lia].
    assert (0 ≤ ws_CostNanoUSD input) by (unfold confirmed in Hconf; destruct (Z.ltb_spec (ws_CostNanoUSD input) 0); done || lia).
    unfold add64. rewrite wrap64_id; int64_lia.
- destruct Hrow as (? & ? & ?). exists row. rewrite Ht. split_and!; [done..|]. unfold t2, charge_spec. rewrite <- Hkey. by destruct tenant.
Qed.

Lemma wp_persist s sr entry a t (Q : result (result bool * nativeWebSocketAccounting) → tables → Prop) price cost complete :
over (wss_requestID s) t ∨ books t → assess_turn s (sr_prices sr) a entry = (price, cost, complete) →
(∀ r, r ≠ Ok true → Q (Ok (r, a)) t) →
(cost = 0 → Q (Ok (Ok true, counted a price cost complete)) t) →
(∀ t', turn_charged (wss_requestID s) (trim_space (turn_key (we_Result entry) (we_Payload entry)))
   (rm_Model (we_Meta entry)) (br_Usage (we_Result entry)) cost t t' →
   Q (Ok (Ok true, counted a price cost complete)) t') →
wp Direct E (persistNativeWebSocketTurn s sr entry a) t Q.
Proof.
intros Hb Hassess Hno Hfree Hcharge. unfold persistNativeWebSocketTurn. rewrite Hassess. apply wp_bind.
apply (wp_mono _ _ _ _ (λ (r : result Z) (t' : tables), t' = t ∧ ∃ now, r = Ok now)).
{ destruct (we_CompletedAt entry =? 0); [apply wp_now; eauto|apply wp_ret; eauto]. }
intros r t' [-> [completed ->]]. unfold requestLogInput. apply wp_bind, wp_bind.
apply (wp_mono _ _ _ _ (λ (r : result Z) (t' : tables), t' = t ∧ ∃ now, r = Ok now)).
{ case_match; [apply wp_now; eauto|apply wp_ret; eauto]. }
intros r t' [-> [stamped ->]]. apply wp_ret. apply wp_bind, wp_attempt.
apply wp_accrue; cbn [ws_CostNanoUSD ws_RequestID ws_TurnID ws_Model ws_Usage]; [done| | |].
- intros [[]|e] Hr; [done|by apply wp_ret, Hno|by apply wp_ret, Hno].
- intros ->. by apply wp_ret, Hfree.
- intros t' Ht'. by apply wp_ret, Hcharge.
Qed.

(** ** The upstream's side *)

(** An event that charges nothing: at most a generation is announced. *)
Record unbilled (a a' : nativeWebSocketAccounting) (t t' : tables) : Prop := {
qt_tables : t' = t;
qt_charges : same_charges a a';
qt_queue : ∃ l, queue a' = queue a ++ l
}.

(** A terminal event that counts: the generation at the head of the queue is charged
  and leaves it. *)
Record billed (s : ws_session) (prices : price_service) (payload : string) (a a' : nativeWebSocketAccounting)
  (t t' : tables) : Prop := {
bl_turn : ∃ m q l entry price cost complete a1,
  queue a ++ l = m :: q ∧ queue a' = q ∧ we_Meta entry = m ∧ we_Payload entry = payload ∧
  (∃ c, we_Result entry = terminal_usage s c payload) ∧ turn_key (we_Result entry) payload ∈ na_seenTurns a' ∧
  same_charges a a1 ∧
  assess_turn s prices a1 entry = (price, cost, complete) ∧
  na_accruedNanoUSD a' = ws_saturatingAdd (na_accruedNanoUSD a) cost ∧
  (cost = 0 ∧ t' = t ∨
   turn_charged (wss_requestID s) (trim_space (turn_key (we_Result entry) payload)) (rm_Model m)
     (br_Usage (we_Result entry)) cost t t');
bl_billable : na_billable a' = na_billable a;
bl_admission : na_admission a' = na_admission a
}.

Lemma announce_spec s payload at_ a : in_order a →
in_order (announce_step s payload at_ a) ∧ same_charges a (announce_step s payload at_ a) ∧
∃ l, queue (announce_step s payload at_ a) = queue a ++ l.
Proof.
intros Ho. unfold announce_step. case_match eqn:Hc; [|split_and!; [done..|exists []; by rewrite app_nil_r]].
apply andb_true_iff in Hc as [[Hc _]%andb_true_iff _]. apply negb_true_iff in Hc.
split; [by unfold in_order|]. split; [done|]. unfold queue. rewrite Hc, Ho by done. cbn. by eexists.
Qed.

(** What is noted of an event changes neither the charges nor the queue. *)
Definition noted (a a' : nativeWebSocketAccounting) : Prop :=
same_charges a a' ∧ na_pending a' = na_pending a ∧ cs_Active (na_current a') = cs_Active (na_current a) ∧
cs_Meta (na_current a') = cs_Meta (na_current a).

Lemma noted_model payload a : noted a (note_model payload a).
Proof. unfold note_model. by case_match. Qed.

Lemma noted_response generated payload at_ a : noted a (note_response generated payload at_ a).
Proof. done. Qed.

Lemma noted_queue a a' : noted a a' → (in_order a → in_order a') ∧ queue a' = queue a.
Proof. intros (_ & Hp & Ha & Hm). unfold in_order, queue. by rewrite Hp, Ha, Hm. Qed.

Lemma same_charges_trans a b c : same_charges a b → same_charges b c → same_charges a c.
Proof. intros [] []. split; congruence. Qed.

Lemma finish_step_spec key a m q : cs_Active (na_current a) = true → queue a = m :: q →
in_order (finish_step key a) ∧ queue (finish_step key a) = q ∧
na_accruedNanoUSD (finish_step key a) = na_accruedNanoUSD a ∧ na_billable (finish_step key a) = na_billable a ∧
na_admission (finish_step key a) = na_admission a ∧ key ∈ na_seenTurns (finish_step key a).
Proof.
unfold queue, finish_step. intros -> [= <- <-]. cbn.
destruct (na_pending a) eqn:Hp; cbn; rewrite ?Hp; (split_and!; [done..|set_solver]).
Qed.

(** The account after the step was charged and finished. *)
Lemma finish_billed s prices payload a a1 entry price cost complete l (cumulative : Result) t t' :
same_charges a a1 → cs_Active (na_current a1) = true → queue a1 = queue a ++ l →
we_Meta entry = cs_Meta (na_current a1) → we_Payload entry = payload →
(∃ c, we_Result entry = terminal_usage s c payload) → assess_turn s prices a1 entry = (price, cost, complete) →
let key := turn_key (we_Result entry) payload in
(cost = 0 ∧ t' = t ∨
 turn_charged (wss_requestID s) (trim_space key) (rm_Model (we_Meta entry)) (br_Usage (we_Result entry)) cost t t') →
let a' := (finish_step key (counted a1 price cost complete)) <| na_result := cumulative |> in
in_order a' ∧ (unbilled a a' t t' ∨ billed s prices payload a a' t t').
Proof.
intros Hs Hact Hq Hmeta Hpayload Hresult Hassess key Hturn a'. rewrite Hmeta in Hturn. set (a2 := counted a1 price cost complete) in *.
assert (Hm : queue a2 = cs_Meta (na_current a1) :: (we_Meta <$> na_pending a1)) by (unfold queue, a2; cbn; by rewrite Hact).
destruct (finish_step_spec key a2 _ _ Hact Hm) as (Ho & Hq' & Haccrued & Hbill & Hadm & Hseen).
split; [exact Ho|]. right. split; [|by rewrite <- (sc_billable _ _ Hs)|by rewrite <- (sc_admission _ _ Hs)].
exists (cs_Meta (na_current a1)), (we_Meta <$> na_pending a1), l, entry, price, cost, complete, a1.
split_and!; try done; [by rewrite <- Hq|]. change (na_accruedNanoUSD a') with (na_accruedNanoUSD (finish_step key a2)).
rewrite Haccrued. unfold a2. cbn. by rewrite (sc_accrued _ _ Hs).
Qed.

Lemma wp_from_upstream s sr generated payload a t : in_order a → over (wss_requestID s) t ∨ books t →
wp Direct E (from_upstream s sr generated payload a) t (λ r t', (over (wss_requestID s) t' ∨ books t') ∧ (over (wss_requestID s) t → t' = t) ∧ ∀ out a', r = Ok (out, a') →
  in_order a' ∧ (unbilled a a' t t' ∨ billed s (sr_prices sr) payload a a' t t')).
Proof.
intros Ho Hb.
assert (Hquiet : ∀ (out : relayed) a', in_order a' → same_charges a a' → (∃ l, queue a' = queue a ++ l) →
  (over (wss_requestID s) t ∨ books t) ∧ (over (wss_requestID s) t → t = t) ∧ ∀ out' a'', Ok (out, a') = Ok (out', a'') →
    in_order a'' ∧ (unbilled a a'' t t ∨ billed s (sr_prices sr) payload a a'' t t)).
{ intros out a' Hin Hsame Hlate. split; [done|]. split; [done|]. intros out' a'' [= <- <-]. split; [done|]. left. by split. }
unfold from_upstream. case_match; [apply wp_ret, Hquiet; [done..|]; exists []; by rewrite app_nil_r|].
apply wp_bind, wp_now. intros at_. destruct (announce_spec s payload at_ a Ho) as (Ho1 & Hs1 & [l Hq1]).
set (a1 := announce_step s payload at_ a) in *. cbv zeta.
destruct (cs_Active (na_current a1)) eqn:Hact; cbn [negb]; [|by apply wp_ret, Hquiet; eauto].
pose proof (noted_model payload a1) as Hn2. destruct (noted_queue _ _ Hn2) as [Ho2 Hq2].
set (a2 := note_model payload a1) in *. assert (Hs2 : same_charges a a2) by (eapply same_charges_trans; [done|apply Hn2]).
pose proof (noted_response generated payload at_ a2) as Hn3. destruct (noted_queue _ _ Hn3) as [Ho3 Hq3].
set (a3 := note_response generated payload at_ a2) in *.
assert (Hs3 : same_charges a a3) by (eapply same_charges_trans; [done|apply Hn3]).
assert (Hq : queue a3 = queue a ++ l) by (by rewrite Hq3, Hq2).
assert (Ho' : in_order a3) by auto.
destruct (isNativeWebSocketUsageTerminalEvent payload); cbn [andb negb]; [|apply wp_ret, Hquiet; eauto].
destruct (bool_decide _); [apply wp_ret, Hquiet; [by auto|done|]; rewrite Hq2; eauto|].
assert (Hact3 : cs_Active (na_current a3) = true).
{ destruct Hn2 as (_ & _ & Ha2 & _), Hn3 as (_ & _ & Ha3 & _). congruence. }
apply wp_bind. set (entry := current_entry _ _ _ _).
assert (Hentry : we_Meta entry = cs_Meta (na_current a3) ∧ we_Payload entry = payload ∧
  ∃ c, we_Result entry = terminal_usage s c payload) by (split_and!; eauto). destruct Hentry as (? & ? & ?).
destruct (assess_turn s (sr_prices sr) a3 entry) as [[price cost] complete] eqn:Hassess.
eapply wp_persist; [done|exact Hassess| | |].
- intros [[]|e] Hr; [done|cbv beta iota; apply wp_ret, Hquiet; eauto..].
- intros Hfree. cbv beta iota zeta. case_match; [case_match|]; apply wp_ret; (split; [done|]); (split; [done|]); intros out a' [= _ <-]; eapply (finish_billed s (sr_prices sr) payload a a3 entry price cost complete l); eauto.
- intros t' Ht'. assert (over (wss_requestID s) t' ∨ books t') by (right; by destruct Ht').
  assert (over (wss_requestID s) t → t' = t).
  { intros Hover. destruct (tc_open _ _ _ _ _ _ _ Ht') as (charged & _ & Hopen & _). by destruct (over_open _ _ _ Hover Hopen). }
  cbv beta iota zeta. case_match; [case_match|]; apply wp_ret; (split; [done|]); (split; [done|]); intros out a' [= _ <-]; eapply (finish_billed s (sr_prices sr) payload a a3 entry price cost complete l); eauto.
Qed.
End session.

(** ** A session *)

Section sessions.
Context `{TimeZone} `{NameUUID} `{FloatToInt} `{StatusText} `{GJSON}.
Context `{Digest} `{AEAD plaintext} `{AEAD string} `{PasswordHashing}.

(** The two pumps take their turns under the lock.  In between the rest of the process works: the
  store runs any of its operations, in any world, except to admit this request or to charge a turn
  to it, which only the session does; it may settle, release or reclaim the reservation.  Other
  writers leave the books in order and the reservation and its turns alone, or leave no reservation
  that is active, as when its tenant is deleted. *)
Inductive session (s : ws_session) : nativeWebSocketAccounting → tables → Prop :=
  | opened admission price meta at_ frame forwarded t :
      books t → open_for (wss_requestID s) 0 t → own_turns (wss_requestID s) t = ∅ →
      session s (first_step meta at_ frame forwarded (open_accounting admission price true)) t
  | client_spoke E sr payload a t n out a' t' c :
      session s a t → from_client s sr payload a E t n = (Ok (out, a'), t', c) → session s a' t'
  | upstream_spoke E sr generated payload a t n out a' t' c :
      session s a t → from_upstream s sr generated payload a E t n = (Ok (out, a'), t', c) → session s a' t'
  | store_worked E op a t n r t' c :
      session s a t → books t → operation_ok op → works_on op ≠ Some (wss_requestID s) → run op E t n = (r, t', c) → session s a t'
  | others_wrote a t t' :
      session s a t →
      (books t' ∧ tb_reservations t' !! wss_requestID s = tb_reservations t !! wss_requestID s ∧
       own_turns (wss_requestID s) t' = own_turns (wss_requestID s) t ∨ over (wss_requestID s) t') →
      session s a t'.

(** As long as the reservation is open, the account, the reservation and the turns agree, if the
  sum fits. *)
Record session_books (s : ws_session) (a : nativeWebSocketAccounting) (t : tables) : Prop := {
sb_books : over (wss_requestID s) t ∨ books t;
sb_order : in_order a;
sb_billable : na_billable a = true;
sb_open : ∀ charged, open_for (wss_requestID s) charged t → 0 ≤ spent (wss_requestID s) t ∧
  (spent (wss_requestID s) t ≤ max_int64 →
   charged = spent (wss_requestID s) t ∧ na_accruedNanoUSD a = spent (wss_requestID s) t)
}.

Lemma ws_saturatingAdd_fits a b : 0 ≤ a → 0 ≤ b → a + b ≤ max_int64 → ws_saturatingAdd a b = a + b.
Proof.
intros Ha Hb Hsum. unfold ws_saturatingAdd, add64, sub64. rewrite !wrap64_id by int64_lia.
destruct (Z.ltb_spec 0 b), (Z.ltb_spec (max_int64 - b) a); cbn; lia.
Qed.

Lemma open_for_inj id charged charged' t : open_for id charged t → open_for id charged' t → charged = charged'.
Proof. intros (r & Hr & _ & <-) (r' & Hr' & _ & <-). congruence. Qed.

Lemma billed_keeps s prices payload a a' t t' : billed s prices payload a a' t t' → session_books s a t → over (wss_requestID s) t' ∨ books t' → in_order a' →
session_books s a' t'.
Proof.
intros [(m & q & l & entry & price & cost & complete & a1 & _ & _ & _ & _ & _ & _ & _ & _ & Hacc & Hcharge) Hbill _].
intros [_ _ Hyes Hfits] Hb Ho. split; [done|done|congruence|]. intros charged' Hopen'. destruct Hcharge as [[-> ->]|Hturn].
- destruct (Hfits _ Hopen') as [Hpos Hsum]. split; [done|]. intros Hmax. destruct (Hsum Hmax) as [-> Ha]. split; [done|].
  rewrite Hacc, Ha. by rewrite ws_saturatingAdd_fits, Z.add_0_r by lia.
- rewrite (turn_charged_spent _ _ _ _ _ _ _ Hturn). destruct Hturn as [Hcost _ (charged & c' & Hopen & Hc' & Hadd) _].
  rewrite (open_for_inj _ _ _ _ Hopen' Hc') in *. destruct (Hfits _ Hopen) as [Hpos Hsum]. split; [lia|]. intros Hmax.
  destruct Hsum as [-> Ha]; [lia|]. rewrite Hadd by lia. split; [done|]. by rewrite Hacc, Ha, ws_saturatingAdd_fits by lia.
Qed.

Lemma unbilled_keeps s a a' t t' : unbilled a a' t t' → session_books s a t → in_order a' → session_books s a' t'.
Proof. intros [-> [Hacc Hbill _ _] _] [Hb _ Hyes Hopen] Ho. split; try done; [congruence|]. by rewrite Hacc. Qed.

(** What keeps an open reservation, its charge and its turns keeps the session in order. *)
Lemma elsewhere_keeps s a t t' : session_books s a t → over (wss_requestID s) t' ∨ books t' →
(∀ charged, open_for (wss_requestID s) charged t' →
   open_for (wss_requestID s) charged t ∧ own_turns (wss_requestID s) t' = own_turns (wss_requestID s) t) →
session_books s a t'.
Proof.
intros [_ Ho Hyes Hfits] Hb Hkeeps. split; [done..|]. intros charged Hopen. destruct (Hkeeps _ Hopen) as [Hbefore Hturns].
unfold spent in *. rewrite Hturns. by apply Hfits.
Qed.

Lemma session_keeps_books s a t : session s a t → session_books s a t.
Proof.
induction 1 as [admission price meta at_ frame forwarded t Hb Hopen Hnone|E sr payload a t n out a' t' c _ IH Hrun
  |E sr generated payload a t n out a' t' c _ IH Hrun|E op a t n r t' c _ IH Hb Hop Hid Hrun|a t t' _ IH Hwrote].
- split; [by right|done..|]. intros charged Hopen'. rewrite (open_for_inj _ _ _ _ Hopen' Hopen).
  unfold spent. by rewrite Hnone, sum_map_empty.
- pose proof (wp_direct _ _ _ _ _ _ _ _ (wp_from_client E s sr payload a t (sb_order _ _ _ IH)) Hrun) as [-> Hs].
  destruct (Hs out a' eq_refl) as (Ho & Hsame & Hq). by apply (unbilled_keeps s a a' t t).
- pose proof (wp_direct _ _ _ _ _ _ _ _
    (wp_from_upstream E s sr generated payload a t (sb_order _ _ _ IH) (sb_books _ _ _ IH)) Hrun) as (Hb & _ & Hs).
  destruct (Hs out a' eq_refl) as (Ho & [Hq|Hbill]); [by eapply unbilled_keeps|by eapply billed_keeps].
- pose proof (wp_direct _ _ _ _ _ _ _ _ (others_run E _ op t Hid Hop Hb) Hrun) as [Hsame Hturns].
  pose proof (wp_direct _ _ _ _ _ _ _ _ (books_run E op t Hop Hb) Hrun) as Hb'.
  apply (elsewhere_keeps s a t t' IH (or_intror Hb')). intros charged (r' & Hr' & Ha & Hc). split; [|done].
  destruct (Hsame r' Hr' Ha) as (r0 & Hr0 & Ha0 & Heq). exists r0. by rewrite <- Heq.
- apply (elsewhere_keeps s a t t' IH); [by destruct Hwrote as [(? & _)|]; [right|left]|]. intros charged Hopen.
  destruct Hwrote as [(_ & Hr & Hturns)|Hover]; [|by destruct (over_open _ _ _ Hover Hopen)]. split; [|done].
  destruct Hopen as (r & Hr' & Hopen). exists r. by rewrite <- Hr.
Qed.

(** Closing does nothing to a reservation that has ended or is gone. *)
Lemma close_over E s a t : over (wss_requestID s) t → wp Direct E (close_session s true a) t (λ _ t', t' = t).
Proof.
intros Hover. unfold close_session. case_match; [|by apply wp_ret]. apply wp_attempt.
apply wp_bind, wp_guard; [intros _|done]. destruct (tb_reservations t !! wss_requestID s) as [r|] eqn:Hr.
- by apply (finish_ended E Direct (wss_requestID s) r); [|apply Hover].
- eapply wp_mono; [apply (same_transaction _ _ _ _ (λ _, True))|by intros ? ? []].
  unfold finishReservationTx. step_success. apply success_map_error, success_first. intros r' Hr'. cbn in Hr'. congruence.
Qed.

(** C8: A session pays for its turns, each of them once.  However the two pumps take their
    turns, and whatever operations the store performs in between for others, as long as the
    reservation is open it was charged exactly the turns on file under its identifier, and the
    account of the session says the same; the close settles it with that sum and gives back
    exactly what was held in advance, from the balance or from the windows that pay, because
    nothing of the price is left to pay.  The sum must not exceed the largest amount.  If
    somebody else ended or removed the reservation, as when it was reclaimed or its tenant was
    deleted, no turn is charged any more and the close changes nothing. *)
Theorem websocket_sessions_pay_their_turns s a t E n :
session s a t →
let total := sum_map wt_CostNanoUSD (own_turns (wss_requestID s) t) in
(∀ r tn, tb_reservations t !! wss_requestID s = Some r → is_active r = true → tb_tenants t !! r_TenantID r = Some tn →
   quiet E → fresh_ids E t → total ≤ max_int64 →
   na_accruedNanoUSD a = total ∧ default 0 (r_ActualNanoUSD r) = total ∧
   finish_delta r total = (if reservationUsesBalance r then wrap64 (r_BalanceReservedNanoUSD r) else 0) ∧
   ∃ entryID now, (close_session s true a E t n).1 =
     (Ok (Ok ()), finish_spec r tn total true ReservationSettled entryID now t)) ∧
((∀ r, tb_reservations t !! wss_requestID s = Some r → is_active r = false) →
   (close_session s true a E t n).1.2 = t ∧
   ∀ sr generated payload, (from_upstream s sr generated payload a E t n).1.2 = t).
Proof.
intros [Hb Ho Hyes Hfits]%session_keeps_books total. split.
- intros r tn Hr Ha Htn Hq Hfresh Hmax. destruct Hb as [Hover|Hb]; [by rewrite (Hover r Hr) in Ha|]. destruct (Hfits (default 0 (r_ActualNanoUSD r))) as [Hpos Hsum]; [by exists r|].
  destruct (Hsum Hmax) as [Hc Hacc]. change (spent _ t) with total in *. split_and!; [done|done|..].
  + unfold finish_delta. rewrite Hc. case_match; [|done]. unfold add64, sub64. rewrite wrap64_sub_l. f_equal. lia.
  + unfold close_session. rewrite Hyes, Hacc. unfold attempt, SettleRequestReservation, mbind, M_bind, guard_that.
    assert (confirmed total true = true) as -> by (unfold confirmed; cbn; lia). cbn.
    destruct (finishReservation_exact E t (wss_requestID s) r tn total true ReservationSettled (n + 0) Hb Hq Hfresh Hr Ha Htn)
      as (entryID & now & Hres). exists entryID, now.
    destruct (finishReservation _ _ _ _ E t (n + 0)%nat) as [[x t'] c]. cbn in Hres |- *. by injection Hres as -> ->.
- intros Hover. split.
  + destruct (close_session s true a E t n) as [[x t'] c] eqn:Hrun.
    apply (wp_direct _ _ _ _ _ _ _ _ (close_over E s a t Hover) Hrun).
  + intros sr generated payload. destruct (from_upstream s sr generated payload a E t n) as [[x t'] c] eqn:Hrun.
    by apply (wp_direct _ _ _ _ _ _ _ _ (wp_from_upstream E s sr generated payload a t Ho Hb) Hrun).
Qed.

(** C22: A charged turn is charged to its generation.  When a terminal event leads to a charge,
    the generation that has waited longest is charged and leaves the queue, the row filed
    names its model, and the cost is what the usage of the event costs at the price in force
    for that model and the effort and tier it asked for; a failure is never charged. *)
Theorem turns_pay_for_their_generation E s sr generated payload a t n out a' t' c :
session s a t → from_upstream s sr generated payload a E t n = (Ok (out, a'), t', c) → tb_turns t' ≠ tb_turns t →
∃ m q l turn price row,
  queue a ++ l = m :: q ∧ queue a' = q ∧ failed_event payload = false ∧
  sr_prices sr {| d_APIGroupKey := k_ID (kc_APIKey (wss_key s)); d_Model := rm_Model m; d_ModelAlias := "";
    d_AuthIndex := admissionAuthIndex (na_admission a); d_ServiceTier := rm_ServiceTier m;
    d_ResponseServiceTier := br_ResponseServiceTier turn; d_ReasoningEffort := rm_ReasoningEffort m;
    d_Endpoint := hr_Path (wss_request s); d_ExecutorType := ""; d_PromptTokens := u_Prompt (br_Usage turn) |} = Some price ∧
  (∃ c, turn = terminal_usage s c payload) ∧ evidence turn price ∧
  wt_Model row = trim_space (rm_Model m) ∧ wt_Usage row = br_Usage turn ∧
  wt_CostNanoUSD row = CostNanoUSD price (br_Usage turn) ∧ 0 < wt_CostNanoUSD row ∧
  tb_turns t' = <[(wss_requestID s, trim_space (turn_key turn payload)) := row]> (tb_turns t).
Proof.
intros Hs%session_keeps_books Hrun Hne.
destruct (proj2 (proj2 (wp_direct _ _ _ _ _ _ _ _
  (wp_from_upstream E s sr generated payload a t (sb_order _ _ _ Hs) (sb_books _ _ _ Hs)) Hrun)) out a' eq_refl)
  as [_ [[-> _ _]|[(m & q & l & entry & price & cost & complete & a1 & Hq & Hq' & Hm & Hp & Hres & _ & Hsame & Hassess & _ & Hturn) _ _]]];
  [done|]. destruct Hturn as [[_ ->]|[Hpos _ _ (row & Hc & Hmodel & Hu & _ & Ht')]]; [done|].
unfold assess_turn in Hassess. rewrite Hp, (sc_billable _ _ Hsame), (sb_billable _ _ _ Hs), Hm in Hassess.
destruct (failed_event payload); [injection Hassess; lia|]. injection Hassess as _ Hcost _.
match type of Hcost with as_CostNanoUSD (Assess ?r ?found) = _ =>
  destruct (assess_cases r found) as [Hz|(p & Hsome & Hev & Hz)] end; rewrite Hz in Hcost; cbn [as_CostNanoUSD] in Hcost; [lia|].
destruct (NonGenerated (we_Result entry)); [done|].
rewrite (sc_admission _ _ Hsame) in Hsome.
exists m, q, l, (we_Result entry), p, row. split_and!; try done; congruence || lia.
Qed.

(** The key of a terminal event without an identifier is that of its text alone. *)
Lemma anonymous_key s c payload :
isNativeWebSocketUsageTerminalEvent payload = true → br_RequestID (ParseResponse payload) = "" →
turn_key (terminal_usage s c payload) payload = "sha256:" +:+ hex_string (sha256 payload).
Proof.
unfold isNativeWebSocketUsageTerminalEvent, terminal_usage, parseNativeWebSocketUsage.
destruct (event_type payload) as [ty|]; [|done]. intros ->. cbv zeta. set (turn := ParseResponse payload). intros Hid.
assert (∀ turn', br_RequestID turn' = "" → turn_key turn' payload = "sha256:" +:+ hex_string (sha256 payload)) as Hkey.
{ intros turn' Hid'. unfold turn_key. by rewrite Hid'. }
apply Hkey. rewrite Hid, (bool_decide_eq_true_2 ("" = "")) by done. rewrite andb_true_r.
destruct (wss_runtime s) as [runtime|]; cbn [is_Some]; [by cbn; case_bool_decide|].
assert (br_RequestID (cpaBillingUsage None (wss_requestID s) "" (hr_Path (wss_request s)) (cs_Meta c) turn) = "") as Hno
  by (unfold cpaBillingUsage; by repeat case_match).
cbn [br_RequestID]. by repeat case_match.
Qed.

(** C32: Two equal failures are taken for one.  A terminal event without an identifier is known
    by its text; when the same text comes again, for the next generation, nothing happens:
    the event is forwarded, the generation stays at the head of the queue, and it is the one
    that the next charge goes to. *)
Theorem equal_failures_are_one E s sr generated payload a t n out a1 t1 c m1 m2 q :
session s a t → isNativeWebSocketUsageTerminalEvent payload = true → br_RequestID (ParseResponse payload) = "" →
from_upstream s sr generated payload a E t n = (Ok (out, a1), t1, c) →
queue a = m1 :: m2 :: q → queue a1 = m2 :: q →
∀ E' sr' generated' t' n', ∃ a2 c',
  from_upstream s sr' generated' payload a1 E' t' n' = (Ok (Forward payload, a2), t', c') ∧
  queue a2 = m2 :: q ∧ na_seenTurns a2 = na_seenTurns a1 ∧ na_accruedNanoUSD a2 = na_accruedNanoUSD a1.
Proof.
intros Hs%session_keeps_books Hterm Hid Hrun Hq Hq1 E' sr' generated' t' n'.
destruct (proj2 (proj2 (wp_direct _ _ _ _ _ _ _ _
  (wp_from_upstream E s sr generated payload a t (sb_order _ _ _ Hs) (sb_books _ _ _ Hs)) Hrun)) out a1 eq_refl)
  as [Ho1 [[_ _ [l Hl]]|[(m & q' & l & entry & price & cost & complete & a3 & _ & _ & _ & _ & [c1 Hres] & Hseen & _) _ _]]].
{ exfalso. rewrite Hl, Hq in Hq1. apply (f_equal length) in Hq1. cbn in Hq1. rewrite length_app in Hq1. cbn in Hq1. lia. }
rewrite Hres, anonymous_key in Hseen by done.
assert (Hact : cs_Active (na_current a1) = true).
{ apply not_false_is_true. intros Hno. unfold queue in Hq1. by rewrite Hno, Ho1 in Hq1. }
assert (Hcodex : isCodexQuotaEvent payload = false).
{ unfold from_upstream in Hrun. destruct (isCodexQuotaEvent payload); [|done]. injection Hrun as _ <- _ _.
  rewrite Hq in Hq1. apply (f_equal length) in Hq1. cbn in Hq1. lia. }
pose proof (noted_model payload a1) as Hn. destruct (noted_queue _ _ Hn) as [_ Hq2]. destruct Hn as ([] & _ & Hact2 & _).
assert (Hkey : turn_key (terminal_usage s (na_current (note_model payload a1)) payload) payload ∈
  na_seenTurns (note_model payload a1)) by (rewrite anonymous_key by done; by rewrite sc_seen0).
exists (note_model payload a1), 1%nat. split; [|by rewrite Hq2].
unfold from_upstream. rewrite Hcodex. unfold mbind, M_bind, time_now. cbv beta iota zeta.
assert (announce_step s payload (env_now E' n') a1 = a1) as -> by (unfold announce_step; by rewrite Hact).
rewrite Hact, Hterm, (bool_decide_eq_true_2 _ Hkey). done.
Qed.
End sessions.
