(* ===== verification/AccountSample.v ===== *)
(** * A concrete console

    The theorems on accounts at work: Root registers in an empty store, invites
    Bob, who registers with the token, makes keys and is deleted again.  The key
    derivation of this world pads the password, and hides nothing. *)

From Stdlib Require Import SpecFloat.
From S2P Require Import Prelude.
From S2P Require Import Float64.
From S2P Require Import Database.
From S2P Require Import Schema.
From S2P Require Import ModelAccess.
From S2P Require Import RequestLogs.
From S2P Require Import Encoding.
From S2P Require Import Passwords.
From S2P Require Import DeviceGrants.
From S2P Require Import Accounts.
From S2P Require Import AccountRules.
From S2P Require Import TenantRemoval.
From S2P Require Import AccountGuarantees.
From S2P Require Import SignIn.
From S2P Require Import KeyGuarantees.
From S2P Require Import Sample.
From S2P Require Import GrantSample.

#[export] Instance plain_hashing : PasswordHashing :=
  {| argon2_IDKey password _ _ _ _ keyLen := String.string_of_list_ascii
       (resize (Z.to_nat keyLen) "000"%char (String.list_ascii_of_string password));
     bcrypt_matches _ _ := false; scrypt_Key _ _ _ _ _ _ := None |}.

#[export] Instance plain_hashing_lawful : LawfulPasswordHashing.
Proof.
  intros password salt time memory threads keyLen Hlen. unfold argon2_IDKey, plain_hashing.
  rewrite AccessTokens.length_string_of_list, length_resize. lia.
Qed.

(** ** Root and Bob *)

Definition root_signs_up : account_operation := SignUp "" "Root" " Root@Acme.test " "correct horse".

Definition founded : tables := (run_account root_signs_up calm empty_tables 0%nat).1.2.

Definition invited : result (Invitation * string) * tables * nat :=
  CreateInvitation "bob@acme.test" (3600 * second) calm founded 20%nat.

Definition inviting : tables := (run_account (Invite "bob@acme.test" (3600 * second)) calm founded 20%nat).1.2.

Definition bobs_token : string := match invited.1.1 with Ok (_, token) => token | Err _ => "" end.

Definition bob_signed_up : result Tenant * tables * nat :=
  Register bobs_token "Bob" "bob@acme.test" "battery staple" calm inviting 40%nat.

Definition bob : Tenant :=
  match bob_signed_up.1.1 with Ok user => user | Err _ => fresh_tenant "" "" "" "" false None None [] end.

Definition joined : tables :=
  (run_account (SignUp bobs_token "Bob" "bob@acme.test" "battery staple") calm inviting 40%nat).1.2.

Lemma run_path t op E n t0 :
  accounts_path t0 t → accounts_path t0 (run_account op E t n).1.2.
Proof.
  intros Hp. destruct (run_account op E t n) as [[r t'] c] eqn:Hrun. by eapply path_step.
Qed.

Lemma path_founded : accounts_path empty_tables founded.
Proof. apply run_path, path_here. Qed.

Lemma path_inviting : accounts_path empty_tables inviting.
Proof. apply run_path, path_founded. Qed.

Lemma path_joined : accounts_path empty_tables joined.
Proof. apply run_path, path_inviting. Qed.

Lemma ok_of t : accounts_path empty_tables t → accounts_ok t.
Proof. intros Hp. by destruct (path_ok _ _ Hp accounts_ok_empty). Qed.

(** Bob is there, and is not the administrator. *)
Example bob_joined :
  (λ t, (t_OwnerEmail t, t_IsAdmin t)) <$> (map_to_list (tb_tenants joined)).*2 =
    [("bob@acme.test", false); ("root@acme.test", true)] ∨
  (λ t, (t_OwnerEmail t, t_IsAdmin t)) <$> (map_to_list (tb_tenants joined)).*2 =
    [("root@acme.test", true); ("bob@acme.test", false)].
Proof. first [left; vm_compute; reflexivity|right; vm_compute; reflexivity]. Qed.

(** Bob signs in, but not with Root's password. *)
Example bob_signs_in :
  (Login " Bob@acme.test" "battery staple" calm joined 100%nat).1.1 = Ok bob ∧
  (Login "bob@acme.test" "correct horse" calm joined 100%nat).1.1 = Err ErrNotFound.
Proof. split; vm_compute; reflexivity. Qed.

(** ** Witnesses *)

Lemma accounts_stay_consistent_witness :
  accounts_path empty_tables joined ∧
  accounts_ok joined ∧
  let t' := (run_account (DeleteAccount (t_ID bob)) calm joined 200%nat).1.2 in
  accounts_ok t' ∧ tenants_step (tb_tenants joined) (tb_tenants t') ∧
  invitations_step (tb_invitations joined) (tb_invitations t').
Proof. split; [exact path_joined|]. apply accounts_stay_consistent. exact path_joined. Defined.

Lemma invitations_admit_one_account_witness :
  bob_signed_up.1.1 = Ok bob ∧
  wp Direct calm (Register bobs_token "Bob" "bob@acme.test" "battery staple") inviting (λ r t1, match r with
    | Ok user => registered calm bobs_token "Bob" "bob@acme.test" "battery staple" user inviting t1 ∧
        (tb_tenants inviting ≠ ∅ → ∀ t2, accounts_path t1 t2 → tb_tenants t2 ≠ ∅ →
         wp Direct later (Register bobs_token "Eve" "eve@acme.test" "open sesame") t2
           (λ r2 t3, (∃ e, r2 = Err e) ∧ t3 = t2))
    | Err _ => t1 = inviting
    end).
Proof.
  split; [vm_compute; reflexivity|].
  apply (invitations_admit_one_account calm later bobs_token); [exact (ok_of _ path_inviting)|exact eq_refl].
Defined.

Lemma passwords_open_their_account_witness :
  wp Direct calm (run_account (ChangeAccount (t_ID bob) "tr0ub4dor")) joined (λ r t1, match r with
    | Ok _ => ∃ id b, tb_tenants t1 = <[id := b]> (tb_tenants joined) ∧
        password_effect (ChangeAccount (t_ID bob) "tr0ub4dor") id (tb_tenants joined !! id) b ∧
        (t_Enabled b = true → t_ExpiresAt b = None → opens_with "tr0ub4dor" b t1)
    | Err _ => t1 = joined
    end) ∧
  (ChangePassword (t_ID bob) "tr0ub4dor" calm joined 100%nat).1.1 = Ok ().
Proof.
  split; [|vm_compute; reflexivity].
  apply (passwords_open_their_account calm (ChangeAccount (t_ID bob) "tr0ub4dor") "tr0ub4dor");
    [exact (ok_of _ path_joined)|exact eq_refl].
Defined.

Lemma bob_is_there : tb_tenants joined !! t_ID bob = Some bob.
Proof. vm_compute. reflexivity. Qed.

Lemma keys_work_until_dropped_witness :
  (∃ item rows plain t1 c, CreateKey (t_ID bob) "ci" None None [] [("fast", "gpt-5")] calm joined 100%nat =
                           (Ok (item, rows, plain), t1, c)) ∧
  wp Direct calm (CreateKey (t_ID bob) "ci" None None [] [("fast", "gpt-5")]) joined (λ r t1, match r with
    | Ok (item, _, plain) =>
        k_Enabled item = true ∧ k_ExpiresAt item = None ∧ k_TenantID item = t_ID bob ∧
        wp Direct later (authenticate plain) t1 (λ r2 t2, t2 = t1 ∧ opens_for later item bob r2 t1) ∧
        wp Direct later (RevealKey (t_ID bob) (k_ID item)) t1
          (λ r2 t2, t2 = t1 ∧ (quiet later → r2 = Ok plain)) ∧
        wp Direct later (DeleteKey (t_ID bob) (k_ID item)) t1 (λ r2 t2, match r2 with
          | Ok _ => wp Direct calm (authenticate plain) t2 (λ r3 t3, t3 = t2 ∧
                      r3 = Err (ErrMessage "invalid_api_key"))
          | Err _ => t2 = t1
          end)
    | Err _ => t1 = joined
    end).
Proof.
  split; [eexists _, _, _, _, _; vm_compute; reflexivity|].
  apply (keys_work_until_dropped calm later calm);
    [exact (ok_of _ path_joined)|exact bob_is_there|exact plain_text_cipher_lawful].
Defined.

Definition with_key : tables :=
  (run_account (NewKey (t_ID bob) "ci" None None [] [("fast", "gpt-5")]) calm joined 100%nat).1.2.

Definition bobs_key : string := default "" (head (map_to_list (tb_api_keys with_key)).*1).

Lemma path_with_key : accounts_path empty_tables with_key.
Proof. apply run_path, path_joined. Qed.

(** Eve has no luck with Bob's key. *)
Lemma keys_answer_to_their_owner_witness :
  (k_TenantID <$> tb_api_keys with_key !! bobs_key) = Some (t_ID bob) ∧
  wp Direct calm (RevealKey "eve" bobs_key) with_key
    (λ r t', t' = with_key ∧ ∃ e, r = Err e ∧ (quiet calm → e = ErrNotFound)) ∧
  wp Direct calm (UpdateKey "eve" bobs_key "mine" true None None [] []) with_key (λ r t',
    t' = with_key ∧ ∃ e, r = Err e ∧ (quiet calm → e = ErrNotFound)) ∧
  wp Direct calm (DeleteKey "eve" bobs_key) with_key
    (λ r t', t' = with_key ∧ ∃ e, r = Err e ∧ (quiet calm → e = ErrNotFound)).
Proof.
  split; [vm_compute; reflexivity|].
  destruct (keys_answer_to_their_owner calm "eve" bobs_key "mine" true None None [] [] with_key
    (ok_of _ path_with_key)) as [Hread Hdrop].
  assert (∀ k, tb_api_keys with_key !! bobs_key = Some k → k_TenantID k = t_ID bob) as Hbob.
  { intros k Hk. vm_compute in Hk. injection Hk as <-. vm_compute. reflexivity. }
  assert (∀ k, tb_api_keys with_key !! bobs_key = Some k → own_manual_key "eve" k = false) as Hno.
  { intros k Hk. unfold own_manual_key. rewrite (Hbob k Hk). vm_compute. reflexivity. }
  split; [apply (proj1 (Hread Hno))|]. split; [apply (proj2 (Hread Hno))|].
  apply Hdrop. intros k Hk. rewrite (Hbob k Hk). apply (bool_decide_eq_true_1 _). vm_compute. reflexivity.
Defined.

Lemma deleted_tenants_leave_nothing_witness :
  keyed t_ID (tb_tenants joined) ∧
  wp Direct calm (DeleteTenant (t_ID bob)) joined (λ r t', match r with
    | Ok _ => is_Some (tb_tenants joined !! t_ID bob) ∧ removed (t_ID bob) joined t' ∧
              ∀ s now now', os_TenantID s = t_ID bob → session_valid t' s now now' = false
    | Err _ => t' = joined
    end).
Proof.
  assert (keyed t_ID (tb_tenants joined)) as Hk by apply (ok_of _ path_joined).
  split; [exact Hk|]. exact (deleted_tenants_leave_nothing calm (t_ID bob) joined Hk).
Defined.
