(* ===== verification/WebSocketSample.v ===== *)
(** * A concrete session

    A WebSocket with three generations, the first of which is answered: what the
    theorems on sessions say of it. *)

From stdpp Require Import pretty.
From S2P Require Import Prelude.
From S2P Require Import Float64.
From S2P Require Import Cost.
From S2P Require Import Pricing.
From S2P Require Import Json.
From S2P Require Import Usage.
From S2P Require Import UsageGuarantees.
From S2P Require Import Database.
From S2P Require Import Schema.
From S2P Require Import ModelAccess.
From S2P Require Import RequestLogs.
From S2P Require Import Reservation.
From S2P Require Import Settlement.
From S2P Require Import Requests.
From S2P Require Import Sample.
From S2P Require Import Books.
From S2P Require Import Machine.
From S2P Require Import History.
From S2P Require Import Guarantees.
From S2P Require Import Effects.
From S2P Require Import RequestGuarantees.
From S2P Require Import Encoding.
From S2P Require Import DeviceGrants.
From S2P Require Import Passwords.
From S2P Require Import Accounts.
From S2P Require Import GrantSample.
From S2P Require Import WebSocket.
From S2P Require Import WebSocketGuarantees.
From S2P Require Import AccountSample.

(** The members of an object that hold a text. *)
#[export] Instance plain_gjson : GJSON := λ body path,
  match unmarshal_field path body with
  | Some text => {| g_Exists := negb (bool_decide (text = "")); g_IsString := true; g_IsFalse := false;
      g_String := text; g_Bool := false; g_Int := 0; g_Index := 0; g_Raw := "" |}
  | None => {| g_Exists := false; g_IsString := false; g_IsFalse := false; g_String := ""; g_Bool := false;
      g_Int := 0; g_Index := 0; g_Raw := "" |}
  end.

Definition responses_get : HTTPRequest :=
  {| hr_Method := "GET"; hr_Path := "/v1/responses"; hr_Upgrade := "websocket";
     hr_Client := Build_clientIdentity "curl" "8" "curl/8" |}.

Definition plain_session : ws_session :=
  {| wss_requestID := "req"; wss_key := acme_context; wss_aliases := []; wss_request := responses_get;
     wss_bearer := "ra_plain"; wss_logContext := no_context; wss_cfg := chat_settings; wss_runtime := None;
     wss_quotaEvents := false |}.

Definition plain_surroundings : surroundings :=
  {| sr_prices := λ _, Some text_price; sr_upstream_model := None; sr_review_model := λ m, m; sr_scope := None;
     sr_detail := no_detail; sr_timings := "{}"; sr_quota_error := None |}.

(** Acme pays by balance for a request that was admitted. *)
Definition admitted_store : tables :=
  play calm [(CreditBalance "acme" 1000 "top-up", 0%nat); (Admit (ask "req"), 100%nat)] balance_store.

Lemma reachable_admitted_store : reachable admitted_store.
Proof.
  apply reachable_play; [apply reachable_pristine, pristine_balance_store|].
  apply (bool_decide_unpack _). by vm_compute.
Qed.

Definition create_frame (model : string) : string :=
  json_text ("{'type':'response.create','model':'" +:+ model +:+ "'}").
Definition failure : string := json_text "{'type':'error','error':{'message':'overloaded'}}".
Definition completed : string := json_text
  "{'type':'response.completed','response':{'id':'r1','usage':{'input_tokens':10,'output_tokens':5}}}".

Definition a_first : nativeWebSocketAccounting :=
  first_step chat_meta 0 "" "" (open_accounting (Build_Admission "req" "" "" "" "" 100 0) None true).
Definition speak (payload : string) (n : nat) (a : nativeWebSocketAccounting) : nativeWebSocketAccounting :=
  match (from_client plain_session plain_surroundings payload a later admitted_store n).1.1 with
  | Ok (_, a') => a'
  | Err _ => a
  end.
Definition a_two : nativeWebSocketAccounting := speak (create_frame "gpt-5") 0 a_first.
Definition a_three : nativeWebSocketAccounting := speak (create_frame "gpt-6") 10 a_two.

Lemma session_first : session plain_session a_first admitted_store.
Proof.
  apply opened; [apply reachable_books, reachable_admitted_store| |by vm_compute].
  eexists. split; [by vm_compute|]. by split.
Qed.

Lemma speak_session payload n a :
  (∃ out a', (from_client plain_session plain_surroundings payload a later admitted_store n).1 = (Ok (out, a'), admitted_store)) →
  session plain_session a admitted_store → session plain_session (speak payload n a) admitted_store.
Proof.
  intros (out & a' & Heq) Ha. unfold speak.
  destruct (from_client plain_session plain_surroundings payload a later admitted_store n) as [[r t'] c] eqn:Hrun.
  cbn in Heq |- *. injection Heq as -> ->. cbn. by eapply client_spoke.
Qed.

Lemma session_three : session plain_session a_three admitted_store.
Proof.
  apply speak_session; [vm_compute; by eexists _, _|]. apply speak_session; [vm_compute; by eexists _, _|].
  apply session_first.
Qed.

(** What the completed event reports, whatever step it ends. *)
Lemma completed_turn c :
  br_Usage (terminal_usage plain_session c completed) = Build_Usage 10 5 0 0 0 15 0 0 0 ∧
  turn_key (terminal_usage plain_session c completed) completed = "r1".
Proof. destruct c as [[model stream tier effort images requested alias [|]]]; by vm_compute. Qed.

Lemma turns_pay_for_their_generation_witness :
  let '(r, t', _) := from_upstream plain_session plain_surroundings false completed a_three later admitted_store 20%nat in
  (λ row, (wt_Model row, wt_CostNanoUSD row)) <$> tb_turns t' !! ("req", "r1") = Some ("gpt-5", 60).
Proof.
  destruct (from_upstream plain_session plain_surroundings false completed a_three later admitted_store 20%nat)
    as [[[[out a']|e] t'] c] eqn:Hrun; [|by vm_compute in Hrun].
  assert (is_Some (tb_turns t' !! ("req", "r1"))) as Hfiled.
  { replace t' with (from_upstream plain_session plain_surroundings false completed a_three later admitted_store 20%nat).1.2
      by by rewrite Hrun. vm_compute. by eexists. }
  destruct (turns_pay_for_their_generation later plain_session plain_surroundings false completed a_three admitted_store
    20%nat out a' t' c session_three Hrun) as
    (m & q & l & turn & price & row & Hq & _ & _ & Hprice & [step Hturn] & _ & Hmodel & _ & Hcost & _ & Ht').
  { intros Heq. rewrite Heq in Hfiled. vm_compute in Hfiled. by destruct Hfiled. }
  assert (∃ q0, queue a_three = chat_meta :: q0) as [q0 Hq0] by (by vm_compute; eexists).
  rewrite Hq0 in Hq. cbn [app] in Hq. injection Hq as <- _. change (Some text_price = Some price) in Hprice.
  injection Hprice as <-. destruct (completed_turn step) as [Hu Hkey]. rewrite <- Hturn in Hu, Hkey.
  rewrite Ht', Hkey. change (trim_space "r1") with "r1". rewrite lookup_insert_eq. cbn [fmap option_fmap option_map].
  rewrite Hmodel, Hcost, Hu. by vm_compute.
Defined.

(** The session after the first answer. *)
Definition answered : result (relayed * nativeWebSocketAccounting) * tables * nat :=
  from_upstream plain_session plain_surroundings false completed a_three later admitted_store 20%nat.
Definition a_answered : nativeWebSocketAccounting :=
  match answered.1.1 with Ok (_, a) => a | Err _ => a_three end.
Definition answered_store : tables := answered.1.2.
#[local] Strategy expand [answered a_answered answered_store].

Lemma session_answered : session plain_session a_answered answered_store.
Proof.
  assert (match answered.1.1 with Ok _ => true | Err _ => false end = true) as Hok by by vm_compute.
  unfold a_answered, answered_store. destruct answered as [[[[out a']|e] t'] c] eqn:Hrun; [|done].
  eapply upstream_spoke; [apply session_three|exact Hrun].
Qed.

(** The session closes in a world of its own. *)
Definition evening : env :=
  {| env_now n := Z.of_nat (2000 + n) * second; env_fault _ := None;
     env_id n := "eve-" +:+ pretty (N.of_nat n);
     env_random n := String.list_ascii_of_string (pretty (N.of_nat n)); env_order _ := [] |}.

Lemma evening_fresh (t : tables) :
  forallb (λ e, negb (String.prefix "eve-" (l_ID e))) (tb_ledger t) = true → fresh_ids evening t.
Proof.
  rewrite forallb_forall. intros Hl n e Hin%list_elem_of_In Heq. specialize (Hl e Hin). cbn beta in Hl.
  rewrite Heq in Hl. cbn in Hl. by destruct (pretty _).
Qed.

(** Meanwhile the store works for others; then the reservation is reclaimed. *)
Definition topped_store : tables := (run (CreditBalance "acme" 5 "more") later answered_store 60%nat).1.2.
Definition reclaimed_store : tables := (run (Reclaim (2 ^ 62)) later topped_store 80%nat).1.2.

Lemma store_step op n a t : books t → operation_ok op → works_on op ≠ Some "req" → session plain_session a t →
  session plain_session a (run op later t n).1.2.
Proof.
  intros Hb Hop Hid Hs. destruct (run op later t n) as [[r t'] c] eqn:Hrun. by eapply store_worked.
Qed.

Lemma answered_open : ¬ over "req" answered_store.
Proof.
  intros Hover. assert (option_map is_active (tb_reservations answered_store !! "req") = Some true) as Ha by (vm_compute; reflexivity).
  destruct (tb_reservations answered_store !! "req") as [r|] eqn:Hr; [|discriminate Ha].
  injection Ha as Ha. by rewrite (Hover r Hr) in Ha.
Qed.

Lemma answered_books : books answered_store.
Proof. destruct (session_keeps_books _ _ _ session_answered) as [[Hover|Hb] _ _ _]; [|done]. by destruct (answered_open Hover). Qed.

Lemma topped_books : books topped_store.
Proof.
  unfold topped_store. destruct (run (CreditBalance "acme" 5 "more") later answered_store 60%nat) as [[r t'] c] eqn:Hrun.
  exact (wp_direct _ _ _ _ _ _ _ _ (books_run later (CreditBalance "acme" 5 "more") answered_store I answered_books) Hrun).
Qed.

Lemma session_topped : session plain_session a_answered topped_store.
Proof. by apply store_step; [apply answered_books|..|apply session_answered]. Qed.

Lemma session_reclaimed : session plain_session a_answered reclaimed_store.
Proof. by apply store_step; [apply topped_books|..|apply session_topped]. Qed.

Lemma topped_rows : ∃ r tn, tb_reservations topped_store !! "req" = Some r ∧ is_active r = true ∧
  r_RequestID r = "req" ∧ tb_tenants topped_store !! r_TenantID r = Some tn.
Proof.
  assert (match tb_reservations topped_store !! "req" with
    | Some r => bool_decide (is_active r = true ∧ r_RequestID r = "req" ∧ is_Some (tb_tenants topped_store !! r_TenantID r))
    | None => false end = true) as Hrow by (vm_compute; reflexivity).
  destruct (tb_reservations topped_store !! "req") as [r|] eqn:Hr; [|discriminate Hrow].
  apply bool_decide_eq_true_1 in Hrow as (Ha & Hid & tn & Htn). exists r, tn. split_and!; [reflexivity|done..].
Qed.

Lemma topped_total : sum_map wt_CostNanoUSD (own_turns "req" topped_store) = 60.
Proof. vm_compute. reflexivity. Qed.

Lemma reclaimed_over r : tb_reservations reclaimed_store !! "req" = Some r → is_active r = false.
Proof.
  assert (option_map is_active (tb_reservations reclaimed_store !! "req") = Some false) as Hover by (vm_compute; reflexivity).
  intros Hr. rewrite Hr in Hover. by injection Hover.
Qed.

Lemma topped_fresh : fresh_ids evening topped_store.
Proof. apply evening_fresh. by vm_compute. Qed.

Lemma websocket_sessions_pay_their_turns_witness :
  (∃ t', (close_session plain_session true a_answered evening topped_store 0%nat).1 = (Ok (Ok ()), t') ∧
    r_ActualNanoUSD <$> tb_reservations t' !! "req" = Some (Some 60)) ∧
  (close_session plain_session true a_answered evening reclaimed_store 0%nat).1.2 = reclaimed_store.
Proof.
  split.
  - destruct topped_rows as (r & tn & Hr & Ha & Hid & Htn).
    destruct (proj1 (websocket_sessions_pay_their_turns plain_session a_answered topped_store evening 0%nat session_topped)
      r tn Hr Ha Htn) as (_ & _ & _ & entryID & now & ->).
    + by intros i.
    + exact topped_fresh.
    + cbn [wss_requestID plain_session]. by rewrite topped_total.
    + cbn [wss_requestID plain_session]. rewrite topped_total. eexists. split; [reflexivity|].
      destruct (finish_tables topped_store r tn 60 true ReservationSettled entryID now) as [-> _].
      by rewrite Hid, lookup_insert_eq.
  - exact (proj1 (proj2 (websocket_sessions_pay_their_turns plain_session a_answered reclaimed_store evening 0%nat
      session_reclaimed) reclaimed_over)).
Defined.

(** The first failure is counted, an equal one is not. *)
Definition failed : result (relayed * nativeWebSocketAccounting) * tables * nat :=
  from_upstream plain_session plain_surroundings false failure a_three later admitted_store 20%nat.
Definition a_failed : nativeWebSocketAccounting :=
  match failed.1.1 with Ok (_, a) => a | Err _ => a_three end.
#[local] Strategy expand [failed a_failed].

Lemma equal_failures_are_one_witness :
  (rm_Model <$> queue a_failed) = ["gpt-5"; "gpt-6"] ∧ ∃ a2 c',
  from_upstream plain_session plain_surroundings false failure a_failed later admitted_store 40%nat
    = (Ok (Forward failure, a2), admitted_store, c') ∧ (rm_Model <$> queue a2) = ["gpt-5"; "gpt-6"].
Proof.
  split; [by vm_compute|].
  assert (rm_Model <$> queue a_failed = ["gpt-5"; "gpt-6"]) as Hmodels by by vm_compute.
  assert (∃ m1, queue a_three = m1 :: queue a_failed) as [m1 Hq] by (eexists; by vm_compute).
  assert (match failed.1.1 with Ok _ => true | Err _ => false end = true) as Hok by by vm_compute.
  assert (∃ m2 q, queue a_failed = m2 :: q) as (m2 & q & Hq1) by (eexists _, _; by vm_compute).
  unfold a_failed in *. destruct failed as [[[[out a1]|e] t1] c] eqn:Hrun; [|discriminate Hok].
  rewrite Hq1 in Hq.
  destruct (equal_failures_are_one later plain_session plain_surroundings false failure a_three admitted_store 20%nat
    out a1 t1 c m1 m2 q session_three ltac:(by vm_compute) ltac:(by vm_compute) Hrun Hq Hq1
    later plain_surroundings false admitted_store 40%nat) as (a2 & c' & Heq & Hq2 & _).
  exists a2, c'. split; [exact Heq|]. by rewrite Hq2, <- Hq1.
Defined.
