(* ===== verification/PriceStore.v ===== *)
(** * The price tables of the store (internal/store/store.go, runtime_settings.go)

    Administrators keep prices, aliases and rules in tables; a synchronisation
    replaces the rows of the public catalog.  [RefreshPricing] compiles the four
    tables and the bundled prices into the snapshot that requests are priced
    with, and publishes it in memory.  The state is those tables, the runtime
    settings, and the published snapshot, which no rollback touches. *)

From Stdlib Require Import SpecFloat.
From S2P Require Import Prelude.
From S2P Require Import Float64.
From S2P Require Import Cost.
From S2P Require Import Pricing.
From S2P Require Import Database.
From S2P Require Import Schema.
From S2P Require Import RequestLogs.
From S2P Require Import Encoding.
From S2P Require Import DeviceGrants.

(** ** Rows

    A zero [time.Time] is [None]. *)

(* src/internal/db/models.go:68-82 ModelPrice *)
Record ModelPrice := {
  mp_Model : string;
  mp_InputNanoUSDPerToken : Z;
  mp_OutputNanoUSDPerToken : Z;
  mp_CachedInputNanoUSDPerToken : Z;
  mp_CacheWriteNanoUSDPerToken : Z;
  mp_ReasoningNanoUSDPerToken : Z;
  mp_ImageInputNanoUSDPerToken : Z;
  mp_CachedImageInputNanoUSDPerToken : Z;
  mp_ImageOutputNanoUSDPerToken : Z;
  mp_Source : string;
  mp_Version : string;
  mp_PriceMultiplier : float64;
  mp_UpdatedAt : option Z
}.
#[export] Instance ModelPrice_eta : Eta ModelPrice := λ r, Build_ModelPrice (mp_Model r)
  (mp_InputNanoUSDPerToken r) (mp_OutputNanoUSDPerToken r) (mp_CachedInputNanoUSDPerToken r)
  (mp_CacheWriteNanoUSDPerToken r) (mp_ReasoningNanoUSDPerToken r) (mp_ImageInputNanoUSDPerToken r)
  (mp_CachedImageInputNanoUSDPerToken r) (mp_ImageOutputNanoUSDPerToken r) (mp_Source r)
  (mp_Version r) (mp_PriceMultiplier r) (mp_UpdatedAt r).

(* src/internal/db/models.go:86-101 ModelCatalogPrice *)
Record ModelCatalogPrice := {
  mc_Model : string;
  mc_InputNanoUSDPerToken : Z;
  mc_OutputNanoUSDPerToken : Z;
  mc_CachedInputNanoUSDPerToken : Z;
  mc_CacheWriteNanoUSDPerToken : Z;
  mc_ReasoningNanoUSDPerToken : Z;
  mc_ImageInputNanoUSDPerToken : Z;
  mc_CachedImageInputNanoUSDPerToken : Z;
  mc_ImageOutputNanoUSDPerToken : Z;
  mc_Source : string;
  mc_Version : string;
  mc_SourceModelID : string;
  mc_RawJSON : string;
  mc_UpdatedAt : option Z
}.

(* src/internal/db/models.go:103-107 ModelAlias *)
Record ModelAlias := { ml_Alias : string; ml_Model : string; ml_UpdatedAt : option Z }.

(* src/internal/db/models.go:124-132 ModelPriceRule *)
Record ModelPriceRule := {
  mr_ID : string;
  mr_Model : string;
  mr_Field : string;
  mr_Value : string;
  mr_Multiplier : float64;
  mr_CreatedAt : option Z;
  mr_UpdatedAt : option Z
}.

(* src/internal/db/runtime_settings.go:7-11 RuntimeSetting *)
Record RuntimeSetting := { rs_Key : string; rs_SealedDocument : string; rs_UpdatedAt : Z }.

(** ** What the synchronisation of the catalog delivers *)

(* src/internal/pricing/capabilities.go:33-36 ReasoningOption *)
Record ReasoningOption := { ro_Type : string; ro_Values : list string }.

(* src/internal/pricing/capabilities.go:12-31 Capability *)
Record Capability := {
  cp_ID : string;
  cp_Name : string;
  cp_Description : string;
  cp_Provider : string;
  cp_Source : string;
  cp_Context : Z;
  cp_MaxOutput : Z;
  cp_MaxInput : Z;
  cp_ToolCall : option bool;
  cp_StructuredOutput : option bool;
  cp_Temperature : option bool;
  cp_Reasoning : bool;
  cp_ReasoningOptions : list ReasoningOption;
  cp_DefaultLevel : string;
  cp_InputModalities : list string;
  cp_OutputModalities : list string;
  cp_ServiceTiers : list string;
  cp_PreferWebSockets : option bool
}.

(* src/internal/pricing/capabilities.go:319-322 CapabilitySnapshot *)
Record CapabilitySnapshot := { cs_Version : string; cs_Items : list Capability }.

(* src/internal/pricing/sync.go:80-84 CatalogEntry *)
Record CatalogEntry := { ce_Price : Price; ce_SourceModelID : string; ce_RawJSON : string }.

(* src/internal/pricing/sync.go:91-97 SyncResult *)
Record SyncResult := {
  sy_Source : string;
  sy_Version : string;
  sy_URL : string;
  sy_Entries : list CatalogEntry;
  sy_Capabilities : list Capability
}.

(** ** State *)

(* src/internal/store/store.go:26-32 Store *)
Record price_state := {
  px_prices : gmap string ModelPrice;
  px_catalog : gmap string ModelCatalogPrice;
  px_aliases : gmap string ModelAlias;
  px_rules : gmap string ModelPriceRule;
  px_settings : gmap string RuntimeSetting;
  px_snapshot : option Snapshot
}.
#[export] Instance price_state_eta : Eta price_state := λ r, Build_price_state (px_prices r)
  (px_catalog r) (px_aliases r) (px_rules r) (px_settings r) (px_snapshot r).

Definition model_prices : table price_state string ModelPrice :=
  Table px_prices (λ m t, t <| px_prices := m |>) (λ _, true).
Definition model_catalog_prices : table price_state string ModelCatalogPrice :=
  Table px_catalog (λ m t, t <| px_catalog := m |>) (λ _, true).
Definition model_aliases : table price_state string ModelAlias :=
  Table px_aliases (λ m t, t <| px_aliases := m |>) (λ _, true).
Definition model_price_rules : table price_state string ModelPriceRule :=
  Table px_rules (λ m t, t <| px_rules := m |>) (λ _, true).
Definition runtime_settings : table price_state string RuntimeSetting :=
  Table px_settings (λ m t, t <| px_settings := m |>) (λ _, true).

#[export] Instance model_prices_lawful : LawfulTable model_prices.
Proof. by split. Qed.
#[export] Instance model_catalog_prices_lawful : LawfulTable model_catalog_prices.
Proof. by split. Qed.
#[export] Instance model_aliases_lawful : LawfulTable model_aliases.
Proof. by split. Qed.
#[export] Instance model_price_rules_lawful : LawfulTable model_price_rules.
Proof. by split. Qed.
#[export] Instance runtime_settings_lawful : LawfulTable runtime_settings.
Proof. by split. Qed.

Definition PX (A : Type) : Type := M price_state A.

(** gorm inserts the default of a column in the place of a Go zero value; both multipliers are
    declared [default:1].  This is what it inserts for a multiplier. *)
Class ColumnDefault := created_multiplier : float64 → float64.

(** Its documentation: a zero value is not saved into a column with a default, every other value
    is.  [reflect] takes a negative zero for a zero value too. *)
Class LawfulColumnDefault `{ColumnDefault} : Prop := {
  created_zero sign : created_multiplier (S754_zero sign) = f64_one;
  created_other m : (∀ sign, m ≠ S754_zero sign) → created_multiplier m = m
}.

(* src/internal/pricing/pricing.go:21-21 SourceAdmin *)
Definition SourceAdmin : string := "admin".
(* src/internal/pricing/pricing.go:23-23 SourceBundled *)
Definition SourceBundled : string := "bundled".

(** ** Bundled prices *)

(* src/internal/pricing/bundled.go:3-26 BundledPrices *)
Definition BundledPrices : list Price :=
  [Build_Price "gpt-5.2" 1750 14000 175 1750 14000 0 0 0 SourceBundled "bundled-2026-07-23" f64_one;
   Build_Price "gpt-5.3-codex" 1750 14000 175 1750 14000 0 0 0 SourceBundled "bundled-2026-07-23" f64_one;
   Build_Price "gpt-5.4" 2500 15000 250 2500 15000 0 0 0 SourceBundled "bundled-2026-07-23" f64_one;
   Build_Price "gpt-5.4-mini" 750 4500 75 750 4500 0 0 0 SourceBundled "bundled-2026-07-23" f64_one;
   Build_Price "gpt-5.5" 5000 30000 500 5000 30000 0 0 0 SourceBundled "bundled-2026-07-23" f64_one;
   Build_Price "gpt-5.6" 5000 30000 500 5000 30000 0 0 0 SourceBundled "bundled-2026-07-23" f64_one;
   Build_Price "gpt-5.6-terra" 2500 15000 250 2500 15000 0 0 0 SourceBundled "bundled-2026-07-23" f64_one;
   Build_Price "gpt-5.6-sol" 5000 30000 500 6250 30000 0 0 0 SourceBundled "bundled-2026-07-23" f64_one;
   Build_Price "gpt-6-astra" 10000 50000 1000 12500 50000 0 0 0 SourceBundled "openai-standard-2026-09-03" f64_one;
   Build_Price "gpt-image-2" 5000 0 1250 0 0 8000 2000 30000 SourceBundled "openai-standard-2026-08-10" f64_one;
   Build_Price "xai/grok-4.6" 2000 6000 500 2000 6000 0 0 0 SourceBundled "xai-standard-2026-08-12" f64_one;
   Build_Price "xai/grok-4.5" 2000 6000 300 2000 6000 0 0 0 SourceBundled "xai-standard-2026-09-26" f64_one;
   Build_Price "xai/grok-4.3" 1250 2500 200 1250 2500 0 0 0 SourceBundled "bundled-2026-07-23" f64_one;
   Build_Price "xai/grok-4.20-0309-reasoning" 1250 2500 200 1250 2500 0 0 0 SourceBundled "xai-standard-2026-09-26" f64_one;
   Build_Price "xai/grok-3-mini" 300 500 75 300 500 0 0 0 SourceBundled "bundled-2026-07-23" f64_one;
   Build_Price "xai/grok-3-mini-fast" 600 4000 150 600 4000 0 0 0 SourceBundled "bundled-2026-07-23" f64_one].

Section price_store.
Context `{FloatToInt} `{ColumnDefault} `{AEAD CapabilitySnapshot}.

(** ** Refreshing the snapshot *)

Definition pricing_message (e : pricing_error) : string :=
match e with
| InvalidRule model => "invalid price rule for model " +:+ quoted model
| InvalidMultiplier model => "invalid multiplier for model " +:+ quoted model
| PriceModelRequired => "price model is required"
| InvalidPriceMultiplier model => "invalid price multiplier for " +:+ quoted model
| NegativePrice model => "negative price for " +:+ quoted model
| AliasRequired => "model alias and target are required"
end.

(** A row whose time of change is unknown predates the multiplier. *)
(* src/internal/store/store.go:724-740 RefreshPricing *)
Definition admin_price (value : ModelPrice) : Price :=
let multiplier :=
  if f64_eq (mp_PriceMultiplier value) f64_zero && bool_decide (mp_UpdatedAt value = None)
  then f64_one else mp_PriceMultiplier value in
{| p_Model := mp_Model value; p_InputNanoUSDPerToken := mp_InputNanoUSDPerToken value;
   p_OutputNanoUSDPerToken := mp_OutputNanoUSDPerToken value;
   p_CachedInputNanoUSDPerToken := mp_CachedInputNanoUSDPerToken value;
   p_CacheWriteNanoUSDPerToken := mp_CacheWriteNanoUSDPerToken value;
   p_ReasoningNanoUSDPerToken := mp_ReasoningNanoUSDPerToken value;
   p_ImageInputNanoUSDPerToken := mp_ImageInputNanoUSDPerToken value;
   p_CachedImageInputNanoUSDPerToken := mp_CachedImageInputNanoUSDPerToken value;
   p_ImageOutputNanoUSDPerToken := mp_ImageOutputNanoUSDPerToken value;
   p_Source := SourceAdmin; p_Version := mp_Version value; p_PriceMultiplier := multiplier |}.

(* src/internal/store/store.go:741-754 RefreshPricing *)
Definition catalog_price (value : ModelCatalogPrice) : Price :=
{| p_Model := mc_Model value; p_InputNanoUSDPerToken := mc_InputNanoUSDPerToken value;
   p_OutputNanoUSDPerToken := mc_OutputNanoUSDPerToken value;
   p_CachedInputNanoUSDPerToken := mc_CachedInputNanoUSDPerToken value;
   p_CacheWriteNanoUSDPerToken := mc_CacheWriteNanoUSDPerToken value;
   p_ReasoningNanoUSDPerToken := mc_ReasoningNanoUSDPerToken value;
   p_ImageInputNanoUSDPerToken := mc_ImageInputNanoUSDPerToken value;
   p_CachedImageInputNanoUSDPerToken := mc_CachedImageInputNanoUSDPerToken value;
   p_ImageOutputNanoUSDPerToken := mc_ImageOutputNanoUSDPerToken value;
   p_Source := mc_Source value; p_Version := mc_Version value; p_PriceMultiplier := f64_one |}.

(* src/internal/store/store.go:755-758 RefreshPricing *)
Definition alias_map (aliases : list ModelAlias) : gmap string string :=
foldl (λ aliasMap value, <[ml_Alias value := ml_Model value]> aliasMap) ∅ aliases.

(* src/internal/store/store.go:759-764 RefreshPricing *)
Definition price_rule (value : ModelPriceRule) : Rule :=
{| ru_Model := mr_Model value; ru_Field := mr_Field value; ru_Value := mr_Value value;
   ru_Multiplier := mr_Multiplier value |}.

Definition every {A} (_ : A) : bool := true.

(** The map of aliases is visited in the order the world chooses. *)
(* src/internal/store/store.go:698-771 RefreshPricing *)
Definition RefreshPricing : PX unit :=
admin ← find model_prices every;
catalog ← find model_catalog_prices every;
aliases ← find model_aliases every;
rules ← find model_price_rules every;
aliasMap ← any_order (map_to_list (alias_map aliases));
match Compile (admin_price <$> admin) (catalog_price <$> catalog) BundledPrices aliasMap
        (price_rule <$> rules) with
| inl e => fail (ErrMessage (pricing_message e))
| inr snapshot => modify (λ t : price_state, t <| px_snapshot := Some snapshot |>)
end.

(** A process starts without a snapshot. *)
(* src/internal/store/store.go:40-50 New *)
Definition NewStore : PX unit :=
modify (λ t : price_state, t <| px_snapshot := @None Snapshot |>);;
RefreshPricing.

(* src/internal/store/store.go:525-535 ResolvePrice *)
Definition ResolvePrice (dimensions : Dimensions) : PX SnapshotPrice :=
snapshot ← gets px_snapshot;
(if bool_decide (is_Some snapshot) then mret () else RefreshPricing);;
snapshot ← gets px_snapshot;
match Resolve snapshot dimensions with
| Some value => mret value
| None => fail ErrNotFound
end.

(* src/internal/store/store.go:521-523 Price *)
Definition PriceOf (model : string) : PX SnapshotPrice :=
ResolvePrice (Build_Dimensions "" model "" "" "" "" "" "" "" 0).

(** ** Prices of the administrator *)

(* src/internal/store/store.go:543-550 AdminPrice *)
Definition AdminPrice (model : string) : PX ModelPrice :=
map_error notFound (first model_prices (trim_space model)).

(** The columns of a conflicting row that are overwritten: all but the name. *)
(* src/internal/store/store.go:558-565 UpsertPrice *)
Definition overwrite_price (old new : ModelPrice) : ModelPrice :=
{| mp_Model := mp_Model old; mp_InputNanoUSDPerToken := mp_InputNanoUSDPerToken new;
   mp_OutputNanoUSDPerToken := mp_OutputNanoUSDPerToken new;
   mp_CachedInputNanoUSDPerToken := mp_CachedInputNanoUSDPerToken new;
   mp_CacheWriteNanoUSDPerToken := mp_CacheWriteNanoUSDPerToken new;
   mp_ReasoningNanoUSDPerToken := mp_ReasoningNanoUSDPerToken new;
   mp_ImageInputNanoUSDPerToken := mp_ImageInputNanoUSDPerToken new;
   mp_CachedImageInputNanoUSDPerToken := mp_CachedImageInputNanoUSDPerToken new;
   mp_ImageOutputNanoUSDPerToken := mp_ImageOutputNanoUSDPerToken new; mp_Source := mp_Source new;
   mp_Version := mp_Version new; mp_PriceMultiplier := mp_PriceMultiplier new;
   mp_UpdatedAt := mp_UpdatedAt new |}.

(** What gorm inserts for a row: the defaults, and the time if it is zero. *)
Definition created_price (price : ModelPrice) (now : Z) : ModelPrice :=
price <| mp_PriceMultiplier := created_multiplier (mp_PriceMultiplier price);
         mp_UpdatedAt := Some (default now (mp_UpdatedAt price)) |>.

(* src/internal/store/store.go:553-570 UpsertPrice *)
Definition UpsertPrice (price : ModelPrice) : PX unit :=
now ← time_now;
let price := price <| mp_Source := "admin"; mp_Version := "admin:" +:+ rfc3339_nano now |> in
now ← time_now;
upsert model_prices (mp_Model price) (created_price price now) overwrite_price;;
RefreshPricing.

(* src/internal/store/store.go:572-584 DeletePrice *)
Definition DeletePrice (model : string) : PX unit :=
rowsAffected ← delete_where model_prices (λ price, bool_decide (mp_Model price = trim_space model));
RefreshPricing;;
guard_that (negb (rowsAffected =? 0)) ErrNotFound.

(** [url.PathUnescape]: every [%] must be followed by two hexadecimal digits. *)
Definition hex_value (c : ascii) : option nat :=
let n := Ascii.nat_of_ascii c in
if bool_decide (48 ≤ n ∧ n ≤ 57)%nat then Some (n - 48)%nat
else if bool_decide (97 ≤ n ∧ n ≤ 102)%nat then Some (n - 87)%nat
else if bool_decide (65 ≤ n ∧ n ≤ 70)%nat then Some (n - 55)%nat
else None.

Fixpoint path_unescape (s : string) : option string :=
match s with
| EmptyString => Some EmptyString
| String c s =>
    if bool_decide (c = "%"%char) then
      match s with
      | String a (String b s) =>
          high ← hex_value a; low ← hex_value b;
          String (Ascii.ascii_of_nat (high * 16 + low)) <$> path_unescape s
      | _ => None
      end
    else String c <$> path_unescape s
end.

(* src/internal/app/api.go:689-699 adminPriceUpdate *)
Record PriceInput := {
  pi_InputNanoUSDPerToken : Z;
  pi_OutputNanoUSDPerToken : Z;
  pi_CachedInputNanoUSDPerToken : Z;
  pi_CacheWriteNanoUSDPerToken : Z;
  pi_ReasoningNanoUSDPerToken : Z;
  pi_ImageInputNanoUSDPerToken : Z;
  pi_CachedImageInputNanoUSDPerToken : Z;
  pi_ImageOutputNanoUSDPerToken : Z;
  pi_PriceMultiplier : option float64
}.

(* src/internal/app/api.go:708-721 adminPriceUpdate *)
Definition price_from_input (model : string) (input : PriceInput) : ModelPrice :=
let multiplier := default f64_one (pi_PriceMultiplier input) in
{| mp_Model := model; mp_InputNanoUSDPerToken := pi_InputNanoUSDPerToken input;
   mp_OutputNanoUSDPerToken := pi_OutputNanoUSDPerToken input;
   mp_CachedInputNanoUSDPerToken := pi_CachedInputNanoUSDPerToken input;
   mp_CacheWriteNanoUSDPerToken := pi_CacheWriteNanoUSDPerToken input;
   mp_ReasoningNanoUSDPerToken := pi_ReasoningNanoUSDPerToken input;
   mp_ImageInputNanoUSDPerToken := pi_ImageInputNanoUSDPerToken input;
   mp_CachedImageInputNanoUSDPerToken := pi_CachedImageInputNanoUSDPerToken input;
   mp_ImageOutputNanoUSDPerToken := pi_ImageOutputNanoUSDPerToken input; mp_Source := "";
   mp_Version := ""; mp_PriceMultiplier := multiplier; mp_UpdatedAt := None |}.

Definition model_rates (price : ModelPrice) : list Z :=
[mp_InputNanoUSDPerToken price; mp_OutputNanoUSDPerToken price; mp_CachedInputNanoUSDPerToken price;
 mp_CacheWriteNanoUSDPerToken price; mp_ReasoningNanoUSDPerToken price;
 mp_ImageInputNanoUSDPerToken price; mp_CachedImageInputNanoUSDPerToken price;
 mp_ImageOutputNanoUSDPerToken price].

Definition validation_error : error := ErrMessage "validation_error".

(** The handler after the decoding of its body; an error is the code of its answer. *)
(* src/internal/app/api.go:688-738 adminPriceUpdate *)
Definition adminPriceUpdate (pathValue : string) (input : PriceInput) : PX ModelPrice :=
match path_unescape pathValue with
| None => fail validation_error
| Some model =>
    guard_that (negb (bool_decide (model = ""))) validation_error;;
    let price := price_from_input model input in
    guard_that (negb (existsb (λ rate, rate <? 0) (model_rates price) ||
                      f64_lt (mp_PriceMultiplier price) f64_zero)) validation_error;;
    UpsertPrice price;;
    AdminPrice model
end.

(* src/internal/app/api.go:774-785 adminPriceDelete *)
Definition adminPriceDelete (pathValue : string) : PX unit :=
match path_unescape pathValue with
| None => fail validation_error
| Some model =>
    guard_that (negb (bool_decide (trim_space model = ""))) validation_error;;
    map_error (λ _, ErrNotFound) (DeletePrice model)
end.

(** ** Aliases and rules *)

Definition no_clash {A} (_ _ : A) : bool := false.

(* src/internal/store/store.go:598-621 ReplaceModelAliases *)
Definition ReplaceModelAliases (aliases : list ModelAlias) : PX unit :=
transaction (
  _ ← delete_where model_aliases every;
  if bool_decide (aliases = []) then mret ()
  else
    now ← time_now;
    let aliases := (λ item, {| ml_Alias := trim_space (ml_Alias item);
                               ml_Model := trim_space (ml_Model item);
                               ml_UpdatedAt := Some now |}) <$> aliases in
    guard_that (forallb (λ item, negb (bool_decide (ml_Alias item = "") || bool_decide (ml_Model item = "")))
                  aliases) (ErrMessage "alias and model are required");;
    create_batch model_aliases no_clash ((λ item, (ml_Alias item, item)) <$> aliases));;
RefreshPricing.

(** No two rules of a model look at the same value of the same field. *)
(* src/internal/db/models.go:126-128 ModelPriceRule *)
Definition same_rule (r r' : ModelPriceRule) : bool :=
bool_decide (mr_Model r = mr_Model r') && bool_decide (mr_Field r = mr_Field r') &&
bool_decide (mr_Value r = mr_Value r').

(* src/internal/store/store.go:635-645 ReplacePriceRules *)
Definition prepare_rule (now : Z) (rule : ModelPriceRule) : PX ModelPriceRule :=
id ← new_id;
let rule := {| mr_ID := id; mr_Model := trim_space (mr_Model rule);
               mr_Field := to_lower (trim_space (mr_Field rule)); mr_Value := trim_space (mr_Value rule);
               mr_Multiplier := mr_Multiplier rule; mr_CreatedAt := Some now; mr_UpdatedAt := Some now |} in
guard_that (negb (bool_decide (mr_Model rule = "") || bool_decide (mr_Value rule = "") ||
                  negb (ValidRuleField (mr_Field rule)) || negb (ValidRuleValue (mr_Field rule) (mr_Value rule)) ||
                  f64_lt (mr_Multiplier rule) f64_zero || f64_is_nan (mr_Multiplier rule) ||
                  f64_is_inf (mr_Multiplier rule))) (ErrMessage "invalid pricing rule");;
mret rule.

Definition created_rule (rule : ModelPriceRule) : ModelPriceRule :=
Build_ModelPriceRule (mr_ID rule) (mr_Model rule) (mr_Field rule) (mr_Value rule)
  (created_multiplier (mr_Multiplier rule)) (mr_CreatedAt rule) (mr_UpdatedAt rule).

(* src/internal/store/store.go:629-656 ReplacePriceRules *)
Definition ReplacePriceRules (rules : list ModelPriceRule) : PX unit :=
transaction (
  _ ← delete_where model_price_rules every;
  now ← time_now;
  rules ← for_each (prepare_rule now) rules;
  if bool_decide (rules = []) then mret ()
  else create_batch model_price_rules same_rule ((λ rule, (mr_ID rule, created_rule rule)) <$> rules));;
RefreshPricing.

(** ** The public catalog *)

(* src/internal/store/runtime_settings.go:14-16 runtimeSettingAssociatedData *)
Definition runtimeSettingAssociatedData (key : string) : string := "relayapi/runtime-setting/v1/" +:+ key.

(* src/internal/store/runtime_settings.go:37-55 PutRuntimeSetting *)
Definition PutRuntimeSetting {P} `{AEAD P} (key : string) (document : P) : PX unit :=
let key := trim_space key in
guard_that (negb (bool_decide (key = ""))) (ErrMessage "runtime setting key is required");;
sealed ← Seal document (runtimeSettingAssociatedData key);
now ← time_now;
upsert runtime_settings key {| rs_Key := key; rs_SealedDocument := sealed; rs_UpdatedAt := now |}
  (λ old new, {| rs_Key := rs_Key old; rs_SealedDocument := rs_SealedDocument new;
                 rs_UpdatedAt := rs_UpdatedAt new |}).

(* src/internal/store/store.go:671-684 ApplyCatalog *)
Definition catalog_row (result : SyncResult) (now : Z) (entry : CatalogEntry) : ModelCatalogPrice :=
let price := ce_Price entry in
{| mc_Model := p_Model price; mc_InputNanoUSDPerToken := p_InputNanoUSDPerToken price;
   mc_OutputNanoUSDPerToken := p_OutputNanoUSDPerToken price;
   mc_CachedInputNanoUSDPerToken := p_CachedInputNanoUSDPerToken price;
   mc_CacheWriteNanoUSDPerToken := p_CacheWriteNanoUSDPerToken price;
   mc_ReasoningNanoUSDPerToken := p_ReasoningNanoUSDPerToken price;
   mc_ImageInputNanoUSDPerToken := p_ImageInputNanoUSDPerToken price;
   mc_CachedImageInputNanoUSDPerToken := p_CachedImageInputNanoUSDPerToken price;
   mc_ImageOutputNanoUSDPerToken := p_ImageOutputNanoUSDPerToken price;
   mc_Source := sy_Source result; mc_Version := sy_Version result;
   mc_SourceModelID := ce_SourceModelID entry; mc_RawJSON := ce_RawJSON entry; mc_UpdatedAt := Some now |}.

(** [rows[start:min(start+500, len(rows))]] for [start] = 0, 500, 1000... *)
(* src/internal/store/store.go:685-686 ApplyCatalog *)
Definition batches {A} (rows : list A) : list (list A) :=
(λ i, take 500 (drop (500 * i) rows)) <$> seq 0 (Nat.div (length rows + 499) 500).

(* src/internal/store/store.go:658-696 ApplyCatalog *)
Definition ApplyCatalog (result : SyncResult) : PX unit :=
transaction (
  PutRuntimeSetting "models-dev-capabilities"
    {| cs_Version := sy_Version result; cs_Items := sy_Capabilities result |};;
  _ ← delete_where model_catalog_prices every;
  now ← time_now;
  let rows := catalog_row result now <$> sy_Entries result in
  _ ← for_each (λ batch, create_batch model_catalog_prices no_clash ((λ row, (mc_Model row, row)) <$> batch))
        (batches rows);
  mret ());;
RefreshPricing.
End price_store.
