(* ===== verification/PriceChanges.v ===== *)
(** * What changing prices does

    A change is stored as a whole and then published as a whole; the snapshot
    that requests are priced with is always the compilation of a state the
    tables were in.  A price of the administrator is what the next request of
    that model pays, valid changes always go through - and one row with a blank
    name stops all of them. *)

From Stdlib Require Import SpecFloat.
From S2P Require Import Prelude.
From S2P Require Import Float64.
From S2P Require Import Cost.
From S2P Require Import Pricing.
From S2P Require Import PriceGuarantees.
From S2P Require Import Database.
From S2P Require Import Schema.
From S2P Require Import RequestLogs.
From S2P Require Import Encoding.
From S2P Require Import DeviceGrants.
From S2P Require Import AccessTokens.
From S2P Require Import PriceStore.

(** ** Rows, filed under their keys *)

Record filed (t : price_state) : Prop := {
  filed_prices : keyed mp_Model (px_prices t);
  filed_catalog : keyed mc_Model (px_catalog t);
  filed_aliases : keyed ml_Alias (px_aliases t);
  filed_rules : keyed mr_ID (px_rules t)
}.

Lemma filter_every {V} (l : list V) : filter (λ v, every v = true) l = l.
Proof. induction l as [|v l IH]; [done|]. rewrite filter_cons_True; [by rewrite IH|done]. Qed.

Lemma elem_of_values {K V : Type} `{Countable K} (m : gmap K V) v :
  v ∈ (map_to_list m).*2 ↔ ∃ k, m !! k = Some v.
Proof.
  rewrite list_elem_of_fmap. split.
  - intros ([k v'] & -> & Hin%elem_of_map_to_list). eauto.
  - intros (k & Hk). exists (k, v). by rewrite elem_of_map_to_list.
Qed.

Lemma Forall_values {K V : Type} `{Countable K} (P : V → Prop) (m : gmap K V) l :
  l ≡ₚ (map_to_list m).*2 → Forall P l ↔ map_Forall (λ _ v, P v) m.
Proof.
  intros Hl. rewrite list.Forall_forall. split.
  - intros HP k v Hv. apply HP. rewrite Hl, elem_of_values. eauto.
  - intros HP v Hv. rewrite Hl, elem_of_values in Hv. destruct Hv as [k Hk]. by apply (HP k).
Qed.

Lemma alias_map_lookup l a m :
  NoDup (ml_Alias <$> l) → alias_map l !! a = Some m ↔ ∃ v, v ∈ l ∧ ml_Alias v = a ∧ ml_Model v = m.
Proof.
  induction l as [|v l IH] using rev_ind; intros Hnd.
  - split; [done|]. intros (v & Hv & _). by apply not_elem_of_nil in Hv.
  - rewrite fmap_app in Hnd. apply list.NoDup_app in Hnd as (Hnd & Hnew & _). unfold alias_map.
    rewrite foldl_app. cbn [foldl]. fold (alias_map l).
    destruct (decide (ml_Alias v = a)) as [<-|Hne].
    + rewrite lookup_insert_eq. split.
      * intros [= <-]. exists v. rewrite elem_of_app. split; [right; left|done].
      * intros (w & [Hw|Hw%list_elem_of_singleton]%elem_of_app & Ha & <-); [|by subst].
        destruct (Hnew (ml_Alias v)); [|left]. apply list_elem_of_fmap. by exists w.
    + rewrite lookup_insert_ne, IH by done. setoid_rewrite elem_of_app. split; [naive_solver|].
      intros (w & [Hw|Hw%list_elem_of_singleton] & Ha & Hm); [naive_solver|by subst].
Qed.

Lemma alias_map_rows rows l :
  keyed ml_Alias rows → l ≡ₚ (map_to_list rows).*2 → alias_map l = ml_Model <$> rows.
Proof.
  intros Hk Hl. apply map_eq. intros a. apply option_eq. intros m. rewrite alias_map_lookup.
  - rewrite lookup_fmap, fmap_Some. setoid_rewrite Hl. setoid_rewrite elem_of_values. split.
    + intros (v & [k Hv] & <- & <-). rewrite (Hk _ _ Hv). eauto.
    + intros (v & Hv & ->). exists v. split; [eauto|]. split; [exact (Hk _ _ Hv)|done].
  - rewrite Hl, keyed_ids by done. apply NoDup_fst_map_to_list.
Qed.

(** ** Refreshing *)

Section refreshing.
Context `{FloatToInt} `{ColumnDefault} `{AEAD CapabilitySnapshot}.

(** The snapshot is a compilation of exactly these tables, read in some order. *)
Definition compiled_from (t : price_state) (s : Snapshot) : Prop :=
∃ admin catalog aliases rules,
  admin ≡ₚ (map_to_list (px_prices t)).*2 ∧ catalog ≡ₚ (map_to_list (px_catalog t)).*2 ∧
  aliases ≡ₚ map_to_list (ml_Model <$> px_aliases t) ∧ rules ≡ₚ (map_to_list (px_rules t)).*2 ∧
  Compile (admin_price <$> admin) (catalog_price <$> catalog) BundledPrices aliases (price_rule <$> rules) = inr s.

Definition published (t : price_state) : Prop := ∃ s, px_snapshot t = Some s ∧ compiled_from t s.

(** Every row of the tables compiles. *)
Record compilable (t : price_state) : Prop := {
  prices_compile : map_Forall (λ _ v, price_accepted (admin_price v)) (px_prices t);
  catalog_compiles : map_Forall (λ _ v, price_accepted (catalog_price v)) (px_catalog t);
  aliases_compile : map_Forall (λ k v, alias_accepted (k, ml_Model v)) (px_aliases t);
  rules_compile : map_Forall (λ _ v, rule_accepted (price_rule v)) (px_rules t)
}.

Lemma bundled_accepted : Forall price_accepted BundledPrices.
Proof.
  assert (forallb (λ p, match compile_price p with inr _ => true | inl _ => false end) BundledPrices = true)
    as Hall by by vm_compute.
  rewrite list.Forall_forall. intros p Hp. rewrite forallb_forall in Hall.
  specialize (Hall p ltac:(by apply list_elem_of_In)). unfold price_accepted.
  destruct (compile_price p) as [e|p']; [done|]. by exists p'.
Qed.

Lemma compilable_iff t admin catalog aliases rules :
  admin ≡ₚ (map_to_list (px_prices t)).*2 → catalog ≡ₚ (map_to_list (px_catalog t)).*2 →
  aliases ≡ₚ map_to_list (ml_Model <$> px_aliases t) → rules ≡ₚ (map_to_list (px_rules t)).*2 →
  (∃ s, Compile (admin_price <$> admin) (catalog_price <$> catalog) BundledPrices aliases
          (price_rule <$> rules) = inr s) ↔ compilable t.
Proof.
  intros Ha Hc Hl Hr. rewrite Compile_accepts, !Forall_app, !list.Forall_fmap.
  rewrite (Forall_values _ _ _ Ha), (Forall_values _ _ _ Hc), (Forall_values _ _ _ Hr).
  assert (Forall alias_accepted aliases ↔ map_Forall (λ k v, alias_accepted (k, ml_Model v)) (px_aliases t)) as ->.
  { rewrite Hl, map_to_list_fmap, list.Forall_fmap, map_Forall_to_list.
    apply list.Forall_iff. by intros [k v]. }
  pose proof bundled_accepted as Hb. split.
  - intros (? & (? & ? & _) & ?). by split.
  - intros []. by split_and!.
Qed.

Lemma wp_RefreshPricing E t (Q : result unit → price_state → Prop) :
  filed t →
  (∀ s, compiled_from t s → Q (Ok ()) (t <| px_snapshot := Some s |>)) →
  (∀ e, ¬ compilable t → Q (Err (ErrMessage (pricing_message e))) t) →
  (¬ quiet E → ∀ d, Q (Err (ErrConnection d)) t) →
  wp Direct E RefreshPricing t Q.
Proof.
  intros Ht HOk HErr Hd. unfold RefreshPricing.
  apply wp_bind, wp_find; [|done]. intros admin Ha. apply wp_bind, wp_find; [|done]. intros catalog Hc.
  apply wp_bind, wp_find; [|done]. intros aliases Hl. apply wp_bind, wp_find; [|done]. intros rules Hr.
  rewrite filter_every in Ha. rewrite filter_every in Hc. rewrite filter_every in Hl.
  rewrite filter_every in Hr. cbn [tb_get model_prices model_catalog_prices model_aliases
    model_price_rules] in *. rewrite (alias_map_rows _ _ (filed_aliases t Ht) Hl).
  apply wp_bind, wp_any_order. intros order Ho.
  pose proof (compilable_iff t admin catalog order rules Ha Hc Ho Hr) as Hiff.
  destruct (Compile _ _ _ _ _) as [e|s] eqn:Hs.
  - apply wp_fail, HErr. intros Hok. apply Hiff in Hok as [s [=]].
  - apply wp_modify, HOk. by exists admin, catalog, order, rules.
Qed.

Lemma compiled_from_compilable t s : compiled_from t s → compilable t.
Proof.
  intros (admin & catalog & aliases & rules & Ha & Hc & Hl & Hr & Hs).
  eapply compilable_iff; [exact Ha|exact Hc|exact Hl|exact Hr|eauto].
Qed.
End refreshing.

(** ** Changes *)

Inductive price_operation :=
  | SetPrice (pathValue : string) (input : PriceInput)
  | DropPrice (pathValue : string)
  | SetAliases (aliases : list ModelAlias)
  | SetRules (rules : list ModelPriceRule)
  | SyncCatalog (result : SyncResult).

Lemma batches_concat {A} (rows : list A) : concat (batches rows) = rows.
Proof.
  unfold batches. set (n := Nat.div (length rows + 499) 500).
  assert (Hgen : ∀ k, concat ((λ i, take 500 (drop (500 * i) rows)) <$> seq 0 k) = take (500 * k) rows).
  { induction k as [|k IH]; [done|]. rewrite seq_S, fmap_app, concat_app, IH. cbn [fmap list_fmap concat].
    rewrite app_nil_r, Nat.add_0_l, take_take_drop. f_equal. lia. }
  rewrite Hgen. apply take_ge. unfold n.
  pose proof (Nat.div_mod_eq (length rows + 499) 500). pose proof (Nat.mod_upper_bound (length rows + 499) 500 ltac:(lia)).
  lia.
Qed.

Section changes.
Context `{FloatToInt} `{ColumnDefault} `{AEAD CapabilitySnapshot}.

Definition run_price (op : price_operation) : PX unit :=
match op with
| SetPrice pathValue input => adminPriceUpdate pathValue input;; mret ()
| DropPrice pathValue => adminPriceDelete pathValue
| SetAliases aliases => ReplaceModelAliases aliases
| SetRules rules => ReplacePriceRules rules
| SyncCatalog result => ApplyCatalog result
end.

(** What the administrator's input becomes in the table. *)
Definition stored_price (model : string) (input : PriceInput) (version : string) (now : Z) : ModelPrice :=
let price := price_from_input model input in
Build_ModelPrice model (mp_InputNanoUSDPerToken price) (mp_OutputNanoUSDPerToken price)
  (mp_CachedInputNanoUSDPerToken price) (mp_CacheWriteNanoUSDPerToken price)
  (mp_ReasoningNanoUSDPerToken price) (mp_ImageInputNanoUSDPerToken price)
  (mp_CachedImageInputNanoUSDPerToken price) (mp_ImageOutputNanoUSDPerToken price) "admin" version
  (created_multiplier (default f64_one (pi_PriceMultiplier input))) (Some now).

Definition input_valid (input : PriceInput) : Prop :=
Forall (λ rate, 0 ≤ rate) (model_rates (price_from_input "" input)) ∧
f64_lt (default f64_one (pi_PriceMultiplier input)) f64_zero = false.

Definition alias_valid (item : ModelAlias) : Prop :=
trim_space (ml_Alias item) ≠ "" ∧ trim_space (ml_Model item) ≠ "".

Definition rule_valid (rule : ModelPriceRule) : Prop :=
trim_space (mr_Model rule) ≠ "" ∧ trim_space (mr_Value rule) ≠ "" ∧
ValidRuleField (mr_Field rule) = true ∧ ValidRuleValue (mr_Field rule) (mr_Value rule) = true ∧
finiteNonNegative (mr_Multiplier rule) = true.

(** What a rule becomes in the table. *)
Definition stored_rule (rule : ModelPriceRule) : Rule :=
{| ru_Model := trim_space (mr_Model rule); ru_Field := to_lower (trim_space (mr_Field rule));
   ru_Value := trim_space (mr_Value rule); ru_Multiplier := created_multiplier (mr_Multiplier rule) |}.

(** An entry of the catalog as it prices requests. *)
Definition listed_price (result : SyncResult) (entry : CatalogEntry) : Price :=
let price := ce_Price entry in
Build_Price (p_Model price) (p_InputNanoUSDPerToken price) (p_OutputNanoUSDPerToken price)
  (p_CachedInputNanoUSDPerToken price) (p_CacheWriteNanoUSDPerToken price)
  (p_ReasoningNanoUSDPerToken price) (p_ImageInputNanoUSDPerToken price)
  (p_CachedImageInputNanoUSDPerToken price) (p_ImageOutputNanoUSDPerToken price)
  (sy_Source result) (sy_Version result) f64_one.

(** The tables after a change, the snapshot being what it was. *)
Definition stored (op : price_operation) (t t1 : price_state) : Prop :=
match op with
| SetPrice pathValue input => ∃ model version now,
    path_unescape pathValue = Some model ∧ model ≠ "" ∧ input_valid input ∧
    t1 = t <| px_prices := <[model := stored_price model input version now]> (px_prices t) |>
| DropPrice pathValue => ∃ model, path_unescape pathValue = Some model ∧ trim_space model ≠ "" ∧
    t1 = t <| px_prices := delete (trim_space model) (px_prices t) |>
| SetAliases aliases => Forall alias_valid aliases ∧ ∃ rows, t1 = t <| px_aliases := rows |> ∧
    ∀ a m, ml_Model <$> rows !! a = Some m ↔
      ∃ item, item ∈ aliases ∧ a = trim_space (ml_Alias item) ∧ m = trim_space (ml_Model item)
| SetRules rules => Forall rule_valid rules ∧ ∃ rows, t1 = t <| px_rules := rows |> ∧
    ∀ rule, (∃ id row, rows !! id = Some row ∧ price_rule row = rule) ↔
      ∃ item, item ∈ rules ∧ rule = stored_rule item
| SyncCatalog result => ∃ rows setting, t1 = t <| px_catalog := rows;
      px_settings := <["models-dev-capabilities" := setting]> (px_settings t) |> ∧
    Open (rs_SealedDocument setting) "relayapi/runtime-setting/v1/models-dev-capabilities" =
      Some {| cs_Version := sy_Version result; cs_Items := sy_Capabilities result |} ∧
    ∀ price, (∃ model row, rows !! model = Some row ∧ catalog_price row = price) ↔
      ∃ entry, entry ∈ sy_Entries result ∧ price = listed_price result entry
end.

(** ** Changes that can succeed *)

(** Two rules of one list differ here. *)
Definition rule_identity (rule : ModelPriceRule) : string * string * string :=
(trim_space (mr_Model rule), to_lower (trim_space (mr_Field rule)), trim_space (mr_Value rule)).

Definition change_valid (t : price_state) (op : price_operation) : Prop :=
match op with
| SetPrice pathValue input => ∃ model, path_unescape pathValue = Some model ∧ trim_space model = model ∧
    model ≠ "" ∧ input_valid input ∧ finiteNonNegative (default f64_one (pi_PriceMultiplier input)) = true
| DropPrice pathValue => ∃ model, path_unescape pathValue = Some model ∧ trim_space model ≠ "" ∧
    is_Some (px_prices t !! trim_space model)
| SetAliases aliases => Forall alias_valid aliases ∧ NoDup ((λ item, trim_space (ml_Alias item)) <$> aliases)
| SetRules rules => Forall rule_valid rules ∧ NoDup (rule_identity <$> rules)
| SyncCatalog result => Forall (λ entry, price_accepted (listed_price result entry)) (sy_Entries result) ∧
    NoDup ((λ entry, p_Model (ce_Price entry)) <$> sy_Entries result)
end.

(** A world that never fails and never repeats an identifier. *)
Definition good_world (E : env) : Prop := quiet E ∧ ∀ i j, env_id E i = env_id E j → i = j.

Definition succeeds_with {A} (r : result A) (_ : price_state) : Prop := ∃ a, r = Ok a.

(** A change that was stored and published. *)
Definition applied (op : price_operation) (t t' : price_state) : Prop :=
∃ t1 s, stored op t t1 ∧ compiled_from t1 s ∧ t' = t1 <| px_snapshot := Some s |>.

Definition outcome {A} (op : price_operation) (t : price_state) (r : result A) (t' : price_state) : Prop :=
filed t' ∧ match r with
           | Ok _ => applied op t t'
           | Err _ => t' = t ∨ stored op t t' ∨ applied op t t'
           end.

Lemma filed_snapshot t s : filed t → filed (t <| px_snapshot := s |>).
Proof. by intros []. Qed.

Lemma wp_publish E op t t1 :
  filed t1 → stored op t t1 → wp Direct E RefreshPricing t1 (outcome op t).
Proof.
  intros Ht1 Hst. apply wp_RefreshPricing; [done| |by split; [|right; left]..].
  intros s Hs. split; [by apply filed_snapshot|]. by exists t1, s.
Qed.

Lemma outcome_refused {A} op t e : filed t → outcome op t (Err e : result A) t.
Proof. intros Ht. split; [done|by left]. Qed.

(** What comes after a published change does not undo it. *)
Lemma outcome_then {A B} op t (a : A) (k : result B) t' :
  outcome op t (Ok a) t' → outcome op t k t'.
Proof. intros [Ht' Happ]. split; [done|]. destruct k; [done|by right; right]. Qed.

Lemma overwrite_same old new : mp_Model old = mp_Model new → overwrite_price old new = new.
Proof. destruct old, new. cbn. by intros ->. Qed.

(** The row that [UpsertPrice] leaves. *)
Definition upserted (price : ModelPrice) (version : string) (now : Z) : ModelPrice :=
created_price (price <| mp_Source := "admin"; mp_Version := version |>) now.

Lemma wp_UpsertPrice E price t Q :
  filed t →
  (∀ version now, wp Direct E RefreshPricing
     (t <| px_prices := <[mp_Model price := upserted price version now]> (px_prices t) |>) Q) →
  (¬ quiet E → ∀ e, Q (Err e) t) → wp Direct E (UpsertPrice price) t Q.
Proof.
  intros Ht HQ Herr. unfold UpsertPrice. apply wp_bind, wp_now. intros now. cbv zeta.
  apply wp_bind, wp_now. intros at_. fold (upserted price ("admin:" +:+ rfc3339_nano now) at_).
  apply wp_bind, wp_upsert_ok; [|by intros _ Hq d; apply Herr]. intros w.
  assert (w = upserted price ("admin:" +:+ rfc3339_nano now) at_) as ->; [|split; [done|apply HQ]].
  unfold w. destruct (tb_get model_prices t !! _) as [old|] eqn:Hold; [|done].
  apply overwrite_same. exact (filed_prices t Ht _ _ Hold).
Qed.

(** What is known of a change: its outcome, and that it succeeds in a good world if it is valid and
  leaves rows that compile. *)
Definition change_rule (E : env) (op : price_operation) (t : price_state) : Prop :=
wp Direct E (run_price op) t (outcome op t) ∧
(good_world E → change_valid t op → (∀ t1, stored op t t1 → compilable t1) →
 wp Direct E (run_price op) t succeeds_with).

Lemma publish_succeeds E t : quiet E → filed t → compilable t → wp Direct E RefreshPricing t succeeds_with.
Proof. intros Hq Ht Hok. apply wp_RefreshPricing; [done|by eexists|done|done]. Qed.

Lemma wp_SetPrice E pathValue input t :
  filed t → wp Direct E (run_price (SetPrice pathValue input)) t (outcome (SetPrice pathValue input) t).
Proof.
  intros Ht. pose proof (outcome_refused (A := unit) (SetPrice pathValue input) t) as Href.
  cbn [run_price]. unfold adminPriceUpdate. apply wp_bind.
  destruct (path_unescape pathValue) as [model|] eqn:Hpath; [|by apply wp_fail, Href].
  apply wp_bind, wp_guard; [intros Hne|by intros _; apply Href].
  apply wp_bind, wp_guard; [intros Hvalid|by intros _; apply Href]. reflect_bools.
  apply wp_bind, wp_UpsertPrice; [done| |by intros _ e; apply Href]. intros version at_.
  change (mp_Model (price_from_input model input)) with model.
  eapply wp_mono.
  - apply (wp_publish _ (SetPrice pathValue input) t).
    + destruct Ht as [Hp Hc Hl Hr]. split; [|done..]. by apply keyed_insert.
    + exists model, version, at_. split; [done|]. split; [done|]. split; [|done].
      by split; [apply no_negatives|].
  - intros [[]|e] t' Hout; [|exact Hout]. unfold AdminPrice.
    assert (∀ B (k : result B), outcome (SetPrice pathValue input) t k t') as Hk
      by (intros B k; by eapply outcome_then).
    apply wp_map_error, wp_first; [|intros _; apply Hk|intros _ _ d; apply Hk].
    intros v Hv. apply wp_ret, Hk.
Qed.

(** A well-formed update passes the checks of the console. *)
Lemma wp_valid_update E pathValue model input t (Q : result ModelPrice → price_state → Prop) :
  filed t → quiet E → path_unescape pathValue = Some model → model ≠ "" → input_valid input →
  (∀ version now, wp Direct E RefreshPricing
     (t <| px_prices := <[model := stored_price model input version now]> (px_prices t) |>)
     (λ r t', match r with Ok _ => wp Direct E (AdminPrice model) t' Q | Err e => Q (Err e) t' end)) →
  wp Direct E (adminPriceUpdate pathValue input) t Q.
Proof.
  intros Ht Hq Hpath Hne [Hrates Hmult] HQ. unfold adminPriceUpdate. rewrite Hpath.
  apply wp_bind, wp_guard; [intros _|by intros Hg; reflect_bools].
  apply wp_bind, wp_guard; [intros _|].
  - apply wp_bind, wp_UpsertPrice; [done|apply HQ|done].
  - intros Hg. exfalso. apply negb_false_iff, orb_true_iff in Hg as [Hg|Hg]; [|cbn in Hg, Hmult; congruence].
    apply no_negatives in Hrates. cbn in Hrates, Hg. congruence.
Qed.

Lemma change_SetPrice E pathValue input t : filed t → change_rule E (SetPrice pathValue input) t.
Proof.
  intros Ht. split; [by apply wp_SetPrice|]. intros [Hq _] (model & Hpath & Htrim & Hne & Hvalid & _) Hcomp.
  cbn [run_price]. apply wp_bind. eapply wp_valid_update; [done..|]. intros version now.
  apply wp_RefreshPricing; [|intros s _|intros e He|done].
  - destruct Ht. split; [by apply keyed_insert|done..].
  - unfold AdminPrice. rewrite Htrim. apply wp_map_error, wp_first; [intros v _; apply wp_ret; by eexists| |done].
    cbn. by rewrite lookup_insert_eq.
  - destruct He. apply Hcomp. by exists model, version, now.
Qed.

(** Removing the rows of a name is removing its key. *)
Lemma filter_name_delete rows name :
  keyed mp_Model rows →
  filter (λ kv : string * ModelPrice, bool_decide (mp_Model kv.2 = name) = false) rows = delete name rows.
Proof.
  intros Hk. apply map_eq. intros k. apply option_eq. intros v.
  rewrite map_lookup_filter_Some, lookup_delete_Some, bool_decide_eq_false. cbn. split.
  - intros [Hv Hne]. split; [|done]. intros <-. by apply Hne, (Hk name v).
  - intros [Hne Hv]. split; [done|]. by rewrite (Hk _ _ Hv).
Qed.

Lemma wp_DropPrice E pathValue t :
  filed t → wp Direct E (run_price (DropPrice pathValue)) t (outcome (DropPrice pathValue) t).
Proof.
  intros Ht. pose proof (outcome_refused (A := unit) (DropPrice pathValue) t) as Href.
  cbn [run_price]. unfold adminPriceDelete.
  destruct (path_unescape pathValue) as [model|] eqn:Hpath; [|by apply wp_fail, Href].
  apply wp_bind, wp_guard; [intros Hne|by intros _; apply Href]. reflect_bools.
  apply wp_map_error. unfold DeletePrice. apply wp_bind, wp_delete_where; [|by intros _ _ d; apply Href].
  intros n. cbn [tb_get tb_set model_prices]. rewrite filter_name_delete by apply (filed_prices t Ht).
  apply wp_bind. eapply wp_mono.
  - apply (wp_publish _ (DropPrice pathValue) t).
    + destruct Ht as [Hp Hc Hl Hr]. split; [|done..]. by apply map_Forall_delete.
    + by exists model.
  - intros [[]|e] t' Hout.
    + apply wp_guard; intros _; by eapply outcome_then.
    + by destruct Hout.
Qed.

Lemma change_DropPrice E pathValue t : filed t → change_rule E (DropPrice pathValue) t.
Proof.
  intros Ht. split; [by apply wp_DropPrice|]. intros [Hq _] (model & Hpath & Hne & Hrow) Hcomp.
  cbn [run_price]. unfold adminPriceDelete. rewrite Hpath.
  apply wp_bind, wp_guard; [intros _|by intros Hg; reflect_bools]. apply wp_map_error. unfold DeletePrice.
  apply wp_bind, wp_delete_count; [|done]. cbn [tb_get tb_set model_prices].
  rewrite filter_name_delete by apply (filed_prices t Ht).
  apply wp_bind, wp_RefreshPricing; [|intros s _|intros e He|done].
  - destruct Ht. split; [by apply map_Forall_delete|done..].
  - apply wp_guard; [by eexists|]. intros Hg%negb_false_iff%Z.eqb_eq. exfalso.
    rewrite map_size_delete in Hg. destruct Hrow as [v Hv]. rewrite Hv in Hg.
    assert (size (px_prices t) ≠ 0%nat) by (eapply map_size_ne_0_lookup_2; by eexists). lia.
  - destruct He. apply Hcomp. by exists model.
Qed.

(** A published transaction: its body decides what is stored. *)
Lemma change_transaction E (body : PX unit) op t :
  run_price op = (transaction body;; RefreshPricing) → filed t →
  success E body t (λ _ t1, filed t1 ∧ stored op t t1) →
  (good_world E → change_valid t op → wp InTx E body t succeeds_with) → change_rule E op t.
Proof.
  intros Hrun Ht Hbody Hok. split; rewrite Hrun.
  - apply wp_bind. eapply wp_mono; [apply success_transaction, Hbody|]. intros [[]|e] t1.
    + intros [Ht1 Hst]. by apply wp_publish.
    + intros ->. by apply outcome_refused.
  - intros Hgood Hvalid Hcomp. apply wp_bind. eapply wp_mono.
    + apply wp_transaction; [|intros Hq; by destruct Hq, Hgood]. eapply wp_mono.
      * apply wp_and; [apply Hbody|by apply Hok].
      * intros [[]|e] t1 [Hst [a Ha]]; [|done].
        instantiate (1 := λ r t1, match r with Ok _ => filed t1 ∧ stored op t t1 | Err _ => False end). exact Hst.
    + intros [[]|e] t1; [|done]. intros [Ht1 Hst]. destruct Hgood. apply publish_succeeds; auto.
Qed.

Lemma filter_none {V : Type} (m : gmap string V) :
  filter (λ kv : string * V, every kv.2 = false) m = ∅.
Proof. apply map_empty. intros k. apply map_lookup_filter_None. right. done. Qed.

(** The rows of a batch into an empty table. *)
Lemma new_rows {V} (tb : table price_state string V) clash (id : V → string) l rows :
  insert_batch tb clash ∅ ((λ v, (id v, v)) <$> l) = Ok rows →
  keyed id rows ∧ ∀ k v, rows !! k = Some v ↔ id v = k ∧ v ∈ l.
Proof.
  intros Hrows. assert (∀ k v, rows !! k = Some v ↔ id v = k ∧ v ∈ l) as Hin.
  { intros k v. rewrite (insert_batch_rows _ _ _ _ _ _ _ Hrows), lookup_empty, list_elem_of_fmap. naive_solver. }
  split; [|done]. intros k v Hv. by apply Hin in Hv as [].
Qed.

Definition trimmed (now : Z) (item : ModelAlias) : ModelAlias :=
{| ml_Alias := trim_space (ml_Alias item); ml_Model := trim_space (ml_Model item); ml_UpdatedAt := Some now |}.

Lemma change_SetAliases E aliases t : filed t → change_rule E (SetAliases aliases) t.
Proof.
  intros Ht. eapply change_transaction; [reflexivity|done| |].
  2: { intros _ [Hvalid Hnd]. apply wp_bind, wp_delete_where; [|done]. intros _.
       cbn [tb_get tb_set model_aliases]. rewrite filter_none. case_bool_decide; [apply wp_ret; by eexists|].
       apply wp_bind, wp_now. intros now. cbv zeta. apply wp_bind, wp_guard.
       2: { intros Hb. exfalso. revert Hb. apply not_false_iff_true, forallb_forall.
            intros v (item & -> & Hitem)%list_elem_of_In%list_elem_of_fmap.
            rewrite list.Forall_forall in Hvalid. destruct (Hvalid _ Hitem). cbn.
            by rewrite !bool_decide_eq_false_2. }
       intros _. destruct (insert_batch_ok model_aliases no_clash ∅
         ((λ item, (ml_Alias item, item)) <$> (trimmed now <$> aliases))) as [rows Hrows]; [done| |done|done|done|].
       - by rewrite <- !list_fmap_compose.
       - apply wp_create_batch; [by eexists| |done]. intros e He. exfalso.
         cbn [tb_get model_aliases px_aliases] in He. unfold trimmed in Hrows. congruence. }
  destruct Ht as [Hp Hc Hl Hr].
  apply success_bind, success_delete_where. intros _. cbn [tb_get tb_set model_aliases]. rewrite filter_none.
  case_bool_decide as Hnil.
  - subst aliases. apply success_ret. split; [done|]. split; [constructor|]. exists ∅. split; [done|]. intros a m.
    rewrite lookup_empty. split; [done|]. intros (item & Hin & _). by apply not_elem_of_nil in Hin.
  - apply success_bind, success_now. intros now. cbv zeta. apply success_bind, success_guard. intros Hgood.
    apply success_create_batch. intros rows Hrows. cbn [tb_get tb_set model_aliases px_aliases] in *.
    apply new_rows in Hrows as [Hkeyed Hrows]. split; [by split|]. split.
    { apply list.Forall_forall. intros item Hin. rewrite forallb_forall in Hgood.
      specialize (Hgood (trimmed now item) ltac:(by apply list_elem_of_In, list_elem_of_fmap; exists item)).
      cbn in Hgood. by reflect_bools. }
    exists rows. split; [done|]. intros a m. rewrite fmap_Some. setoid_rewrite Hrows.
    setoid_rewrite list_elem_of_fmap. split.
    + intros (v & [Ha (item & -> & Hitem)] & Hm). cbn in *. exists item. naive_solver.
    + intros (item & Hitem & -> & ->). exists (trimmed now item). naive_solver.
Qed.

(** A rule as it goes into its batch. *)
Definition prepared (id : string) (now : Z) (rule : ModelPriceRule) : ModelPriceRule :=
Build_ModelPriceRule id (trim_space (mr_Model rule)) (to_lower (trim_space (mr_Field rule)))
  (trim_space (mr_Value rule)) (mr_Multiplier rule) (Some now) (Some now).

Lemma finiteNonNegative_iff m :
  finiteNonNegative m = true ↔ f64_lt m f64_zero = false ∧ f64_is_nan m = false ∧ f64_is_inf m = false.
Proof. destruct m as [[]|[]| |[] m e]; cbn; split; try done; by intros (? & ? & ?). Qed.

Lemma rule_checks_normalised field value :
  ValidRuleField (to_lower (trim_space field)) = ValidRuleField field ∧
  ValidRuleValue (to_lower (trim_space field)) (trim_space value) = ValidRuleValue field value.
Proof.
  unfold ValidRuleField, ValidRuleValue, clean, equal_fold.
  by rewrite trim_lower_trim, to_lower_idemp, trim_space_idemp.
Qed.

(** The checks before the insertion, as one decision. *)
Lemma prepare_rule_valid x E now rule t (Q : result ModelPriceRule → price_state → Prop) :
  (∀ id, rule_valid rule → Q (Ok (prepared id now rule)) t) →
  (¬ rule_valid rule → Q (Err (ErrMessage "invalid pricing rule")) t) →
  wp x E (prepare_rule now rule) t Q.
Proof.
  intros HOk HErr. unfold prepare_rule. apply wp_bind, wp_new_id. intros id. cbv zeta. cbn.
  destruct (rule_checks_normalised (mr_Field rule) (mr_Value rule)) as [-> ->].
  apply wp_bind, wp_guard; intros Hb.
  - apply wp_ret, HOk. reflect_bools. repeat match goal with Hn : negb _ = false |- _ => apply negb_false_iff in Hn end.
    split_and!; [done..|]. by apply finiteNonNegative_iff.
  - apply HErr. intros (Hm & Hv & Hf & Hval & (Hlt & Hnan & Hinf)%finiteNonNegative_iff).
    by rewrite (bool_decide_eq_false_2 _ Hm), (bool_decide_eq_false_2 _ Hv), Hf, Hval, Hlt, Hnan, Hinf in Hb.
Qed.

(** Valid rules are all prepared, under the next identifiers of the world. *)
Lemma wp_prepare_all x E now rules t (Q : result (list ModelPriceRule) → price_state → Prop) :
  Forall rule_valid rules → (∀ i j, env_id E i = env_id E j → i = j) →
  (∀ ids, NoDup ids → length ids = length rules → Q (Ok (zip_with (λ id rule, prepared id now rule) ids rules)) t) →
  wp x E (for_each (prepare_rule now) rules) t Q.
Proof.
  intros Hvalid Hinj HQ n.
  assert (for_each (prepare_rule now) rules E t n =
    (Ok (zip_with (λ id rule, prepared id now rule) (env_id E <$> seq n (length rules)) rules), t, length rules)) as ->.
  { clear HQ. revert n. induction Hvalid as [|rule rules Hrule Hvalid IH]; intros n; [done|].
    cbn [for_each]. unfold mbind at 1, M_bind at 1.
    assert (prepare_rule now rule E t n = (Ok (prepared (env_id E n) now rule), t, 1%nat)) as ->.
    { unfold prepare_rule, mbind, M_bind, new_id. cbv zeta. cbn.
      destruct (rule_checks_normalised (mr_Field rule) (mr_Value rule)) as [-> ->].
      destruct Hrule as (Hm & Hv & Hf & Hval & (Hlt & Hnan & Hinf)%finiteNonNegative_iff).
      by rewrite (bool_decide_eq_false_2 _ Hm), (bool_decide_eq_false_2 _ Hv), Hf, Hval, Hlt, Hnan, Hinf. }
    unfold mbind, M_bind. rewrite IH. unfold mret, M_ret. rewrite Nat.add_1_r, Nat.add_0_r. reflexivity. }
  right. apply HQ; [|by rewrite length_fmap, length_seq].
  apply NoDup_fmap_2; [intros i j; apply Hinj|apply NoDup_seq].
Qed.

Lemma change_SetRules E rules t : filed t → change_rule E (SetRules rules) t.
Proof.
  intros Ht. eapply change_transaction; [reflexivity|done| |].
  2: { intros [Hq Hinj] [Hvalid Hnd]. apply wp_bind, wp_delete_where; [|done]. intros _.
       cbn [tb_get tb_set model_price_rules]. rewrite filter_none. apply wp_bind, wp_now. intros now.
       apply wp_bind, wp_prepare_all; [done|done|]. intros ids Hids Hlen.
       case_bool_decide; [apply wp_ret; by eexists|].
       destruct (insert_batch_ok model_price_rules same_rule ∅ ((λ rule, (mr_ID rule, created_rule rule)) <$>
         zip_with (λ id rule, prepared id now rule) ids rules)) as [rows Hrows]; [done| | | | |].
       - rewrite <- list_fmap_compose.
         change (NoDup (mr_ID <$> zip_with (λ id rule, prepared id now rule) ids rules)).
         rewrite fmap_zip_with_l; [done|done|lia].
       - done.
       - intros k v w _ [j Hj]. by rewrite lookup_empty in Hj.
       - intros i j kv kw Hi Hj Hne. apply not_true_is_false. intros Hsame. apply Hne.
         rewrite list_lookup_fmap, fmap_Some in Hi, Hj. destruct Hi as (r1 & Hi & ->), Hj as (r2 & Hj & ->).
         apply lookup_zip_with_Some in Hi as (id1 & item1 & -> & _ & Hi).
         apply lookup_zip_with_Some in Hj as (id2 & item2 & -> & _ & Hj).
         eapply NoDup_lookup; [exact Hnd|by rewrite list_lookup_fmap, Hi|]. rewrite list_lookup_fmap, Hj. cbn.
         unfold same_rule in Hsame. cbn in Hsame. reflect_bools. unfold rule_identity. congruence.
       - apply wp_create_batch; [by eexists| |done]. intros e He. exfalso.
         cbn [tb_get model_price_rules px_rules] in He. congruence. }
  destruct Ht as [Hp Hc Hl Hr].
  apply success_bind, success_delete_where. intros _. cbn [tb_get tb_set model_price_rules]. rewrite filter_none.
  apply success_bind, success_now. intros now. apply success_bind. eapply success_mono.
  - apply (success_for_each E (prepare_rule now) rules (λ rest finished (t1 : price_state),
      t1 = t <| px_rules := (∅ : gmap string ModelPriceRule) |> ∧
      ∃ l, rules = l ++ rest ∧ Forall2 (λ rule row, rule_valid rule ∧ ∃ id, row = prepared id now rule) l finished)).
    + split; [done|]. by exists [].
    + intros rule rest finished t1 (-> & l & -> & Hl'). apply prepare_rule_valid; [|done]. intros id Hvalid.
      split; [done|]. exists (l ++ [rule]). rewrite <- app_assoc. split; [done|].
      apply Forall2_app; [done|]. constructor; [eauto|constructor].
  - cbn. intros rows t1 (-> & l & Heq & Hrows). rewrite app_nil_r in Heq. subst l.
    assert (Forall rule_valid rules) as Hvalid.
    { eapply Forall2_Forall_l; [exact Hrows|]. apply Forall_true. naive_solver. }
    case_bool_decide as Hnil.
    + subst rows. apply Forall2_nil_inv_r in Hrows as ->. apply success_ret. split; [by split|].
      split; [done|]. exists ∅. split; [done|]. intros rule. split; [by intros (? & ? & ? & _)|].
      by intros (item & Hin%not_elem_of_nil & _).
    + apply success_create_batch. intros rows' Hrows'. cbn [tb_get tb_set model_price_rules px_rules] in *.
      change (λ rule, (mr_ID rule, created_rule rule)) with ((λ row, (mr_ID row, row)) ∘ created_rule) in Hrows'.
      rewrite list_fmap_compose in Hrows'. apply new_rows in Hrows' as [Hkeyed Hrows'].
      split; [by split|]. split; [done|]. exists rows'. split; [done|]. intros rule.
      setoid_rewrite Hrows'. setoid_rewrite list_elem_of_fmap. split.
      * intros (id & ? & [_ (row & -> & Hrow)] & <-).
        apply list_elem_of_lookup in Hrow as [i Hi].
        destruct (Forall2_lookup_r _ _ _ _ _ Hrows Hi) as (item & Hitem & _ & id' & ->).
        exists item. split; [by eapply list_elem_of_lookup_2|done].
      * intros (item & [i Hi]%list_elem_of_lookup & ->).
        destruct (Forall2_lookup_l _ _ _ _ _ Hrows Hi) as (row & Hrow & _ & id & ->).
        exists id, (created_rule (prepared id now item)). split; [|done]. split; [done|].
        exists (prepared id now item). split; [done|by eapply list_elem_of_lookup_2].
Qed.

(** Batch after batch into the catalog. *)
Lemma success_batches E l m t (P : list () → price_state → Prop) :
  (∀ done' m', (∀ k v, m' !! k = Some v ↔ m !! k = Some v ∨ mc_Model v = k ∧ v ∈ concat l) →
     P done' (t <| px_catalog := m' |>)) →
  success E (for_each (λ batch, create_batch model_catalog_prices no_clash ((λ row, (mc_Model row, row)) <$> batch)) l)
    (t <| px_catalog := m |>) P.
Proof.
  intros HP. eapply success_mono.
  - apply (success_for_each E _ l (λ rest _ (t1 : price_state), ∃ l0 m', l = l0 ++ rest ∧
      t1 = t <| px_catalog := m' |> ∧ ∀ k v, m' !! k = Some v ↔ m !! k = Some v ∨ mc_Model v = k ∧ v ∈ concat l0)).
    + exists [], m. split; [done|]. split; [done|]. cbn. intros k v. rewrite elem_of_nil. tauto.
    + intros batch rest _ t1 (l0 & m' & -> & -> & Hm'). apply success_create_batch.
      intros rows Hrows. cbn [tb_get tb_set model_catalog_prices px_catalog] in *.
      exists (l0 ++ [batch]), rows. rewrite <- app_assoc. split; [done|]. split; [done|]. intros k v.
      rewrite (insert_batch_rows _ _ _ _ _ _ _ Hrows), Hm', concat_app, elem_of_app, list_elem_of_fmap.
      cbn. rewrite app_nil_r. naive_solver.
  - cbn. intros done' t1 (l0 & m' & Hl & -> & Hm'). rewrite app_nil_r in Hl. subst l0. by apply HP.
Qed.

(** Batches of a list without repetitions all find room. *)
Lemma wp_batches_ok E l (m : gmap string ModelCatalogPrice) t Q :
  NoDup (mc_Model <$> concat l) → (∀ v, v ∈ concat l → m !! mc_Model v = None) →
  (∀ t1, Q (Ok (replicate (length l) ())) t1) →
  wp InTx E (for_each (λ batch, create_batch model_catalog_prices no_clash ((λ row, (mc_Model row, row)) <$> batch)) l)
    (t <| px_catalog := m |>) Q.
Proof.
  revert m Q. induction l as [|batch l IH]; intros m Q Hnd Hfree HQ; cbn [for_each]; [by apply wp_ret|].
  cbn [concat] in *. rewrite fmap_app in Hnd. apply list.NoDup_app in Hnd as (Hb & Hsep & Hnd).
  setoid_rewrite elem_of_app in Hfree.
  destruct (insert_batch_ok model_catalog_prices no_clash m ((λ row, (mc_Model row, row)) <$> batch))
    as [rows Hrows]; [done| | |done|done|].
  - by rewrite <- list_fmap_compose.
  - intros k v (row & [= -> ->] & Hrow)%list_elem_of_fmap. naive_solver.
  - apply wp_bind, wp_create_batch; [|by intros e; cbn [tb_get model_catalog_prices px_catalog]; rewrite Hrows|done].
    cbn [tb_get tb_set model_catalog_prices px_catalog]. rewrite Hrows. intros ? [= <-].
    apply wp_bind, IH; [done| |by intros t1; apply wp_ret, HQ].
    intros v Hv. apply eq_None_not_Some. intros [w Hw].
    apply (insert_batch_rows _ _ _ _ _ _ _ Hrows) in Hw as [Hw|Hw].
    + rewrite (Hfree v) in Hw; [done|by right].
    + apply list_elem_of_fmap in Hw as (? & [= Hk <-] & Hrow).
      apply (Hsep (mc_Model v)); apply list_elem_of_fmap; [exists w|exists v]; done.
Qed.

Lemma change_SyncCatalog `{!LawfulAEAD CapabilitySnapshot} E result t :
  filed t → change_rule E (SyncCatalog result) t.
Proof.
  intros Ht. eapply change_transaction; [reflexivity|done| |].
  2: { intros _ [_ Hnd]. apply wp_bind. unfold PutRuntimeSetting. cbv zeta. apply wp_bind, wp_ret.
       apply wp_bind, wp_Seal. intros sealed _. apply wp_bind, wp_now. intros now.
       apply wp_upsert_ok; [|done]. intros setting. split; [done|]. cbn [tb_get tb_set runtime_settings].
       apply wp_bind, wp_delete_where; [|done]. intros _. cbn [tb_get tb_set model_catalog_prices px_catalog].
       rewrite filter_none. apply wp_bind, wp_now. intros now'. cbv zeta. apply wp_bind.
       apply (wp_batches_ok _ _ ∅ (t <| px_settings := <["models-dev-capabilities" := setting]> (px_settings t) |>)).
       - rewrite batches_concat, <- list_fmap_compose. exact Hnd.
       - intros v _. apply lookup_empty.
       - intros t1. apply wp_ret. by eexists. }
  destruct Ht as [Hp Hc Hl Hr].
  apply success_bind. unfold PutRuntimeSetting. cbv zeta.
  apply success_bind, success_guard. intros _. apply success_bind, wp_Seal. intros sealed Hsealed.
  apply success_bind, success_now. intros now. apply success_upsert. intros setting _.
  cbn [tb_get tb_set runtime_settings].
  apply success_bind, success_delete_where. intros _. cbn [tb_get tb_set model_catalog_prices px_catalog].
  rewrite filter_none. apply success_bind, success_now. intros now'. cbv zeta.
  apply success_bind. apply (success_batches _ _ ∅
    (t <| px_settings := <["models-dev-capabilities" := setting]> (px_settings t) |>)). intros _ m Hm. apply success_ret.
  assert (∀ k v, m !! k = Some v ↔ mc_Model v = k ∧ v ∈ catalog_row result now' <$> sy_Entries result) as Hrows.
  { intros k v. rewrite Hm, lookup_empty, batches_concat. naive_solver. }
  cbn. split.
  - split; [done| |done..]. intros k v Hv. by apply Hrows in Hv as [].
  - exists m, setting. split; [done|]. split.
    + unfold setting. by case_match.
    + intros price. setoid_rewrite Hrows. setoid_rewrite list_elem_of_fmap. split.
      * intros (k & ? & [_ (entry & -> & Hentry)] & <-). by exists entry.
      * intros (entry & Hentry & ->). exists (p_Model (ce_Price entry)), (catalog_row result now' entry). naive_solver.
Qed.

Lemma change_ok `{!LawfulAEAD CapabilitySnapshot} E op t : filed t → change_rule E op t.
Proof.
  destruct op; intros Ht; [by apply change_SetPrice|by apply change_DropPrice|by apply change_SetAliases|
    by apply change_SetRules|by apply change_SyncCatalog].
Qed.

Lemma wp_run_price `{!LawfulAEAD CapabilitySnapshot} E op t :
  filed t → wp Direct E (run_price op) t (outcome op t).
Proof. intros Ht. by apply change_ok. Qed.
End changes.
