(* ===== verification/PriceEffects.v ===== *)
(** * What a change of prices is worth

    The theorems on the price tables: changes are atomic, the administrator's
    price is what requests pay, valid changes go through, and a blank name that
    slips in blocks every later change. *)

From Stdlib Require Import SpecFloat.
From S2P Require Import Prelude.
From S2P Require Import Float64.
From S2P Require Import Cost.
From S2P Require Import Pricing.
From S2P Require Import PriceGuarantees.
From S2P Require Import Database.
From S2P Require Import Schema.
From S2P Require Import RequestLogs.
From S2P Require Import Encoding.
From S2P Require Import DeviceGrants.
From S2P Require Import AccessTokens.
From S2P Require Import PriceStore.
From S2P Require Import PriceChanges.

(** ** What a compilation contains *)

Definition price_key (p : Price) : string := to_lower (clean (p_Model p)).

Lemma compile_price_result p p' : compile_price p = inr p' → p' = with_model p (clean (p_Model p)).
Proof. unfold compile_price. cbv zeta. repeat case_match; naive_solver. Qed.

Definition cleaned_rule (rule : Rule) : Rule :=
  {| ru_Model := clean (ru_Model rule); ru_Field := to_lower (clean (ru_Field rule));
     ru_Value := clean (ru_Value rule); ru_Multiplier := ru_Multiplier rule |}.

Lemma compile_rule_result rule rule' : compile_rule rule = inr rule' → rule' = cleaned_rule rule.
Proof. unfold compile_rule. cbv zeta. repeat case_match; naive_solver. Qed.

(** A price that no other row of its source competes with is the one in the snapshot. *)
Lemma compileSet_lookup r prices set p :
  compileSet r prices = inr set → p ∈ prices → (∀ q, q ∈ prices → price_key q = price_key p → q = p) →
  set !! price_key p = Some {| cm_price := with_model p (clean (p_Model p));
                               cm_rules := default [] (r !! price_key p) |}.
Proof.
  set (row := {| cm_price := _; cm_rules := _ |}). intros Hset Hp Honly.
  assert (∀ prices acc, fold_compile (add_price r) acc prices = inr set →
    (∀ q, q ∈ prices → price_key q = price_key p → q = p) →
    p ∈ prices ∨ acc !! price_key p = Some row → set !! price_key p = Some row) as Hgen.
  2: { by apply (Hgen prices ∅); [exact Hset|exact Honly|left]. }
  clear. induction prices as [|q prices IH]; intros acc; cbn [fold_compile].
  - intros [= ->] _ [Hin|]; [by apply not_elem_of_nil in Hin|done].
  - unfold add_price at 1. destruct (compile_price q) as [e|q'] eqn:Hq; [done|].
    apply compile_price_result in Hq as ->. intros Hfold Honly Hp.
    apply (IH _ Hfold); [intros; apply Honly; [by right|done]|]. cbn [p_Model with_model].
    change (to_lower (clean (p_Model q))) with (price_key q).
    destruct (decide (price_key q = price_key p)) as [He|Hne].
    + right. rewrite (Honly q ltac:(left) He). apply lookup_insert_eq.
    + rewrite lookup_insert_ne by done. rewrite elem_of_cons in Hp. naive_solver.
Qed.

(** The rules of a model, in the order of the list. *)
Lemma rules_lookup rules r key :
  fold_compile add_rule ∅ rules = inr r →
  default [] (r !! key) = filter (λ rule, to_lower (ru_Model rule) = key) (cleaned_rule <$> rules).
Proof.
  intros Hr. assert (∀ rules acc, fold_compile add_rule acc rules = inr r →
    default [] (r !! key) = default [] (acc !! key) ++
      filter (λ rule, to_lower (ru_Model rule) = key) (cleaned_rule <$> rules)) as Hgen.
  2: { rewrite (Hgen rules ∅ Hr), lookup_empty. done. }
  clear. induction rules as [|rule rules IH]; intros acc; cbn [fold_compile].
  - intros [= ->]. by rewrite app_nil_r.
  - unfold add_rule at 1. destruct (compile_rule rule) as [e|rule'] eqn:Hrule; [done|].
    apply compile_rule_result in Hrule as ->. intros Hfold. rewrite (IH _ Hfold). rewrite fmap_cons, filter_cons.
    destruct (decide (to_lower (ru_Model (cleaned_rule rule)) = key)) as [<-|Hne].
    + rewrite lookup_insert_eq. cbn. by rewrite <- app_assoc.
    + by rewrite lookup_insert_ne.
Qed.

Lemma aliases_lookup aliases m k v :
  fold_compile add_alias ∅ aliases = inr m → m !! k = Some v → ∃ entry, entry ∈ aliases ∧ alias_key entry = k.
Proof.
  intros Hm. revert k v. revert m Hm.
  enough (∀ m, fold_compile add_alias ∅ aliases = inr m → map_Forall (λ k _, ∃ entry, entry ∈ aliases ∧
    alias_key entry = k) m) as Hall by (intros m Hm k v; apply (Hall m Hm k v)).
  intros m. apply fold_compile_invariant; [apply map_Forall_empty|].
  intros b entry b' Hb Hin. unfold add_alias. cbv zeta. destruct (_ || _); [done|]. intros [= <-].
  apply map_Forall_insert_2; [by exists entry|done].
Qed.

(** The first name tried is the one asked for. *)
Lemma modelCandidates_first model : ∃ rest, modelCandidates model = clean model :: rest.
Proof.
  unfold modelCandidates. cbv zeta. cbn [unique_from app]. rewrite bool_decide_eq_false_2; [eauto|].
  by intros ?%not_elem_of_nil.
Qed.

Section effects.
Context `{FloatToInt} `{ColumnDefault} `{AEAD CapabilitySnapshot}.

(** ** Who asks for a model *)

(** No other row of the administrator differs from this name only in case and surrounding space. *)
Definition sole_price (t : price_state) (model : string) : Prop :=
∀ k v, px_prices t !! k = Some v → to_lower (clean k) = to_lower (clean model) → k = model.

Definition unaliased (t : price_state) (name : string) : Prop :=
∀ k v, px_aliases t !! k = Some v → to_lower (clean k) ≠ to_lower name.

(** The request names the model itself, and no alias diverts it. *)
Definition asks_for (t : price_state) (model : string) (d : Dimensions) : Prop :=
to_lower (clean (d_Model d)) = to_lower (clean model) ∧ unaliased t (clean (d_Model d)) ∧
(d_ModelAlias d = "" ∨ unaliased t (clean (d_ModelAlias d))).

(** The rules of a model in the table, as the compiler reads them. *)
Definition rules_of (t : price_state) (model : string) : list Rule :=
filter (λ rule, to_lower (ru_Model rule) = to_lower (clean model))
  ((λ row, cleaned_rule (price_rule row)) <$> (map_to_list (px_rules t)).*2).

(** The request pays the price of row [v], scaled by the rules that match it - unless the row knows
    no image rates where a bundled price does. *)
Definition pays (t : price_state) (s : Snapshot) (v : ModelPrice) (d : Dimensions) : Prop :=
∃ rules, rules ≡ₚ rules_of t (mp_Model v) ∧
  let row := {| cm_price := with_model (admin_price v) (clean (mp_Model v)); cm_rules := rules |} in
  (passed_over_for_images s 0 (modelCandidates (clean (d_Model d))) row = false →
   ∃ sp, Resolve (Some s) d = Some sp ∧ sp_Price sp = scaled (cm_price row) (rule_multiplier row d)).

Lemma unaliased_lookup t s name :
  filed t → compiled_from t s → unaliased t name → s_aliases s !! to_lower name = None.
Proof.
  intros Ht (admin & catalog & aliases & rules & _ & _ & Hl & _ & Hs) Hname.
  apply Compile_parts in Hs as (r & _ & _ & _ & _ & Hm). apply eq_None_not_Some. intros [m Hlook].
  destruct (aliases_lookup _ _ _ _ Hm Hlook) as ([k m'] & Hin & Hkey).
  rewrite Hl, elem_of_map_to_list, lookup_fmap, fmap_Some in Hin. destruct Hin as (v & Hv & _).
  by apply (Hname k v Hv).
Qed.

Lemma unaliased_model t s model d :
  filed t → compiled_from t s → asks_for t model d →
  priced_model s (clean (d_Model d)) d = (clean (d_Model d), "model").
Proof.
  intros Ht Hs (_ & Hname & Halias). unfold priced_model.
  rewrite (unaliased_lookup t s _ Ht Hs Hname). case_bool_decide as Hd; [|done].
  destruct Halias as [|Halias]; [done|]. by rewrite (unaliased_lookup t s _ Ht Hs Halias).
Qed.

Lemma admin_row_compiled t s k v :
  filed t → compiled_from t s → px_prices t !! k = Some v → sole_price t k →
  clean k ≠ "" ∧ ∃ rules, rules ≡ₚ rules_of t k ∧ s_admin s !! to_lower (clean k) =
    Some {| cm_price := with_model (admin_price v) (clean k); cm_rules := rules |}.
Proof.
  intros Ht Hs Hv Hsole. pose proof (compiled_from_compilable t s Hs) as Hok.
  destruct Hs as (admin & catalog & aliases & rules & Ha & _ & _ & Hr & Hs).
  pose proof (filed_prices t Ht _ _ Hv) as Hk. cbn in Hk. split.
  { destruct (prices_compile t Hok _ _ Hv) as [p Hp]. pose proof (compile_price_result _ _ Hp) as ->.
    apply compile_price_ok in Hp as [Hne _]. cbn in Hne. by rewrite Hk in Hne. }
  apply Compile_parts in Hs as (r & Hrules & Hadmin & _).
  exists (default [] (r !! to_lower (clean k))). split.
  - rewrite (rules_lookup _ _ _ Hrules). unfold rules_of. rewrite <- list_fmap_compose. by rewrite Hr.
  - pose proof (compileSet_lookup _ _ _ (admin_price v) Hadmin) as Hrow. unfold price_key in Hrow.
    cbn [p_Model admin_price] in Hrow. rewrite Hk in Hrow. apply Hrow.
    + apply list_elem_of_fmap. exists v. split; [done|]. rewrite Ha, elem_of_values. eauto.
    + intros q (w & -> & Hw)%list_elem_of_fmap Hkey. rewrite Ha, elem_of_values in Hw. destruct Hw as [j Hw].
      pose proof (filed_prices t Ht _ _ Hw) as Hj. cbn in Hj, Hkey. rewrite Hj in Hkey.
      assert (j = k) as -> by (by eapply Hsole). congruence.
Qed.

(** A published price of the administrator applies. *)
Lemma published_price_applies t s k v d :
  filed t → compiled_from t s → px_prices t !! k = Some v → sole_price t k → asks_for t k d → pays t s v d.
Proof.
  intros Ht Hs Hv Hsole Hd. destruct (admin_row_compiled t s k v Ht Hs Hv Hsole) as (Hne & rules & Hrules & Hrow).
  pose proof (filed_prices t Ht _ _ Hv) as Hk. cbn in Hk.
  exists rules. rewrite Hk. split; [done|]. cbv zeta. intros Hpass. cbn [Resolve].
  rewrite (unaliased_model t s k d Ht Hs Hd). destruct Hd as (Hname & _).
  rewrite bool_decide_eq_false_2.
  2: { intros Hnil. rewrite Hnil in Hname. symmetry in Hname. by apply to_lower_nil in Hname. }
  destruct (modelCandidates_first (clean (d_Model d))) as [rest Hcands].
  rewrite Hcands in Hpass |- *. cbn [first_source sources first_candidate].
  assert (clean (clean (d_Model d)) = clean (d_Model d)) as Hidem by apply trim_space_idemp.
  rewrite Hidem in Hpass |- *. rewrite Hname, Hrow, Hpass. eexists. split; [reflexivity|done].
Qed.

(** C29: An administrator's price is what the next request pays.  When the console answers a price
  update with success, exactly the row of that name has changed, it carries the rates of the
  request, and every request that asks for the model by this name - letter case and surrounding
  space aside, no alias diverting it, no second row of the same name - is priced from that row,
  scaled by the rules of the model that match; only a row without image rates gives way to
  a bundled price that has them.  A multiplier that is left out counts as one - and so does an
  explicit zero, because gorm does not save a zero into a column with a default: the
  override meant to make a model free is charged in full. *)
Theorem administrators_set_prices `{!LawfulColumnDefault} E pathValue input t :
filed t →
wp Direct E (adminPriceUpdate pathValue input) t (λ r t', match r with
  | Err _ => True
  | Ok _ => ∃ model v s, path_unescape pathValue = Some model ∧
      px_prices t' = <[model := v]> (px_prices t) ∧ px_snapshot t' = Some s ∧
      model_rates v = model_rates (price_from_input model input) ∧
      mp_PriceMultiplier v = (let m := default f64_one (pi_PriceMultiplier input) in
        match m with S754_zero _ => f64_one | _ => m end) ∧
      (sole_price t' model → ∀ d, asks_for t' model d → pays t' s v d)
  end).
Proof.
  intros Ht. pose proof (wp_SetPrice E pathValue input t Ht) as Hwp. cbn [run_price] in Hwp.
  intros n. specialize (Hwp n). unfold mbind, M_bind in Hwp.
  destruct (adminPriceUpdate pathValue input E t n) as [[[a|e] t'] c]; [|by right]. right.
  destruct Hwp as [[]|[Ht' (t1 & s & (model & version & now & Hpath & _ & _ & ->) & Hs & ->)]]; [done|].
  exists model, (stored_price model input version now), s.
  split; [done|]. split; [done|]. split; [done|]. split; [done|]. split.
  - cbv zeta. change (mp_PriceMultiplier _) with (created_multiplier (default f64_one (pi_PriceMultiplier input))).
    destruct (default f64_one (pi_PriceMultiplier input)) as [[]|?| |? ? ?];
      first [apply created_zero|by apply created_other].
  - intros Hsole d Hd. eapply published_price_applies; [exact Ht'|exact Hs| |exact Hsole|exact Hd].
    apply lookup_insert_eq.
Qed.

(** C30: A change of prices is all or nothing, twice.  Whatever statement fails, a price update or
  deletion, a replacement of the aliases or rules and a synchronisation of the catalog either
  leave every table as it was, or store the whole change (the row, the replaced set of
  trimmed aliases, rules or catalog entries, the sealed capabilities) and leave the published
  snapshot alone, or store it and publish the compilation of exactly the new tables; success
  means the last.  So requests are never priced from a mixture of old and new rows. *)
Theorem price_changes_are_atomic `{!LawfulAEAD CapabilitySnapshot} E op t :
filed t → wp Direct E (run_price op) t (λ r t', filed t' ∧ match r with
  | Ok _ => applied op t t'
  | Err _ => t' = t ∨ stored op t t' ∨ applied op t t'
  end).
Proof. apply wp_run_price. Qed.

(** ** A blank name *)

(** A row whose name is only space: it is not empty, but trims to nothing. *)
Definition blank_row (t : price_state) : Prop :=
∃ k v, px_prices t !! k = Some v ∧ k ≠ "" ∧ trim_space k = "".

Lemma blank_not_compilable t : filed t → blank_row t → ¬ compilable t.
Proof.
  intros Ht (k & v & Hv & _ & Hk) Hok. destruct (prices_compile t Hok _ _ Hv) as [p Hp].
  pose proof (compile_price_result _ _ Hp) as ->. apply compile_price_ok in Hp as [Hne _]. apply Hne.
  pose proof (filed_prices t Ht _ _ Hv) as Hm. cbn in Hm |- *. by rewrite Hm.
Qed.

(** No change removes it: a deletion trims the name it is given. *)
Lemma blank_row_stays op t t1 : stored op t t1 → blank_row t → blank_row t1.
Proof.
  intros Hst (k & v & Hv & Hne & Hk). destruct op; cbn in Hst.
  - destruct Hst as (model & version & now & _ & _ & _ & ->). destruct (decide (model = k)) as [->|Hm].
    + eexists k, _. cbn. by rewrite lookup_insert_eq.
    + exists k, v. cbn. by rewrite lookup_insert_ne.
  - destruct Hst as (model & _ & Hmodel & ->). exists k, v. cbn. rewrite lookup_delete_ne; [done|].
    intros <-. by rewrite trim_space_idemp in Hk.
  - destruct Hst as (_ & rows & -> & _). by exists k, v.
  - destruct Hst as (_ & rows & -> & _). by exists k, v.
  - destruct Hst as (rows & setting & -> & _). by exists k, v.
Qed.

(** Any number of changes, each in a world of its own. *)
Definition price_step (t t' : price_state) : Prop :=
∃ E op n r c, run_price op E t n = (r, t', c).

Definition frozen (t t' : price_state) : Prop := filed t' ∧ blank_row t' ∧ px_snapshot t' = px_snapshot t.

Lemma stored_snapshot op t t1 : stored op t t1 → px_snapshot t1 = px_snapshot t.
Proof. destruct op; cbn; naive_solver. Qed.

Lemma blank_not_applied op t t' : filed t' → blank_row t → ¬ applied op t t'.
Proof.
  intros Ht' Hblank (t1 & s & Hst & Hs & ->).
  apply (blank_not_compilable (t1 <| px_snapshot := Some s |>)); [done|by apply (blank_row_stays _ _ _ Hst)|].
  apply compiled_from_compilable in Hs as []. by split.
Qed.

Lemma blank_step `{!LawfulAEAD CapabilitySnapshot} E op t :
  filed t → blank_row t → wp Direct E (run_price op) t (λ r t', frozen t t' ∧ ∃ e, r = Err e).
Proof.
  intros Ht Hblank. eapply wp_mono; [by apply wp_run_price|].
  intros [a|e] t' [Ht' Hout]; [by apply blank_not_applied in Hout|]. split; [|eauto]. split; [done|].
  destruct Hout as [->|[Hst|Happ]]; [done| |by apply blank_not_applied in Happ].
  split; [by eapply blank_row_stays|by eapply stored_snapshot].
Qed.

Lemma blank_steps `{!LawfulAEAD CapabilitySnapshot} t t' :
  rtc price_step t t' → filed t → blank_row t → frozen t t'.
Proof.
  induction 1 as [t|t t1 t' (E & op & n & r & c & Hstep) _ IH]; intros Ht Hblank; [by split|].
  pose proof (blank_step E op t Ht Hblank n) as Hwp. rewrite Hstep in Hwp.
  destruct Hwp as [[]|[(Ht1 & Hb1 & Hs1) _]]; [done|].
  destruct (IH Ht1 Hb1) as (Ht' & Hb' & Hs'). split; [done|]. split; [done|]. congruence.
Qed.

(** C31: A blank name freezes the prices.  The console refuses a price only for a name that is empty,
  so one that consists of spaces is stored; its answer is an error, but the row stays.  From then
  on every change of a price, of the aliases, of the rules and of the catalog answers an error,
  whatever the world does, nothing can delete the row (a deletion trims the name first), the
  published snapshot never changes again, and a process that starts cannot load its prices. *)
Theorem blank_names_freeze_prices `{!LawfulAEAD CapabilitySnapshot} pathValue model input t :
filed t → path_unescape pathValue = Some model → model ≠ "" → trim_space model = "" → input_valid input →
(∀ E, quiet E → wp Direct E (adminPriceUpdate pathValue input) t (λ r t', (∃ e, r = Err e) ∧ frozen t t')) ∧
(∀ t' t'', filed t' → blank_row t' → rtc price_step t' t'' → frozen t' t'' ∧
   (∀ E op, wp Direct E (run_price op) t'' (λ r _, ∃ e, r = Err e)) ∧
   (∀ E, wp Direct E NewStore t'' (λ r _, ∃ e, r = Err e))).
Proof.
  intros Ht Hpath Hne Hblank Hvalid. split.
  - intros E Hq. eapply wp_valid_update; [done..|]. intros version now.
    set (rows := <[model := _]> (px_prices t)). set (t1 := t <| px_prices := rows |>). assert (filed t1) as Ht1.
    { destruct Ht. split; [by apply keyed_insert|done..]. }
    assert (blank_row t1) as Hb1 by (eexists model, _; split; [apply lookup_insert_eq|done]).
    apply wp_RefreshPricing; [done| |intros e _; split; [eauto|done]|done].
    intros s Hs%compiled_from_compilable. by apply blank_not_compilable in Hb1.
  - intros t' t'' Ht' Hb Hsteps. destruct (blank_steps _ _ Hsteps Ht' Hb) as (Ht'' & Hb'' & Hs).
    split; [done|]. split.
    + intros E op. eapply wp_mono; [by apply blank_step|]. by intros r t1 [_ He].
    + intros E. unfold NewStore. apply wp_bind, wp_modify. apply wp_RefreshPricing; [by apply filed_snapshot| |eauto..].
      intros s Hs1%compiled_from_compilable. exfalso. revert Hs1.
      by apply blank_not_compilable; [apply filed_snapshot|].
Qed.

(** ** Valid changes *)

Lemma created_finite `{!LawfulColumnDefault} m :
  finiteNonNegative m = true → finiteNonNegative (created_multiplier m) = true.
Proof.
  intros Hm. destruct m as [s|?| |? ? ?]; try (by rewrite created_other).
  by rewrite created_zero.
Qed.

(** A row that compiles: its name is not blank, its rates and multiplier are fine. *)
Lemma price_accepted_intro p :
  clean (p_Model p) ≠ "" → finiteNonNegative (p_PriceMultiplier p) = true →
  Forall (λ rate, 0 ≤ rate) (price_rates p) → price_accepted p.
Proof.
  intros Hne Hm Hr. unfold price_accepted, compile_price. cbv zeta. cbn [p_Model p_PriceMultiplier with_model].
  rewrite bool_decide_eq_false_2, Hm, andb_false_r by done. apply no_negatives in Hr.
  change (price_rates (with_model p (clean (p_Model p)))) with (price_rates p). rewrite Hr. eauto.
Qed.

Lemma rule_accepted_intro `{!LawfulColumnDefault} rule : rule_valid rule → rule_accepted (stored_rule rule).
Proof.
  intros (Hm & Hv & Hf & Hval & Hfin). unfold rule_accepted, compile_rule, stored_rule. cbv zeta.
  cbn [ru_Model ru_Field ru_Value ru_Multiplier]. unfold clean.
  rewrite trim_lower_trim, to_lower_idemp, !trim_space_idemp.
  destruct (rule_checks_normalised (mr_Field rule) (mr_Value rule)) as [-> ->].
  rewrite !bool_decide_eq_false_2, Hf, Hval, created_finite by done. eauto.
Qed.

Lemma stored_multiplier model input version now :
  p_PriceMultiplier (admin_price (stored_price model input version now)) =
  created_multiplier (default f64_one (pi_PriceMultiplier input)).
Proof.
  unfold admin_price. cbn [p_PriceMultiplier mp_UpdatedAt stored_price].
  rewrite bool_decide_eq_false_2, andb_false_r by done. done.
Qed.

Lemma stored_compilable `{!LawfulColumnDefault} op t t1 :
  compilable t → change_valid t op → stored op t t1 → compilable t1.
Proof.
  intros [Hp Hc Ha Hr] Hvalid Hst. destruct op; cbn [change_valid stored] in Hvalid, Hst.
  - destruct Hst as (model & version & now & Hpath & Hne & [Hrates _] & ->).
    destruct Hvalid as (model' & Hpath' & Htrim & _ & _ & Hfin). assert (model' = model) as -> by congruence.
    split; [|done..]. apply map_Forall_insert_2; [|done]. apply price_accepted_intro; [|rewrite stored_multiplier; by apply created_finite|done].
    change (trim_space model ≠ ""). congruence.
  - destruct Hst as (model & _ & _ & ->). split; [by apply map_Forall_delete|done..].
  - destruct Hst as (Hall & rows & -> & Hrows). split; [done|done| |done]. intros a v Hv.
    destruct (proj1 (Hrows a (ml_Model v))) as (item & Hitem & -> & Hm); [cbn in Hv; by rewrite Hv|].
    rewrite list.Forall_forall in Hall. destruct (Hall _ Hitem) as [Hne1 Hne2].
    unfold alias_accepted, clean. rewrite Hm. cbn [fst snd]. by rewrite !trim_space_idemp.
  - destruct Hst as (Hall & rows & -> & Hrows). split; [done..|]. intros id row Hrow.
    destruct (proj1 (Hrows (price_rule row))) as (item & Hitem & ->); [by exists id, row|].
    rewrite list.Forall_forall in Hall. by apply rule_accepted_intro, Hall.
  - destruct Hst as (rows & setting & -> & _ & Hrows). destruct Hvalid as [Hall _].
    split; [done| |done..]. intros k row Hrow.
    destruct (proj1 (Hrows (catalog_price row))) as (entry & Hentry & ->); [by exists k, row|].
    rewrite list.Forall_forall in Hall. by apply Hall.
Qed.

(** Valid changes always go through.  As long as every row of the tables compiles, a price for a
  trimmed name, the deletion of an existing price, aliases with distinct trimmed names, rules
  that differ in model, field or value, and a catalog without repetitions succeed in every world
  that does not fail and does not repeat identifiers; and every row still compiles afterwards,
  so the next valid change succeeds too. *)
Theorem valid_changes_go_through `{!LawfulAEAD CapabilitySnapshot} `{!LawfulColumnDefault} E op t :
filed t → compilable t → good_world E → change_valid t op →
wp Direct E (run_price op) t (λ r t', (∃ a, r = Ok a) ∧ filed t' ∧ compilable t' ∧ published t').
Proof.
  intros Ht Hok Hgood Hvalid. destruct (change_ok E op t Ht) as [Hout Hsucc].
  eapply wp_mono; [apply wp_and; [exact Hout|]|].
  - apply Hsucc; [done|done|]. intros t1. by apply stored_compilable.
  - intros r t' [[Ht' Happ] [a ->]]. destruct Happ as (t1 & s & Hst & Hs & ->).
    split; [eauto|]. split; [done|]. split.
    + destruct (stored_compilable _ _ _ Hok Hvalid Hst). by split.
    + by exists s.
Qed.
End effects.
