(* ===== verification/PriceSample.v ===== *)
(** * A concrete price table

    The theorems on the price tables at work: the documented behaviour of gorm,
    a cipher for the capabilities (which hides nothing), and an empty store in
    which an administrator sets prices and rules. *)

From Stdlib Require Import SpecFloat.
From stdpp Require Import countable pretty.
From S2P Require Import Prelude.
From S2P Require Import Float64.
From S2P Require Import Cost.
From S2P Require Import Pricing.
From S2P Require Import PriceGuarantees.
From S2P Require Import Database.
From S2P Require Import Encoding.
From S2P Require Import DeviceGrants.
From S2P Require Import Sample.
From S2P Require Import GrantSample.
From S2P Require Import PriceStore.
From S2P Require Import PriceChanges.
From S2P Require Import PriceEffects.

#[export] Instance documented_default : ColumnDefault := λ m,
  match m with S754_zero _ => f64_one | _ => m end.

#[export] Instance documented_default_lawful : LawfulColumnDefault.
Proof. split; [done|]. intros [s|?| |? ? ?] Hm; try done. by destruct (Hm s). Qed.

(** ** A code for the capabilities *)

#[export] Instance ReasoningOption_eq_dec : EqDecision ReasoningOption.
Proof. solve_decision. Defined.
#[export] Instance ReasoningOption_countable : Countable ReasoningOption :=
  inj_countable' (λ r, (ro_Type r, ro_Values r)) (λ p, Build_ReasoningOption p.1 p.2)
    ltac:(by intros []).

Definition Capability_fields (c : Capability) :=
  (cp_ID c, cp_Name c, cp_Description c, cp_Provider c, cp_Source c,
   (cp_Context c, cp_MaxOutput c, cp_MaxInput c),
   (cp_ToolCall c, cp_StructuredOutput c, cp_Temperature c, cp_Reasoning c, cp_PreferWebSockets c),
   (cp_ReasoningOptions c, cp_DefaultLevel c, cp_InputModalities c, cp_OutputModalities c, cp_ServiceTiers c)).

Definition Capability_of_fields f : Capability :=
  let '(id, name, description, provider, source, (context, output, input),
        (tool, structured, temperature, reasoning, sockets), (options, level, inputs, outputs, tiers)) := f in
  Build_Capability id name description provider source context output input tool structured temperature
    reasoning options level inputs outputs tiers sockets.

#[export] Instance Capability_eq_dec : EqDecision Capability.
Proof. solve_decision. Defined.
#[export] Instance Capability_countable : Countable Capability :=
  inj_countable' Capability_fields Capability_of_fields ltac:(by intros []).

#[export] Instance CapabilitySnapshot_eq_dec : EqDecision CapabilitySnapshot.
Proof. solve_decision. Defined.
#[export] Instance CapabilitySnapshot_countable : Countable CapabilitySnapshot :=
  inj_countable' (λ s, (cs_Version s, cs_Items s)) (λ p, Build_CapabilitySnapshot p.1 p.2)
    ltac:(by intros []).

#[export] Instance plain_capability_cipher : AEAD CapabilitySnapshot :=
  {| aead_seal _ p _ := replicate aead_overhead "="%char ++ code_pos (encode p);
     aead_open _ l _ := read_pos (drop aead_overhead l) ≫= λ r, decode r.1 |}.

#[export] Instance plain_capability_cipher_lawful : LawfulAEAD CapabilitySnapshot.
Proof.
  split.
  - intros nonce p ad. unfold aead_open, aead_seal, plain_capability_cipher.
    rewrite drop_app_length' by (by rewrite length_replicate).
    pose proof (read_code_pos (encode p) []) as Hread. rewrite app_nil_r in Hread. rewrite Hread.
    apply decode_encode.
  - intros nonce p ad. unfold aead_overhead. cbn. lia.
Qed.

(** ** An empty store *)

Definition no_prices : price_state := Build_price_state ∅ ∅ ∅ ∅ ∅ None.

Lemma no_prices_filed : filed no_prices.
Proof. split; apply map_Forall_empty. Qed.

Lemma no_prices_compilable : compilable no_prices.
Proof. split; apply map_Forall_empty. Qed.

Lemma calm_good : good_world calm.
Proof. split; [done|]. by intros i j Hij%(inj _). Qed.

(** A dollar for a million tokens, and an explicit multiplier. *)
Definition cheap (multiplier : option float64) : PriceInput :=
  Build_PriceInput 1000 2000 500 1000 2000 0 0 0 multiplier.

Lemma cheap_valid m : f64_lt (default f64_one m) f64_zero = false → input_valid (cheap m).
Proof. intros Hm. split; [|exact Hm]. by repeat constructor. Qed.

Definition priced_store : price_state := (adminPriceUpdate "my%2Dmodel" (cheap (Some f64_zero)) calm no_prices 0%nat).1.2.

(** The override was meant to be free. *)
Example free_override_costs :
  p_InputNanoUSDPerToken ∘ sp_Price <$> Resolve (px_snapshot priced_store) (ask_price "My-Model" "") = Some 1000.
Proof. by vm_compute. Qed.

(** ** Witnesses *)

Lemma administrators_set_prices_witness :
  ∃ v s, px_prices priced_store = {[ "my-model" := v ]} ∧ px_snapshot priced_store = Some s ∧
    mp_PriceMultiplier v = f64_one ∧
    (sole_price priced_store "my-model" → ∀ d, asks_for priced_store "my-model" d → pays priced_store s v d).
Proof.
  pose proof (administrators_set_prices calm "my%2Dmodel" (cheap (Some f64_zero)) no_prices no_prices_filed 0%nat) as Hwp.
  unfold priced_store. destruct (adminPriceUpdate _ _ _ _ _) as [[r t'] c] eqn:Hrun.
  assert (match r with Ok _ => true | Err _ => false end = true) as Hr.
  { change r with (r, t', c).1.1. rewrite <- Hrun. by vm_compute. }
  destruct r as [a|e]; [|done].
  destruct Hwp as [[]|(model & v & s & Hpath & Hp & Hs & _ & Hm & Hpays)]; [done|].
  injection Hpath as <-. exists v, s. split; [|split; [exact Hs|split; [exact Hm|exact Hpays]]].
  cbn [fst snd]. rewrite Hp. apply insert_empty.
Defined.

(** The catalog of one model. *)
Definition small_catalog : SyncResult :=
  {| sy_Source := "models.dev"; sy_Version := "v1"; sy_URL := "";
     sy_Entries := [{| ce_Price := row "openai/gpt-5" 10 f64_one; ce_SourceModelID := "gpt-5"; ce_RawJSON := "{}" |}];
     sy_Capabilities := [] |}.

Lemma price_changes_are_atomic_witness :
  wp Direct calm (run_price (SyncCatalog small_catalog)) no_prices (λ r t', filed t' ∧ match r with
    | Ok _ => applied (SyncCatalog small_catalog) no_prices t'
    | Err _ => t' = no_prices ∨ stored (SyncCatalog small_catalog) no_prices t' ∨
               applied (SyncCatalog small_catalog) no_prices t'
    end).
Proof. apply price_changes_are_atomic, no_prices_filed. Defined.

Lemma blank_names_freeze_prices_witness :
  path_unescape "%20" = Some " " ∧
  wp Direct calm (adminPriceUpdate "%20" (cheap None)) no_prices (λ r t', (∃ e, r = Err e) ∧ frozen no_prices t').
Proof.
  split; [by vm_compute|].
  apply (proj1 (blank_names_freeze_prices "%20" " " (cheap None) no_prices no_prices_filed eq_refl
    ltac:(done) eq_refl (cheap_valid None eq_refl))). exact calm_quiet.
Defined.

Definition flex_rules : list ModelPriceRule :=
  [Build_ModelPriceRule "" "openai/gpt-5" " Service_Tier " "flex" (f64_div f64_one f64_two) None None;
   Build_ModelPriceRule "" "openai/gpt-5" "prompt_tokens_gte" "128000" f64_two None None].

Lemma valid_changes_go_through_witness :
  change_valid no_prices (SetRules flex_rules) ∧
  wp Direct calm (run_price (SetRules flex_rules)) no_prices
    (λ r t', (∃ a, r = Ok a) ∧ filed t' ∧ compilable t' ∧ published t').
Proof.
  assert (change_valid no_prices (SetRules flex_rules)) as Hvalid.
  { split; [|vm_dec]. unfold flex_rules. rewrite !list.Forall_cons. split_and!; [..|constructor]; by vm_compute. }
  split; [exact Hvalid|].
  apply valid_changes_go_through; [exact no_prices_filed|exact no_prices_compilable|exact calm_good|exact Hvalid].
Defined.
