(* ===== verification/Retention.v ===== *)
(** * Retention (internal/store/retention.go)

    Old rows leave the database in small transactions.  Before a request log is
    deleted its charge is added to the daily fact of its tenant and model, so
    that reports survive it.  The state is the tables that retention touches. *)

From S2P Require Import Prelude.
From S2P Require Import Float64.
From S2P Require Import Cost.
From S2P Require Import Database.
From S2P Require Import Schema.
From S2P Require Import RequestLogs.

(** ** Rows

    A [date] is the number of days from the zero time. *)

(** The sums of a report or of a daily fact. *)
Record Totals := {
  tt_Requests : Z;
  tt_Errors : Z;
  tt_Usage : Usage;
  tt_CostNanoUSD : Z;
  tt_SubscriptionCoveredNanoUSD : Z;
  tt_BalanceChargedNanoUSD : Z
}.

(* src/internal/db/models.go:148-167 UsageDailyRollup *)
Record UsageDailyRollup := {
  ud_Day : Z;
  ud_TenantID : string;
  ud_Model : string;
  ud_Totals : Totals;
  ud_UpdatedAt : Z
}.

(* src/internal/db/models.go:250-273 RequestLogDetail *)
Record RequestLogDetail := { rd_RequestLogID : string; rd_Detail : LogDetailInput; rd_CreatedAt : Z }.

(** The columns of a lifecycle event that retention reads or clears. *)
(* src/internal/db/models.go:275-305 UpstreamLifecycleEvent *)
Record UpstreamLifecycleEvent := {
  le_ID : string;
  le_RequestLogID : string;
  le_StatusCode : Z;
  le_Outcome : string;
  le_Headers : string;
  le_ResponseHeaders : string;
  le_Body : string;
  le_OriginalRequest : string;
  le_RequestBody : string;
  le_RawJSON : string;
  le_Processed : bool;
  le_CreatedAt : Z;
  le_ProcessedAt : option Z
}.
#[export] Instance UpstreamLifecycleEvent_eta : Eta UpstreamLifecycleEvent := λ r, Build_UpstreamLifecycleEvent
  (le_ID r) (le_RequestLogID r) (le_StatusCode r) (le_Outcome r) (le_Headers r) (le_ResponseHeaders r) (le_Body r)
  (le_OriginalRequest r) (le_RequestBody r) (le_RawJSON r) (le_Processed r) (le_CreatedAt r) (le_ProcessedAt r).

(** A quota observation with the instant at which it was stored. *)
Record StoredObservation := { so_Observation : ParentQuotaObservation; so_CreatedAt : Z }.

Record archive := {
  ar_logs : gmap string RequestLog;
  ar_details : gmap string RequestLogDetail;
  ar_events : gmap string UpstreamLifecycleEvent;
  ar_rollups : gmap (Z * string * string) UsageDailyRollup;
  ar_reservations : gmap string RequestReservation;
  ar_turns : gmap (string * string) WebSocketTurn;
  ar_observations : gmap string StoredObservation;
  ar_invitations : gmap string Invitation
}.
#[export] Instance archive_eta : Eta archive := λ r, Build_archive (ar_logs r) (ar_details r) (ar_events r)
  (ar_rollups r) (ar_reservations r) (ar_turns r) (ar_observations r) (ar_invitations r).

(** ** Sums

    The token columns of the daily facts are 64-bit: PostgreSQL refuses a sum that
    does not fit, and so does the driver that reads one. *)

Definition usage_add (u v : Usage) : Usage :=
  {| u_Prompt := u_Prompt u + u_Prompt v; u_Completion := u_Completion u + u_Completion v;
     u_Cached := u_Cached u + u_Cached v; u_CacheWrite := u_CacheWrite u + u_CacheWrite v;
     u_Reasoning := u_Reasoning u + u_Reasoning v; u_Total := u_Total u + u_Total v;
     u_ImageInput := u_ImageInput u + u_ImageInput v; u_CachedImageInput := u_CachedImageInput u + u_CachedImageInput v;
     u_ImageOutput := u_ImageOutput u + u_ImageOutput v |}.

Definition totals_zero : Totals := Build_Totals 0 0 zero_usage 0 0 0.

Definition totals_add (a b : Totals) : Totals :=
  {| tt_Requests := tt_Requests a + tt_Requests b; tt_Errors := tt_Errors a + tt_Errors b;
     tt_Usage := usage_add (tt_Usage a) (tt_Usage b); tt_CostNanoUSD := tt_CostNanoUSD a + tt_CostNanoUSD b;
     tt_SubscriptionCoveredNanoUSD := tt_SubscriptionCoveredNanoUSD a + tt_SubscriptionCoveredNanoUSD b;
     tt_BalanceChargedNanoUSD := tt_BalanceChargedNanoUSD a + tt_BalanceChargedNanoUSD b |}.

Definition columns : list (Totals → Z) :=
  let tokens (f : Usage → Z) t := f (tt_Usage t) in
  [tt_Requests; tt_Errors; tokens u_Prompt; tokens u_Completion; tokens u_Cached; tokens u_CacheWrite;
   tokens u_Reasoning; tokens u_Total; tokens u_ImageInput; tokens u_CachedImageInput; tokens u_ImageOutput;
   tt_CostNanoUSD; tt_SubscriptionCoveredNanoUSD; tt_BalanceChargedNanoUSD].

Definition totals_fit (t : Totals) : bool :=
  forallb (λ column, (min_int64 <=? column t) && (column t <=? max_int64)) columns.

(** A confirmed, paid step. *)
(* src/internal/store/log_units.go:11-11 generationLogSQL *)
Definition generation_log (l : RequestLog) : bool :=
  bool_decide (rl_LogUnit l = LogUnitStep) && rl_Settled l && rl_PricingComplete l &&
  match rl_CostNanoUSD l with Some cost => 0 <? cost | None => false end.

(* src/internal/store/store.go:966-975 requestLogUnitErrorSQLOn *)
Definition failed_log (l : RequestLog) : bool :=
  (rl_StatusCode l =? 0) || (400 <=? rl_StatusCode l) || negb (bool_decide (lt_ErrorCode (rl_Texts l) = "")).

(** What a row adds to the sums of its group. *)
(* src/internal/store/retention.go:218-231 compactRequestLogs *)
Definition log_totals (l : RequestLog) : Totals :=
  let cost := default 0 (rl_CostNanoUSD l) in
  {| tt_Requests := 1; tt_Errors := if failed_log l then 1 else 0; tt_Usage := rl_Usage l; tt_CostNanoUSD := cost;
     tt_SubscriptionCoveredNanoUSD := if bool_decide (rl_BillingSource l = SourceSubscription) then cost else 0;
     tt_BalanceChargedNanoUSD :=
       if bool_decide (rl_BillingSource l = SourceBalance) ||
          (bool_decide (rl_BillingSource l = SourceUnset) && bool_decide (rl_ParentSubscriptionID l = None))
       then cost else 0 |}.

(** The UTC day on which a request started, its tenant and its model. *)
(* src/internal/store/retention.go:217-217 compactRequestLogs *)
Definition log_key (l : RequestLog) : Z * string * string := (rl_StartedAt l / day_ns, rl_TenantID l, rl_Model l).

Definition rollup_key (r : UsageDailyRollup) : Z * string * string := (ud_Day r, ud_TenantID r, ud_Model r).

(** [GROUP BY]: the sums of the rows that share a key. *)
Definition grouped {K A} `{Countable K} (key : A → K) (value : A → Totals) (rows : list A) : gmap K Totals :=
  foldr (λ x m, <[key x := totals_add (value x) (default totals_zero (m !! key x))]> m) ∅ rows.

(** ** The tables *)

Definition request_log_rows : table archive string RequestLog :=
  Table ar_logs (λ m t, t <| ar_logs := m |>) (λ _, true).
Definition detail_rows : table archive string RequestLogDetail :=
  Table ar_details (λ m t, t <| ar_details := m |>) (λ _, true).
Definition event_rows : table archive string UpstreamLifecycleEvent :=
  Table ar_events (λ m t, t <| ar_events := m |>) (λ _, true).
Definition rollup_rows : table archive (Z * string * string) UsageDailyRollup :=
  Table ar_rollups (λ m t, t <| ar_rollups := m |>) (λ r, totals_fit (ud_Totals r)).
Definition reservation_rows : table archive string RequestReservation :=
  Table ar_reservations (λ m t, t <| ar_reservations := m |>) (λ _, true).
Definition turn_rows : table archive (string * string) WebSocketTurn :=
  Table ar_turns (λ m t, t <| ar_turns := m |>) (λ _, true).
Definition observation_rows : table archive string StoredObservation :=
  Table ar_observations (λ m t, t <| ar_observations := m |>) (λ _, true).
Definition invitation_rows : table archive string Invitation :=
  Table ar_invitations (λ m t, t <| ar_invitations := m |>) (λ _, true).

#[export] Instance request_log_rows_lawful : LawfulTable request_log_rows.
Proof. by split. Qed.
#[export] Instance detail_rows_lawful : LawfulTable detail_rows.
Proof. by split. Qed.
#[export] Instance event_rows_lawful : LawfulTable event_rows.
Proof. by split. Qed.
#[export] Instance rollup_rows_lawful : LawfulTable rollup_rows.
Proof. by split. Qed.
#[export] Instance reservation_rows_lawful : LawfulTable reservation_rows.
Proof. by split. Qed.
#[export] Instance turn_rows_lawful : LawfulTable turn_rows.
Proof. by split. Qed.
#[export] Instance observation_rows_lawful : LawfulTable observation_rows.
Proof. by split. Qed.
#[export] Instance invitation_rows_lawful : LawfulTable invitation_rows.
Proof. by split. Qed.

(** ** Selections *)

(** The rows that no other transaction has locked: the world says which positions are. *)
Definition unlocked {A} (locked : list nat) (l : list A) : list A :=
  (filter (λ ix, ix.1 ∉ locked) (zip (seq 0 (length l)) l)).*2.
Definition skip_locked {T A} (l : list A) : M T (list A) := λ E t n, (Ok (unlocked (env_order E n) l), t, 1%nat).

(** NULL sorts last. *)
Definition null_last (a b : option Z) : Prop :=
  match a, b with Some x, Some y => x ≤ y | Some _, None => True | None, Some _ => False | None, None => True end.
#[export] Instance null_last_dec a b : Decision (null_last a b).
Proof. destruct a, b; cbn; apply _. Defined.

(** [SELECT ... WHERE cond ORDER BY column LIMIT batch FOR UPDATE SKIP LOCKED]. *)
Definition select_oldest {V} (rows : table archive string V) (cond : V → bool) (column : V → option Z) (batch : Z)
    : M archive (list V) :=
  found ← find_ordered rows cond (λ a b, null_last (column a) (column b));
  free ← skip_locked found;
  mret (take (Z.to_nat batch) free).

(** [pg_try_advisory_xact_lock]: another process may be at it. *)
Definition try_advisory_lock {T} : M T bool := λ E t n,
  match statement E t n with
  | (Ok _, t', c) => (Ok (bool_decide (env_order E n = [])), t', c)
  | (Err e, t', c) => (Err e, t', c)
  end.

(* src/internal/store/retention.go:118-134 retentionTx *)
Definition retentionTx {A} (none : A) (work : M archive A) : M archive A :=
  transaction (
    locked ← try_advisory_lock;
    if (locked : bool) then work else mret none).

(** [AddDate(0, 0, days)]: the same wall clock on another day, in the local zone. *)
Definition add_days `{TimeZone} (t days : Z) : Z :=
  let wall := t + tz_offset t + days * day_ns in
  let offset := tz_offset wall in
  if offset =? 0 then wall else wall - tz_offset (wall - offset).

Definition hour : Z := 60 * minute.

(** ** The policy *)

(* src/internal/store/retention.go:12-18 RetentionPolicy *)
Record RetentionPolicy := {
  SummaryDays : Z;
  SuccessDetailDays : Z;
  ErrorDetailDays : Z;
  LifecycleSuccessHours : Z;
  LifecycleErrorDays : Z;
  ReservationDays : Z;
  IncompleteReservationDays : Z;
  QuotaObservationDays : Z;
  InvitationDays : Z;
  BatchSize : Z;
  MaxRuntime : Z
}.
#[export] Instance RetentionPolicy_eta : Eta RetentionPolicy := λ r, Build_RetentionPolicy (SummaryDays r)
  (SuccessDetailDays r) (ErrorDetailDays r) (LifecycleSuccessHours r) (LifecycleErrorDays r) (ReservationDays r)
  (IncompleteReservationDays r) (QuotaObservationDays r) (InvitationDays r) (BatchSize r) (MaxRuntime r).

(* src/internal/store/retention.go:20-23 RetentionStats *)
Record RetentionStats := {
  st_Details : Z;
  st_LifecycleEvents : Z;
  st_LifecyclePayloads : Z;
  st_Reservations : Z;
  st_RequestLogs : Z;
  st_QuotaObservations : Z;
  st_Invitations : Z;
  st_Rollups : Z
}.
#[export] Instance RetentionStats_eta : Eta RetentionStats := λ r, Build_RetentionStats (st_Details r)
  (st_LifecycleEvents r) (st_LifecyclePayloads r) (st_Reservations r) (st_RequestLogs r) (st_QuotaObservations r)
  (st_Invitations r) (st_Rollups r).

Section retention.
Context `{TimeZone}.

(** ** One batch of each kind *)

Definition has_payload (e : UpstreamLifecycleEvent) : bool :=
negb (bool_decide (le_Headers e = "{}")) || negb (bool_decide (le_ResponseHeaders e = "{}")) ||
negb (bool_decide (le_Body e = "")) || negb (bool_decide (le_OriginalRequest e = "")) ||
negb (bool_decide (le_RequestBody e = "")) || negb (bool_decide (le_RawJSON e = "")).

Definition scrubbed (e : UpstreamLifecycleEvent) : UpstreamLifecycleEvent :=
let e := e <| le_Headers := "{}"; le_ResponseHeaders := "{}"; le_Body := "" |> in
e <| le_OriginalRequest := ""; le_RequestBody := ""; le_RawJSON := "" |>.

(* src/internal/store/retention.go:103-116 scrubLifecyclePayloads *)
Definition scrubLifecyclePayloads (batch : Z) : M archive Z :=
retentionTx 0 (
  selected ← select_oldest event_rows (λ e, le_Processed e && has_payload e) le_ProcessedAt (Z.min batch 100);
  update_all event_rows (λ e, bool_decide (le_ID e ∈ (le_ID <$> (selected : list UpstreamLifecycleEvent)))) scrubbed).

(* src/internal/store/retention.go:136-155 deleteSuccessDetails *)
Definition deleteSuccessDetails (cutoff : Z) (policy : RetentionPolicy) : M archive Z :=
if SuccessDetailDays policy <=? 0 then mret 0
else retentionTx 0 (
  logs ← gets ar_logs;
  let log_of (d : RequestLogDetail) := (logs : gmap string RequestLog) !! rd_RequestLogID d in
  selected ← select_oldest detail_rows
    (λ d, match log_of d with
          | Some l => (rl_CompletedAt l <? cutoff) && (0 <? rl_StatusCode l) && (rl_StatusCode l <? 400) &&
                      bool_decide (lt_ErrorCode (rl_Texts l) = "")
          | None => false
          end) (λ d, rl_CompletedAt <$> log_of d) (Z.min (BatchSize policy) 50);
  delete_where detail_rows
    (λ d, bool_decide (rd_RequestLogID d ∈ (rd_RequestLogID <$> (selected : list RequestLogDetail))))).

(* src/internal/store/retention.go:157-169 deleteOldDetails *)
Definition deleteOldDetails (cutoff batch : Z) : M archive Z :=
retentionTx 0 (
  selected ← select_oldest detail_rows (λ d, rd_CreatedAt d <? cutoff) (λ d, Some (rd_CreatedAt d)) (Z.min batch 50);
  delete_where detail_rows
    (λ d, bool_decide (rd_RequestLogID d ∈ (rd_RequestLogID <$> (selected : list RequestLogDetail))))).

(** An event that did not end well is kept longer. *)
(* src/internal/store/retention.go:177-183 deleteLifecycle *)
Definition event_expired (successCutoff errorCutoff : Z) (e : UpstreamLifecycleEvent) : bool :=
let succeeded := bool_decide (le_Outcome e = "" ∨ le_Outcome e = "succeeded") in
(negb (le_Processed e) && (le_CreatedAt e <? successCutoff)) ||
(le_Processed e &&
 ((succeeded && (le_StatusCode e <? 400) && (le_CreatedAt e <? successCutoff)) ||
  ((negb succeeded || (400 <=? le_StatusCode e)) && (le_CreatedAt e <? errorCutoff)))).

(** Selected rows are deleted by a second statement, if there are any. *)
Definition delete_selected {V} (rows : table archive string V) (id : V → string) (selected : list V) : M archive Z :=
match selected with
| [] => mret 0
| _ => delete_where rows (λ v, bool_decide (id v ∈ (id <$> selected)))
end.

(* src/internal/store/retention.go:171-190 deleteLifecycle *)
Definition deleteLifecycle (now : Z) (policy : RetentionPolicy) : M archive Z :=
if (LifecycleSuccessHours policy <=? 0) || (LifecycleErrorDays policy <=? 0) then mret 0
else retentionTx 0 (
  let successCutoff := now - LifecycleSuccessHours policy * hour in
  let errorCutoff := add_days now (- LifecycleErrorDays policy) in
  selected ← select_oldest event_rows (event_expired successCutoff errorCutoff) (λ e, Some (le_CreatedAt e))
               (BatchSize policy);
  delete_selected event_rows le_ID selected).

(* src/internal/store/retention.go:200-202 deleteReservations *)
Definition reservation_expired (normalCutoff incompleteCutoff : Z) (r : RequestReservation) : bool :=
negb (bool_decide (r_Status r = ReservationActive)) &&
match r_SettledAt r with
| Some settled => if r_PricingComplete r then settled <? normalCutoff else settled <? incompleteCutoff
| None => false
end.

(** The turns of a deleted reservation go with it, by the foreign key. *)
(* src/internal/store/retention.go:192-210 deleteReservations *)
Definition deleteReservations (now : Z) (policy : RetentionPolicy) : M archive Z :=
if (ReservationDays policy <=? 0) || (IncompleteReservationDays policy <=? 0) then mret 0
else retentionTx 0 (
  let normalCutoff := add_days now (- ReservationDays policy) in
  let incompleteCutoff := add_days now (- IncompleteReservationDays policy) in
  selected ← select_oldest reservation_rows (reservation_expired normalCutoff incompleteCutoff) r_SettledAt
               (BatchSize policy);
  deleted ← delete_selected reservation_rows r_RequestID selected;
  cascade turn_rows (λ w, bool_decide (wt_RequestID w ∈ (r_RequestID <$> (selected : list RequestReservation))));;
  mret deleted).

(** A daily fact takes up the sums of one group. *)
(* src/internal/store/retention.go:235-259 compactRequestLogs *)
Definition roll_up (entry : (Z * string * string) * Totals) : M archive unit :=
let '((day, tenant, model), sums) := entry in
createdAt ← time_now;
updatedAt ← time_now;
upsert rollup_rows (day, tenant, model) (Build_UsageDailyRollup day tenant model sums createdAt)
  (λ old new, Build_UsageDailyRollup (ud_Day old) (ud_TenantID old) (ud_Model old)
                (totals_add (ud_Totals old) (ud_Totals new)) updatedAt).

(** Answers the deleted logs and the groups they fell into. *)
(* src/internal/store/retention.go:212-272 compactRequestLogs *)
Definition compactRequestLogs (cutoff batch : Z) : M archive (Z * Z) :=
retentionTx (0, 0) (
  selected ← select_oldest request_log_rows (λ l, rl_CompletedAt l <? cutoff) (λ l, Some (rl_CompletedAt l)) batch;
  let ids := rl_ID <$> (selected : list RequestLog) in
  match ids with
  | [] => mret (0, 0)
  | _ =>
      charged ← find request_log_rows (λ l, bool_decide (rl_ID l ∈ ids) && generation_log l);
      let groups := map_to_list (grouped log_key log_totals charged) in
      guard_that (forallb (λ kt, totals_fit kt.2) groups) (ErrMessage "sql: Scan error: value out of range");;
      rollups ← any_order groups;
      for_each roll_up rollups;;
      delete_where detail_rows (λ d, bool_decide (rd_RequestLogID d ∈ ids));;
      delete_where event_rows (λ e, bool_decide (le_RequestLogID e ∈ ids));;
      deleted ← delete_where request_log_rows (λ l, bool_decide (rl_ID l ∈ ids));
      mret (deleted, Z.of_nat (length rollups))
  end).

(* src/internal/store/retention.go:274-284 deleteQuotaObservations *)
Definition deleteQuotaObservations (cutoff batch : Z) : M archive Z :=
retentionTx 0 (
  selected ← select_oldest observation_rows (λ o, so_CreatedAt o <? cutoff) (λ o, Some (so_CreatedAt o)) batch;
  delete_selected observation_rows (po_ID ∘ so_Observation) selected).

(* src/internal/store/retention.go:289-291 deleteInvitations *)
Definition invitation_expired (cutoff now : Z) (i : Invitation) : bool :=
(i_CreatedAt i <? cutoff) &&
(negb (bool_decide (i_UsedAt i = None)) || negb (bool_decide (i_RevokedAt i = None)) || (i_ExpiresAt i <? now)).

(* src/internal/store/retention.go:286-296 deleteInvitations *)
Definition deleteInvitations (cutoff batch : Z) : M archive Z :=
retentionTx 0 (
  now ← time_now;
  selected ← select_oldest invitation_rows (invitation_expired cutoff now) (λ i, Some (i_CreatedAt i)) batch;
  delete_selected invitation_rows i_ID selected).

(** ** The job *)

(** An operation answers how many rows it got rid of, and where they are counted. *)
Definition operation : Type := M archive (Z * (RetentionStats → RetentionStats)).

Definition counting (work : M archive Z) (credit : Z → RetentionStats → RetentionStats) : operation :=
count ← work; mret (count, credit count).

Definition if_days (days : Z) (work : M archive Z) : M archive Z := if days <=? 0 then mret 0 else work.

(* src/internal/store/retention.go:40-92 RunRetention *)
Definition operations (now : Z) (policy : RetentionPolicy) : list operation :=
let ago days := add_days now (- days) in
let batch := BatchSize policy in
[ counting (scrubLifecyclePayloads batch) (λ n s, s <| st_LifecyclePayloads := st_LifecyclePayloads s + n |>);
  counting (deleteSuccessDetails (ago (SuccessDetailDays policy)) policy)
    (λ n s, s <| st_Details := st_Details s + n |>);
  counting (if_days (ErrorDetailDays policy) (deleteOldDetails (ago (ErrorDetailDays policy)) batch))
    (λ n s, s <| st_Details := st_Details s + n |>);
  counting (deleteLifecycle now policy) (λ n s, s <| st_LifecycleEvents := st_LifecycleEvents s + n |>);
  counting (deleteReservations now policy) (λ n s, s <| st_Reservations := st_Reservations s + n |>);
  if SummaryDays policy <=? 0 then mret (0, λ s, s)
  else '(deleted, rolled) ← compactRequestLogs (ago (SummaryDays policy)) batch;
       mret (deleted, λ s, s <| st_RequestLogs := st_RequestLogs s + deleted; st_Rollups := st_Rollups s + rolled |>);
  counting (if_days (QuotaObservationDays policy) (deleteQuotaObservations (ago (QuotaObservationDays policy)) batch))
    (λ n s, s <| st_QuotaObservations := st_QuotaObservations s + n |>);
  counting (if_days (InvitationDays policy) (deleteInvitations (ago (InvitationDays policy)) batch))
    (λ n s, s <| st_Invitations := st_Invitations s + n |>) ].

(** One round of the loop; it breaks off after the deadline. *)
(* src/internal/store/retention.go:72-93 RunRetention *)
Fixpoint round (deadline : Z) (ops : list operation) (progress : Z) (stats : RetentionStats)
  : M archive (Z * RetentionStats) :=
match ops with
| [] => mret (progress, stats)
| op :: ops =>
    now ← time_now;
    if deadline <? now then mret (progress, stats)
    else '(count, credit) ← op; round deadline ops (progress + count) (credit stats)
end.

(** [None]: out of fuel. *)
(* src/internal/store/retention.go:37-101 RunRetention *)
Fixpoint rounds (fuel : nat) (deadline : Z) (ops : list operation) (stats : RetentionStats)
  : M archive (option RetentionStats) :=
match fuel with
| O => mret None
| S fuel =>
    now ← time_now;
    if now <? deadline then
      '(progress, stats) ← round deadline ops 0 stats;
      if (progress : Z) =? 0 then mret (Some stats) else rounds fuel deadline ops stats
    else mret (Some stats)
end.

Definition no_stats : RetentionStats := Build_RetentionStats 0 0 0 0 0 0 0 0.

(* src/internal/store/retention.go:29-36 RunRetention *)
Definition with_defaults (policy : RetentionPolicy) : RetentionPolicy :=
policy <| BatchSize := if BatchSize policy <? 1 then 5000 else BatchSize policy;
          MaxRuntime := if MaxRuntime policy <=? 0 then 30 * second else MaxRuntime policy |>.

(* src/internal/store/retention.go:28-101 RunRetention *)
Definition RunRetention (fuel : nat) (now : Z) (policy : RetentionPolicy) : M archive (option RetentionStats) :=
let policy := with_defaults policy in
started ← time_now;
rounds fuel (started + MaxRuntime policy) (operations now policy) no_stats.
End retention.

(** ** The deletion of a tenant

    [DeleteTenant] is [Accounts.DeleteTenant] on the tables of the store; these are the tables that
    the archive has, the lifecycle events and the daily facts among them. *)
(* src/internal/store/store.go:171-195 DeleteTenant *)
Definition delete_archived (id : string) : M archive unit :=
  logIDs ← gets (λ t, filter (λ kl : string * RequestLog, rl_TenantID kl.2 = id) (ar_logs t));
  requestIDs ← gets (λ t, filter (λ kr : string * RequestReservation, r_TenantID kr.2 = id) (ar_reservations t));
  delete_where detail_rows (λ d, bool_decide (is_Some (logIDs !! rd_RequestLogID d)));;
  delete_where event_rows (λ e, bool_decide (is_Some (logIDs !! le_RequestLogID e)));;
  delete_where reservation_rows (λ r, bool_decide (r_TenantID r = id));;
  cascade turn_rows (λ w, bool_decide (is_Some (requestIDs !! wt_RequestID w)));;
  delete_where rollup_rows (λ r, bool_decide (ud_TenantID r = id));;
  delete_where request_log_rows (λ l, bool_decide (rl_TenantID l = id));;
  mret ().
