(* ===== verification/RetentionGuarantees.v ===== *)
(** * What retention keeps

    Retention deletes only what the policy lets go; it moves charges into the
    daily facts without changing any sum; and it ends. *)

From S2P Require Import Prelude.
From S2P Require Import Float64.
From S2P Require Import Cost.
From S2P Require Import Database.
From S2P Require Import Schema.
From S2P Require Import RequestLogs.
From S2P Require Import Machine.
From S2P Require Import Retention.

(** ** Columns add up *)

Definition additive (c : Totals → Z) : Prop :=
  (∀ a b, c (totals_add a b) = c a + c b) ∧ c totals_zero = 0.

Lemma columns_additive c : c ∈ columns → additive c.
Proof. intros Hc. revert c Hc. apply list.Forall_forall. by repeat constructor. Qed.

Section column.
Context {c : Totals → Z} (Hc : additive c).

(** The groups hold the sum of their rows, in every selection of groups. *)
Lemma grouped_sum {K A} `{Countable K} (key : A → K) (value : A → Totals) (P : K → bool) (rows : list A) :
sum_by (λ kt, if P kt.1 then c kt.2 else 0) (map_to_list (grouped key value rows)) =
sum_by (λ x, if P (key x) then c (value x) else 0) rows.
Proof.
induction rows as [|x rows IH]; [cbn; by rewrite map_to_list_empty|]. cbn [grouped foldr]. rewrite sum_by_cons, <- IH.
fold (grouped key value rows). set (m := grouped key value rows). destruct Hc as [Hadd Hzero].
destruct (m !! key x) as [old|] eqn:Hold; cbn [default].
- rewrite <- insert_delete_eq, map_to_list_insert by apply lookup_delete_eq.
  rewrite <- (insert_delete_id m (key x) old Hold) at 2. rewrite map_to_list_insert by apply lookup_delete_eq.
  rewrite !sum_by_cons. cbn. destruct (P (key x)); rewrite ?Hadd; lia.
- rewrite map_to_list_insert by done. rewrite sum_by_cons. cbn. destruct (P (key x)); rewrite ?Hadd, ?Hzero; lia.
Qed.
End column.

(** ** What the reports add up

    In a column [c], over the days, tenants and models in [P]. *)
Definition live (c : Totals → Z) (P : Z * string * string → bool) (t : archive) : Z :=
  sum_map (λ l, if generation_log l && P (log_key l) then c (log_totals l) else 0) (ar_logs t).
Definition rolled (c : Totals → Z) (P : Z * string * string → bool) (t : archive) : Z :=
  sum_map (λ r, if P (rollup_key r) then c (ud_Totals r) else 0) (ar_rollups t).
Definition usage (c : Totals → Z) (P : Z * string * string → bool) (t : archive) : Z := live c P t + rolled c P t.

(** [m'] is [m] without some rows that had expired. *)
Definition thinned {K V : Type} `{Countable K} (expired : V → Prop) (m m' : gmap K V) : Prop :=
  ∀ k, m' !! k = m !! k ∨ (m' !! k = None ∧ ∃ v, m !! k = Some v ∧ expired v).

Lemma thinned_refl {K V : Type} `{Countable K} (expired : V → Prop) (m : gmap K V) : thinned expired m m.
Proof. intros k. by left. Qed.
#[local] Hint Resolve thinned_refl : core.

Lemma thinned_trans {K V : Type} `{Countable K} (expired : V → Prop) (m1 m2 m3 : gmap K V) :
  thinned expired m1 m2 → thinned expired m2 m3 → thinned expired m1 m3.
Proof.
  intros H12 H23 k. destruct (H12 k) as [H1|[H1 Hv]], (H23 k) as [H2|[H2 (v & Hv' & Hx)]].
  - left. congruence.
  - right. split; [done|]. exists v. split; [congruence|done].
  - right. split; [congruence|done].
  - congruence.
Qed.

(** Deleting rows by identifiers that were selected for having expired. *)
Lemma thinned_delete {K V : Type} `{Countable K} (expired : V → Prop) (cond : V → bool) (m : gmap K V) :
  (∀ k v, m !! k = Some v → cond v = true → expired v) →
  thinned expired m (filter (λ kv, cond kv.2 = false) m).
Proof.
  intros Hexp k. destruct (m !! k) as [v|] eqn:Hv.
  - destruct (cond v) eqn:Hcond; [right|left].
    + split; [|eauto]. apply map_lookup_filter_None. right. intros w Hw. cbn. congruence.
    + by apply map_lookup_filter_Some.
  - left. apply map_lookup_filter_None. by left.
Qed.

(** ** Counting rows *)

(** A deletion never adds to a sum of weights, and takes away the rows it counts. *)
Lemma deleted_rows {K V : Type} `{Countable K} (weight : V → Z) (cond : V → bool) (m : gmap K V) :
  (∀ v, 1 ≤ weight v) →
  let rest := filter (λ kv, cond kv.2 = false) m in
  sum_map weight rest + (rows_of m - rows_of rest) ≤ sum_map weight m ∧ 0 ≤ rows_of m - rows_of rest.
Proof.
  intros Hw rest. unfold rows_of, rest. rewrite !sum_map_filter. split.
  - assert (sum_map (λ _ : V, 1) m = sum_map (λ v, (if Bool.eqb (cond v) false then 1 else 0) +
      (if cond v then 1 else 0)) m) as -> by (apply sum_map_ext; intros; by destruct (cond v)).
    rewrite sum_map_add.
    enough (sum_map (λ v, (if Bool.eqb (cond v) false then weight v else 0) + (if cond v then 1 else 0)) m ≤
      sum_map weight m) by (rewrite sum_map_add in *; lia).
    apply sum_map_le. intros k v _. specialize (Hw v). destruct (cond v); cbn; lia.
  - assert (sum_map (λ v, if Bool.eqb (cond v) false then 1 else 0) m ≤ sum_map (λ _, 1) m); [|lia].
    apply sum_map_le. intros k v _. by destruct (cond v).
Qed.

(** An event that still has its payload weighs twice. *)
Definition event_weight (e : UpstreamLifecycleEvent) : Z := 1 + (if has_payload e then 1 else 0).

(** What is left to do. *)
Definition workload (t : archive) : Z :=
  rows_of (ar_logs t) + rows_of (ar_details t) + sum_map event_weight (ar_events t) +
  rows_of (ar_reservations t) + rows_of (ar_observations t) + rows_of (ar_invitations t).

(** ** A batch *)

(** Every row is stored under its own key. *)
Record archive_ok (t : archive) : Prop := {
  ok_logs : keyed rl_ID (ar_logs t);
  ok_details : keyed rd_RequestLogID (ar_details t);
  ok_events : keyed le_ID (ar_events t);
  ok_rollups : keyed rollup_key (ar_rollups t);
  ok_reservations : keyed r_RequestID (ar_reservations t);
  ok_observations : keyed (po_ID ∘ so_Observation) (ar_observations t);
  ok_invitations : keyed i_ID (ar_invitations t)
}.

Section selections.
Context {V : Type} (rows : table archive string V) `{!LawfulTable rows} (id : V → string) (E : env).

Lemma unlocked_elem {A} (locked : list nat) (l : list A) x : x ∈ unlocked locked l → x ∈ l.
Proof.
unfold unlocked. intros ([i y] & -> & [_ Hin]%list_elem_of_filter)%list_elem_of_fmap.
by apply elem_of_zip_r in Hin.
Qed.

Lemma success_select_oldest cond column batch t (P : list V → archive → Prop) :
(∀ l, (∀ v, v ∈ l → cond v = true ∧ ∃ k, tb_get rows t !! k = Some v) → P l t) →
success E (select_oldest rows cond column batch) t P.
Proof.
intros HP. apply success_bind. apply (wp_find_ordered InTx E); [|done]. intros found Hfound.
apply success_bind. intros n. cbn. right. apply success_ret, HP. intros v Hv.
apply (elem_of_rows rows cond t found v Hfound). rewrite <- (merge_sort_Permutation (λ a b, null_last (column a) (column b)) found).
apply unlocked_elem with (env_order E n). by apply (subseteq_take (Z.to_nat batch)).
Qed.

(** Rows picked by the identifiers of selected rows are the selected rows. *)
Lemma selected_by_id (selected : list V) m k v :
keyed id m → (∀ v, v ∈ selected → ∃ k, m !! k = Some v) →
m !! k = Some v → id v ∈ (id <$> selected) → v ∈ selected.
Proof.
intros Hkey Hsel Hv (w & Heq & Hw)%list_elem_of_fmap. destruct (Hsel w Hw) as [k' Hk'].
pose proof (Hkey _ _ Hv) as Hid. pose proof (Hkey _ _ Hk') as Hid'. cbn in Hid, Hid'.
assert (k = k') as -> by congruence. congruence.
Qed.

Lemma success_delete_count (cond : V → bool) t (P : Z → archive → Prop) :
(let rest := filter (λ kv, cond kv.2 = false) (tb_get rows t) in
 P (rows_of (tb_get rows t) - rows_of rest) (tb_set rows rest t)) →
success E (delete_where rows cond) t P.
Proof.
intros HP. apply (wp_delete_count InTx E rows); [|done]. cbn. cbn in HP. rewrite <- !size_rows in HP.
rewrite Nat2Z.inj_sub; [exact HP|]. apply map_subseteq_size, map_filter_subseteq.
Qed.

Lemma success_delete_selected selected t (P : Z → archive → Prop) :
tb_set rows (tb_get rows t) t = t →
(let gone := λ v, bool_decide (id v ∈ (id <$> selected)) in
 let rest := filter (λ kv, gone kv.2 = false) (tb_get rows t) in
 P (rows_of (tb_get rows t) - rows_of rest) (tb_set rows rest t)) →
success E (delete_selected rows id selected) t P.
Proof.
intros Hsame HP. unfold delete_selected. destruct selected as [|v l]; [|by apply success_delete_count].
apply success_ret. cbv beta zeta in HP.
assert (filter (λ kv : string * V, bool_decide (id kv.2 ∈ (id <$> [])) = false) (tb_get rows t) = tb_get rows t) as Heq.
{ apply map_filter_id. intros k v _. apply bool_decide_eq_false_2. apply not_elem_of_nil. }
by rewrite Heq, Z.sub_diag, Hsame in HP.
Qed.

(** Selected rows are deleted, nothing else is. *)
Lemma success_purge cond column batch (weight : V → Z) t (P : Z → archive → Prop)
  (delete : list V → M archive Z) :
keyed id (tb_get rows t) → (∀ v, 1 ≤ weight v) →
(delete = delete_selected rows id ∨
 delete = λ selected, delete_where rows (λ v, bool_decide (id v ∈ (id <$> selected)))) →
P 0 t →
(∀ rest n, keyed id rest → thinned (λ v, cond v = true) (tb_get rows t) rest → 0 ≤ n →
   sum_map weight rest + n ≤ sum_map weight (tb_get rows t) → P n (tb_set rows rest t)) →
success E (selected ← select_oldest rows cond column batch; delete selected) t P.
Proof.
intros Hkey Hw Hdelete HP0 HP. apply success_bind, success_select_oldest. intros selected Hsel.
assert (success E (delete_where rows (λ v, bool_decide (id v ∈ (id <$> selected)))) t P) as Hdel.
{ apply success_delete_count. cbn zeta. set (gone := λ v, bool_decide (id v ∈ (id <$> selected))).
  destruct (deleted_rows weight gone (tb_get rows t) Hw) as [Hle Hpos].
  apply HP; [|apply (thinned_delete _ gone)|exact Hpos|exact Hle].
  - by apply keyed_filter.
  - intros k v Hv Hin%bool_decide_eq_true.
    assert (v ∈ selected) as Hv' by (eapply selected_by_id; [exact Hkey|intros w Hw'; by apply Hsel|exact Hv|done]).
    by apply Hsel. }
destruct Hdelete as [-> | ->]; [|exact Hdel]. unfold delete_selected. destruct selected as [|v l]; [|exact Hdel].
by apply success_ret.
Qed.
End selections.

(** ** What an operation may do *)

Lemma success_update_count {V : Type} (rows : table archive string V) E (cond : V → bool) (f : V → V) t (P : Z → archive → Prop) :
  P (sum_map (λ v, if cond v then 1 else 0) (tb_get rows t))
    (tb_set rows ((λ v, if cond v then f v else v) <$> tb_get rows t) t) →
  success E (update_all rows cond f) t P.
Proof.
  intros HP. apply success_bind, wp_statement; [|done]. apply success_bind, success_gets.
  apply success_bind, success_guard. intros _. apply success_bind, success_modify, success_ret.
  rewrite size_rows. unfold rows_of. rewrite sum_map_filter.
  erewrite sum_map_ext; [exact HP|]. intros k v _. cbn. by destruct (cond v).
Qed.

Section policy.
Context `{TimeZone} (E : env) (now : Z) (policy : RetentionPolicy) (t0 : archive).

Let ago (days : Z) : Z := add_days now (- days).

Definition log_expired (l : RequestLog) : Prop :=
0 < SummaryDays policy ∧ rl_CompletedAt l < ago (SummaryDays policy).

(** A detail goes with its log, or before it. *)
Definition detail_expired (d : RequestLogDetail) : Prop :=
(0 < ErrorDetailDays policy ∧ rd_CreatedAt d < ago (ErrorDetailDays policy)) ∨
∃ l, ar_logs t0 !! rd_RequestLogID d = Some l ∧
  (log_expired l ∨
   0 < SuccessDetailDays policy ∧ rl_CompletedAt l < ago (SuccessDetailDays policy) ∧ failed_log l = false).

Definition reservation_gone (r : RequestReservation) : Prop :=
0 < ReservationDays policy ∧ 0 < IncompleteReservationDays policy ∧
reservation_expired (ago (ReservationDays policy)) (ago (IncompleteReservationDays policy)) r = true.

Definition observation_gone (o : StoredObservation) : Prop :=
0 < QuotaObservationDays policy ∧ so_CreatedAt o < ago (QuotaObservationDays policy).

Definition invitation_gone (i : Invitation) : Prop :=
0 < InvitationDays policy ∧ ∃ at_, invitation_expired (ago (InvitationDays policy)) at_ i = true.

(** A turn goes with its reservation. *)
Definition turn_gone (t : archive) (w : WebSocketTurn) : Prop :=
ar_reservations t !! wt_RequestID w = None ∧
∃ r, ar_reservations t0 !! wt_RequestID w = Some r ∧ reservation_gone r.

(** Every turn has its reservation. *)
Definition turns_owned (t : archive) : Prop :=
∀ k w, ar_turns t !! k = Some w → is_Some (ar_reservations t !! wt_RequestID w).

(** The archive [t] came out of [t0] as the policy allows. *)
Record retained (t : archive) : Prop := {
rt_ok : archive_ok t;
rt_usage : ∀ c P, c ∈ columns → usage c P t = usage c P t0;
rt_logs : thinned log_expired (ar_logs t0) (ar_logs t);
rt_details : thinned detail_expired (ar_details t0) (ar_details t);
rt_reservations : thinned reservation_gone (ar_reservations t0) (ar_reservations t);
rt_observations : thinned observation_gone (ar_observations t0) (ar_observations t);
rt_invitations : thinned invitation_gone (ar_invitations t0) (ar_invitations t);
rt_turns : thinned (turn_gone t) (ar_turns t0) (ar_turns t);
rt_owned : turns_owned t0 → turns_owned t
}.

(** [n] rows of work were done between [t] and [t']. *)
Definition done_work (t : archive) (n : Z) (t' : archive) : Prop :=
retained t' ∧ 0 ≤ n ∧ workload t' + n ≤ workload t.

Definition works {A} (rows : A → Z) (work : M archive A) : Prop :=
∀ t, retained t → wp Direct E work t (λ r t',
  match r with Ok a => done_work t (rows a) t' | Err _ => t' = t end).

Lemma nothing_done t : retained t → done_work t 0 t.
Proof. split; [done|lia]. Qed.

Lemma works_retentionTx {A} (rows : A → Z) (none : A) (work : M archive A) :
rows none = 0 → (∀ t, retained t → success E work t (λ a t', done_work t (rows a) t')) →
works rows (retentionTx none work).
Proof.
intros Hnone Hwork t Ht. unfold retentionTx. apply success_transaction, success_bind. intros n.
unfold try_advisory_lock, statement. destruct (env_fault E n) eqn:Hf.
- by right.
- right. destruct (bool_decide _); [by apply Hwork|]. apply success_ret. rewrite Hnone. by apply nothing_done.
Qed.

Lemma works_if {A} (rows : A → Z) (b : bool) (none : A) (work : M archive A) :
rows none = 0 → (b = false → works rows work) → works rows (if b then mret none else work).
Proof.
intros Hnone Hwork. destruct b; [|auto]. intros t Ht. apply wp_ret. rewrite Hnone. by apply nothing_done.
Qed.

(** A purge of one table whose rows count for themselves. *)
Lemma thinned_more {K V : Type} `{Countable K} (expired cond : V → Prop) (m0 m m' : gmap K V) :
thinned expired m0 m → thinned cond m m' → (∀ k v, m0 !! k = Some v → m !! k = Some v → cond v → expired v) →
thinned expired m0 m'.
Proof.
intros H0m Hm Hexp. apply (thinned_trans _ m0 m m'); [done|]. intros k.
destruct (Hm k) as [Hk|[Hk (v & Hv & Hc)]]; [by left|right]. split; [done|]. exists v. split; [done|].
apply (Hexp k); [|done..]. destruct (H0m k) as [Heq|[Hno _]]; congruence.
Qed.

(** The reservations that were selected are deleted, and their turns with them. *)
Lemma retained_reservations t (selected : list RequestReservation) :
retained t → 0 < ReservationDays policy → 0 < IncompleteReservationDays policy →
(∀ r, r ∈ selected → reservation_expired (ago (ReservationDays policy)) (ago (IncompleteReservationDays policy)) r = true ∧
   ∃ k, ar_reservations t !! k = Some r) →
let gone id := bool_decide (id ∈ (r_RequestID <$> selected)) in
retained (t <| ar_reservations := filter (λ kv, gone (r_RequestID kv.2) = false) (ar_reservations t);
  ar_turns := filter (λ kv, gone (wt_RequestID kv.2) = false) (ar_turns t) |>).
Proof.
intros [Hok Hu Hl Hdt Hr Ho Hinv Htu Hown] Hd Hi Hsel gone. pose proof (ok_reservations t Hok) as Hkey.
assert (Hgone : ∀ id, gone id = true → ∃ r, ar_reservations t !! id = Some r ∧ ar_reservations t0 !! id = Some r ∧ reservation_gone r).
{ intros id (r & -> & Hin)%bool_decide_eq_true%list_elem_of_fmap. destruct (Hsel r Hin) as [Hexp [k Hk]].
  pose proof (Hkey _ _ Hk) as Hid. cbn in Hid. subst k. exists r. split; [done|]. split; [|done].
  destruct (Hr (r_RequestID r)) as [Heq|[Hno _]]; congruence. }
assert (Hleft : ∀ id, gone id = true →
  filter (λ kv, gone (r_RequestID kv.2) = false) (ar_reservations t) !! id = None).
{ intros id Hid. apply map_lookup_filter_None. right. intros r Hrow. pose proof (Hkey _ _ Hrow) as Heq. cbn in Heq. cbn. subst. congruence. }
split; [|exact Hu|done..| |done|done| |].
- destruct Hok. split; try done. by apply keyed_filter.
- apply (thinned_more _ (λ r, gone (r_RequestID r) = true) _ _ _ Hr); [by apply (thinned_delete _ (λ r, gone (r_RequestID r)))|].
  intros k r _ Hk Hg. destruct (Hgone _ Hg) as (r' & Hr' & _ & Hexp). pose proof (Hkey _ _ Hk) as Heq. cbn in Heq. congruence.
- intros k. cbn [ar_turns]. destruct (Htu k) as [Heq|(Hno & w & Hw & Hres & Hex)].
  + rewrite <- Heq. destruct (ar_turns t !! k) as [w|] eqn:Hw.
    * destruct (gone (wt_RequestID w)) eqn:Hg; [right|left].
      -- split; [apply map_lookup_filter_None; right; intros w'; cbn; congruence|]. exists w. split; [done|].
         split; [by apply Hleft|]. destruct (Hgone _ Hg) as (r & _ & Hr0 & Hexp). by exists r.
      -- by apply map_lookup_filter_Some.
    * left. apply map_lookup_filter_None. by left.
  + right. split; [apply map_lookup_filter_None; by left|]. exists w. split; [done|]. split; [|done].
    apply map_lookup_filter_None. by left.
- intros H0 k w [Hw Hg]%map_lookup_filter_Some. destruct (Hown H0 k w Hw) as [r Hrow]. exists r.
  apply map_lookup_filter_Some. split; [done|]. pose proof (Hkey _ _ Hrow) as Heq. cbn in Heq, Hg |- *. by rewrite Heq.
Qed.

Lemma works_deleteReservations : works (λ n, n) (deleteReservations now policy).
Proof.
unfold deleteReservations. apply works_if; [done|]. intros [Hd%Z.leb_gt Hi%Z.leb_gt]%orb_false_iff.
apply works_retentionTx; [done|]. intros t Ht. apply success_bind, success_select_oldest. intros selected Hsel.
apply success_bind, success_delete_selected; [by destruct t|]. cbv zeta. cbn.
apply success_bind, success_cascade. cbn. apply success_ret.
pose proof (retained_reservations t selected Ht Hd Hi Hsel) as Hret. cbv zeta in Hret. split; [exact Hret|].
set (gone := λ r, bool_decide (r_RequestID r ∈ (r_RequestID <$> selected))).
destruct (deleted_rows (λ _, 1) gone (ar_reservations t) ltac:(done)) as [Hle Hpos]. cbv zeta in Hle, Hpos.
unfold workload, rows_of in *. cbn in *. unfold gone in *. lia.
Qed.

Lemma works_if_days (days : Z) (work : M archive Z) :
(0 < days → works (λ n, n) work) → works (λ n, n) (if_days days work).
Proof. intros Hwork. apply works_if; [done|]. intros Hd%Z.leb_gt. by apply Hwork. Qed.

Lemma works_deleteQuotaObservations batch :
0 < QuotaObservationDays policy →
works (λ n, n) (deleteQuotaObservations (ago (QuotaObservationDays policy)) batch).
Proof.
intros Hd. apply works_retentionTx; [done|]. intros t Ht.
eapply (success_purge observation_rows (po_ID ∘ so_Observation)) with (weight := λ _, 1);
  [apply Ht|lia|by left|by apply nothing_done|].
intros rest n Hkey Hthin Hn Hle. destruct Ht as [Hok Hu Hl Hdt Hr Ho Hinv Htu Hown]. split; [|cbn in *; unfold workload, rows_of; cbn; lia].
split; [by destruct Hok|exact Hu|done..| |done|done|done].
apply (thinned_more _ _ _ _ _ Ho Hthin). intros k o _ _ Hexp%Z.ltb_lt. by split.
Qed.

Lemma works_deleteInvitations batch :
0 < InvitationDays policy → works (λ n, n) (deleteInvitations (ago (InvitationDays policy)) batch).
Proof.
intros Hd. apply works_retentionTx; [done|]. intros t Ht. apply success_bind, success_now. intros at_.
eapply (success_purge invitation_rows i_ID) with (weight := λ _, 1); [apply Ht|lia|by left|by apply nothing_done|].
intros rest n Hkey Hthin Hn Hle. destruct Ht as [Hok Hu Hl Hdt Hr Ho Hinv Htu Hown]. split; [|cbn in *; unfold workload, rows_of; cbn; lia].
split; [by destruct Hok|exact Hu|done..| |done|done].
apply (thinned_more _ _ _ _ _ Hinv Hthin). intros k i _ _ Hexp. split; [done|]. by exists at_.
Qed.

(** Deleting details leaves everything else. *)
Lemma details_purged t rest n (cond : RequestLogDetail → bool) :
retained t → keyed rd_RequestLogID rest → thinned (λ d, cond d = true) (ar_details t) rest → 0 ≤ n →
sum_map (λ _, 1) rest + n ≤ sum_map (λ _, 1) (ar_details t) →
(∀ d, cond d = true → detail_expired d) → done_work t n (t <| ar_details := rest |>).
Proof.
intros [Hok Hu Hl Hdt Hr Ho Hinv Htu Hown] Hkey Hthin Hn Hle Hexp. split; [|cbn; unfold workload, rows_of; cbn; lia].
split; [by destruct Hok|exact Hu|done| |done..].
apply (thinned_more _ _ _ _ _ Hdt Hthin). intros k d _ _. apply Hexp.
Qed.

Lemma works_deleteOldDetails batch :
0 < ErrorDetailDays policy → works (λ n, n) (deleteOldDetails (ago (ErrorDetailDays policy)) batch).
Proof.
intros Hd. apply works_retentionTx; [done|]. intros t Ht.
eapply (success_purge detail_rows rd_RequestLogID) with (weight := λ _, 1);
  [apply Ht|lia|by right|by apply nothing_done|].
intros rest n Hkey Hthin Hn Hle. apply (details_purged _ _ _ _ Ht Hkey Hthin Hn Hle).
intros d Hexp%Z.ltb_lt. left. by split.
Qed.

Lemma failed_log_false l :
(0 <? rl_StatusCode l) = true → (rl_StatusCode l <? 400) = true → lt_ErrorCode (rl_Texts l) = "" → failed_log l = false.
Proof.
intros H0 H400 Herr. unfold failed_log. rewrite Herr, bool_decide_eq_true_2 by done.
apply Z.ltb_lt in H0, H400. by rewrite (proj2 (Z.eqb_neq _ _)), (proj2 (Z.leb_gt _ _)) by lia.
Qed.

Lemma works_deleteSuccessDetails : works (λ n, n) (deleteSuccessDetails (ago (SuccessDetailDays policy)) policy).
Proof.
apply works_if; [done|]. intros Hd%Z.leb_gt. apply works_retentionTx; [done|]. intros t Ht.
apply success_bind, success_gets.
eapply (success_purge detail_rows rd_RequestLogID) with (weight := λ _, 1);
  [apply Ht|lia|by right|by apply nothing_done|].
intros rest n Hkey Hthin Hn Hle. apply (details_purged _ _ _ _ Ht Hkey Hthin Hn Hle). intros d Hexp. cbn beta in Hexp.
destruct (ar_logs t !! rd_RequestLogID d) as [l|] eqn:Hl; [|done]. right. exists l.
apply andb_true_iff in Hexp as [[[Hc%Z.ltb_lt H0]%andb_true_iff H400]%andb_true_iff Herr%bool_decide_eq_true].
split; [|by right; auto using failed_log_false].
destruct (rt_logs t Ht (rd_RequestLogID d)) as [<-|[Hno _]]; [done|congruence].
Qed.

(** Deleting events leaves everything else. *)
Lemma works_deleteLifecycle : works (λ n, n) (deleteLifecycle now policy).
Proof.
apply works_if; [done|]. intros _. apply works_retentionTx; [done|]. intros t Ht. cbv zeta.
eapply (success_purge event_rows le_ID) with (weight := event_weight);
  [apply Ht|unfold event_weight; intros e; case_match; lia|by left|by apply nothing_done|].
intros rest n Hkey Hthin Hn Hle. destruct Ht as [Hok Hu Hl Hdt Hr Ho Hinv Htu Hown].
split; [|cbn in *; unfold workload; cbn; lia]. by split; [destruct Hok|..].
Qed.

Lemma scrubbed_light e : event_weight (scrubbed e) = 1.
Proof. unfold event_weight, has_payload. by cbn. Qed.

Lemma works_scrubLifecyclePayloads batch : works (λ n, n) (scrubLifecyclePayloads batch).
Proof.
apply works_retentionTx; [done|]. intros t Ht. apply success_bind, success_select_oldest.
intros selected Hsel. set (cond := λ e, bool_decide (le_ID e ∈ (le_ID <$> selected))).
apply (success_update_count event_rows E cond scrubbed). cbn.
assert (Hkey : keyed le_ID (ar_events t)) by apply Ht.
assert (Hpayload : ∀ k e, ar_events t !! k = Some e → cond e = true → has_payload e = true).
{ intros k e He Hin%bool_decide_eq_true. eapply selected_by_id in Hin; [|exact Hkey|by intros; apply Hsel|exact He].
  destruct (Hsel _ Hin) as [Hc _]. by apply andb_true_iff in Hc as [_ ?]. }
destruct Ht as [Hok Hu Hl Hdt Hr Ho Hinv Htu Hown]. split; [split; try done|].
- destruct Hok. split; try done. intros k e. cbn. rewrite lookup_fmap_Some. intros (e' & <- & He').
  specialize (Hkey k e' He'). by destruct (cond e').
- split; [apply sum_map_nonneg; intros k e _; by destruct (cond e)|]. unfold workload. cbn. rewrite sum_map_fmap.
  enough (sum_map (event_weight ∘ (λ e, if cond e then scrubbed e else e)) (ar_events t) +
          sum_map (λ e, if cond e then 1 else 0) (ar_events t) ≤ sum_map event_weight (ar_events t)) by (cbn in *; lia).
  rewrite <- sum_map_add. apply sum_map_le. intros k e He. cbn. destruct (cond e) eqn:Hc; [|lia].
  rewrite scrubbed_light. unfold event_weight. rewrite (Hpayload k e He Hc). lia.
Qed.

(** ** Compaction *)

(** The sum of some groups. *)
Definition groups_sum (c : Totals → Z) (P : Z * string * string → bool) (l : list ((Z * string * string) * Totals)) : Z :=
sum_by (λ kt, if P kt.1 then c kt.2 else 0) l.

Lemma groups_sum_cons c P kt l : groups_sum c P (kt :: l) = (if P kt.1 then c kt.2 else 0) + groups_sum c P l.
Proof. apply sum_by_cons. Qed.

(** The daily facts take up the groups. *)
Lemma success_roll_up l t (Q : list unit → archive → Prop) :
keyed rollup_key (ar_rollups t) →
(∀ m ys, keyed rollup_key m →
   (∀ c P, c ∈ columns → rolled c P (t <| ar_rollups := m |>) = rolled c P t + groups_sum c P l) →
   Q ys (t <| ar_rollups := m |>)) →
success E (for_each roll_up l) t Q.
Proof.
intros Hkey HQ. eapply success_mono; [apply (success_for_each E roll_up l (λ rest _ t', ∃ m,
  t' = t <| ar_rollups := m |> ∧ keyed rollup_key m ∧ ∀ c P, c ∈ columns →
    rolled c P t' + groups_sum c P rest = rolled c P t + groups_sum c P l) t)|].
- exists (ar_rollups t). split; [by destruct t|]. by split.
- intros [[[day tenant] model] sums] rest done' t' (m & -> & Hm & Hsum). unfold roll_up.
  apply success_bind, success_now. intros createdAt. apply success_bind, success_now. intros updatedAt.
  apply success_upsert. cbv zeta. cbn. intros _. set (key := (day, tenant, model)). eexists. split; [done|].
  setoid_rewrite groups_sum_cons in Hsum. unfold rolled in *. cbn [ar_rollups ud_Totals] in *.
  destruct (m !! key) as [old|] eqn:Hold.
  + pose proof (Hm _ _ Hold) as Hid. cbn in Hid. split; [by apply keyed_insert|]. intros c P Hc.
    specialize (Hsum c P Hc). rewrite (sum_map_replace _ _ _ _ _ Hold). cbn [fst snd] in Hsum.
    destruct (columns_additive c Hc) as [Hadd _]. rewrite Hid. unfold rollup_key at 2. cbn [ud_Day ud_TenantID ud_Model ud_Totals].
    injection Hid as -> -> ->. fold key in Hsum |- *. destruct (P key); rewrite ?Hadd; lia.
  + split; [by apply keyed_insert|]. intros c P Hc. specialize (Hsum c P Hc). cbn [fst snd] in Hsum.
    rewrite sum_map_insert by done. unfold rollup_key at 1. cbn [ud_Day ud_TenantID ud_Model ud_Totals].
    fold key in Hsum |- *. destruct (P key); lia.
- intros ys t' (m & -> & Hm & Hsum). apply HQ; [done|]. intros c P Hc. specialize (Hsum c P Hc). change (groups_sum c P []) with 0 in Hsum. lia.
Qed.

(** What leaves the logs is what the groups hold. *)
Lemma charged_sum c P (logs : gmap string RequestLog) (gone : RequestLog → bool) charged :
c ∈ columns → charged ≡ₚ filter (λ l, gone l && generation_log l = true) (map_to_list logs).*2 →
sum_map (λ l, if generation_log l && P (log_key l) then c (log_totals l) else 0) logs =
sum_map (λ l, if generation_log l && P (log_key l) then c (log_totals l) else 0)
  (filter (λ kv, gone kv.2 = false) logs) + groups_sum c P (map_to_list (grouped log_key log_totals charged)).
Proof.
intros Hc Hperm. rewrite (sum_map_split _ gone). f_equal. unfold groups_sum.
rewrite (grouped_sum (columns_additive c Hc)), Hperm, !sum_by_filter. apply sum_by_ext. intros l _.
by destruct (gone l), (generation_log l).
Qed.

(** A deletion of rows that count for themselves does not add work. *)
Lemma fewer_rows {K V : Type} `{Countable K} (weight : V → Z) (cond : V → bool) (m : gmap K V) :
(∀ v, 0 ≤ weight v) → sum_map weight (filter (λ kv, cond kv.2 = false) m) ≤ sum_map weight m.
Proof.
intros Hw. rewrite sum_map_filter. apply sum_map_le. intros k v _. specialize (Hw v). by destruct (Bool.eqb _ _).
Qed.

Lemma event_weight_nonneg e : 0 ≤ event_weight e.
Proof. unfold event_weight. case_match; lia. Qed.

(** The archive after a batch of logs was rolled up and deleted. *)
Definition compacted (ids : list string) (m : gmap (Z * string * string) UsageDailyRollup) (t : archive) : archive :=
{| ar_logs := filter (λ kv, bool_decide (rl_ID kv.2 ∈ ids) = false) (ar_logs t);
   ar_details := filter (λ kv, bool_decide (rd_RequestLogID kv.2 ∈ ids) = false) (ar_details t);
   ar_events := filter (λ kv, bool_decide (le_RequestLogID kv.2 ∈ ids) = false) (ar_events t);
   ar_rollups := m; ar_reservations := ar_reservations t; ar_turns := ar_turns t; ar_observations := ar_observations t;
   ar_invitations := ar_invitations t |}.

Lemma retained_compacted t selected charged m :
retained t → 0 < SummaryDays policy →
let ids := rl_ID <$> selected in
(∀ l, l ∈ selected → (rl_CompletedAt l <? ago (SummaryDays policy)) = true ∧ ∃ k, ar_logs t !! k = Some l) →
charged ≡ₚ filter (λ l, bool_decide (rl_ID l ∈ ids) && generation_log l = true) (map_to_list (ar_logs t)).*2 →
keyed rollup_key m →
(∀ c P, c ∈ columns → rolled c P (t <| ar_rollups := m |>) =
   rolled c P t + groups_sum c P (map_to_list (grouped log_key log_totals charged))) →
retained (compacted ids m t).
Proof.
intros [Hok Hu Hl Hdt Hr Ho Hinv Htu Hown] Hdays ids Hsel Hcharged Hm Hsum.
assert (Hlogs : ∀ id, id ∈ ids → ∃ l, ar_logs t !! id = Some l ∧ log_expired l).
{ intros id (l & -> & Hin)%list_elem_of_fmap. destruct (Hsel l Hin) as [Hc%Z.ltb_lt [k Hk]]. exists l.
  pose proof (ok_logs t Hok k l Hk) as Hid. cbn in Hid. subst k. by repeat split. }
split; try done.
- destruct Hok. by split; try done; apply keyed_filter.
- intros c P Hc. rewrite <- (Hu c P Hc). unfold usage. specialize (Hsum c P Hc). unfold live, rolled in *. cbn in *.
  rewrite Hsum, (charged_sum c P (ar_logs t) (λ l, bool_decide (rl_ID l ∈ ids)) charged Hc Hcharged). cbn. lia.
- apply (thinned_more _ (λ l, bool_decide (rl_ID l ∈ ids) = true) _ _ _ Hl); [set (gone := λ l, bool_decide (rl_ID l ∈ ids)); by apply (thinned_delete _ gone)|].
  intros k l _ Hk Hin%bool_decide_eq_true. destruct (Hlogs _ Hin) as (l' & Hl' & Hexp).
  pose proof (ok_logs t Hok k l Hk) as Hid. cbn in Hid. subst k. congruence.
- apply (thinned_more _ (λ d, bool_decide (rd_RequestLogID d ∈ ids) = true) _ _ _ Hdt);
    [set (gone := λ d, bool_decide (rd_RequestLogID d ∈ ids)); by apply (thinned_delete _ gone)|].
  intros k d _ Hk Hin%bool_decide_eq_true. destruct (Hlogs _ Hin) as (l & Hl' & Hexp). right. exists l.
  split; [|by left]. destruct (Hl (rd_RequestLogID d)) as [<-|[Hno _]]; [done|congruence].
Qed.

Lemma works_compactRequestLogs batch :
0 < SummaryDays policy → works fst (compactRequestLogs (ago (SummaryDays policy)) batch).
Proof.
intros Hdays. apply works_retentionTx; [done|]. intros t Ht. apply success_bind, success_select_oldest.
intros selected Hsel. cbv zeta. destruct (rl_ID <$> selected) as [|id rest] eqn:Hids; [by apply success_ret, nothing_done|].
rewrite <- Hids. clear id rest Hids. set (ids := rl_ID <$> selected).
apply success_bind, success_find. intros charged Hcharged. apply success_bind, success_guard. intros _.
apply success_bind. apply (wp_any_order InTx E). intros groups Hgroups.
apply success_bind, success_roll_up; [apply Ht|]. intros m ys Hm Hsum.
apply success_bind, success_delete_where. intros n1. apply success_bind, success_delete_where. intros n2.
apply success_bind, success_delete_count. cbn zeta. apply success_ret. cbn.
match goal with |- done_work _ _ ?t' => change t' with (compacted ids m t) end.
split; [apply (retained_compacted t selected charged m); try done; intros c P Hc; rewrite (Hsum c P Hc); unfold groups_sum; by rewrite Hgroups|].
destruct (deleted_rows (λ _, 1) (λ l, bool_decide (rl_ID l ∈ ids)) (ar_logs t)) as [Hle Hpos]; [lia|].
split; [exact Hpos|]. unfold workload, compacted. cbn.
pose proof (fewer_rows (λ _, 1) (λ d, bool_decide (rd_RequestLogID d ∈ ids)) (ar_details t) ltac:(lia)) as Hd.
pose proof (fewer_rows event_weight (λ e, bool_decide (le_RequestLogID e ∈ ids)) (ar_events t) event_weight_nonneg) as He.
unfold rows_of in *. cbn in *. lia.
Qed.

(** ** The job *)

Lemma works_counting work credit : works (λ n, n) work → works fst (counting work credit).
Proof.
intros Hwork t Ht. apply wp_bind. eapply wp_mono; [by apply Hwork|]. intros [n|e] t' Hdone; [by apply wp_ret|done].
Qed.

Lemma works_operations : Forall (works fst) (operations now policy).
Proof.
repeat apply list.Forall_cons_2; [..|by apply list.Forall_nil_2].
- apply works_counting, works_scrubLifecyclePayloads.
- apply works_counting, works_deleteSuccessDetails.
- apply works_counting, works_if_days, works_deleteOldDetails.
- apply works_counting, works_deleteLifecycle.
- apply works_counting, works_deleteReservations.
- apply works_if; [done|]. intros Hd%Z.leb_gt t Ht. apply wp_bind. eapply wp_mono; [by apply works_compactRequestLogs|].
  intros [[deleted rolled_up]|e] t' Hdone; [by apply wp_ret|done].
- apply works_counting, works_if_days, works_deleteQuotaObservations.
- apply works_counting, works_if_days, works_deleteInvitations.
Qed.

Lemma wp_round deadline ops : Forall (works fst) ops → ∀ progress stats t, retained t →
wp Direct E (round deadline ops progress stats) t (λ r t', retained t' ∧ workload t' ≤ workload t ∧
  match r with Ok (p, _) => progress ≤ p ∧ workload t' + (p - progress) ≤ workload t | Err _ => True end).
Proof.
induction 1 as [|op ops Hop _ IH]; intros progress stats t Ht; cbn [round]; [apply wp_ret; split_and!; done || lia|].
apply wp_bind, wp_now. intros at_. destruct (deadline <? at_); [apply wp_ret; split_and!; done || lia|].
apply wp_bind. eapply wp_mono; [by apply Hop|]. intros [[n credit]|e] t1; [|intros ->; split_and!; done || lia].
intros (Ht1 & Hn & Hle). cbn in Hn, Hle. eapply wp_mono; [by apply IH|]. intros [[p stats']|e] t2 (Ht2 & Hw & Hp).
- split_and!; [done|lia..].
- split_and!; [done|lia|done].
Qed.

Lemma wp_rounds fuel deadline : ∀ stats t, retained t →
wp Direct E (rounds fuel deadline (operations now policy) stats) t (λ r t', retained t' ∧
  (workload t < Z.of_nat fuel → r ≠ Ok None)).
Proof.
induction fuel as [|fuel IH]; intros stats t Ht; cbn [rounds].
- apply wp_ret. split; [done|]. intros Hw. exfalso. enough (0 ≤ workload t) by lia. unfold workload, rows_of.
  assert (∀ (V : Type) (m : gmap string V), 0 ≤ sum_map (λ _, 1) m) as Hpos by (intros; by apply sum_map_nonneg).
  pose proof (sum_map_nonneg event_weight (ar_events t) ltac:(intros; apply event_weight_nonneg)).
  pose proof (Hpos _ (ar_logs t)). pose proof (Hpos _ (ar_details t)). pose proof (Hpos _ (ar_reservations t)).
  pose proof (Hpos _ (ar_observations t)). pose proof (Hpos _ (ar_invitations t)). lia.
- apply wp_bind, wp_now. intros at_. destruct (at_ <? deadline); [|by apply wp_ret].
  apply wp_bind. eapply wp_mono; [by apply wp_round, Ht; apply works_operations|].
  intros [[p stats']|e] t1 (Ht1 & Hw & Hp); [|done]. destruct (Z.eqb_spec p 0); [by apply wp_ret|].
  eapply wp_mono; [by apply IH|]. intros r t2 [Ht2 Hend]. split; [done|]. intros Hfuel. apply Hend. lia.
Qed.
End policy.

Lemma retained_self `{TimeZone} now policy t : archive_ok t → retained now policy t t.
Proof. intros Hok. by split. Qed.

Lemma wp_RunRetention `{TimeZone} E fuel now policy t : archive_ok t →
  wp Direct E (RunRetention fuel now policy) t (λ r t', retained now policy t t' ∧
    (workload t < Z.of_nat fuel → r ≠ Ok None)).
Proof.
  intros Hok. apply wp_bind, wp_now. intros started.
  eapply wp_mono; [by apply (wp_rounds E now (with_defaults policy) t fuel), retained_self|].
  intros r t' [[] Hend]. split; [by split|done].
Qed.

(** C13: Retention changes no sum.  Whatever a run of it does, and wherever it is interrupted,
    requests, errors, tokens of every kind, cost and who paid it add up to the same over the
    logs that remain and the daily facts, for every set of days, tenants and models. *)
Theorem retention_changes_no_sum `{TimeZone} E fuel now policy t n r t' k c P :
  archive_ok t → RunRetention fuel now policy E t n = (r, t', k) → c ∈ columns → usage c P t' = usage c P t.
Proof.
  intros Hok Hrun Hc.
  destruct (wp_direct _ _ _ _ _ _ _ _ (wp_RunRetention E fuel now policy t Hok) Hrun) as [Hret _].
  by apply (rt_usage _ _ _ _ Hret).
Qed.

(** C14: Retention deletes only what has expired.  After a run every log, detail, reservation,
    observation and invitation is as it was or is gone, and what is gone had expired by the
    policy: a log by its completion; a detail with its log, or by its own age, or, if the request
    succeeded, earlier; a reservation that is no longer active by its settlement; an invitation
    that is used, revoked or expired by its creation.  A WebSocket turn goes exactly with its
    reservation, and if every turn had one before, every turn has one after.  A period of zero
    keeps everything. *)
Theorem retention_deletes_what_has_expired `{TimeZone} E fuel now policy t n r t' k :
  archive_ok t → RunRetention fuel now policy E t n = (r, t', k) →
  thinned (log_expired now policy) (ar_logs t) (ar_logs t') ∧
  thinned (detail_expired now policy t) (ar_details t) (ar_details t') ∧
  thinned (reservation_gone now policy) (ar_reservations t) (ar_reservations t') ∧
  thinned (observation_gone now policy) (ar_observations t) (ar_observations t') ∧
  thinned (invitation_gone now policy) (ar_invitations t) (ar_invitations t') ∧
  thinned (turn_gone now policy t t') (ar_turns t) (ar_turns t') ∧ (turns_owned t → turns_owned t') ∧ archive_ok t'.
Proof.
  intros Hok Hrun.
  destruct (wp_direct _ _ _ _ _ _ _ _ (wp_RunRetention E fuel now policy t Hok) Hrun) as [[] _]. by split_and!.
Qed.

(** C36: Retention ends.  The loop of a run stops after at most one round more than there are
    rows to delete and payloads to clear, even if the clock never reaches the deadline. *)
Theorem retention_ends `{TimeZone} E fuel now policy t n :
  archive_ok t → workload t < Z.of_nat fuel → (RunRetention fuel now policy E t n).1.1 ≠ Ok None.
Proof.
  intros Hok Hfuel. destruct (RunRetention fuel now policy E t n) as [[r t'] k] eqn:Hrun.
  destruct (wp_direct _ _ _ _ _ _ _ _ (wp_RunRetention E fuel now policy t Hok) Hrun) as [_ Hend]. by apply Hend.
Qed.

(** ** The deletion of a tenant *)

(** The rows of [m'] are those of [m] that are not [whose]. *)
Definition others_rows {K V : Type} `{Countable K} (whose : V → Prop) (m m' : gmap K V) : Prop :=
  ∀ k v, m' !! k = Some v ↔ m !! k = Some v ∧ ¬ whose v.

Lemma others_rows_filter {K V : Type} `{Countable K} (whose : V → Prop) (m : gmap K V) (Q : K * V → Prop)
    `{∀ kv, Decision (Q kv)} :
  (∀ k v, Q (k, v) ↔ ¬ whose v) → others_rows whose m (filter Q m).
Proof. intros HQ k v. rewrite map_lookup_filter_Some. by rewrite HQ. Qed.

(** When a tenant is deleted its daily facts and the lifecycle events of its requests go, with its
    logs, details, reservations and turns, and nothing of anybody else. *)
Theorem deleted_tenants_leave_no_facts E id t :
  success E (delete_archived id) t (λ _ t',
    let log_of logID := ∃ l, ar_logs t !! logID = Some l ∧ rl_TenantID l = id in
    let request_of requestID := ∃ r, ar_reservations t !! requestID = Some r ∧ r_TenantID r = id in
    others_rows (λ r, ud_TenantID r = id) (ar_rollups t) (ar_rollups t') ∧
    others_rows (λ e, log_of (le_RequestLogID e)) (ar_events t) (ar_events t') ∧
    others_rows (λ d, log_of (rd_RequestLogID d)) (ar_details t) (ar_details t') ∧
    others_rows (λ l, rl_TenantID l = id) (ar_logs t) (ar_logs t') ∧
    others_rows (λ r, r_TenantID r = id) (ar_reservations t) (ar_reservations t') ∧
    others_rows (λ w, request_of (wt_RequestID w)) (ar_turns t) (ar_turns t') ∧
    ar_observations t' = ar_observations t ∧ ar_invitations t' = ar_invitations t).
Proof.
  assert (Hfound : ∀ {V} (owner : V → string) (m : gmap string V) k,
    is_Some (filter (λ kv : string * V, owner kv.2 = id) m !! k) ↔ ∃ v, m !! k = Some v ∧ owner v = id).
  { intros V owner m k. split.
    - intros [v [Hv Ho]%map_lookup_filter_Some]. by exists v.
    - intros (v & Hv & Ho). exists v. by apply map_lookup_filter_Some. }
  apply success_bind, success_gets. apply success_bind, success_gets.
  do 3 (apply success_bind, success_delete_where; intros _; cbn). apply success_bind, success_cascade. cbn.
  do 2 (apply success_bind, success_delete_where; intros _; cbn). apply success_ret. cbn.
  split_and!; try done; apply others_rows_filter; intros k v; cbn [fst snd];
    rewrite bool_decide_eq_false, ?Hfound; reflexivity.
Qed.
