(* ===== verification/RetentionSample.v ===== *)
(** * A concrete archive

    A turn of 40 nano-dollars and its settled request of 70 are a hundred
    days old when retention runs. *)

From S2P Require Import Prelude.
From S2P Require Import Float64.
From S2P Require Import Cost.
From S2P Require Import Database.
From S2P Require Import Schema.
From S2P Require Import RequestLogs.
From S2P Require Import Reservation.
From S2P Require Import Settlement.
From S2P Require Import Sample.
From S2P Require Import Machine.
From S2P Require Import Effects.
From S2P Require Import Retention.
From S2P Require Import RetentionGuarantees.

Definition settled_store : tables := (SettleRequestWithLog "req" (paid 70 10 second) later funded_store 0%nat).1.2.

Definition leftover : UpstreamLifecycleEvent :=
  Build_UpstreamLifecycleEvent "event" "req" 200 "succeeded" "{}" "{}" "body" "" "" "" true second (Some second).

Definition old_archive : archive :=
  {| ar_logs := tb_request_logs settled_store; ar_details := ∅;
     ar_events := <["event" := leftover]> (∅ : gmap string UpstreamLifecycleEvent); ar_rollups := ∅;
     ar_reservations := tb_reservations settled_store; ar_turns := tb_turns settled_store; ar_observations := ∅; ar_invitations := ∅ |}.

Definition monthly : RetentionPolicy :=
  Build_RetentionPolicy 30 14 14 24 14 14 30 30 30 0 (3600 * second).

Definition swept : result (option RetentionStats) * archive * nat :=
  RunRetention 20 (100 * day_ns) monthly calm old_archive 0%nat.
#[local] Strategy expand [swept].

Lemma old_archive_ok : archive_ok old_archive.
Proof. split; apply map_Forall_to_list; vm_dec. Qed.

Lemma retention_changes_no_sum_witness :
  usage tt_CostNanoUSD (λ _, true) swept.1.2 = 110 ∧ ar_logs swept.1.2 = ∅.
Proof.
  split; [|by vm_compute]. assert (usage tt_CostNanoUSD (λ _, true) old_archive = 110) as <- by by vm_compute.
  destruct swept as [[r t'] k] eqn:Hrun.
  apply (retention_changes_no_sum calm 20 (100 * day_ns) monthly old_archive 0%nat r t' k); [apply old_archive_ok|exact Hrun|].
  apply list_elem_of_lookup. by exists 11%nat.
Defined.

Lemma retention_deletes_what_has_expired_witness :
  (∃ l, tb_request_logs settled_store !! "req" = Some l ∧ log_expired (100 * day_ns) monthly l) ∧
  archive_ok swept.1.2.
Proof.
  assert (ar_logs swept.1.2 !! "req" = None) as Hgone by by vm_compute.
  destruct swept as [[r t'] k] eqn:Hrun.
  destruct (retention_deletes_what_has_expired calm 20 (100 * day_ns) monthly old_archive 0%nat r t' k old_archive_ok Hrun)
    as (Hlogs & _ & _ & _ & _ & _ & _ & Hok). split; [|exact Hok].
  destruct (Hlogs "req") as [Heq|[_ Hex]]; [|exact Hex]. exfalso.
  assert (is_Some (ar_logs old_archive !! "req")) as [l Hl] by vm_dec. cbn [fst snd] in Hgone. congruence.
Defined.

Lemma retention_ends_witness : swept.1.1 ≠ Ok None.
Proof. unfold swept. apply (retention_ends calm 20 (100 * day_ns) monthly old_archive 0%nat); [apply old_archive_ok|vm_dec]. Defined.
