(* ===== verification/Statistics.v ===== *)
(** * Reports (internal/store/store.go, heatmap.go, internal/heatmap/heatmap.go)

    A report adds the charged logs of a period to the daily facts that retention
    made of older ones.  [UsageReport] and [Dashboard] read them in separate
    statements, [TokenHeatmap] in one. *)

From S2P Require Import Prelude.
From S2P Require Import Float64.
From S2P Require Import Cost.
From S2P Require Import Database.
From S2P Require Import Schema.
From S2P Require Import RequestLogs.
From S2P Require Import Retention.

(** How the driver turns an instant into a date where a [date] column is compared with
    it, and on which day PostgreSQL prints an instant in the zone of the session. *)
Class Session := { date_param : Z → Z; session_day : Z → Z }.

(** [time.Date(y, m, d, 0, 0, 0, 0, loc)] of the local day of an instant. *)
Definition local_midnight `{TimeZone} (t : Z) : Z :=
  let wall := localCalendarDate t * day_ns in
  let offset := tz_offset wall in
  if offset =? 0 then wall else wall - tz_offset (wall - offset).

(** Sums in Go wrap. *)
Definition totals_wrap (t : Totals) : Totals :=
  let u := tt_Usage t in
  {| tt_Requests := wrap64 (tt_Requests t); tt_Errors := wrap64 (tt_Errors t);
     tt_Usage := {| u_Prompt := wrap64 (u_Prompt u); u_Completion := wrap64 (u_Completion u);
       u_Cached := wrap64 (u_Cached u); u_CacheWrite := wrap64 (u_CacheWrite u);
       u_Reasoning := wrap64 (u_Reasoning u); u_Total := wrap64 (u_Total u);
       u_ImageInput := wrap64 (u_ImageInput u); u_CachedImageInput := wrap64 (u_CachedImageInput u);
       u_ImageOutput := wrap64 (u_ImageOutput u) |};
     tt_CostNanoUSD := wrap64 (tt_CostNanoUSD t);
     tt_SubscriptionCoveredNanoUSD := wrap64 (tt_SubscriptionCoveredNanoUSD t);
     tt_BalanceChargedNanoUSD := wrap64 (tt_BalanceChargedNanoUSD t) |}.

Definition fits (selected : list (Totals → Z)) (t : Totals) : bool :=
  forallb (λ column, (min_int64 <=? column t) && (column t <=? max_int64)) selected.

(** The columns that the sections of a report select. *)
Definition tokens_of (t : Totals) : Z := u_Total (tt_Usage t).
Definition daily_columns : list (Totals → Z) :=
  [tt_Requests; tt_Errors; tokens_of; (λ t, u_Prompt (tt_Usage t)); (λ t, u_Completion (tt_Usage t));
   (λ t, u_Cached (tt_Usage t)); tt_CostNanoUSD].
Definition user_columns : list (Totals → Z) := [tt_Requests; tt_Errors; tokens_of; tt_CostNanoUSD].
Definition dashboard_columns : list (Totals → Z) := [tt_Requests; tokens_of; tt_CostNanoUSD].

Section reports.
Context `{TimeZone} `{Session}.

(** [tenantID]: all tenants if it is empty. *)
Definition of_tenant (tenantID id : string) : bool := bool_decide (tenantID = "") || bool_decide (id = tenantID).

(** The driver refuses a sum that does not fit into an int64. *)
Definition scanned {K} `{Countable K} (selected : list (Totals → Z)) (groups : gmap K Totals) : M archive (gmap K Totals) :=
guard_that (forallb (λ kt, fits selected kt.2) (map_to_list groups)) (ErrMessage "sql: Scan error: value out of range");;
mret groups.

(** [SELECT key, sum(...) FROM request_logs ... GROUP BY key]. *)
Definition live_by {K} `{Countable K} (key : RequestLog → K) (selected : list (Totals → Z)) (tenantID : string) (since : Z)
  : M archive (gmap K Totals) :=
rows ← find request_log_rows (λ l, generation_log l && (since <=? rl_StartedAt l) && of_tenant tenantID (rl_TenantID l));
scanned selected (grouped key log_totals rows).

(** [SELECT key, sum(...) FROM usage_daily_rollups ... GROUP BY key]. *)
Definition rolled_by {K} `{Countable K} (key : UsageDailyRollup → K) (selected : list (Totals → Z)) (tenantID : string) (since : Z)
  : M archive (gmap K Totals) :=
rows ← find rollup_rows (λ r, (date_param since <=? ud_Day r) && of_tenant tenantID (ud_TenantID r));
scanned selected (grouped key ud_Totals rows).

(** The maps [dailyByDate], [modelsByName] and [usersByID]. *)
Definition merged {K} `{Countable K} (live rolled : gmap K Totals) : gmap K Totals :=
union_with (λ a b, Some (totals_wrap (totals_add a b))) live rolled.

(** The sums of the whole period, in two statements outside a transaction: whatever another
    connection does [between] them is seen by the second only. *)
(* src/internal/store/store.go:1271-1315 UsageReport *)
Definition report_summary_around {A} (between : M archive A) (tenantID : string) (since : Z) : M archive Totals :=
live ← live_by (λ _, ()) columns tenantID since;
attempt between;;
rolled ← rolled_by (λ _, ()) columns tenantID since;
mret (totals_wrap (totals_add (default totals_zero (live !! ())) (default totals_zero (rolled !! ())))).

(* src/internal/store/store.go:1251-1315 UsageReport *)
Definition report_summary : string → Z → M archive Totals := report_summary_around (mret ()).

Definition by_date (a b : Z * Totals) : Prop := a.1 ≤ b.1.
#[export] Instance by_date_dec a b : Decision (by_date a b).
Proof. unfold by_date. apply _. Defined.

(* src/internal/store/store.go:1316-1372 UsageReport *)
Definition report_daily (tenantID : string) (since : Z) : M archive (list (Z * Totals)) :=
live ← live_by (λ l, session_day (rl_StartedAt l)) daily_columns tenantID since;
rolled ← rolled_by ud_Day daily_columns tenantID since;
items ← any_order (map_to_list (merged live rolled));
mret (merge_sort by_date items).

(** The groups with the most tokens come first. *)
Definition by_tokens {K} (a b : K * Totals) : Prop := tokens_of b.2 ≤ tokens_of a.2.
#[export] Instance by_tokens_dec {K} (a b : K * Totals) : Decision (by_tokens a b).
Proof. unfold by_tokens. apply _. Defined.

(* src/internal/store/store.go:1373-1428 UsageReport *)
Definition report_models (tenantID : string) (since : Z) : M archive (list (string * Totals)) :=
live ← live_by rl_Model daily_columns tenantID since;
rolled ← rolled_by ud_Model daily_columns tenantID since;
items ← any_order (map_to_list (merged live rolled));
mret (merge_sort by_tokens items).

(** Keys are reported from the logs alone. *)
Definition api_key_of (l : RequestLog) : string * string * string * string :=
(rl_APIKeyID l, lt_APIKeyName (rl_Texts l), lt_APIKeyPrefix (rl_Texts l), lt_TenantName (rl_Texts l)).

Definition by_tokens_requests {K} (a b : K * Totals) : Prop :=
tokens_of b.2 < tokens_of a.2 ∨ tokens_of b.2 = tokens_of a.2 ∧ tt_Requests b.2 ≤ tt_Requests a.2.
#[export] Instance by_tokens_requests_dec {K} (a b : K * Totals) : Decision (by_tokens_requests a b).
Proof. unfold by_tokens_requests. apply _. Defined.

(* src/internal/store/store.go:1429-1452 UsageReport *)
Definition report_api_keys (tenantID : string) (since : Z) : M archive (list ((string * string * string * string) * Totals)) :=
live ← live_by api_key_of user_columns tenantID since;
items ← any_order (map_to_list live);
mret (merge_sort by_tokens_requests items).

(** Users by their identifier; their names are not modelled. *)
(* src/internal/store/store.go:1453-1499 UsageReport *)
Definition report_users (tenantID : string) (since : Z) : M archive (list (string * Totals)) :=
if bool_decide (tenantID = "") then
  live ← live_by rl_TenantID user_columns "" since;
  rolled ← rolled_by ud_TenantID user_columns "" since;
  items ← any_order (map_to_list (merged live rolled));
  mret (merge_sort by_tokens items)
else mret [].

Record usage_report := {
  ur_period_start : Z;
  ur_days : Z;
  ur_summary : Totals;
  ur_daily : list (Z * Totals);
  ur_models : list (string * Totals);
  ur_api_keys : list ((string * string * string * string) * Totals);
  ur_users : list (string * Totals)
}.

(* src/internal/store/store.go:1246-1247 UsageReport *)
Definition report_days (days : Z) : Z := if (days <? 1) || (365 <? days) then 30 else days.
(* src/internal/store/store.go:1249-1250 UsageReport *)
Definition period_start (now days : Z) : Z := local_midnight (add_days now (1 - days)).

(* src/internal/store/store.go:1500-1509 UsageReport *)
Definition report_since (tenantID : string) (since days : Z) : M archive usage_report :=
summary ← report_summary tenantID since;
daily ← report_daily tenantID since;
models ← report_models tenantID since;
keys ← report_api_keys tenantID since;
users ← report_users tenantID since;
mret {| ur_period_start := since; ur_days := days; ur_summary := summary; ur_daily := daily; ur_models := models;
        ur_api_keys := keys; ur_users := users |}.

(* src/internal/store/store.go:1245-1250 UsageReport *)
Definition UsageReport (tenantID : string) (days : Z) : M archive usage_report :=
let days := report_days days in
now ← time_now;
report_since tenantID (period_start now days) days.

(** The last thirty days to the instant, of one tenant. *)
(* src/internal/store/store.go:936-961 Dashboard *)
Definition Dashboard (tenantID : string) : M archive Totals :=
now ← time_now;
let since := add_days now (-30) in
live ← live_by (λ _, ()) dashboard_columns tenantID since;
rolled ← rolled_by (λ _, ()) dashboard_columns tenantID since;
mret (totals_wrap (totals_add (default totals_zero (live !! ())) (default totals_zero (rolled !! ())))).
End reports.
