(* ===== verification/Heatmap.v ===== *)
(** * The token heatmap (internal/heatmap/heatmap.go, internal/store/heatmap.go)

    A year of daily tokens: read in one statement from logs and daily facts,
    then coloured by the favourite model of each day and graded by quartiles.
    Days are numbers; the code writes them as dates, in the same order. *)

From S2P Require Import Prelude.
From S2P Require Import Float64.
From S2P Require Import Cost.
From S2P Require Import Database.
From S2P Require Import Schema.
From S2P Require Import RequestLogs.
From S2P Require Import Retention.

(* src/internal/heatmap/heatmap.go:9-13 Usage *)
Record HeatUsage := { hu_Day : Z; hu_Model : string; hu_Tokens : Z }.

(* src/internal/heatmap/heatmap.go:15-21 Day *)
Record HeatDay := { hd_Date : Z; hd_Tokens : Z; hd_Model : string; hd_Level : Z; hd_Color : string }.
#[export] Instance HeatDay_eta : Eta HeatDay := λ r,
  Build_HeatDay (hd_Date r) (hd_Tokens r) (hd_Model r) (hd_Level r) (hd_Color r).

(* src/internal/heatmap/heatmap.go:23-27 Model *)
Record HeatModel := { hm_Name : string; hm_Tokens : Z; hm_Color : string }.

(* src/internal/heatmap/heatmap.go:29-38 Report *)
Record HeatReport := {
  hp_Start : Z;
  hp_End : Z;
  hp_TotalTokens : Z;
  hp_ActiveDays : Z;
  hp_PeakTokens : Z;
  hp_Days : list HeatDay;
  hp_Models : list HeatModel
}.

(* src/internal/heatmap/heatmap.go:42-44 palette *)
Definition palette : list string := ["#1b9e77"; "#d95f02"; "#7570b3"; "#e7298a"; "#66a61e"; "#a6761d"].
Definition OtherColor : string := "#80858f".

(** The first day, and the day after the last. *)
(* src/internal/heatmap/heatmap.go:46-51 Window *)
Definition Window (now : Z) : Z * Z :=
  let end_ := now / day_ns + 1 in
  (end_ - 365, end_).

(** ** The sums of a day and of a model *)

Definition counted_row (start end_ : Z) (row : HeatUsage) : bool :=
  (start <=? hu_Day row) && (hu_Day row <? end_) && (0 <? hu_Tokens row).

Definition known_model (model : string) : string := if bool_decide (model = "") then "Unknown" else model.

Definition bump (key : string) (tokens : Z) (m : gmap string Z) : gmap string Z :=
  <[key := default 0 (m !! key) +₆₄ tokens]> m.

(* src/internal/heatmap/heatmap.go:56-69 Build *)
Definition by_model (start end_ : Z) (rows : list HeatUsage) : gmap string Z :=
  foldl (λ m row, if counted_row start end_ row then bump (known_model (hu_Model row)) (hu_Tokens row) m else m) ∅ rows.

(* src/internal/heatmap/heatmap.go:55-68 Build *)
Definition by_day (start end_ : Z) (rows : list HeatUsage) : gmap Z (gmap string Z) :=
  foldl (λ m row,
    if counted_row start end_ row
    then <[hu_Day row := bump (known_model (hu_Model row)) (hu_Tokens row) (default ∅ (m !! hu_Day row))]> m
    else m) ∅ rows.

(** ** The legend *)

(** Most tokens first, then by name. *)
(* src/internal/heatmap/heatmap.go:73-78 Build *)
Definition heavier (a b : string * Z) : Prop := b.2 < a.2 ∨ a.2 = b.2 ∧ String.leb a.1 b.1 = true.
#[export] Instance heavier_dec a b : Decision (heavier a b).
Proof. unfold heavier. apply _. Defined.

Definition ranked (models : gmap string Z) : list (string * Z) := merge_sort heavier (map_to_list models).

Definition rank_color (i : nat) : string := default OtherColor (palette !! i).

(* src/internal/heatmap/heatmap.go:79-93 Build *)
Definition legend (models : list (string * Z)) : list HeatModel :=
  let coloured := imap (λ i m, Build_HeatModel m.1 m.2 (rank_color i)) models in
  let n := length palette in
  if bool_decide (n < length models)%nat
  then take n coloured ++
       [Build_HeatModel "Other models" (foldl (λ acc m, acc +₆₄ m.2) 0 (drop n models)) OtherColor]
  else coloured.

(* src/internal/heatmap/heatmap.go:79-89 Build *)
Definition color_of (models : list (string * Z)) (name : string) : string :=
  match list_find (λ m, m.1 = name) models with
  | Some (i, _) => rank_color i
  | None => ""
  end.

(** ** The days *)

(** The favourite of a day: the most tokens, the smaller name if two have as many. *)
(* src/internal/heatmap/heatmap.go:97-104 Build *)
Definition favour (d : HeatDay) (favorite : Z) (m : string * Z) : HeatDay * Z :=
  let d := d <| hd_Tokens := hd_Tokens d +₆₄ m.2 |> in
  if (favorite <? m.2) || ((m.2 =? favorite) && String.ltb m.1 (hd_Model d))
  then (d <| hd_Model := m.1 |>, m.2) else (d, favorite).

(* src/internal/heatmap/heatmap.go:95-109 Build *)
Definition heat_day (models : list (string * Z)) (date : Z) (entries : gmap string Z) : HeatDay :=
  let d := (foldl (λ df m, favour df.1 df.2 m) (Build_HeatDay date 0 "" 0 "", 0) (map_to_list entries)).1 in
  if 0 <? hd_Tokens d then d <| hd_Color := color_of models (hd_Model d) |> else d.

(** The grade of a day among the days that have tokens. *)
(* src/internal/heatmap/heatmap.go:117-128 Build *)
Definition level (nonzero : list Z) (tokens : Z) : Z :=
  if tokens =? 0 then 0
  else foldl (λ level q,
    match nonzero !! ((length nonzero - 1) * q / 4)%nat with
    | Some bound => if bound <=? tokens then level + 1 else level
    | None => level
    end) 1 [1; 2; 3]%nat.

Definition seqZ_days (start end_ : Z) : list Z := seqZ start (end_ - start).

(* src/internal/heatmap/heatmap.go:53-130 Build *)
Definition Build (now : Z) (rows : list HeatUsage) : HeatReport :=
  let '(start, end_) := Window now in
  let models := ranked (by_model start end_ rows) in
  let entries := by_day start end_ rows in
  let days := (λ date, heat_day models date (default ∅ (entries !! date))) <$> seqZ_days start end_ in
  let active := filter (λ tokens, 0 < tokens) (hd_Tokens <$> days) in
  let nonzero := merge_sort Z.le active in
  {| hp_Start := start; hp_End := end_ - 1;
     hp_TotalTokens := foldl add64 0 (hd_Tokens <$> days);
     hp_ActiveDays := Z.of_nat (length active);
     hp_PeakTokens := foldl Z.max 0 (hd_Tokens <$> days);
     hp_Days := (λ d, d <| hd_Level := level nonzero (hd_Tokens d) |>) <$> days;
     hp_Models := legend models |}.

(** ** The statement *)

(** The rows of logs and daily facts under their day and model, tokens below zero as zero. *)
(* src/internal/store/heatmap.go:66-76 TokenHeatmap *)
Definition heat_sources (tenantID : string) (start end_ : Z) (t : archive) : list ((Z * string) * Z) :=
  let logs := filter (λ l, generation_log l && bool_decide (rl_TenantID l = tenantID) &&
                           (start * day_ns <=? rl_StartedAt l) && (rl_StartedAt l <? end_ * day_ns) = true)
                (map_to_list (ar_logs t)).*2 in
  let facts := filter (λ r, bool_decide (ud_TenantID r = tenantID) &&
                            (start <=? ud_Day r) && (ud_Day r <? end_) = true)
                 (map_to_list (ar_rollups t)).*2 in
  ((λ l, ((rl_StartedAt l / day_ns, rl_Model l), Z.max (u_Total (rl_Usage l)) 0)) <$> logs) ++
  ((λ r, ((ud_Day r, ud_Model r), Z.max (u_Total (tt_Usage (ud_Totals r))) 0)) <$> facts).

(** [SUM ... GROUP BY]. *)
Definition summed {K} `{Countable K} (l : list (K * Z)) : gmap K Z :=
  foldr (λ kv m, <[kv.1 := kv.2 + default 0 (m !! kv.1)]> m) ∅ l.

Definition day_then_model (a b : (Z * string) * Z) : Prop :=
  a.1.1 < b.1.1 ∨ a.1.1 = b.1.1 ∧ String.leb a.1.2 b.1.2 = true.
#[export] Instance day_then_model_dec a b : Decision (day_then_model a b).
Proof. unfold day_then_model. apply _. Defined.

(* src/internal/store/heatmap.go:59-80 TokenHeatmap *)
Definition TokenHeatmap (tenantID : string) (now : Z) : M archive HeatReport :=
  let '(start, end_) := Window now in
  statement;;
  groups ← gets (λ t, summed (heat_sources tenantID start end_ t));
  guard_that (forallb (λ kv, kv.2 <=? max_int64) (map_to_list groups)) (ErrMessage "sql: Scan error: value out of range");;
  let rows := merge_sort day_then_model (map_to_list groups) in
  mret (Build now ((λ kv, Build_HeatUsage kv.1.1 kv.1.2 kv.2) <$> rows)).
