(* ===== verification/HeatmapGuarantees.v ===== *)
(** * What the heatmap shows

    It adds up and grades every day; and because logs and daily facts are read
    in one statement, retention does not change it. *)

From S2P Require Import Prelude.
From S2P Require Import Float64.
From S2P Require Import Cost.
From S2P Require Import Database.
From S2P Require Import Schema.
From S2P Require Import RequestLogs.
From S2P Require Import Machine.
From S2P Require Import Retention.
From S2P Require Import RetentionGuarantees.
From S2P Require Import Heatmap.

(** ** Sums under a key *)

Definition sum_at {K} `{Countable K} (k : K) (l : list (K * Z)) : Z :=
  sum_by (λ kv, if bool_decide (kv.1 = k) then kv.2 else 0) l.

Lemma summed_lookup {K} `{Countable K} (k : K) (l : list (K * Z)) : default 0 (summed l !! k) = sum_at k l.
Proof.
  unfold sum_at. induction l as [|[k' v] l IH]; [done|]. rewrite sum_by_cons, <- IH.
  cbn [summed foldr fst snd]. fold (summed l). case_bool_decide as Hk.
  - subst. by rewrite lookup_insert_eq.
  - by rewrite lookup_insert_ne.
Qed.

(** The tokens of a tenant's day and model, among the rows that a report adds up. *)
Definition tokens (t : Totals) : Z := u_Total (tt_Usage t).
Definition cell (tenant : string) (k : Z * string) (key : Z * string * string) : bool :=
  bool_decide (key = (k.1, tenant, k.2)).

(** No row counts a negative number of tokens. *)
Record sound (t : archive) : Prop := {
  sd_logs : map_Forall (λ _ l, generation_log l = true → 0 ≤ u_Total (rl_Usage l)) (ar_logs t);
  sd_rollups : map_Forall (λ _ r, 0 ≤ tokens (ud_Totals r)) (ar_rollups t)
}.

Lemma window_of_day start end_ at_ :
  (start * day_ns <=? at_) && (at_ <? end_ * day_ns) = (start <=? at_ / day_ns) && (at_ / day_ns <? end_).
Proof.
  assert (0 < day_ns) by done. apply eq_true_iff_eq.
  rewrite !andb_true_iff, !Z.leb_le, !Z.ltb_lt. split; intros [H1 H2]; split.
  - by apply Z.div_le_lower_bound; lia.
  - by apply Z.div_lt_upper_bound; lia.
  - pose proof (Z.mul_div_le at_ day_ns). nia.
  - pose proof (Z.mul_succ_div_gt at_ day_ns). nia.
Qed.

Lemma sources_at tenant start end_ k t :
  sound t → sum_at k (heat_sources tenant start end_ t) =
  if (start <=? k.1) && (k.1 <? end_) then usage tokens (cell tenant k) t else 0.
Proof.
  intros [Hlogs Hrollups]. unfold sum_at, heat_sources. rewrite sum_by_app, !sum_by_fmap, !sum_by_filter.
  unfold usage, live, rolled.
  transitivity (sum_map (λ l, if (start <=? k.1) && (k.1 <? end_) then if generation_log l && cell tenant k (log_key l) then tokens (log_totals l) else 0 else 0) (ar_logs t) +
    sum_map (λ r, if (start <=? k.1) && (k.1 <? end_) then if cell tenant k (rollup_key r) then tokens (ud_Totals r) else 0 else 0) (ar_rollups t)).
  2: { destruct (_ && _); [done|]. by rewrite !sum_map_zero. }
  f_equal; apply sum_by_ext; intros x ([i ?] & -> & Hin%elem_of_map_to_list)%list_elem_of_fmap; cbn.
  - specialize (Hlogs _ _ Hin). cbn in Hlogs. unfold cell, log_key, tokens. cbn. destruct k as [d m]. cbn.
    destruct (generation_log _); cbn [andb]; [|by destruct (_ && _)].
    rewrite <- !andb_assoc, window_of_day. repeat case_bool_decide; simplify_eq/=; try done.
    all: repeat destruct ((start <=? _) && (_ <? end_)); rewrite ?Z.max_l by auto; done.
  - specialize (Hrollups _ _ Hin). cbn in Hrollups. unfold cell, rollup_key, tokens in *. destruct k as [d m]. cbn.
    rewrite <- !andb_assoc. repeat case_bool_decide; simplify_eq/=; try done.
    all: repeat destruct ((start <=? _) && (_ <? end_)); rewrite ?Z.max_l by auto; done.
Qed.

(** ** Retention keeps rows sound *)

Lemma sum_map_subseteq {K V : Type} `{Countable K} (f : V → Z) (m' : gmap K V) :
  ∀ m, m' ⊆ m → map_Forall (λ _ v, 0 ≤ f v) m → sum_map f m' ≤ sum_map f m.
Proof.
  induction m' as [|k v m' Hk IH] using map_ind; intros m Hsub Hpos.
  - rewrite sum_map_empty. by apply sum_map_nonneg.
  - assert (m !! k = Some v) as Hv by (eapply lookup_weaken; [apply lookup_insert_eq|done]).
    rewrite sum_map_insert, (sum_map_delete f m k v) by done.
    enough (sum_map f m' ≤ sum_map f (delete k m)) by lia. apply IH.
    + apply map_subseteq_spec. intros i w Hi. assert (i ≠ k) by congruence.
      rewrite lookup_delete_ne by done. eapply lookup_weaken; [by rewrite lookup_insert_ne|done].
    + by apply map_Forall_delete.
Qed.

Lemma thinned_subseteq {K V : Type} `{Countable K} (expired : V → Prop) (m m' : gmap K V) :
  thinned expired m m' → m' ⊆ m.
Proof. intros Hthin. apply map_subseteq_spec. intros k v Hv. destruct (Hthin k) as [<-|[? _]]; congruence. Qed.

(** A daily fact is the only row of its day, tenant and model. *)
Lemma rolled_single c t k r :
  keyed rollup_key (ar_rollups t) → ar_rollups t !! k = Some r →
  rolled c (λ key, bool_decide (key = k)) t = c (ud_Totals r).
Proof.
  intros Hkey Hr. unfold rolled. rewrite (sum_map_delete _ _ k r Hr), (Hkey _ _ Hr : rollup_key r = k).
  rewrite bool_decide_true, sum_map_zero by done || (intros k' r' [Hne Hr']%lookup_delete_Some;
    rewrite (Hkey _ _ Hr' : rollup_key r' = k'), bool_decide_false by congruence; done). lia.
Qed.

Lemma tokens_column : tokens ∈ columns.
Proof. apply list_elem_of_lookup. by exists 7%nat. Qed.

Section retained.
Context `{TimeZone} (now : Z) (policy : RetentionPolicy) (t t' : archive).
Hypotheses (Hret : retained now policy t t') (Hsound : sound t).

Lemma sound_retained : sound t'.
Proof.
destruct Hsound as [Hlogs Hrollups]. destruct Hret as [Hok Husage Hthin _ _ _ _]. apply thinned_subseteq in Hthin. split.
- intros k l Hl. by apply (Hlogs k), (lookup_weaken (ar_logs t')).
- intros k r Hr. pose proof (Husage tokens (λ key, bool_decide (key = k)) tokens_column) as Hsum. unfold usage in Hsum.
  rewrite (rolled_single tokens t' k r (ok_rollups _ Hok) Hr) in Hsum. unfold live, rolled in Hsum.
  match type of Hsum with sum_map ?f _ + _ = _ + sum_map ?g _ =>
    assert (sum_map f (ar_logs t') ≤ sum_map f (ar_logs t)) as Hle; [apply sum_map_subseteq; [done|]|
    assert (0 ≤ sum_map g (ar_rollups t)) as Hpos; [apply sum_map_nonneg|lia]] end.
  + intros k' l Hl. specialize (Hlogs _ _ Hl). cbn in *. by destruct (generation_log l); [destruct (bool_decide _)|]; auto.
  + intros k' r' Hr'. specialize (Hrollups _ _ Hr'). cbn in *. by destruct (bool_decide _).
Qed.

(** The groups of the statement are the same, but for groups without tokens. *)
Lemma sources_retained tenant start end_ k :
default 0 (summed (heat_sources tenant start end_ t') !! k) = default 0 (summed (heat_sources tenant start end_ t) !! k).
Proof.
rewrite !summed_lookup, !sources_at by (apply sound_retained || apply Hsound).
by rewrite (rt_usage _ _ _ _ Hret tokens _ tokens_column).
Qed.
End retained.

(** ** The report depends on the rows with tokens alone *)

Lemma foldl_filter {A B} (P : B → bool) (f : A → B → A) (a : A) (l : list B) :
  foldl (λ a x, if P x then f a x else a) a l = foldl f a (filter (λ x, P x = true) l).
Proof.
  revert a. induction l as [|x l IH]; intros a; [done|]. cbn [foldl]. rewrite IH, list.filter_cons.
  destruct (P x); [by rewrite decide_True|by rewrite decide_False].
Qed.

Lemma filter_fmap {A B} (f : A → B) (P : B → bool) (l : list A) :
  filter (λ y, P y = true) (f <$> l) = f <$> filter (λ x, P (f x) = true) l.
Proof.
  induction l as [|x l IH]; [done|]. rewrite fmap_cons, !list.filter_cons, IH. by destruct (decide _).
Qed.

Lemma StronglySorted_filter {A} (R : relation A) (P : A → Prop) `{∀ x, Decision (P x)} (l : list A) :
  StronglySorted R l → StronglySorted R (filter P l).
Proof.
  induction 1 as [|x l _ IH Hx]; [constructor|]. rewrite list.filter_cons. destruct (decide (P x)); [|done].
  constructor; [done|]. apply list.Forall_forall. intros y [_ Hy]%list_elem_of_filter. by eapply list.Forall_forall in Hx.
Qed.

Lemma Build_counted now rows rows' :
  let counted := counted_row (Window now).1 (Window now).2 in
  filter (λ row, counted row = true) rows = filter (λ row, counted row = true) rows' → Build now rows = Build now rows'.
Proof.
  intros counted Heq. unfold Build. subst counted. destruct (Window now) as [start end_]. cbn [fst snd] in Heq.
  assert (by_model start end_ rows = by_model start end_ rows') as -> by (unfold by_model; rewrite !(foldl_filter (counted_row start end_)); by rewrite Heq).
  assert (by_day start end_ rows = by_day start end_ rows') as -> by (unfold by_day; rewrite !(foldl_filter (counted_row start end_)); by rewrite Heq).
  done.
Qed.

#[export] Instance day_then_model_trans : Transitive day_then_model.
Proof.
  intros [[d1 m1] v1] [[d2 m2] v2] [[d3 m3] v3]. unfold day_then_model. cbn.
  intros [H1|[<- H1]] [H2|[<- H2]]; [left; lia|by left..|right]. split; [done|].
  apply Is_true_true in H1, H2. apply Is_true_true. by apply (transitivity (R := String.le) (y := m2)).
Qed.

#[export] Instance day_then_model_total : Total day_then_model.
Proof.
  intros [[d1 m1] v1] [[d2 m2] v2]. unfold day_then_model. cbn.
  destruct (Z.lt_total d1 d2) as [?|[->|?]]; [by left; left| |by right; left].
  destruct (String.leb_total m1 m2); [left|right]; by right.
Qed.

Definition heat_row (kv : (Z * string) * Z) : HeatUsage := Build_HeatUsage kv.1.1 kv.1.2 kv.2.

(** Groups that agree where there are tokens give the same rows in the same order. *)
Lemma rows_determined (P : HeatUsage → bool) (g g' : gmap (Z * string) Z) :
  (∀ row, P row = true → 0 < hu_Tokens row) → (∀ k, default 0 (g !! k) = default 0 (g' !! k)) →
  filter (λ row, P row = true) (heat_row <$> merge_sort day_then_model (map_to_list g)) =
  filter (λ row, P row = true) (heat_row <$> merge_sort day_then_model (map_to_list g')).
Proof.
  intros HP Heq. rewrite !filter_fmap. f_equal.
  assert (∀ (m m' : gmap (Z * string) Z) kv, (∀ k, default 0 (m !! k) = default 0 (m' !! k)) →
    kv ∈ filter (λ x, P (heat_row x) = true) (merge_sort day_then_model (map_to_list m)) →
    kv ∈ filter (λ x, P (heat_row x) = true) (merge_sort day_then_model (map_to_list m'))) as Hin.
  { intros m m' [k v] Hm. rewrite !list_elem_of_filter, !merge_sort_Permutation, !elem_of_map_to_list. intros [Hp Hk].
    split; [done|]. apply HP in Hp. cbn in Hp. specialize (Hm k). rewrite Hk in Hm. destruct (m' !! k); cbn in Hm; [by subst|lia]. }
  apply (StronglySorted_unique_strong day_then_model).
  - intros [k v] [k' v'] [_ H1]%list_elem_of_filter [_ H2]%(Hin g' g)%list_elem_of_filter; [|done].
    rewrite merge_sort_Permutation, elem_of_map_to_list in H1, H2. destruct k as [d m], k' as [d' m'].
    unfold day_then_model. cbn. intros [?|[-> Hle]] [?|[? Hle']]; try lia.
    assert (m = m') as -> by by apply String.leb_antisym. congruence.
  - apply StronglySorted_filter, StronglySorted_merge_sort; apply _.
  - apply StronglySorted_filter, StronglySorted_merge_sort; apply _.
  - apply NoDup_Permutation; [apply list.NoDup_filter; rewrite merge_sort_Permutation; apply NoDup_map_to_list..|].
    intros kv. split; by apply Hin.
Qed.

Lemma groups_fit (g g' : gmap (Z * string) Z) :
  (∀ k, default 0 (g !! k) = default 0 (g' !! k)) →
  forallb (λ kv, kv.2 <=? max_int64) (map_to_list g) = forallb (λ kv, kv.2 <=? max_int64) (map_to_list g').
Proof.
  assert (∀ m m' : gmap (Z * string) Z, (∀ k, default 0 (m !! k) = default 0 (m' !! k)) →
    forallb (λ kv, kv.2 <=? max_int64) (map_to_list m) = true →
    forallb (λ kv, kv.2 <=? max_int64) (map_to_list m') = true) as Himp.
  { intros m m' Hm. rewrite !forallb_forall. intros Hfit [k v] Hin. apply list_elem_of_In, elem_of_map_to_list in Hin.
    specialize (Hm k). rewrite Hin in Hm. cbn in *. apply Z.leb_le. destruct (m !! k) as [w|] eqn:Hw; cbn in Hm; [|by subst].
    subst. apply Z.leb_le, (Hfit (k, v)), list_elem_of_In, elem_of_map_to_list, Hw. }
  intros Heq. apply eq_true_iff_eq. split; by apply Himp.
Qed.

(** C18: Retention does not change the heatmap of sound counts.  Provided that the token
    total of no paid step's log and of no daily fact is negative, in the same world the
    report of a tenant's year is the same, or fails alike, before and after a run of retention,
    whatever the run moved into daily facts and wherever it was interrupted: every day, grade,
    colour and name.  Without that condition it may change, since the statement lifts each negative
    count to zero while the roll-up adds it to the others first. *)
Theorem heatmap_survives_retention `{TimeZone} E E' fuel now policy t n r t' k tenantID at_ n' :
  archive_ok t → sound t → RunRetention fuel now policy E t n = (r, t', k) →
  (TokenHeatmap tenantID at_ E' t' n').1.1 = (TokenHeatmap tenantID at_ E' t n').1.1.
Proof.
  intros Hok Hsound Hrun.
  destruct (wp_direct _ _ _ _ _ _ _ _ (wp_RunRetention E fuel now policy t Hok) Hrun) as [Hret _].
  unfold TokenHeatmap. destruct (Window at_) as [start end_] eqn:Hw.
  pose proof (sources_retained _ _ _ _ Hret Hsound tenantID start end_) as Hgroups.
  cbv [mbind M_bind statement gets]. destruct (env_fault E' n'); [done|].
  rewrite (groups_fit _ _ Hgroups). unfold guard_that. destruct (forallb _ _); [|done].
  cbv [mret M_ret]. cbn [fst snd]. f_equal. apply Build_counted. rewrite Hw.
  apply (rows_determined (counted_row start end_)); [|exact Hgroups]. intros row. unfold counted_row.
  rewrite !andb_true_iff, !Z.ltb_lt. tauto.
Qed.

(** ** The sums of [Build] *)

(** Sums of non-negative numbers that fit in the end never wrap on the way. *)
Lemma foldl_add64 {A} (f : A → Z) (l : list A) :
  (∀ x, x ∈ l → 0 ≤ f x) → sum_by f l ≤ max_int64 → foldl (λ acc x, acc +₆₄ f x) 0 l = sum_by f l.
Proof.
  induction l as [|x l IH] using rev_ind; intros Hpos Hfit; [done|].
  rewrite foldl_snoc, sum_by_app, sum_by_cons, sum_by_nil in *.
  assert (0 ≤ f x) by (apply Hpos, elem_of_app; right; by left).
  assert (0 ≤ sum_by f l) by (apply sum_by_nonneg; intros y Hy; apply Hpos, elem_of_app; by left).
  rewrite IH by (lia || (intros y Hy; apply Hpos, elem_of_app; by left)).
  unfold add64. rewrite wrap64_id; unfold in_int64, min_int64, max_int64 in *; lia.
Qed.

Definition name_of (row : HeatUsage) : string := known_model (hu_Model row).
Definition entries_of (l : list HeatUsage) : gmap string Z :=
  foldl (λ m row, bump (name_of row) (hu_Tokens row) m) ∅ l.

(** The tokens of a model among the rows. *)
Definition spent (name : string) (l : list HeatUsage) : Z :=
  sum_by (λ row, if bool_decide (name_of row = name) then hu_Tokens row else 0) l.

Definition positive (l : list HeatUsage) : Prop := Forall (λ row, 0 < hu_Tokens row) l.

Lemma spent_bounds name l : positive l → 0 ≤ spent name l ≤ sum_by hu_Tokens l.
Proof.
  unfold spent. induction 1 as [|row l Hrow _ IH]; [done|]. rewrite !sum_by_cons. case_bool_decide; lia.
Qed.

Record exact_entries (l : list HeatUsage) (m : gmap string Z) : Prop := {
  ee_spent : ∀ name, default 0 (m !! name) = spent name l;
  ee_positive : map_Forall (λ _ v, 0 < v) m;
  ee_sum : sum_map id m = sum_by hu_Tokens l
}.

Lemma entries_exact l : positive l → sum_by hu_Tokens l ≤ max_int64 → exact_entries l (entries_of l).
Proof.
  induction l as [|row l IH] using rev_ind; intros Hpos Hfit.
  - split; [done|apply map_Forall_empty|apply sum_map_empty].
  - apply Forall_app in Hpos as [Hpos Hrow]. apply list.Forall_cons in Hrow as [Hrow _].
    rewrite sum_by_app, sum_by_cons, sum_by_nil in Hfit. destruct IH as [Hsp Hp Hs]; [done|lia|].
    unfold entries_of. rewrite foldl_snoc. fold (entries_of l). set (m := entries_of l) in *.
    assert (bump (name_of row) (hu_Tokens row) m = <[name_of row := spent (name_of row) l + hu_Tokens row]> m) as ->.
    { unfold bump. f_equal. rewrite Hsp. pose proof (spent_bounds (name_of row) l Hpos). unfold add64.
      rewrite wrap64_id; unfold in_int64, min_int64, max_int64 in *; lia. }
    pose proof (spent_bounds (name_of row) l Hpos) as Hbound. split.
    + intros name. unfold spent at 2. rewrite sum_by_app, sum_by_cons, sum_by_nil. fold (spent name l).
      destruct (decide (name_of row = name)) as [<-|Hne]; [rewrite lookup_insert_eq, bool_decide_true by done; cbn; lia|].
      rewrite lookup_insert_ne, Hsp, bool_decide_false by done. lia.
    + apply map_Forall_insert_2; [lia|done].
    + rewrite sum_by_app, sum_by_cons, sum_by_nil, <- Hs. specialize (Hsp (name_of row)).
      destruct (m !! name_of row) as [old|] eqn:Hold; cbn in Hsp.
      * rewrite (sum_map_replace _ _ _ _ _ Hold). cbn. lia.
      * rewrite sum_map_insert by done. cbn. lia.
Qed.

Definition on_day (d : Z) (l : list HeatUsage) : list HeatUsage := filter (λ row, bool_decide (hu_Day row = d) = true) l.

Lemma by_model_counted start end_ rows :
  by_model start end_ rows = entries_of (filter (λ row, counted_row start end_ row = true) rows).
Proof. unfold by_model. by rewrite (foldl_filter (counted_row start end_)). Qed.

Lemma by_day_counted start end_ rows d :
  default ∅ (by_day start end_ rows !! d) =
  entries_of (on_day d (filter (λ row, counted_row start end_ row = true) rows)).
Proof.
  unfold by_day. rewrite (foldl_filter (counted_row start end_)). generalize (filter (λ row, counted_row start end_ row = true) rows).
  intros l. induction l as [|row l IH] using rev_ind; [done|]. unfold on_day. rewrite foldl_snoc, list.filter_app, list.filter_cons.
  rewrite list.filter_nil. case_bool_decide as Hd.
  - subst. rewrite lookup_insert_eq, decide_True by done. cbn [default]. rewrite IH. unfold entries_of at 2.
    rewrite foldl_app. done.
  - rewrite lookup_insert_ne, decide_False by done. by rewrite IH, app_nil_r.
Qed.

(** ** A day *)

Lemma ltb_leb (a b : string) : String.ltb a b = negb (String.leb b a).
Proof. unfold String.ltb, String.leb. rewrite String.compare_antisym. by destruct (String.compare b a). Qed.

Lemma leb_trans (a b c : string) : String.leb a b = true → String.leb b c = true → String.leb a c = true.
Proof. rewrite <- !Is_true_true. apply (transitivity (R := String.le)). Qed.

Lemma leb_of_ltb (a b : string) : String.ltb a b = true → String.leb a b = true.
Proof. rewrite ltb_leb. destruct (String.leb_total a b) as [->| ->]; done. Qed.

Lemma leb_refl (a : string) : String.leb a a = true.
Proof. by destruct (String.leb_total a a). Qed.

(** What the loop over the models of a day has found in the entries it has seen. *)
Record favoured (date : Z) (seen : list (string * Z)) (df : HeatDay * Z) : Prop := {
  fv_date : hd_Date df.1 = date;
  fv_tokens : hd_Tokens df.1 = sum_by snd seen;
  fv_first : if decide (seen = []) then df.2 = 0 else (hd_Model df.1, df.2) ∈ seen;
  fv_most : ∀ m, m ∈ seen → m.2 < df.2 ∨ m.2 = df.2 ∧ String.leb (hd_Model df.1) m.1 = true
}.

Lemma favour_step date seen df m :
  0 < m.2 → (∀ x, x ∈ seen → 0 < x.2) → sum_by snd (seen ++ [m]) ≤ max_int64 →
  favoured date seen df → favoured date (seen ++ [m]) (favour df.1 df.2 m).
Proof.
  intros Hm Hpos Hfit [Hdate Htok Hfirst Hmost]. destruct df as [d f], m as [name v]. cbn [fst snd] in *.
  rewrite sum_by_app, sum_by_cons, sum_by_nil in Hfit. cbn [snd] in Hfit.
  assert (0 ≤ sum_by snd seen) by (apply sum_by_nonneg; intros x Hx; specialize (Hpos x Hx); lia).
  assert (hd_Tokens d +₆₄ v = sum_by snd (seen ++ [(name, v)])) as Hsum.
  { rewrite Htok, sum_by_app, sum_by_cons, sum_by_nil. cbn [snd]. unfold add64.
    rewrite wrap64_id; unfold in_int64, min_int64, max_int64 in *; lia. }
  unfold favour. cbn [fst snd hd_Model].
  destruct ((f <? v) || ((v =? f) && String.ltb name (hd_Model d))) eqn:Htake; split; cbn; try done.
  - rewrite decide_False by (by destruct seen). apply elem_of_app. right. by left.
  - intros x [Hx|Hx%list_elem_of_singleton]%elem_of_app; [|subst; right; split; [done|apply leb_refl]].
    apply orb_true_iff in Htake as [Hlt%Z.ltb_lt|[Heq%Z.eqb_eq Hltb]%andb_true_iff].
    + left. destruct (Hmost x Hx) as [?|[-> _]]; lia.
    + subst v. destruct (Hmost x Hx) as [?|[? Hle]]; [by left|right]. split; [done|].
      eapply leb_trans; [by apply leb_of_ltb|done].
  - rewrite decide_False by (by destruct seen). apply orb_false_iff in Htake as [Hge%Z.ltb_ge _].
    destruct (decide (seen = [])); [lia|]. apply elem_of_app. by left.
  - apply orb_false_iff in Htake as [Hge%Z.ltb_ge Htie].
    intros x [Hx|Hx%list_elem_of_singleton]%elem_of_app; [by apply Hmost|subst]. cbn.
    destruct (Z.eqb_spec v f) as [->|]; [|left; lia]. right. split; [done|]. cbn in Htie. rewrite ltb_leb in Htie.
    by apply negb_false_iff.
Qed.

Lemma favour_all date (es : list (string * Z)) :
  (∀ x, x ∈ es → 0 < x.2) → sum_by snd es ≤ max_int64 →
  favoured date es (foldl (λ df m, favour df.1 df.2 m) (Build_HeatDay date 0 "" 0 "", 0) es).
Proof.
  induction es as [|m es IH] using rev_ind; intros Hpos Hfit.
  - split; try done. intros m Hm. by apply not_elem_of_nil in Hm.
  - assert (∀ x, x ∈ es → 0 < x.2) as Hes by (intros x Hx; apply Hpos, elem_of_app; by left).
    rewrite foldl_snoc. apply favour_step; [apply Hpos, elem_of_app; right; by left|done..|]. apply IH; [done|].
    rewrite sum_by_app, sum_by_cons, sum_by_nil in Hfit. specialize (Hpos m). lapply Hpos; [lia|].
    apply elem_of_app. right. by left.
Qed.

(** A day counts the tokens of its rows; its favourite spent the most, and is the first by name of those that did. *)
Lemma heat_day_exact models date rows :
  positive rows → sum_by hu_Tokens rows ≤ max_int64 →
  let d := heat_day models date (entries_of rows) in
  hd_Date d = date ∧ hd_Tokens d = sum_by hu_Tokens rows ∧
  (∀ name, spent name rows ≤ spent (hd_Model d) rows) ∧
  (∀ name, 0 < spent name rows → spent name rows = spent (hd_Model d) rows → String.leb (hd_Model d) name = true).
Proof.
  intros Hpos Hfit. destruct (entries_exact rows Hpos Hfit) as [Hsp Hp Hs]. set (m := entries_of rows) in *.
  assert (sum_by snd (map_to_list m) = sum_by hu_Tokens rows) as Hsum
    by (rewrite <- Hs; unfold sum_map; by rewrite sum_by_fmap).
  destruct (favour_all date (map_to_list m)) as [Hdate Htok Hfirst Hmost].
  { intros [k v] Hin%elem_of_map_to_list. by apply (Hp k). }
  { by rewrite Hsum. }
  unfold heat_day. set (df := foldl _ _ _) in *. cbv zeta.
  assert (∀ (P : HeatDay → Prop), (∀ d, hd_Date d = date → hd_Tokens d = hd_Tokens df.1 → hd_Model d = hd_Model df.1 → P d) →
    P (if 0 <? hd_Tokens df.1 then df.1 <| hd_Color := color_of models (hd_Model df.1) |> else df.1)) as Hany.
  { intros P HP. destruct (0 <? hd_Tokens df.1); by apply HP. }
  apply Hany. clear Hany. intros d Hd Ht Hm. split_and!; [done|congruence|..]; rewrite Hm.
  all: assert (∀ name, 0 < spent name rows → spent name rows < df.2 ∨ spent name rows = df.2 ∧ String.leb (hd_Model df.1) name = true) as Hall
    by (intros name Hn; rewrite <- Hsp in *; destruct (m !! name) as [v|] eqn:Hv; [|done];
        apply elem_of_map_to_list in Hv; apply (Hmost _ Hv)).
  all: assert (spent (hd_Model df.1) rows = df.2 ∨ ∀ name, spent name rows = 0) as Hbest
    by (destruct (decide (map_to_list m = [])) as [Hnil|_];
        [right; intros name; rewrite <- Hsp; apply map_to_list_empty_iff in Hnil; by rewrite Hnil
        |left; apply elem_of_map_to_list in Hfirst; by rewrite <- Hsp, Hfirst]).
  - intros name. pose proof (spent_bounds name rows Hpos). destruct Hbest as [->|Hz]; [|by rewrite !Hz].
    destruct (decide (0 < spent name rows)) as [Hn|]; [destruct (Hall name Hn) as [?|[? _]]; lia|].
    destruct (decide (map_to_list m = [])) as [Hnil|_]; [lia|]. apply elem_of_map_to_list in Hfirst.
    specialize (Hp _ _ Hfirst). cbn in Hp. lia.
  - intros name Hn Heq. destruct Hbest as [Hb|Hz]; [|rewrite Hz in Hn; lia]. destruct (Hall name Hn) as [?|[_ ?]]; [lia|done].
Qed.

(** ** The year *)

(** Every counted row is on one day of the window. *)
Lemma days_partition days rows :
  NoDup days → (∀ row, row ∈ rows → hu_Day row ∈ days) →
  sum_by (λ d, sum_by hu_Tokens (on_day d rows)) days = sum_by hu_Tokens rows.
Proof.
  intros Hnd Hin. rewrite <- (sum_by_partition hu_Day hu_Tokens days rows Hnd Hin). apply sum_by_ext. intros d _.
  unfold on_day. by rewrite sum_by_filter.
Qed.

Lemma legend_exact models :
  (∀ m, m ∈ models → 0 ≤ m.2) → sum_by snd models ≤ max_int64 →
  sum_by hm_Tokens (legend models) = sum_by snd models ∧ (length (legend models) ≤ 7)%nat.
Proof.
  intros Hpos Hfit. unfold legend. set (coloured := imap _ models).
  assert (hm_Tokens <$> coloured = snd <$> models) as Htok.
  { unfold coloured. rewrite fmap_imap. exact (imap_const snd models). }
  case_bool_decide as Hn; split.
  - rewrite sum_by_app, sum_by_cons, sum_by_nil, <- (sum_by_id hm_Tokens), fmap_take, Htok. cbn [hm_Tokens].
    rewrite foldl_add64.
    + rewrite <- (sum_by_id snd (drop _ _)), fmap_drop, <- (sum_by_id snd models), Z.add_0_r, <- sum_by_app. by rewrite take_drop.
    + intros m Hm. apply Hpos. by eapply subseteq_drop.
    + rewrite <- (take_drop (length palette) models), sum_by_app in Hfit.
      assert (0 ≤ sum_by snd (take (length palette) models)); [|lia]. apply sum_by_nonneg. intros m Hm. apply Hpos.
      by eapply subseteq_take.
  - rewrite length_app, length_take. change (length [_]) with 1%nat. change (length palette) with 6%nat. lia.
  - by rewrite <- (sum_by_id hm_Tokens), Htok, sum_by_id.
  - unfold coloured. rewrite length_imap. cbn in Hn. lia.
Qed.

Lemma days_bound (f : HeatUsage → bool) rows :
  positive rows → sum_by hu_Tokens (filter (λ row, f row = true) rows) ≤ sum_by hu_Tokens rows.
Proof.
  intros Hpos. rewrite sum_by_filter. induction Hpos as [|row rows Hrow _ IH]; [done|]. rewrite !sum_by_cons.
  destruct (f row); lia.
Qed.

Lemma positive_filter (f : HeatUsage → bool) rows : positive rows → positive (filter (λ row, f row = true) rows).
Proof.
  intros Hpos. apply list.Forall_forall. intros row [_ Hrow]%list_elem_of_filter.
  by apply (proj1 (list.Forall_forall _ _) Hpos).
Qed.

Section year.
Context (now : Z) (rows : list HeatUsage).
Let start := now / day_ns - 364.
Let counted := filter (λ row, counted_row start (start + 365) row = true) rows.
Let models := ranked (entries_of counted).
Let day (date : Z) : HeatDay := heat_day models date (entries_of (on_day date counted)).

Lemma counted_positive : positive counted.
Proof.
apply list.Forall_forall. intros row [Hrow _]%list_elem_of_filter. unfold counted_row in Hrow.
rewrite !andb_true_iff, !Z.ltb_lt in Hrow. tauto.
Qed.

Lemma counted_in_window row : row ∈ counted → hu_Day row ∈ seqZ start 365.
Proof.
intros [Hrow _]%list_elem_of_filter. unfold counted_row in Hrow. apply elem_of_seqZ.
rewrite !andb_true_iff, !Z.ltb_lt, Z.leb_le in Hrow. tauto.
Qed.

(** The report, with its sums still taken by the loops of the code. *)
Lemma Build_days :
let days := day <$> seqZ start 365 in
let r := Build now rows in
hp_TotalTokens r = foldl add64 0 (hd_Tokens <$> days) ∧ hp_Models r = legend models ∧
hp_PeakTokens r = foldl Z.max 0 (hd_Tokens <$> days) ∧
hp_Days r = (λ d, d <| hd_Level := level (merge_sort Z.le (filter (λ n, 0 < n) (hd_Tokens <$> days))) (hd_Tokens d) |>) <$> days.
Proof.
intros days r. subst r. unfold Build, Window.
replace (now / day_ns + 1 - 365) with start by (unfold start; lia).
replace (now / day_ns + 1) with (start + 365) by (unfold start; lia).
rewrite by_model_counted. fold counted models. unfold seqZ_days. replace (start + 365 - start) with 365 by lia.
assert ((λ date, heat_day models date (default ∅ (by_day start (start + 365) rows !! date))) <$> seqZ start 365 = days) as ->.
{ apply list_fmap_ext. intros i d _. by rewrite by_day_counted. }
by split_and!.
Qed.

Hypothesis Hfit : sum_by hu_Tokens counted ≤ max_int64.

Lemma day_exact date :
let today := on_day date counted in
hd_Date (day date) = date ∧ hd_Tokens (day date) = sum_by hu_Tokens today ∧
(∀ name, spent name today ≤ spent (hd_Model (day date)) today) ∧
(∀ name, 0 < spent name today → spent name today = spent (hd_Model (day date)) today → String.leb (hd_Model (day date)) name = true).
Proof.
apply heat_day_exact; [by apply positive_filter, counted_positive|].
etrans; [by apply (days_bound (λ row, bool_decide (hu_Day row = date))), counted_positive|exact Hfit].
Qed.

Lemma total_exact : foldl add64 0 (hd_Tokens <$> (day <$> seqZ start 365)) = sum_by hu_Tokens counted.
Proof.
assert (sum_by id (hd_Tokens <$> (day <$> seqZ start 365)) = sum_by hu_Tokens counted) as Hsum.
{ rewrite sum_by_id, sum_by_fmap, <- (days_partition (seqZ start 365) counted (NoDup_seqZ _ _) counted_in_window).
  apply sum_by_ext. intros d _. apply day_exact. }
rewrite <- Hsum. apply (foldl_add64 id); [|by rewrite Hsum].
intros x (d & -> & (date & -> & _)%list_elem_of_fmap)%list_elem_of_fmap. destruct (day_exact date) as (_ & Htok & _). cbn. rewrite Htok.
apply sum_by_nonneg. intros row [_ Hrow]%list_elem_of_filter.
pose proof counted_positive as Hpos. apply Z.lt_le_incl. by apply (proj1 (list.Forall_forall _ _) Hpos).
Qed.

Lemma models_exact : sum_by hm_Tokens (legend models) = sum_by hu_Tokens counted ∧ (length (legend models) ≤ 7)%nat.
Proof.
destruct (entries_exact counted counted_positive Hfit) as [_ Hval Htot].
assert (sum_by snd models = sum_by hu_Tokens counted) as Hsum.
{ unfold models, ranked. rewrite merge_sort_Permutation, <- Htot. unfold sum_map. by rewrite sum_by_fmap. }
rewrite <- Hsum. apply legend_exact; [|by rewrite Hsum].
intros [k v]. unfold models, ranked. rewrite merge_sort_Permutation, elem_of_map_to_list. intros Hk.
apply Z.lt_le_incl, (Hval _ _ Hk).
Qed.
End year.

(** C34: The heatmap adds up.  A report has the 365 days that end with the present day of UTC, in
    order.  If the tokens of the rows within them fit in 64 bits, the report's total is their sum,
    and so is the sum of its legend, which has at most seven entries; every day shows the sum of
    its rows, and its favourite is the model that spent the most on it, the first by name of
    those that spent as much. *)
Theorem heatmap_adds_up now rows :
  let start := now / day_ns - 364 in
  let counted := filter (λ row, counted_row start (start + 365) row = true) rows in
  let r := Build now rows in
  sum_by hu_Tokens counted ≤ max_int64 →
  hd_Date <$> hp_Days r = seqZ start 365 ∧
  hp_TotalTokens r = sum_by hu_Tokens counted ∧
  sum_by hm_Tokens (hp_Models r) = hp_TotalTokens r ∧ (length (hp_Models r) ≤ 7)%nat ∧
  (∀ d, d ∈ hp_Days r →
    let today := on_day (hd_Date d) counted in
    hd_Tokens d = sum_by hu_Tokens today ∧
    (∀ name, spent name today ≤ spent (hd_Model d) today) ∧
    (∀ name, 0 < spent name today → spent name today = spent (hd_Model d) today → String.leb (hd_Model d) name = true)).
Proof.
  intros start counted r Hfit. destruct (Build_days now rows) as (Htotal & Hmodels & _ & Hdays).
  destruct (models_exact now rows Hfit) as [Hlegend Hlen].
  unfold r. rewrite Htotal, Hmodels, Hdays, (total_exact now rows Hfit). split_and!; [|done..|].
  - rewrite <- !list_fmap_compose. etrans; [|apply list_fmap_id]. apply list_fmap_ext. intros i date _. cbn. by apply day_exact.
  - intros d (d0 & -> & (date & -> & _)%list_elem_of_fmap)%list_elem_of_fmap. cbn.
    destruct (day_exact now rows Hfit date) as (-> & ? & ? & ?). by split_and!.
Qed.

(** ** The grades *)

Definition reaches (nonzero : list Z) (tokens : Z) (q : nat) : Z :=
  match nonzero !! ((length nonzero - 1) * q / 4)%nat with
  | Some bound => if bound <=? tokens then 1 else 0
  | None => 0
  end.

Lemma level_counts nonzero tokens :
  tokens ≠ 0 → level nonzero tokens = 1 + reaches nonzero tokens 1 + reaches nonzero tokens 2 + reaches nonzero tokens 3.
Proof.
  intros Hne. unfold level. rewrite (proj2 (Z.eqb_neq _ _) Hne). cbn [foldl]. unfold reaches.
  repeat (case_match; try lia).
Qed.

Lemma reaches_bounds nonzero tokens q : 0 ≤ reaches nonzero tokens q ≤ 1.
Proof. unfold reaches. repeat case_match; lia. Qed.

Lemma reaches_mono nonzero a b q : a ≤ b → reaches nonzero a q ≤ reaches nonzero b q.
Proof. intros Hle. unfold reaches. case_match; [|lia]. destruct (Z.leb_spec z a), (Z.leb_spec z b); lia. Qed.

Lemma reaches_peak nonzero peak q :
  nonzero ≠ [] → (q ≤ 3)%nat → (∀ x, x ∈ nonzero → x ≤ peak) → reaches nonzero peak q = 1.
Proof.
  intros Hne Hq Hpeak. unfold reaches.
  assert ((length nonzero - 1) * q / 4 < length nonzero)%nat as Hlt.
  { destruct nonzero; [done|]. cbn [length]. apply Nat.Div0.div_lt_upper_bound. nia. }
  apply lookup_lt_is_Some in Hlt as [x Hx]. rewrite Hx. apply list_elem_of_lookup_2, Hpeak in Hx.
  by rewrite (proj2 (Z.leb_le _ _) Hx).
Qed.

Lemma level_facts nonzero a :
  0 ≤ a → 0 ≤ level nonzero a ≤ 4 ∧ (level nonzero a = 0 ↔ a = 0) ∧
  (∀ b, a ≤ b → level nonzero a ≤ level nonzero b) ∧
  (nonzero ≠ [] → 0 < a → (∀ x, x ∈ nonzero → x ≤ a) → level nonzero a = 4).
Proof.
  intros Ha.
  assert (∀ b, b ≠ 0 → 1 ≤ level nonzero b) as Hpos.
  { intros b Hb. rewrite level_counts by done. pose proof (reaches_bounds nonzero b). specialize (H 1%nat) as H1.
    specialize (H 2%nat) as H2. specialize (H 3%nat) as H3. lia. }
  destruct (Z.eqb_spec a 0) as [->|Hne].
  - change (level nonzero 0) with 0. split_and!; [lia|lia|done| |lia]. intros b Hb.
    destruct (Z.eqb_spec b 0) as [->|Hb0]; [done|]. specialize (Hpos b Hb0). lia.
  - pose proof (Hpos a Hne) as Hlow. split_and!; [lia| |lia| |].
    + rewrite level_counts by done. pose proof (reaches_bounds nonzero a 1). pose proof (reaches_bounds nonzero a 2).
      pose proof (reaches_bounds nonzero a 3). lia.
    + intros b Hb. rewrite !level_counts by lia. pose proof (reaches_mono nonzero a b 1 Hb).
      pose proof (reaches_mono nonzero a b 2 Hb). pose proof (reaches_mono nonzero a b 3 Hb). lia.
    + intros Hn _ Hpeak. rewrite level_counts, !reaches_peak by (done || lia). done.
Qed.

Lemma foldl_max (l : list Z) acc x : x ∈ l ∨ x ≤ acc → x ≤ foldl Z.max acc l.
Proof.
  revert acc. induction l as [|y l IH]; intros acc [Hx|Hx]; cbn [foldl].
  - by apply not_elem_of_nil in Hx.
  - done.
  - apply elem_of_cons in Hx as [->|Hx]; apply IH; [right; lia|by left].
  - apply IH. right. lia.
Qed.

(** The heatmap grades its days.  A day has grade 0 if and only if it has no tokens, and one of 1 to
    4 otherwise; a day with more tokens never has the lower grade; no day has more tokens than
    the reported peak, and the days that reach it have grade 4. *)
Theorem heatmap_grades_days now rows d d' :
  let start := now / day_ns - 364 in
  let r := Build now rows in
  sum_by hu_Tokens (filter (λ row, counted_row start (start + 365) row = true) rows) ≤ max_int64 →
  d ∈ hp_Days r → d' ∈ hp_Days r →
  0 ≤ hd_Level d ≤ 4 ∧ (hd_Level d = 0 ↔ hd_Tokens d = 0) ∧
  (hd_Tokens d ≤ hd_Tokens d' → hd_Level d ≤ hd_Level d') ∧
  hd_Tokens d ≤ hp_PeakTokens r ∧ (0 < hd_Tokens d → hd_Tokens d = hp_PeakTokens r → hd_Level d = 4).
Proof.
  intros start r Hfit. destruct (Build_days now rows) as (_ & _ & Hpeak & Hdays). unfold r. rewrite Hpeak, Hdays.
  set (days := _ <$> seqZ _ 365). set (nonzero := merge_sort _ _).
  intros (d0 & -> & Hd)%list_elem_of_fmap (d1 & -> & _)%list_elem_of_fmap. cbn.
  assert (0 ≤ hd_Tokens d0) as Hnn.
  { apply list_elem_of_fmap in Hd as (date & -> & _). destruct (day_exact now rows Hfit date) as (_ & -> & _).
    apply sum_by_nonneg. intros row [_ Hrow]%list_elem_of_filter. apply Z.lt_le_incl.
    by apply (proj1 (list.Forall_forall _ _) (counted_positive now rows)). }
  destruct (level_facts nonzero (hd_Tokens d0) Hnn) as (Hrange & Hzero & Hmono & Htop).
  split_and!; [lia..|done|by apply Hmono|apply foldl_max; left; apply list_elem_of_fmap; by exists d0|].
  intros Hpos Heq. apply Htop; [|done|].
  - intros Hnil. apply (not_elem_of_nil (hd_Tokens d0)). rewrite <- Hnil. unfold nonzero. rewrite merge_sort_Permutation.
    apply list_elem_of_filter. split; [done|]. apply list_elem_of_fmap. by exists d0.
  - intros x. unfold nonzero. rewrite merge_sort_Permutation, list_elem_of_filter. intros [_ Hx]. rewrite Heq.
    apply foldl_max. by left.
Qed.
