(* ===== verification/ReportGuarantees.v ===== *)
(** * What reports show

    A report adds the logs to the daily facts, so retention does not change it,
    unless it runs between the two statements. *)

From S2P Require Import Prelude.
From S2P Require Import Float64.
From S2P Require Import Cost.
From S2P Require Import Database.
From S2P Require Import Schema.
From S2P Require Import RequestLogs.
From S2P Require Import Machine.
From S2P Require Import Retention.
From S2P Require Import RetentionGuarantees.
From S2P Require Import Statistics.

(** ** Groups *)

(** The sums of a group, zero if there is none. *)
Definition group_at {K} `{Countable K} (k : K) (m : gmap K Totals) : Totals := default totals_zero (m !! k).

Lemma grouped_at {K A} `{Countable K} c (key : A → K) (value : A → Totals) rows k :
  additive c → c (group_at k (grouped key value rows)) = sum_by (λ x, if bool_decide (key x = k) then c (value x) else 0) rows.
Proof.
  intros [Hadd Hzero]. unfold group_at. induction rows as [|x rows IH]; [done|].
  rewrite sum_by_cons, <- IH. cbn [grouped foldr]. fold (grouped key value rows). case_bool_decide as Hk.
  - subst. rewrite lookup_insert_eq. cbn. by rewrite Hadd.
  - by rewrite lookup_insert_ne.
Qed.

Lemma fits_selected selected c t : fits selected t = true → c ∈ selected → in_int64 (c t).
Proof.
  unfold fits. rewrite forallb_forall. intros Hfit Hc. apply list_elem_of_In, Hfit in Hc.
  apply andb_true_iff in Hc as [?%Z.leb_le ?%Z.leb_le]. by split.
Qed.

Lemma totals_wrap_column c t : c ∈ columns → c (totals_wrap t) = wrap64 (c t).
Proof. intros Hc. revert c Hc. apply list.Forall_forall. by repeat constructor. Qed.

(** What the maps of a report hold in a column that both statements select. *)
Lemma merged_at {K} `{Countable K} c (live rolled : gmap K Totals) k :
  c ∈ columns → in_int64 (c (group_at k live)) → in_int64 (c (group_at k rolled)) →
  c (group_at k (merged live rolled)) = wrap64 (c (group_at k live) + c (group_at k rolled)).
Proof.
  intros Hc Hl Hr. destruct (columns_additive c Hc) as [Hadd Hzero]. unfold group_at, merged in *. rewrite lookup_union_with.
  destruct (live !! k), (rolled !! k); cbn in *.
  - by rewrite totals_wrap_column, Hadd.
  - by rewrite Hzero, Z.add_0_r, wrap64_id.
  - by rewrite Hzero, Z.add_0_l, wrap64_id.
  - by rewrite Hzero.
Qed.

(** ** The statements *)

Section statements.
Context `{TimeZone} `{Session} (E : env).

(** Dates are in the zone of the daily facts. *)
Definition utc : Prop := (∀ day, date_param (day * day_ns) = day) ∧ ∀ at_, session_day at_ = at_ / day_ns.

Context (Hutc : utc) (tenantID : string) (day : Z).

(** The days, tenants and models of a report, and of one of its groups. *)
Definition reported (key : Z * string * string) : bool := (day <=? key.1.1) && of_tenant tenantID key.1.2.
Definition in_group {K} `{EqDecision K} (part : Z * string * string → K) (k : K) (key : Z * string * string) : bool :=
reported key && bool_decide (part key = k).

Lemma since_day at_ : (day * day_ns <=? at_) = (day <=? at_ / day_ns).
Proof.
assert (0 < day_ns) by done. apply eq_true_iff_eq. rewrite !Z.leb_le. split; intros Hle.
- by apply Z.div_le_lower_bound; lia.
- pose proof (Z.mul_div_le at_ day_ns). nia.
Qed.

Section groups.
Context {K : Type} `{Countable K} (part : Z * string * string → K) (selected : list (Totals → Z)).
Hypothesis (Hselected : ∀ c, c ∈ selected → c ∈ columns).

Definition holds (t : archive) (sum : (Totals → Z) → (Z * string * string → bool) → archive → Z) (m : gmap K Totals) : Prop :=
∀ c k, c ∈ selected → c (group_at k m) = sum c (in_group part k) t ∧ in_int64 (c (group_at k m)).

Lemma scanned_fits groups t (Q : result (gmap K Totals) → archive → Prop) :
((∀ c k, c ∈ selected → in_int64 (c (group_at k groups))) → Q (Ok groups) t) → (∀ e, Q (Err e) t) →
wp Direct E (scanned selected groups) t Q.
Proof.
intros HQ Herr. apply wp_bind, wp_guard; [|by intros _]. intros Hfit. apply wp_ret, HQ. intros c k Hc. unfold group_at.
destruct (groups !! k) as [tt|] eqn:Hk; cbn.
- rewrite forallb_forall in Hfit. apply elem_of_map_to_list, list_elem_of_In, Hfit in Hk. by eapply fits_selected.
- destruct (columns_additive c (Hselected c Hc)) as [_ ->]. done.
Qed.

Lemma wp_live_by key t (Q : result (gmap K Totals) → archive → Prop) :
(∀ l, key l = part (log_key l)) →
(∀ m, holds t live m → Q (Ok m) t) → (∀ e, Q (Err e) t) →
wp Direct E (live_by key selected tenantID (day * day_ns)) t Q.
Proof.
intros Hkey HQ Herr. apply wp_bind, wp_find; [|by intros]. intros rows Hrows. apply scanned_fits; [|done].
intros Hfit. apply HQ. intros c k Hc. split; [|by apply Hfit].
rewrite grouped_at by by apply columns_additive, Hselected. rewrite Hrows, sum_by_filter. apply sum_by_ext. intros l _. cbn.
unfold in_group, reported. rewrite <- Hkey, since_day. cbn.
by destruct (generation_log l), (day <=? _), (of_tenant _ _), (bool_decide _).
Qed.

Lemma wp_rolled_by key t (Q : result (gmap K Totals) → archive → Prop) :
(∀ r, key r = part (rollup_key r)) →
(∀ m, holds t rolled m → Q (Ok m) t) → (∀ e, Q (Err e) t) →
wp Direct E (rolled_by key selected tenantID (day * day_ns)) t Q.
Proof.
intros Hkey HQ Herr. apply wp_bind, wp_find; [|by intros]. intros rows Hrows. apply scanned_fits; [|done].
intros Hfit. apply HQ. intros c k Hc. split; [|by apply Hfit].
rewrite grouped_at by by apply columns_additive, Hselected. rewrite Hrows, sum_by_filter. apply sum_by_ext. intros r _. cbn.
unfold in_group, reported. rewrite <- Hkey, (proj1 Hutc). cbn.
by destruct (day <=? _), (of_tenant _ _), (bool_decide _).
Qed.
End groups.

(** ** The sections *)

(** The items of a section: one for each group, in order, with its sums. *)
Definition lists {K} `{Countable K} (order : relation (K * Totals)) (selected : list (Totals → Z))
  (part : Z * string * string → K) (t : archive) (items : list (K * Totals)) : Prop :=
NoDup items.*1 ∧ StronglySorted order items ∧
∀ c k, c ∈ selected → c (group_at k (list_to_map items)) = wrap64 (usage c (in_group part k) t).

(** What a report shows of the logs and daily facts of an archive. *)
Record report_shows (t : archive) (report : usage_report) : Prop := {
rs_summary : ∀ c, c ∈ columns → c (ur_summary report) = wrap64 (usage c reported t);
rs_daily : lists by_date daily_columns (λ key, key.1.1) t (ur_daily report);
rs_models : lists by_tokens daily_columns snd t (ur_models report);
rs_users : tenantID = "" → lists by_tokens user_columns (λ key, key.1.2) t (ur_users report)
}.

(** A program that reads: it leaves the archive, and what it answers satisfies [P]. *)
Definition reads {A} (P : archive → A → Prop) (program : M archive A) : Prop :=
∀ t, wp Direct E program t (λ r t', t' = t ∧ match r with Ok a => P t a | Err _ => True end).

Lemma reads_bind {A B} (P : archive → A → Prop) (Q : archive → B → Prop) m (k : A → M archive B) :
reads P m → (∀ a, reads (λ t b, P t a → Q t b) (k a)) → reads Q (m ≫= k).
Proof.
intros Hm Hk t. apply wp_bind. eapply wp_mono; [apply Hm|]. intros [a|e] t' [-> Ha]; [|done].
eapply wp_mono; [apply Hk|]. intros [b|e] t' [-> Hb]; split; auto.
Qed.

Lemma reads_ret {A} (P : archive → A → Prop) a : (∀ t, P t a) → reads P (mret a).
Proof. intros HP t. by apply wp_ret. Qed.

Lemma reads_mono {A} (P Q : archive → A → Prop) m : reads P m → (∀ t a, P t a → Q t a) → reads Q m.
Proof. intros Hm HPQ t. eapply wp_mono; [apply Hm|]. intros [a|e] t' [-> Ha]; split; auto. Qed.

Section section.
Context {K : Type} `{Countable K} (order : relation (K * Totals)) `{∀ a b, Decision (order a b)}.
Context `{!Transitive order, !Total order} (part : Z * string * string → K) (selected : list (Totals → Z)).
Hypothesis (Hselected : ∀ c, c ∈ selected → c ∈ columns).
Context (key : RequestLog → K) (key' : UsageDailyRollup → K).
Hypotheses (Hkey : ∀ l, key l = part (log_key l)) (Hkey' : ∀ r, key' r = part (rollup_key r)).

Lemma reads_live : reads (λ t, holds part selected t live) (live_by key selected tenantID (day * day_ns)).
Proof. intros t. by apply (wp_live_by part selected Hselected key). Qed.

Lemma reads_rolled : reads (λ t, holds part selected t rolled) (rolled_by key' selected tenantID (day * day_ns)).
Proof. intros t. by apply (wp_rolled_by part selected Hselected key'). Qed.

Lemma merged_usage t (live_groups rolled_groups : gmap K Totals) c k :
c ∈ selected → holds part selected t live live_groups → holds part selected t rolled rolled_groups →
c (group_at k (merged live_groups rolled_groups)) = wrap64 (usage c (in_group part k) t).
Proof.
intros Hc Hl Hr. destruct (Hl c k Hc) as [Hlsum Hlfit], (Hr c k Hc) as [Hrsum Hrfit].
rewrite merged_at by auto. by rewrite Hlsum, Hrsum.
Qed.

Lemma reads_section :
reads (lists order selected part)
  (live_groups ← live_by key selected tenantID (day * day_ns);
   rolled_groups ← rolled_by key' selected tenantID (day * day_ns);
   items ← any_order (map_to_list (merged live_groups rolled_groups));
   mret (merge_sort order items)).
Proof.
eapply reads_bind; [apply reads_live|]. intros live_groups. eapply reads_bind; [apply reads_rolled|]. intros rolled_groups.
set (groups := merged live_groups rolled_groups).
apply (reads_bind (λ _ items, items ≡ₚ map_to_list groups)); [intros t; by apply wp_any_order|].
intros items. apply reads_ret. intros t Hitems Hr Hl. rewrite <- (merge_sort_Permutation order items) in Hitems. split_and!.
- rewrite Hitems. apply NoDup_fst_map_to_list.
- by apply StronglySorted_merge_sort.
- intros c k Hc. rewrite (list_to_map_proper _ (map_to_list groups)); [|rewrite Hitems; apply NoDup_fst_map_to_list|done].
  rewrite list_to_map_to_list. by apply merged_usage.
Qed.
End section.

Lemma daily_columns_known c : c ∈ daily_columns → c ∈ columns.
Proof.
revert c. apply list.Forall_forall. unfold columns, daily_columns, tokens_of.
repeat apply list.Forall_cons_2; [..|by apply list.Forall_nil_2];
  apply list_elem_of_lookup; [exists 0%nat|exists 1%nat|exists 7%nat|exists 2%nat|exists 3%nat|exists 4%nat|exists 11%nat]; done.
Qed.

Lemma user_columns_known c : c ∈ user_columns → c ∈ columns.
Proof.
intros Hc. apply daily_columns_known. revert c Hc. apply list.Forall_forall. unfold user_columns, daily_columns.
repeat apply list.Forall_cons_2; [..|by apply list.Forall_nil_2];
  apply list_elem_of_lookup; [exists 0%nat|exists 1%nat|exists 2%nat|exists 6%nat]; done.
Qed.

(** All groups together. *)
Definition whole (key : Z * string * string) : unit := ().

Lemma whole_live c t : live c (in_group whole ()) t = live c reported t.
Proof. apply sum_map_ext. intros k v _. unfold in_group. by rewrite bool_decide_true, andb_true_r. Qed.

Lemma whole_rolled c t : rolled c (in_group whole ()) t = rolled c reported t.
Proof. apply sum_map_ext. intros k v _. unfold in_group. by rewrite bool_decide_true, andb_true_r. Qed.

Lemma whole_usage c t : usage c (in_group whole ()) t = usage c reported t.
Proof. unfold usage. by rewrite whole_live, whole_rolled. Qed.

Lemma summary_column c (live_groups rolled_groups : gmap () Totals) :
c ∈ columns → c (totals_wrap (totals_add (group_at () live_groups) (group_at () rolled_groups))) =
  wrap64 (c (group_at () live_groups) + c (group_at () rolled_groups)).
Proof. intros Hc. rewrite totals_wrap_column by done. by rewrite (proj1 (columns_additive c Hc)). Qed.

Lemma reads_summary :
reads (λ t summary, ∀ c, c ∈ columns → c summary = wrap64 (usage c reported t))
  (report_summary tenantID (day * day_ns)).
Proof.
eapply reads_bind; [by apply (reads_live whole columns)|]. intros live_groups.
eapply (reads_bind (λ _ _, True)); [intros t; by apply wp_attempt, wp_ret|]. intros _.
eapply reads_bind; [by apply (reads_rolled whole columns)|]. intros rolled_groups.
apply reads_ret. intros t Hr _ Hl c Hc. rewrite <- whole_usage. fold (group_at () live_groups) (group_at () rolled_groups).
rewrite summary_column by done. by rewrite (proj1 (Hl c () Hc)), (proj1 (Hr c () Hc)).
Qed.

#[local] Instance by_date_trans : Transitive by_date.
Proof. intros a b c. unfold by_date. lia. Qed.
#[local] Instance by_date_total : Total by_date.
Proof. intros a b. unfold by_date. lia. Qed.
#[local] Instance by_tokens_trans {K} : Transitive (@by_tokens K).
Proof. intros a b c. unfold by_tokens. lia. Qed.
#[local] Instance by_tokens_total {K} : Total (@by_tokens K).
Proof. intros a b. unfold by_tokens. lia. Qed.

Lemma reads_daily : reads (lists by_date daily_columns (λ key, key.1.1)) (report_daily tenantID (day * day_ns)).
Proof.
apply (reads_section by_date (λ key, key.1.1) daily_columns daily_columns_known); [|done].
intros l. apply (proj2 Hutc).
Qed.

Lemma reads_models : reads (lists by_tokens daily_columns snd) (report_models tenantID (day * day_ns)).
Proof. by apply (reads_section by_tokens snd daily_columns daily_columns_known). Qed.

Lemma reads_users :
reads (λ t items, tenantID = "" → lists by_tokens user_columns (λ key, key.1.2) t items) (report_users tenantID (day * day_ns)).
Proof.
unfold report_users. case_bool_decide as Ht; [|by apply reads_ret]. rewrite <- Ht.
eapply reads_mono; [by apply (reads_section by_tokens (λ key, key.1.2) user_columns user_columns_known)|]. by intros.
Qed.

Lemma reads_api_keys : reads (λ _ _, True) (report_api_keys tenantID (day * day_ns)).
Proof.
apply (reads_bind (λ _ _, True)).
- intros t. apply wp_bind, wp_find; [|by intros]. intros rows _. apply wp_bind, wp_guard; [|by intros]. intros _. by apply (wp_ret Direct E).
- intros groups. apply (reads_bind (λ _ _, True)); [intros t; by apply wp_any_order|]. intros items. by apply reads_ret.
Qed.

Lemma reads_report days : reads report_shows (report_since tenantID (day * day_ns) days).
Proof.
eapply reads_bind; [apply reads_summary|]. intros summary. eapply reads_bind; [apply reads_daily|]. intros daily.
eapply reads_bind; [apply reads_models|]. intros models. eapply reads_bind; [apply reads_api_keys|]. intros keys.
eapply reads_bind; [apply reads_users|]. intros users. apply reads_ret. by split.
Qed.
End statements.

Lemma report_shows_same tenantID day t t' report :
  (∀ c P, c ∈ columns → usage c P t' = usage c P t) → report_shows tenantID day t' report → report_shows tenantID day t report.
Proof.
  intros Hsame [Hsummary Hdaily Hmodels Husers]. split.
  - intros c Hc. by rewrite <- Hsame, Hsummary.
  - destruct Hdaily as (? & ? & Hd). split_and!; [done..|]. intros c k Hc. rewrite <- Hsame; [auto|by apply daily_columns_known].
  - destruct Hmodels as (? & ? & Hd). split_and!; [done..|]. intros c k Hc. rewrite <- Hsame; [auto|by apply daily_columns_known].
  - intros Ht. destruct (Husers Ht) as (? & ? & Hd). split_and!; [done..|]. intros c k Hc.
    rewrite <- Hsame; [auto|by apply user_columns_known].
Qed.

(** C15: Reports survive retention.  Whatever a run of retention has moved into daily facts, a
    report made after it shows what the logs and daily facts held before it: in its summary, and
    for each day, model and user once, in order, the sums of every selected column, as 64-bit
    integers.  (With dates in UTC; keys are reported from the remaining logs alone.) *)
Theorem reports_survive_retention `{TimeZone} `{Session} E E' fuel now policy t n r t' k tenantID day days n' report :
  utc → archive_ok t → RunRetention fuel now policy E t n = (r, t', k) →
  (report_since tenantID (day * day_ns) days E' t' n').1.1 = Ok report → report_shows tenantID day t report.
Proof.
  intros Hutc Hok Hrun Hreport.
  destruct (wp_direct _ _ _ _ _ _ _ _ (wp_RunRetention E fuel now policy t Hok) Hrun) as [Hret _].
  apply (report_shows_same _ _ _ t'); [apply (rt_usage _ _ _ _ Hret)|].
  destruct (report_since tenantID (day * day_ns) days E' t' n') as [[r' t''] k'] eqn:Hrep. cbn in Hreport. subst r'.
  by destruct (wp_direct _ _ _ _ _ _ _ _ (reads_report E' Hutc tenantID day days t') Hrep).
Qed.

(** ** Between the statements *)

Lemma wp_summary_around `{TimeZone} `{Session} E fuel now policy t tenantID day :
  utc → archive_ok t →
  wp Direct E (report_summary_around (RunRetention fuel now policy) tenantID (day * day_ns)) t (λ r t',
    match r with
    | Ok summary => ∀ c, c ∈ columns →
        let shown := reported tenantID day in c summary = wrap64 (usage c shown t + (live c shown t - live c shown t'))
    | Err _ => True
    end).
Proof.
  intros Hutc Hok. apply wp_bind. eapply wp_mono; [by apply (reads_live E tenantID day whole columns)|].
  intros [live_groups|e] t1 [-> Hl]; [|done]. apply wp_bind, wp_attempt.
  eapply wp_mono; [by apply (wp_RunRetention E fuel now policy t Hok)|]. intros o t1 [Hret _]. apply wp_bind.
  eapply wp_mono; [by apply (reads_rolled E Hutc tenantID day whole columns)|].
  intros [rolled_groups|e] t2 [-> Hr]; [|done]. apply wp_ret. intros c Hc.
  fold (group_at () live_groups) (group_at () rolled_groups). rewrite summary_column by done.
  rewrite (proj1 (Hl c () Hc)), (proj1 (Hr c () Hc)). f_equal.
  rewrite whole_live, whole_rolled. pose proof (rt_usage _ _ _ _ Hret c (reported tenantID day) Hc) as Hsame.
  unfold usage in *. lia.
Qed.

(** C17: A report counts twice what retention moves while it reads.  Its statements see different
    states: if retention runs between them, to its end or until it is interrupted, the summary is
    the usage before plus, once more, all that the run has moved from the logs into the daily
    facts. *)
Theorem reports_count_moved_logs_twice `{TimeZone} `{Session} E fuel now policy t n summary t' k tenantID day c :
  utc → archive_ok t →
  report_summary_around (RunRetention fuel now policy) tenantID (day * day_ns) E t n = (Ok summary, t', k) → c ∈ columns →
  c summary = wrap64 (usage c (reported tenantID day) t +
    (live c (reported tenantID day) t - live c (reported tenantID day) t')).
Proof.
  intros Hutc Hok Hrun Hc.
  exact (wp_direct _ _ _ _ _ _ _ _ (wp_summary_around E fuel now policy t tenantID day Hutc Hok) Hrun c Hc).
Qed.
