(* ===== verification/ReportSample.v ===== *)
(** * Concrete reports

    The old archive of the retention sample, reported on before, after and
    during the run that compacts it; and a heatmap of three rows. *)

From S2P Require Import Prelude.
From S2P Require Import Float64.
From S2P Require Import Cost.
From S2P Require Import Database.
From S2P Require Import Schema.
From S2P Require Import RequestLogs.
From S2P Require Import Sample.
From S2P Require Import Machine.
From S2P Require Import Effects.
From S2P Require Import Retention.
From S2P Require Import RetentionGuarantees.
From S2P Require Import RetentionSample.
From S2P Require Import Statistics.
From S2P Require Import ReportGuarantees.
From S2P Require Import Heatmap.
From S2P Require Import HeatmapGuarantees.

#[local] Instance utc_session : Session := {| date_param at_ := at_ / day_ns; session_day at_ := at_ / day_ns |}.

Lemma utc_session_utc : utc.
Proof. split; [|done]. intros day. by apply Z.div_mul. Qed.

Definition report_of (t : archive) : result usage_report := (report_since "" (0 * day_ns) 30 calm t 0%nat).1.1.
Definition interrupted : result Totals * archive * nat :=
  report_summary_around (RunRetention 20 (100 * day_ns) monthly) "" (0 * day_ns) calm old_archive 0%nat.
Definition heatmap_of (t : archive) : result HeatReport := (TokenHeatmap "acme" (100 * day_ns) calm t 0%nat).1.1.
#[local] Strategy expand [report_of interrupted heatmap_of].

Definition three_rows : list HeatUsage := [Build_HeatUsage 100 "gpt-5" 70; Build_HeatUsage 100 "" 30; Build_HeatUsage 99 "gpt-5" 20].

Lemma old_archive_sound : sound old_archive.
Proof. split; apply map_Forall_to_list; vm_dec. Qed.

Lemma reports_survive_retention_witness :
  ∃ report, report_of swept.1.2 = Ok report ∧ tt_CostNanoUSD (ur_summary report) = 110 ∧ report_shows "" 0 old_archive report.
Proof.
  assert (match report_of swept.1.2 with Ok report => tt_CostNanoUSD (ur_summary report) =? 110 | Err _ => false end = true) as Hok
    by by vm_compute.
  destruct swept as [[r t'] k] eqn:Hrun. cbn [fst snd] in *. unfold report_of in *.
  destruct (report_since "" (0 * day_ns) 30 calm t' 0%nat).1.1 as [report|] eqn:Hreport; [|discriminate Hok].
  exists report. split; [done|]. split; [by apply Z.eqb_eq|].
  apply (reports_survive_retention calm calm 20 (100 * day_ns) monthly old_archive 0%nat r t' k "" 0 30 0%nat report);
    [apply utc_session_utc|apply old_archive_ok|exact Hrun|exact Hreport].
Defined.

Lemma reports_count_moved_logs_twice_witness :
  ∃ summary, interrupted.1.1 = Ok summary ∧ tt_CostNanoUSD summary = 220 ∧ usage tt_CostNanoUSD (reported "" 0) old_archive = 110.
Proof.
  assert (match interrupted.1.1 with Ok _ => live tt_CostNanoUSD (reported "" 0) interrupted.1.2 =? 0 | Err _ => false end = true) as Hok
    by by vm_compute.
  assert (usage tt_CostNanoUSD (reported "" 0) old_archive = 110 ∧ live tt_CostNanoUSD (reported "" 0) old_archive = 110)
    as [Hu Hl] by (split; by vm_compute).
  destruct interrupted as [[[summary|e] t'] k] eqn:Hrun; cbn [fst snd] in *; [|discriminate Hok]. apply Z.eqb_eq in Hok.
  exists summary. split; [done|]. split; [|exact Hu].
  rewrite (reports_count_moved_logs_twice calm 20 (100 * day_ns) monthly old_archive 0%nat summary t' k "" 0 tt_CostNanoUSD).
  - by rewrite Hu, Hl, Hok.
  - apply utc_session_utc.
  - apply old_archive_ok.
  - exact Hrun.
  - apply list_elem_of_lookup. by exists 11%nat.
Defined.

Lemma heatmap_survives_retention_witness :
  match heatmap_of old_archive with Ok report => hp_TotalTokens report = 10 | Err _ => False end ∧
  ar_logs swept.1.2 = ∅ ∧ heatmap_of swept.1.2 = heatmap_of old_archive.
Proof.
  split; [by vm_compute|]. split; [by vm_compute|]. destruct swept as [[r t'] k] eqn:Hrun. cbn [fst snd]. unfold heatmap_of.
  apply (heatmap_survives_retention calm calm 20 (100 * day_ns) monthly old_archive 0%nat r t' k);
    [apply old_archive_ok|apply old_archive_sound|exact Hrun].
Defined.

Lemma heatmap_adds_up_witness : hp_TotalTokens (Build (100 * day_ns) three_rows) = 120.
Proof.
  destruct (heatmap_adds_up (100 * day_ns) three_rows) as (_ & Htotal & _); [by apply Z.leb_le; vm_compute|].
  rewrite Htotal. by vm_compute.
Defined.

Lemma heatmap_grades_days_witness :
  ∃ d, hp_Days (Build (100 * day_ns) three_rows) !! 364%nat = Some d ∧ hd_Tokens d = 100 ∧ hd_Level d = 4.
Proof.
  assert (match hp_Days (Build (100 * day_ns) three_rows) !! 364%nat with
          | Some d => (hd_Tokens d =? 100) && (hd_Tokens d =? hp_PeakTokens (Build (100 * day_ns) three_rows)) | None => false end = true)
    as Hday by by vm_compute.
  destruct (hp_Days (Build (100 * day_ns) three_rows) !! 364%nat) as [d|] eqn:Hd; [|discriminate Hday].
  apply andb_true_iff in Hday as [H100%Z.eqb_eq Hpeak%Z.eqb_eq]. exists d. split; [done|]. split; [done|].
  apply list_elem_of_lookup_2 in Hd.
  apply (heatmap_grades_days (100 * day_ns) three_rows d d); [by apply Z.leb_le; vm_compute|done|done|lia|done].
Defined.
