(* ===== verification/QuotaReportGuarantees.v ===== *)
(** * Quota reports agree with admission *)

From S2P Require Import Prelude.
From S2P Require Import Database.
From S2P Require Import Schema.
From S2P Require Import QuotaMath.
From S2P Require Import ModelAccess.
From S2P Require Import Reservation.
From S2P Require Import Sample.
From S2P Require Import Books.
From S2P Require Import Accounting.
From S2P Require Import Machine.
From S2P Require Import Effects.
From S2P Require Import Guarantees.
From S2P Require Import QuotaReport.

(** An index of selected rows finds the rows that were selected. *)
Lemma index_selected {K V : Type} `{Countable K} (id : V → K) (cond : V → bool) (rows : gmap K V) l k v :
  keyed id rows → l ≡ₚ filter (λ v, cond v = true) ((map_to_list rows).*2) →
  (list_to_map ((λ v, (id v, v)) <$> l) : gmap K V) !! k = Some v ↔ rows !! k = Some v ∧ cond v = true.
Proof.
  intros Hkey Hl. rewrite <- elem_of_list_to_map.
  - rewrite list_elem_of_fmap. split.
    + intros (w & [= -> ->] & Hin). rewrite Hl, list_elem_of_filter, list_elem_of_fmap in Hin.
      destruct Hin as [Hc [[k' w'] [-> Hk%elem_of_map_to_list]]]. cbn in *.
      pose proof (Hkey _ _ Hk) as Hid. cbn in Hid. by rewrite Hid.
    + intros [Hk Hc]. exists v. pose proof (Hkey _ _ Hk) as Hid. cbn in Hid. split; [by rewrite Hid|].
      rewrite Hl, list_elem_of_filter, list_elem_of_fmap. split; [done|]. exists (k, v). by rewrite elem_of_map_to_list.
  - rewrite <- list_fmap_compose. change (NoDup (id <$> l)). rewrite Hl.
    eapply sublist_NoDup; [|apply fmap_sublist, sublist_filter]. rewrite keyed_ids by done. apply NoDup_fst_map_to_list.
Qed.

(** ** What a report lists *)

(** The share [c] of [p] is active, metered, and a candidate for some model that the key may use. *)
Definition entitled (key : KeyContext) (models : list string) (now : Z) (t : tables)
    (c : ChildSubscription) (p : ParentSubscription) : Prop :=
  (child_active (k_TenantID (kc_APIKey key)) now c = true ∧ ∃ k, tb_children t !! k = Some c) ∧
  ps_CapacityMode p = ParentCapacityObserved ∧
  ∃ model, model ∈ models ∧ key_AllowsModel key model = true ∧ usable model (tb_parents t) c p.

(** The window shown for the parent's window [pw]: the child's fraction of its limit, with what the
    child's own window holds if that is of the same generation, and with nothing otherwise. *)
Record shows_window (now : Z) (t : tables) (c : ChildSubscription) (pw : ParentQuotaWindow) (w : ChildQuotaWindow) : Prop := {
  sw_key : window_key w = (c_ID c, pw_Kind pw);
  sw_generation : w_ResetsAt w = pw_ResetsAt pw;
  sw_limit : w_LimitNanoUSD w = fraction (pw_LimitNanoUSD pw) (c_AllocationPPM c);
  sw_present old : tb_child_windows t !! (c_ID c, pw_Kind pw) = Some old → w_ResetsAt old = pw_ResetsAt pw →
    w_SettledNanoUSD w = w_SettledNanoUSD old ∧ w_ReservedNanoUSD w = w_ReservedNanoUSD old ∧ w_StartedAt w = w_StartedAt old;
  sw_other : (∀ old, tb_child_windows t !! (c_ID c, pw_Kind pw) = Some old → w_ResetsAt old ≠ pw_ResetsAt pw) →
    w_SettledNanoUSD w = 0 ∧ w_ReservedNanoUSD w = 0 ∧ w_StartedAt w = now
}.

Lemma shown_window_shows now t c pw : keyed window_key (tb_child_windows t) →
  shows_window now t c pw (shown_window now (tb_child_windows t) c pw).
Proof.
  intros Hk. unfold shown_window. destruct (tb_child_windows t !! (c_ID c, pw_Kind pw)) as [old|] eqn:Hold.
  - pose proof (Hk _ _ Hold) as Hkey. destruct (Z.eqb_spec (w_ResetsAt old) (pw_ResetsAt pw)) as [Heq|Hne]; split; try done.
    + intros old'. rewrite Hold. by intros [= <-].
    + intros Hother. by destruct (Hother old Hold).
    + intros old'. rewrite Hold. by intros [= <-].
  - split; try done. by rewrite Hold.
Qed.

Lemma shows_window_unique now t c pw w w' : shows_window now t c pw w → shows_window now t c pw w' → w = w'.
Proof.
  intros [K1 G1 L1 P1 O1] [K2 G2 L2 P2 O2]. destruct w as [ch1 ki1 st1 re1 li1 se1 rv1], w' as [ch2 ki2 st2 re2 li2 se2 rv2]. cbn in *.
  unfold window_key in *. cbn in *. destruct (tb_child_windows t !! (c_ID c, pw_Kind pw)) as [old|].
  - destruct (decide (w_ResetsAt old = pw_ResetsAt pw)) as [Heq|Hne].
    + destruct (P1 old eq_refl Heq) as (? & ? & ?), (P2 old eq_refl Heq) as (? & ? & ?). congruence.
    + destruct O1 as (? & ? & ?); [by intros ? [= <-]|]. destruct O2 as (? & ? & ?); [by intros ? [= <-]|]. congruence.
  - destruct O1 as (? & ? & ?); [done|]. destruct O2 as (? & ? & ?); [done|]. congruence.
Qed.

(** What admission makes of the window that is shown: it takes an amount only if the window has
    room for it and books it on top, and it calls the share exhausted only if there is no room. *)
Definition admission_uses (E : env) (t : tables) (c : ChildSubscription) (pw : ParentQuotaWindow) (w : ChildQuotaWindow) : Prop :=
  ∀ quota, 0 < quota ≤ max_int64 → wp InTx E (reserve_window quota c pw) t (λ r t',
    match r with
    | Ok _ => ∃ row, tb_child_windows t' = <[(c_ID c, pw_Kind pw) := row]> (tb_child_windows t) ∧
        w_ResetsAt row = w_ResetsAt w ∧ 0 < w_LimitNanoUSD w ∧ w_LimitNanoUSD row = w_LimitNanoUSD w ∧
        w_SettledNanoUSD row = w_SettledNanoUSD w ∧ w_ReservedNanoUSD row = w_ReservedNanoUSD w + quota ∧
        (w_SettledNanoUSD row + w_ReservedNanoUSD row ≤ max_int64 →
         w_SettledNanoUSD row + w_ReservedNanoUSD row ≤ w_LimitNanoUSD w)
    | Err ErrSubscriptionExhausted =>
        w_LimitNanoUSD w ≤ 0 ∨ w_LimitNanoUSD w < w_SettledNanoUSD w +₆₄ w_ReservedNanoUSD w +₆₄ quota
    | Err _ => True
    end).

Lemma refused_window E now t c pw w quota : shows_window now t c pw w →
  wp InTx E (reserve_window quota c pw) t (λ r _, r = Err ErrSubscriptionExhausted →
    w_LimitNanoUSD w ≤ 0 ∨ w_LimitNanoUSD w < w_SettledNanoUSD w +₆₄ w_ReservedNanoUSD w +₆₄ quota).
Proof.
  intros [_ _ Hlimit Hpresent Hother]. unfold reserve_window. cbv zeta. rewrite <- Hlimit.
  apply wp_bind, wp_guard; [intros _|intros ?%negb_false_iff%Z.leb_le; by left].
  apply wp_bind, wp_now. intros at_. apply wp_bind, wp_guard; [intros _|done].
  assert (Hend : ∀ (window : ChildQuotaWindow) t1, w_SettledNanoUSD window = w_SettledNanoUSD w →
    w_ReservedNanoUSD window = w_ReservedNanoUSD w → wp InTx E (
      guard_that (negb (w_LimitNanoUSD w <? w_SettledNanoUSD window +₆₄ w_ReservedNanoUSD window +₆₄ quota)) ErrSubscriptionExhausted;;
      update child_windows (c_ID c, pw_Kind pw) (λ w0, w0 <| w_LimitNanoUSD := w_LimitNanoUSD w;
        w_ReservedNanoUSD := w_ReservedNanoUSD window +₆₄ quota |>);;
      mret {| qr_Kind := pw_Kind pw; qr_ResetsAt := pw_ResetsAt pw |}) t1 (λ r _, r = Err ErrSubscriptionExhausted →
      w_LimitNanoUSD w ≤ 0 ∨ w_LimitNanoUSD w < w_SettledNanoUSD w +₆₄ w_ReservedNanoUSD w +₆₄ quota)).
  { intros window t1 -> ->. apply wp_bind, wp_guard; [intros _|intros Hr%negb_false_iff%Z.ltb_lt _; by right].
    apply wp_bind, wp_update; intros; by (apply wp_ret || done). }
  apply wp_bind, wp_attempt, wp_first; cbn [is_not_found orb]; [| |done].
  - intros old Hold. cbn in Hold. apply wp_bind, wp_guard; [intros _|done]. apply wp_bind. case_bool_decide as Hgen.
    + destruct Hother as (? & ? & _); [intros old'; rewrite Hold; by intros [= <-]|].
      apply wp_bind, wp_now. intros z. apply wp_bind, wp_upsert; [cbv zeta; intros Hc|done|done]. by apply wp_ret, Hend.
    + destruct (Hpresent old Hold) as (? & ? & _); [done|]. by apply wp_ret, Hend.
  - intros Hnone. cbn in Hnone. destruct Hother as (? & ? & _); [by rewrite Hnone|].
    apply wp_bind, wp_guard; [intros _|done]. apply wp_bind, wp_bind, wp_now. intros z.
    apply wp_bind, wp_upsert; [cbv zeta; intros Hc|done|done]. by apply wp_ret, Hend.
Qed.

Lemma window_used E now t c pw w :
  keyed window_key (tb_child_windows t) → (∀ k v, tb_child_windows t !! k = Some v → window_row_ok v) →
  shows_window now t c pw w → admission_uses E t c pw w.
Proof.
  intros Hk Hrows Hw quota Hq. eapply wp_mono.
  { apply wp_and; [|by apply (refused_window E now t c pw w)]. apply (success_reserve_window E quota c pw t (λ _ t',
      ∃ row, tb_child_windows t' = <[(c_ID c, pw_Kind pw) := row]> (tb_child_windows t) ∧
      claimed_window quota c pw (tb_child_windows t !! (c_ID c, pw_Kind pw)) row ∧ window_row_ok row)); [done..|].
    intros row [Hclaim Hok]. by exists row. }
  intros [q|e] t' [Hr Hno]; [|destruct e; try done; by apply Hno]. clear Hno.
  destruct Hr as (row & Ht' & [Hkey Hgen Hlim Hpos Huse Hwithin] & Hok%window_row_ok_iff). exists row.
  destruct Hw as [_ Hg Hl Hpresent Hother].
  assert (w_SettledNanoUSD row = w_SettledNanoUSD w ∧ w_ReservedNanoUSD row = w_ReservedNanoUSD w + quota) as [Hs Hv].
  { destruct (tb_child_windows t !! (c_ID c, pw_Kind pw)) as [old|].
    - destruct Huse as [_ Huse]. case_bool_decide as Heq.
      + destruct (Hpresent old eq_refl) as (-> & -> & _); [congruence|exact Huse].
      + destruct Hother as (-> & -> & _); [intros ? [= <-]; congruence|exact Huse].
    - destruct Hother as (-> & -> & _); [done|exact Huse]. }
  split_and!; try congruence. intros Hmax. rewrite wrap64_id in Hwithin; [lia|int64_lia].
Qed.

(** The entry of a share: a window for each known window of the parent. *)
Record lists_share (now : Z) (t : tables) (c : ChildSubscription) (p : ParentSubscription) (q : SubscriptionQuota) : Prop := {
  ls_child : sq_ChildID q = c_ID c;
  ls_name : sq_Name q = c_Name c;
  ls_provider : sq_Provider q = ps_Provider p;
  ls_windows : ∀ w, w ∈ sq_Windows q ↔ ∃ k pw, tb_parent_windows t !! k = Some pw ∧
    pw_ParentSubscriptionID pw = c_ParentSubscriptionID c ∧ 0 ≤ pw_LimitNanoUSD pw ∧
    shows_window now t c pw w
}.

Lemma key_allowlist key model : key_AllowsModel key model = true → modelAllowed model [k_ModelAllowlist (kc_APIKey key)] = true.
Proof. unfold key_AllowsModel. by destruct (modelAllowed model [k_ModelAllowlist _]). Qed.

Lemma allowed_for_key key model lists :
  key_AllowsModel key model = true →
  modelAllowed model (k_ModelAllowlist (kc_APIKey key) :: lists) = modelAllowed model lists.
Proof.
  intros Hkey%key_allowlist. apply eq_true_iff_eq. rewrite !modelAllowed_true in *.
  setoid_rewrite elem_of_cons. setoid_rewrite list_elem_of_singleton in Hkey. naive_solver.
Qed.

Lemma eligible_spec key models now t byParent c cp :
  (∀ p, byParent !! c_ParentSubscriptionID c = Some p ↔
     tb_parents t !! c_ParentSubscriptionID c = Some p ∧ metered_parent p = true) →
  child_active (k_TenantID (kc_APIKey key)) now c = true → (∃ k, tb_children t !! k = Some c) →
  quota_eligible key models byParent c = Some cp ↔ cp.1 = c ∧ entitled key models now t c cp.2.
Proof.
  intros Hby Hactive Hrow. unfold quota_eligible, entitled, usable, serves.
  assert (∀ p, metered_parent p = true ↔ parent_unusable p = false ∧ ps_CapacityMode p = ParentCapacityObserved) as Hmet.
  { intros p. unfold metered_parent, parent_unusable. rewrite !andb_true_iff, !orb_false_iff, !negb_true_iff, negb_false_iff, bool_decide_eq_true. tauto. }
  assert (∀ p, ps_CapacityMode p = ParentCapacityObserved → child_models c p = c_ModelAllowlist c) as Hmodels
    by (intros p Hp; unfold child_models; by rewrite decide_False by (by rewrite Hp)).
  destruct cp as [c' p']. cbn. destruct (byParent !! _) as [p|] eqn:Hp.
  - clear Hp. destruct (proj1 (Hby p) eq_refl) as [Hp [Hun Hmode]%Hmet].
    assert (existsb (λ model, key_AllowsModel key model && modelAllowed model [k_ModelAllowlist (kc_APIKey key);
      c_ModelAllowlist c; ps_ModelAllowlist p; ps_UpstreamModelAllowlist p]) models = true ↔
      ∃ model, model ∈ models ∧ key_AllowsModel key model = true ∧
        modelAllowed model [child_models c p; ps_ModelAllowlist p; ps_UpstreamModelAllowlist p] = true) as Hex.
    { rewrite existsb_exists. setoid_rewrite <- list_elem_of_In. setoid_rewrite andb_true_iff. rewrite (Hmodels p Hmode).
      split; intros (model & Hin & Hk & Hm); exists model; (split; [done|split; [done|]]);
        [by rewrite allowed_for_key in Hm|by rewrite allowed_for_key]. }
    destruct (existsb _ _) eqn:Hb.
    + destruct Hex as [(model & ? & ? & ?) _]; [done|]. split.
      * intros [= <- <-]. split; [done|]. split; [done|]. split; [done|]. by exists model.
      * intros [-> (_ & _ & model' & _ & _ & [Hp' _] & _)]. congruence.
    + split; [done|]. intros [-> (_ & Hm & model & Hin & Hk & [Hp' Hall] & _)]. rewrite Hp' in Hp. injection Hp as ->.
      enough (false = true) by done. apply Hex. by exists model.
  - split; [done|]. intros [-> (_ & Hm & model & _ & _ & [Hp' _] & Hun)]. exfalso.
    enough (None = Some p') by done. apply Hby. split; [done|]. by apply Hmet.
Qed.

Lemma windows_listed now t (rows : list ChildSubscription) existing windows c p :
  windows ≡ₚ filter (λ w, bool_decide (pw_ParentSubscriptionID w ∈ (c_ParentSubscriptionID <$> rows)) = true)
    (map_to_list (tb_parent_windows t)).*2 →
  keyed window_key (tb_child_windows t) → c ∈ rows → (∀ kind, existing !! (c_ID c, kind) = tb_child_windows t !! (c_ID c, kind)) →
  lists_share now t c p (project_quota now (merge_sort by_kind windows) existing (c, p)).
Proof.
  intros Hwindows Hkeyed Hc Hex. split; try done. intros w. cbn [sq_Windows project_quota].
  assert (∀ pw, shown_window now existing c pw = shown_window now (tb_child_windows t) c pw) as Hshown
    by (intros pw; unfold shown_window; by rewrite Hex).
  pose proof (λ pw, elem_of_rows parent_windows _ t windows pw Hwindows) as Hrow. cbn in Hrow.
  rewrite list_elem_of_fmap. split.
  - intros (pw & -> & Hin). apply list_elem_of_filter in Hin as [Hsel Hin].
    apply andb_true_iff in Hsel as [Hp%bool_decide_eq_true Hl%Z.leb_le].
    rewrite (merge_sort_Permutation by_kind windows) in Hin. apply Hrow in Hin as [_ [k Hk]]. exists k, pw. rewrite Hshown.
    split_and!; [done..|by apply shown_window_shows].
  - intros (k & pw & Hk & Hp & Hl & Hw). exists pw. rewrite Hshown.
    split; [by eapply shows_window_unique, shown_window_shows|]. apply list_elem_of_filter. split.
    + apply andb_true_iff. split; [by apply bool_decide_eq_true|by apply Z.leb_le].
    + rewrite (merge_sort_Permutation by_kind windows). apply Hrow. split; [|by exists k].
      apply bool_decide_eq_true. rewrite Hp. apply list_elem_of_fmap. by exists c.
Qed.

(** The entries of a report are those of the entitled shares. *)
Definition reports_shares (key : KeyContext) (models : list string) (now : Z) (t : tables) (quotas : list SubscriptionQuota) : Prop :=
  (∀ q, q ∈ quotas → ∃ c p, entitled key models now t c p ∧ lists_share now t c p q) ∧
  (∀ c p, entitled key models now t c p → ∃ q, q ∈ quotas ∧ lists_share now t c p q).

Lemma reports_none key models now t :
  (∀ c p, ¬ entitled key models now t c p) → reports_shares key models now t [].
Proof. intros Hno. split; [intros q Hq; by apply not_elem_of_nil in Hq|]. intros c p He. by destruct (Hno c p). Qed.

Lemma wp_SubscriptionQuotas x E key models now t :
  keyed ps_ID (tb_parents t) → keyed window_key (tb_child_windows t) →
  wp x E (SubscriptionQuotas key models now) t (λ r t', t' = t ∧
    match r with Ok quotas => reports_shares key models now t quotas | Err _ => ¬ quiet E end).
Proof.
  intros Hparents Hwin. apply wp_bind, wp_find_ordered; [intros l Hl|done]. set (rows := merge_sort by_child_id l).
  assert (Hrows : ∀ c, c ∈ rows ↔ child_active (k_TenantID (kc_APIKey key)) now c = true ∧ ∃ k, tb_children t !! k = Some c).
  { intros c. unfold rows. rewrite merge_sort_Permutation. exact (elem_of_rows children _ t l c Hl). }
  clearbody rows. clear l Hl. case_bool_decide as Hlen.
  { apply wp_ret. split; [done|]. apply reports_none. intros c p [Hc%Hrows _]. apply length_zero_iff_nil in Hlen.
    subst. by apply not_elem_of_nil in Hc. }
  clear Hlen. apply wp_bind, wp_find; [intros l Hl|done]. cbv zeta. set (byParent := list_to_map _ : gmap string ParentSubscription).
  assert (Hel : ∀ c cp, c ∈ rows → quota_eligible key models byParent c = Some cp ↔ cp.1 = c ∧ entitled key models now t c cp.2).
  { intros c cp Hc. pose proof (proj1 (Hrows c) Hc) as [Hact Hrow]. apply eligible_spec; [|done|done]. intros p. unfold byParent.
    rewrite (index_selected ps_ID _ (tb_parents t) l _ _ Hparents Hl), andb_true_iff, bool_decide_eq_true.
    split; [tauto|]. intros [Hp Hm]. split_and!; [done| |done]. rewrite (keyed_lookup _ _ _ _ Hparents Hp).
    apply list_elem_of_fmap. by exists c. }
  clearbody byParent. clear l Hl. set (eligible := omap (quota_eligible key models byParent) rows).
  assert (Hin : ∀ c p, (c, p) ∈ eligible ↔ entitled key models now t c p).
  { intros c p. unfold eligible. rewrite list_elem_of_omap. split.
    - intros (c' & Hc & Hcp). destruct (proj1 (Hel c' (c, p) Hc) Hcp) as [Heq He]. cbn in Heq. by subst.
    - intros He. assert (c ∈ rows) as Hc by (apply Hrows, He). exists c. split; [done|]. apply (Hel c (c, p) Hc). by split. }
  clearbody eligible. case_bool_decide as Hlen.
  { apply wp_ret. split; [done|]. apply reports_none. intros c p Hc%Hin. apply length_zero_iff_nil in Hlen.
    subst. by apply not_elem_of_nil in Hc. }
  apply wp_bind, wp_find_ordered; [intros windows Hwindows|done]. apply wp_bind, wp_find; [intros current Hcurrent|done].
  apply wp_ret. split; [done|].
  assert (Hone : ∀ c p, (c, p) ∈ eligible → lists_share now t c p (project_quota now (merge_sort by_kind windows)
    (list_to_map ((λ w, ((w_ChildSubscriptionID w, w_Kind w), w)) <$> current)) (c, p))).
  { intros c p Hcp. apply (windows_listed now t rows); [done|done|by apply Hrows, (proj1 (Hin c p) Hcp)|].
    intros kind. apply (index_rows window_key (λ w, bool_decide (w_ChildSubscriptionID w ∈ ((λ cp, c_ID cp.1) <$> eligible)) = true)); [done|done|].
    intros w Hw. apply bool_decide_eq_true. pose proof (keyed_lookup _ _ _ _ Hwin Hw) as Hk. injection Hk as -> _.
    apply list_elem_of_fmap. by exists (c, p). }
  split.
  - intros q ([c p] & -> & Hcp)%list_elem_of_fmap. exists c, p. split; [by apply Hin|by apply Hone].
  - intros c p Hcp%Hin. eexists. split; [by apply list_elem_of_fmap_2|by apply Hone].
Qed.

(** C16: A key is shown the shares that admission would use.  Over any reachable state the report lists,
    for the models of the request, exactly the metered shares that are candidates for a model the
    key may use, each with the known windows of its parent: the child's fraction of the limit, and
    what the child's window holds if it is of the parent's present generation, nothing otherwise.
    Admission counts the same: it takes an amount from a window only if what is shown leaves room
    for it, and books it on top, and it calls the share exhausted only if there is no room.  The report changes nothing. *)
Theorem quota_reports_match_admission E key models now t n quotas t' k :
  reachable t → SubscriptionQuotas key models now E t n = (Ok quotas, t', k) →
  t' = t ∧ reports_shares key models now t quotas ∧
  ∀ E' c pw w, shows_window now t c pw w → admission_uses E' t c pw w.
Proof.
  intros Ht%reachable_books Hrun. pose proof (bk_filed _ Ht) as Hf.
  destruct (wp_direct _ _ _ _ _ _ _ _ (wp_SubscriptionQuotas Direct E key models now t (filed_parents _ Hf) (filed_windows _ Hf)) Hrun)
    as [Ht' Hlisted].
  split; [done|]. split; [done|]. intros E' c pw w Hw. apply (window_used E' now t c pw w); [apply Hf| |done].
  intros [ch kind] v Hv. destruct (bk_quota _ Ht) as [[Hrow _] _]. by apply (Hrow ch kind).
Qed.

(** ** Witness

    Acme's pending request holds 300 of its half of the weekly 2000. *)

Definition acme_report : result (list SubscriptionQuota) * tables * nat :=
  SubscriptionQuotas acme_context ["gpt-5"] 0 calm running_store 0%nat.
#[local] Strategy expand [acme_report].

Lemma quota_reports_match_admission_witness :
  ∃ q w c p, acme_report.1.1 = Ok [q] ∧ sq_Windows q = [w] ∧ w_LimitNanoUSD w = 1000 ∧ w_ReservedNanoUSD w = 300 ∧
    entitled acme_context ["gpt-5"] 0 running_store c p ∧ lists_share 0 running_store c p q ∧
    ∃ pw, admission_uses calm running_store c pw w.
Proof.
  assert (match acme_report.1.1 with
          | Ok [q] => match sq_Windows q with [w] => (w_LimitNanoUSD w =? 1000) && (w_ReservedNanoUSD w =? 300) | _ => false end
          | _ => false end = true) as Hok by by vm_compute.
  destruct acme_report as [[[[|q [|]]|e] t'] k] eqn:Hrun; cbn [fst snd] in Hok; try discriminate Hok.
  destruct (sq_Windows q) as [|w [|]] eqn:Hw; try discriminate Hok. apply andb_true_iff in Hok as [Hl%Z.eqb_eq Hr%Z.eqb_eq].
  destruct (quota_reports_match_admission calm acme_context ["gpt-5"] 0 running_store 0%nat [q] t' k
    reachable_running_store Hrun) as (_ & [Hlisted _] & Huses).
  destruct (Hlisted q ltac:(by left)) as (c & p & He & Hs). exists q, w, c, p. split; [reflexivity|].
  split; [exact Hw|]. split; [exact Hl|]. split; [exact Hr|]. split; [exact He|]. split; [exact Hs|].
  destruct (proj1 (ls_windows _ _ _ _ _ Hs w)) as (k' & pw & _ & _ & _ & Hshows); [rewrite Hw; apply list_elem_of_here|].
  exists pw. exact (Huses calm c pw w Hshows).
Defined.
