(* ===== verification/TokenRate.v ===== *)
(** * The token rate of a day (internal/store/token_rate.go)

    Output tokens per second over the last twenty-four hours, in buckets of a
    minute.  The theorems say that the points cover the window without a gap
    and that every log of it is counted once. *)

From S2P Require Import Prelude.
From S2P Require Import Float64.
From S2P Require Import Cost.
From S2P Require Import Database.
From S2P Require Import Schema.
From S2P Require Import RequestLogs.
From S2P Require Import DeviceGrants.
From S2P Require Import Machine.
From S2P Require Import Retention.

(* src/internal/store/token_rate.go:10-14 TokenRatePoint *)
Record TokenRatePoint := { tr_Time : Z; tr_Tokens : Z; tr_TokensPerSecond : float64 }.

(** [at.Truncate(time.Minute).Add(time.Minute)]. *)
Definition next_minute (at_ : Z) : Z := at_ / minute * minute + minute.

(** [d.Seconds()]. *)
Definition duration_seconds (d : Z) : float64 :=
  f64_add (f64_of_Z (Z.quot d second)) (f64_div (f64_of_Z (Z.rem d second)) (f64_of_Z 1000000000)).

(* src/internal/store/token_rate.go:43-51 tokenRatePoints *)
Definition rate_point (now : Z) (totals : gmap Z Z) (at_ : Z) : TokenRatePoint :=
  let end_ := if now <? next_minute at_ then now else next_minute at_ in
  let seconds := duration_seconds (end_ - at_) in
  let seconds := if f64_lt seconds f64_one then f64_one else seconds in
  let tokens := default 0 (totals !! Z.quot (unix_seconds at_) 60) in
  {| tr_Time := at_; tr_Tokens := tokens; tr_TokensPerSecond := f64_div (f64_of_Z tokens) seconds |}.

(** [None]: out of fuel. *)
(* src/internal/store/token_rate.go:40-55 tokenRatePoints *)
Fixpoint tokenRatePoints (fuel : nat) (at_ now : Z) (totals : gmap Z Z) : option (list TokenRatePoint) :=
  match fuel with
  | O => None
  | S fuel =>
      if now <? at_ then Some []
      else points ← tokenRatePoints fuel (next_minute at_) now totals;
           Some (rate_point now totals at_ :: points)
  end.

(** The bucket in which PostgreSQL counts a log. *)
Definition log_bucket (l : RequestLog) : Z := unix_seconds (rl_CompletedAt l) / 60.

Definition bucket_sums (rows : list RequestLog) : gmap Z Z :=
  foldr (λ l m, <[log_bucket l := u_Completion (rl_Usage l) + default 0 (m !! log_bucket l)]> m) ∅ rows.

Definition last_day_log (now : Z) (l : RequestLog) : bool :=
  generation_log l && (now - 24 * hour <=? rl_CompletedAt l) && (rl_CompletedAt l <=? now).

(** A day has 1441 points at most; one step more finds the end. *)
Definition rate_fuel : nat := 1442.

(* src/internal/store/token_rate.go:16-38 Last24HoursTokenRate *)
Definition Last24HoursTokenRate (now : Z) : M archive (option (list TokenRatePoint)) :=
  let start := now - 24 * hour in
  rows ← find request_log_rows (last_day_log now);
  let totals := bucket_sums rows in
  guard_that (forallb (λ kv, (min_int64 <=? kv.2) && (kv.2 <=? max_int64)) (map_to_list totals))
    (ErrMessage "sql: Scan error: value out of range");;
  mret (tokenRatePoints rate_fuel start now totals).

(** ** The points *)

Lemma minute_pos : 0 < minute.
Proof. done. Qed.

(** Minute [k] of the window that starts at [start]. *)
Definition minute_at (start : Z) (k : Z) : Z := if k =? 0 then start else (start / minute + k) * minute.

Lemma next_minute_at start k : 0 ≤ k → next_minute (minute_at start k) = minute_at start (k + 1).
Proof.
  intros Hk. unfold next_minute, minute_at. rewrite (proj2 (Z.eqb_neq (k + 1) 0)) by lia.
  destruct (Z.eqb_spec k 0) as [->|]; [lia|]. rewrite Z.div_mul by done. lia.
Qed.

Lemma minute_bucket start k : 0 ≤ k → minute_at start k / minute = start / minute + k.
Proof. intros Hk. unfold minute_at. destruct (Z.eqb_spec k 0) as [->|]; [lia|]. by rewrite Z.div_mul. Qed.

Lemma points_from now totals start n : ∀ fuel k,
  0 ≤ k → (n < fuel)%nat → (∀ i, 0 ≤ i → minute_at start (k + i) ≤ now ↔ i < Z.of_nat n) →
  tokenRatePoints fuel (minute_at start k) now totals =
  Some ((λ i, rate_point now totals (minute_at start i)) <$> seqZ k (Z.of_nat n)).
Proof.
  induction n as [|n IH]; intros [|fuel] k Hk Hfuel Hend; try lia; cbn [tokenRatePoints].
  - specialize (Hend 0 ltac:(lia)). rewrite Z.add_0_r in Hend. by rewrite (proj2 (Z.ltb_lt _ _)) by lia.
  - pose proof (Hend 0 ltac:(lia)) as H0. rewrite Z.add_0_r in H0. rewrite (proj2 (Z.ltb_ge _ _)) by lia.
    rewrite next_minute_at, (IH fuel (k + 1)) by (lia || (intros i Hi; specialize (Hend (i + 1) ltac:(lia));
      replace (k + 1 + i) with (k + (i + 1)) by lia; lia)).
    rewrite (seqZ_cons k) by lia. cbn. repeat f_equal; lia.
Qed.

Lemma minute_at_ge start k : 0 ≤ k → start ≤ minute_at start k.
Proof.
  intros Hk. unfold minute_at. destruct (Z.eqb_spec k 0); [lia|]. pose proof (Z.mul_succ_div_gt start minute minute_pos).
  assert (minute * Z.succ (start / minute) ≤ minute * (start / minute + k)); [|lia]. apply Z.mul_le_mono_nonneg_l; [done|lia].
Qed.

(** A day touches 1441 minutes. *)
Lemma day_end now i : 0 ≤ i → minute_at (now - 24 * hour) i ≤ now ↔ i < 1441.
Proof.
  intros Hi. set (start := now - 24 * hour). assert (now / minute = start / minute + 1440) as Hnow.
  { unfold start. replace now with (now - 24 * hour + 1440 * minute) at 1 by (unfold hour; lia). by rewrite Z.div_add. }
  unfold minute_at. destruct (Z.eqb_spec i 0) as [->|Hne]; [unfold start, hour, minute, second; lia|].
  pose proof (Z.mul_div_le now minute minute_pos). pose proof (Z.mul_succ_div_gt now minute minute_pos). nia.
Qed.

(** The window has one point for each minute it touches. *)
Lemma day_points now totals :
  let start := now - 24 * hour in
  tokenRatePoints rate_fuel start now totals = Some ((λ i, rate_point now totals (minute_at start i)) <$> seqZ 0 1441).
Proof.
  intros start. change start with (minute_at start 0) at 1. apply (points_from now totals start 1441); [done|unfold rate_fuel; lia|].
  intros i Hi. by apply day_end.
Qed.

(** ** The sums *)

Lemma bucket_lookup rows b :
  default 0 (bucket_sums rows !! b) = sum_by (λ l, if bool_decide (log_bucket l = b) then u_Completion (rl_Usage l) else 0) rows.
Proof.
  induction rows as [|l rows IH]; [done|]. rewrite sum_by_cons, <- IH. cbn [bucket_sums foldr]. fold (bucket_sums rows).
  case_bool_decide as Hb.
  - subst. by rewrite lookup_insert_eq.
  - by rewrite lookup_insert_ne.
Qed.

(** The Unix epoch is a whole minute after the zero time. *)
Definition epoch : Z := 62135596800 * second.

Lemma unix_bucket t : unix_seconds t / 60 = t / minute - epoch / minute.
Proof.
  unfold unix_seconds. change (epoch / minute) with 1035593280.
  replace (t / second - 62135596800) with (t / second + (-1035593280) * 60) by lia. rewrite Z.div_add by done.
  rewrite Z.div_div by done. change (second * 60) with minute. lia.
Qed.

Lemma unix_quot t : epoch ≤ t → Z.quot (unix_seconds t) 60 = unix_seconds t / 60.
Proof.
  intros Ht. apply Z.quot_div_nonneg; [|done]. unfold unix_seconds, epoch in *.
  assert (62135596800 ≤ t / second); [|lia]. by apply Z.div_le_lower_bound; [done|lia].
Qed.

Lemma day_minutes now t : now - 24 * hour ≤ t ≤ now → (now - 24 * hour) / minute ≤ t / minute ≤ (now - 24 * hour) / minute + 1440.
Proof.
  intros [Hlo Hhi]. split; [by apply Z.div_le_mono|].
  replace (now - 24 * hour) with (now + (-1440) * minute) by (unfold hour; lia). rewrite Z.div_add by done.
  pose proof (Z.div_le_mono t now minute minute_pos Hhi). lia.
Qed.

(** The minutes of the window hold all of its logs. *)
Lemma points_sum now rows :
  epoch ≤ now - 24 * hour → (∀ l, l ∈ rows → now - 24 * hour ≤ rl_CompletedAt l ≤ now) →
  sum_by tr_Tokens ((λ i, rate_point now (bucket_sums rows) (minute_at (now - 24 * hour) i)) <$> seqZ 0 1441) =
  sum_by (λ l, u_Completion (rl_Usage l)) rows.
Proof.
  intros Hepoch Hin. set (start := now - 24 * hour) in *. set (first := start / minute - epoch / minute).
  rewrite sum_by_fmap. transitivity (sum_by (λ b, default 0 (bucket_sums rows !! b)) (seqZ first 1441)).
  - assert (seqZ first 1441 = Z.add first <$> seqZ 0 1441) as -> by (rewrite fmap_add_seqZ; f_equal; lia). rewrite sum_by_fmap. apply sum_by_ext. intros i [Hi _]%elem_of_seqZ. cbn.
    rewrite unix_quot by (pose proof (minute_at_ge start i Hi); lia). rewrite unix_bucket, minute_bucket by done.
    do 2 f_equal. unfold first. lia.
  - rewrite (sum_by_ext _ _ _ (λ b _, bucket_lookup rows b)). apply (sum_by_partition log_bucket); [apply NoDup_seqZ|].
    intros l Hl. apply elem_of_seqZ. unfold log_bucket. rewrite unix_bucket.
    pose proof (day_minutes now (rl_CompletedAt l) (Hin l Hl)). unfold first, start. lia.
Qed.

Definition counts_day (now : Z) (t : archive) (points : list TokenRatePoint) : Prop :=
  tr_Time <$> points = minute_at (now - 24 * hour) <$> seqZ 0 1441 ∧
  sum_by tr_Tokens points = sum_map (λ l, if last_day_log now l then u_Completion (rl_Usage l) else 0) (ar_logs t).

Lemma wp_token_rate E now t :
  epoch ≤ now - 24 * hour →
  wp Direct E (Last24HoursTokenRate now) t (λ r t', match r with
    | Ok answer => t' = t ∧ ∃ points, answer = Some points ∧ counts_day now t points
    | Err _ => True end).
Proof.
  intros Hepoch. apply wp_bind, wp_find; [|done]. intros rows Hrows. apply wp_bind, wp_guard; [|done]. intros _.
  apply wp_ret. split; [done|]. rewrite day_points. eexists. split; [done|]. split.
  - rewrite <- list_fmap_compose. by apply list_fmap_ext.
  - rewrite points_sum; [|done|].
    + by rewrite Hrows, sum_by_filter.
    + intros l Hl. rewrite Hrows, list_elem_of_filter in Hl. destruct Hl as [Hl _]. unfold last_day_log in Hl.
      rewrite !andb_true_iff, !Z.leb_le in Hl. lia.
Qed.

(** The rate of a day counts every log once.  For an instant at least a day after 1970, a query that
    succeeds always ends, with 1441 points: the first at the start of the window, the others at
    the whole minutes up to the present; and their tokens add up to the output tokens of the paid
    steps that were completed in the window, each counted once. *)
Theorem rate_counts_logs_once E t n now answer t' k :
  epoch ≤ now - 24 * hour → Last24HoursTokenRate now E t n = (Ok answer, t', k) →
  t' = t ∧ ∃ points, answer = Some points ∧ counts_day now t points.
Proof.
  intros Hepoch Hrun. exact (wp_direct _ _ _ _ _ _ _ _ (wp_token_rate E now t Hepoch) Hrun).
Qed.
