(* ===== verification/CodexConfig.v ===== *)
(** * Managed configuration of a client (internal/rai/codex_configure.go, codex_restore.go)

    The command-line client writes its provider into the configuration file of
    Codex and takes it out again.  A journal of the file before and after lets
    it undo its own changes, and only those, even after the user has edited the
    file or the process was killed halfway. *)

From stdpp Require Import pretty.
From S2P Require Import Prelude.
From S2P Require Import Database.

(** ** Documents *)

(** A value that is not a table: text, booleans, and the rest by the text in which it
    is written (TOML's nan, which differs from itself, is left out). *)
Inductive plain := PText (s : string) | PBool (b : bool) | POther (text : string).

#[export] Instance plain_eq_dec : EqDecision plain.
Proof. solve_decision. Defined.

(** [any] in a [map[string]any] that was decoded from TOML. *)
Inductive value := Plain (p : plain) | Table (m : gmap string value).
Notation document := (gmap string value).

(** [reflect.DeepEqual]. *)
#[export] Instance value_eq_dec : EqDecision value.
Proof.
  refine (fix go (v w : value) : Decision (v = w) :=
    match v, w with
    | Plain p, Plain q => cast_if (decide (p = q))
    | Table m, Table n => cast_if (@decide (m = n) (let _ : EqDecision value := go in _))
    | _, _ => right _
    end); try congruence.
Defined.

Fixpoint depth (v : value) : nat :=
  match v with
  | Plain _ => O
  | Table m => S (map_fold (λ _ w d, depth w `max` d)%nat O m)
  end.

(** ** The provider of RelayAPI *)

(* src/internal/rai/codex_capabilities.go:6-11 CodexCapabilities *)
Record CodexCapabilities := {
  cx_Version : Z;
  cx_WebSockets : bool;
  cx_StandaloneWebSearch : bool;
  cx_RemoteCompaction : bool
}.

(* src/internal/rai/codex_capabilities.go:16-21 effectiveCodexCapabilities *)
Definition effectiveCodexCapabilities (c : option CodexCapabilities) : CodexCapabilities :=
  match c with
  | Some c => if cx_Version c =? 1 then c else Build_CodexCapabilities 1 false false false
  | None => Build_CodexCapabilities 1 false false false
  end.

(** What the configuration takes from a profile. *)
(* src/internal/rai/config.go:26-38 Profile *)
Record Profile := { pf_ServerURL : string; pf_DefaultModel : string; pf_ReasoningEffort : string }.

(** [strings.TrimRight(s, "/")]. *)
Fixpoint trim_slashes (s : string) : string :=
  match s with
  | EmptyString => EmptyString
  | String c s' =>
      match trim_slashes s' with
      | EmptyString => if decide (c = "/"%char) then EmptyString else String c EmptyString
      | rest => String c rest
      end
  end.

(* src/internal/rai/codex_configure.go:287-298 codexTable *)
Definition codexTable (parent : document) (name : string) : result document :=
  match parent !! name with
  | Some (Table table) => Ok table
  | Some (Plain _) => Err (ErrMessage ("Codex configuration " +:+ name +:+ " must be a table"))
  | None => Ok ∅
  end.

Definition is_authorization (name : string) : bool := equal_fold name "Authorization".

Definition header_tables : list string := ["http_headers"; "env_http_headers"].

Definition without_authorization (headers : document) : document :=
  filter (λ kv, is_authorization kv.1 = false) headers.

(** A saved Authorization header would override the selected credential. *)
(* src/internal/rai/codex_configure.go:245-253 mergeCodexProvider *)
Definition drop_authorization (provider : document) (field : string) : document :=
  match provider !! field with
  | Some (Table headers) => <[field := Table (without_authorization headers)]> provider
  | _ => provider
  end.

Definition static_fields : list string :=
  ["experimental_bearer_token"; "env_key"; "env_key_instructions"; "requires_openai_auth"].

(* src/internal/rai/codex_configure.go:240-276 mergeCodexProvider *)
Definition merge_provider (provider : document) (profile : Profile) (auth : document)
    (advertised : option CodexCapabilities) : result document :=
  let provider := foldl (λ p field, delete field p) provider static_fields in
  let provider := foldl drop_authorization provider header_tables in
  let provider := <["name" := Plain (PText "RelayAPI")]> provider in
  let provider := <["base_url" := Plain (PText (trim_slashes (pf_ServerURL profile) +:+ "/v1"))]> provider in
  let provider := <["wire_api" := Plain (PText "responses")]> provider in
  let effective := effectiveCodexCapabilities advertised in
  let provider := <["supports_websockets" := Plain (PBool (cx_WebSockets effective))]> provider in
  let provider := <["supports_standalone_web_search" := Plain (PBool (cx_StandaloneWebSearch effective))]> provider in
  match codexTable provider "capabilities" with
  | Err e => Err e
  | Ok overrides =>
      let overrides := if cx_RemoteCompaction effective
                       then <["remote_compaction" := Plain (PText "v2")]> overrides
                       else delete "remote_compaction" overrides in
      let provider := if bool_decide (overrides = ∅) then delete "capabilities" provider
                      else <["capabilities" := Table overrides]> provider in
      Ok (<["auth" := Table auth]> provider)
  end.

(* src/internal/rai/codex_configure.go:231-285 mergeCodexProvider *)
Definition mergeCodexProvider (doc : document) (profile : Profile) (auth : document) (id : string)
    (advertised : option CodexCapabilities) : result document :=
  match codexTable doc "model_providers" with
  | Err e => Err e
  | Ok providers =>
      match codexTable providers id with
      | Err e => Err e
      | Ok provider =>
          match merge_provider provider profile auth advertised with
          | Err e => Err e
          | Ok provider =>
              let doc := <["model_providers" := Table (<[id := Table provider]> providers)]> doc in
              let doc := <["model_provider" := Plain (PText id)]> doc in
              let doc := if bool_decide (pf_DefaultModel profile = "") then doc
                         else <["model" := Plain (PText (pf_DefaultModel profile))]> doc in
              Ok (if bool_decide (pf_ReasoningEffort profile = "") then doc
                  else <["model_reasoning_effort" := Plain (PText (pf_ReasoningEffort profile))]> doc)
          end
      end
  end.

(** A name for a provider that is not in use.  [None]: out of fuel. *)
Definition numbered (i : nat) : string :=
  if decide (i = 1%nat) then "relayapi_rai" else "relayapi_rai_" +:+ pretty i.

(* src/internal/rai/codex_configure.go:60-66 codexRuntimeProvider *)
Fixpoint free_provider (fuel i : nat) (occupied : gset string) : option string :=
  match fuel with
  | O => None
  | S fuel => if decide (numbered i ∈ occupied) then free_provider fuel (S i) occupied else Some (numbered i)
  end.

(** ** Restoring *)

Definition auth_fields : list string := ["base_url"; "auth"] ++ static_fields.

Definition header_entries (provider : document) (field : string) (group : document) : document :=
  match provider !! field with
  | Some (Table headers) =>
      map_fold (λ name v group, if is_authorization name then <[field +:+ "." +:+ name := v]> group else group) group headers
  | _ => group
  end.

(** Authentication and its destination are one unit. *)
(* src/internal/rai/codex_restore.go:54-71 codexAuthGroup *)
Definition codexAuthGroup (provider : document) : document :=
  foldr (header_entries provider) (filter (λ kv, kv.1 ∈ auth_fields) provider) header_tables.

(** A provider without the entries of its own group. *)
(* src/internal/rai/codex_restore.go:153-162 maskCodexAuthField *)
Definition mask_auth (provider : document) : document :=
  foldl drop_authorization (filter (λ kv, kv.1 ∉ auth_fields) provider) header_tables.

Fixpoint count_dots (s : string) : nat :=
  match s with
  | EmptyString => O
  | String c s => (if decide (c = "."%char) then 1 else 0) + count_dots s
  end%nat.

Definition provider_path (path : string) : bool :=
  has_prefix path "model_providers." && bool_decide (count_dots path = 1%nat).

Definition table_of (v : option value) : document := match v with Some (Table m) => m | _ => ∅ end.
Definition table_or_none (v : option value) : bool := match v with Some (Plain _) => false | _ => true end.

Definition join_path (path k : string) : string := if bool_decide (path = "") then k else path +:+ "." +:+ k.

(** One field; [deeper] restores a table. *)
(* src/internal/rai/codex_restore.go:106-141 restoreCodexFieldsAt *)
Definition restore_field (deeper : document → document → document → document) (b a c : option value) : option value :=
  if bool_decide (c = None) && negb (bool_decide (a = None)) then c
  else if decide (b = a) then c
  else if table_or_none b && table_or_none a && table_or_none c then
    let cm := deeper (table_of c) (table_of b) (table_of a) in
    if bool_decide (cm ≠ ∅) || bool_decide (b ≠ None) then Some (Table cm) else None
  else if decide (c = a) then b else c.

(* src/internal/rai/codex_restore.go:73-143 restoreCodexFieldsAt *)
Fixpoint restoreCodexFieldsAt (fuel : nat) (path : string) (current before after : document) : document :=
  match fuel with
  | O => current
  | S fuel =>
      let provider := provider_path path in
      let whole := bool_decide (codexAuthGroup current = codexAuthGroup after) in
      let b := if provider && negb whole then mask_auth before else before in
      let a := if provider && negb whole then mask_auth after else after in
      let c := if provider && whole then partial_alter (λ _, before !! "auth") "auth" current else current in
      let keys := filter (λ k, negb (provider && bool_decide (k = "auth")) = true) (elements (dom b ∪ dom a)) in
      foldr (λ k, partial_alter (restore_field (restoreCodexFieldsAt fuel (join_path path k)) (b !! k) (a !! k)) k) c keys
  end.

(** Tables of a greater depth than the fuel are out of reach. *)
(* src/internal/rai/codex_restore.go:48-50 restoreCodexFields *)
Definition restoreCodexFields (current before after : document) : document :=
  restoreCodexFieldsAt (depth (Table before) `max` depth (Table after)) "" current before after.

(** ** Files *)

(** github.com/pelletier/go-toml: decoding, and encoding, which can fail. *)
Class TOML := { toml_Unmarshal : string → option document; toml_Marshal : document → option string }.

(** An empty text is an empty document; what is written can be read back; what was read can be written. *)
Class LawfulTOML `{TOML} : Prop := {
  toml_empty : toml_Unmarshal "" = Some ∅;
  toml_read_back doc text : toml_Marshal doc = Some text → toml_Unmarshal text = Some doc;
  toml_writable text doc : toml_Unmarshal text = Some doc → is_Some (toml_Marshal doc)
}.

(** A journal as its file holds it, which may be damaged. *)
(* src/internal/rai/codex_restore.go:14-17 codexJournal *)
Inductive journal_file :=
  | Damaged
  | Journal (version : Z) (before after : string).

(** The files beside a configuration.  A missing file and an empty one have the same content. *)
Record disk := {
  dk_config : option string;
  dk_backup : option string;
  dk_managed : option journal_file;
  dk_temporary : option journal_file
}.
#[export] Instance disk_eta : Eta disk := λ r, Build_disk (dk_config r) (dk_backup r) (dk_managed r) (dk_temporary r).

Definition contents (file : option string) : string := default "" file.

Section files.
Context `{TOML}.

(** Reading or replacing a file, which can fail; [writeFileAtomic] leaves the old file if it does. *)
Definition read_file {A} (f : disk → A) : M disk A := statement;; gets f.
Definition write_file (f : disk → disk) : M disk unit := statement;; modify f.

Definition decoded (text message : string) : M disk document :=
match toml_Unmarshal text with Some doc => mret doc | None => fail (ErrMessage message) end.

Definition encoded (doc : document) : M disk string :=
match toml_Marshal doc with Some text => mret text | None => fail (ErrMessage "toml") end.

(* src/internal/rai/codex_configure.go:15-29 loadCodexConfig *)
Definition loadCodexConfig : M disk (option string * document) :=
raw ← read_file dk_config;
match raw with
| None => mret (None, ∅)
| Some text =>
    doc ← decoded text "invalid Codex config.toml; fix its TOML syntax before continuing";
    mret (Some text, doc)
end.

(* src/internal/rai/codex_restore.go:38-44 codexDocument *)
Definition codexDocument (raw : string) : M disk document := decoded raw "invalid TOML in Codex recovery record".

(* src/internal/rai/codex_restore.go:19-24 codexJournalPath *)
Definition journal_of (temporary : bool) (d : disk) : option journal_file :=
if temporary then dk_temporary d else dk_managed d.
Definition set_journal (temporary : bool) (j : option journal_file) (d : disk) : disk :=
if temporary then d <| dk_temporary := j |> else d <| dk_managed := j |>.

(** [None] if there is none. *)
(* src/internal/rai/codex_restore.go:26-36 readCodexJournal *)
Definition readCodexJournal (temporary : bool) : M disk (option (string * string)) :=
file ← read_file (journal_of temporary);
match file with
| None => mret None
| Some (Journal version before after) =>
    guard_that (version =? 1) (ErrMessage "invalid rai Codex recovery record; preserve it for manual recovery");;
    mret (Some (before, after))
| Some Damaged => fail (ErrMessage "invalid rai Codex recovery record; preserve it for manual recovery")
end.

(** The file as it was before the client touched it. *)
(* src/internal/rai/codex_restore.go:170-196 saveCodexManaged *)
Definition baseline_of (previous : option (string * string)) (before : string) (temporary : bool) : M disk string :=
match previous with
| None => mret before
| Some (previousBefore, previousAfter) =>
    guard_that (negb temporary) (ErrMessage "temporary configuration already exists; restore it first");;
    current ← codexDocument before;
    oldBefore ← codexDocument previousBefore;
    oldAfter ← codexDocument previousAfter;
    if decide (before = previousAfter) then mret previousBefore
    else encoded (restoreCodexFields current oldBefore oldAfter)
end.

(** Intent is recorded before the configuration changes. *)
(* src/internal/rai/codex_restore.go:164-214 saveCodexManaged *)
Definition saveCodexManaged (before after : string) (temporary : bool) : M disk unit :=
previous ← readCodexJournal temporary;
baseline ← baseline_of previous before temporary;
write_file (set_journal temporary (Some (Journal 1 baseline after)));;
written ← attempt (write_file (λ d, d <| dk_config := Some after |>));
match written with
| Ok _ => mret ()
| Err e =>
    attempt (write_file (set_journal temporary (match previous with Some (b, a) => Some (Journal 1 b a) | None => None end)));;
    fail e
end.

(* src/internal/rai/codex_restore.go:216-254 restoreCodexManaged *)
Definition restoreCodexManaged (temporary : bool) : M disk unit :=
journal ← readCodexJournal temporary;
match journal with
| None => fail ErrNotFound
| Some (journalBefore, journalAfter) =>
    '(original, current) ← loadCodexConfig;
    before ← codexDocument journalBefore;
    after ← codexDocument journalAfter;
    updated ← encoded (restoreCodexFields current before after);
    let updated := if decide (contents original = journalAfter) then journalBefore else updated in
    '(latest, _) ← loadCodexConfig;
    guard_that (bool_decide (contents original = contents (latest : option string)))
      (ErrMessage "Codex configuration changed; retry restoration");;
    write_file (λ d, d <| dk_config := Some updated |>);;
    write_file (set_journal temporary None)
end.

(** [confirmation] is what happens to the files while the user is asked. *)
(* src/internal/rai/codex_configure.go:155-224 configureCodexMode *)
Definition configure (profile : Profile) (auth : document) (id : string) (capabilities : option CodexCapabilities)
  (temporary : bool) (confirmation : disk → disk) : M disk unit :=
pending ← read_file dk_temporary;
guard_that (bool_decide (pending = None))
  (ErrMessage "temporary desktop configuration is pending; close Codex and run rai unconfigure codex first");;
'(original, doc) ← loadCodexConfig;
updated ← match mergeCodexProvider doc profile auth id capabilities with Ok doc => encoded doc | Err e => fail e end;
modify confirmation;;
'(current, _) ← loadCodexConfig;
guard_that (bool_decide (current = (original : option string)))
  (ErrMessage "Codex configuration changed during confirmation; run configure again");;
(match original : option string with
 | Some text => write_file (λ d, d <| dk_backup := Some text |>)
 | None => mret ()
 end);;
saveCodexManaged (contents original) updated temporary.

(** The record of a temporary change is restored first. *)
(* src/internal/rai/codex_restore.go:268-279 unconfigureCodex *)
Definition unconfigure : M disk unit :=
pending ← read_file dk_temporary;
restoreCodexManaged (negb (bool_decide (pending = None))).
End files.
