(* ===== verification/CodexConfigGuarantees.v ===== *)
(** * What the managed configuration keeps

    Undoing restores what was there, leaves what the user changed, and never
    sends an old secret to a new address. *)

From stdpp Require Import pretty.
From S2P Require Import Prelude.
From S2P Require Import Database.
From S2P Require Import CodexConfig.

(** ** Tables *)

Lemma depth_entry m k w : m !! k = Some w → (depth w < depth (Table m))%nat.
Proof.
  intros Hw. cbn. enough (depth w ≤ map_fold (λ _ w d, depth w `max` d) 0 m)%nat by lia.
  rewrite <- (insert_delete_id m k w Hw).
  rewrite map_fold_insert_L; [lia|intros; lia|apply lookup_delete_eq].
Qed.

Lemma depth_table_of m k : (depth (Table (table_of (m !! k))) < depth (Table m) ∨ table_of (m !! k) = ∅)%nat.
Proof.
  destruct (m !! k) as [[p|n]|] eqn:Hk; cbn [table_of]; [by right|left|by right]. by apply depth_entry in Hk.
Qed.

(** Each step of the loop changes its own key. *)
Lemma alter_keys {V : Type} (F : string → option V → option V) (keys : list string) (m : gmap string V) k :
  NoDup keys →
  foldr (λ k, partial_alter (F k) k) m keys !! k = if decide (k ∈ keys) then F k (m !! k) else m !! k.
Proof.
  induction 1 as [|k' keys Hk' _ IH]; [done|]. cbn [foldr].
  destruct (decide (k = k')) as [->|Hne].
  - rewrite lookup_partial_alter_eq, IH, decide_False by done. by rewrite decide_True by left.
  - rewrite lookup_partial_alter_ne, IH by done. destruct (decide (k ∈ keys)).
    + by rewrite decide_True by by right.
    + rewrite decide_False; [done|]. by intros [?|?]%elem_of_cons.
Qed.

(** What a key of a level becomes.  The order in which the keys are visited does not matter. *)
Lemma restore_lookup fuel path current before after k :
  restoreCodexFieldsAt (S fuel) path current before after !! k =
  let provider := provider_path path in
  let same := bool_decide (codexAuthGroup current = codexAuthGroup after) in
  let b := if provider && negb same then mask_auth before else before in
  let a := if provider && negb same then mask_auth after else after in
  if provider && bool_decide (k = "auth") then if same then before !! "auth" else current !! "auth"
  else if decide (k ∈ dom b ∪ dom a)
       then restore_field (restoreCodexFieldsAt fuel (join_path path k)) (b !! k) (a !! k) (current !! k)
       else current !! k.
Proof.
  cbn [restoreCodexFieldsAt]. cbv zeta. set (same := bool_decide (codexAuthGroup current = codexAuthGroup after)). set (b := if provider_path path && negb same then mask_auth before else before).
  set (a := if provider_path path && negb same then mask_auth after else after). rewrite alter_keys by apply list.NoDup_filter, NoDup_elements.
  destruct (provider_path path) eqn:Hp; cbn [andb].
  - case_bool_decide as Hk.
    + subst k. rewrite decide_False.
      * destruct same; [by rewrite lookup_partial_alter_eq|done].
      * rewrite list_elem_of_filter. by intros [Hf _].
    + assert ((if same then partial_alter (λ _, before !! "auth") "auth" current else current) !! k = current !! k) as ->
        by (destruct same; [by rewrite lookup_partial_alter_ne|done]).
      apply decide_ext. rewrite list_elem_of_filter, elem_of_elements, bool_decide_eq_false_2 by done. naive_solver.
  - apply decide_ext. rewrite list_elem_of_filter, elem_of_elements. naive_solver.
Qed.

(** ** Undoing *)

Lemma field_undo deeper b a :
  (table_or_none b = true → table_or_none a = true → deeper (table_of a) (table_of b) (table_of a) = table_of b) →
  restore_field deeper b a a = b.
Proof.
  intros Hdeeper. unfold restore_field. destruct (decide (b = a)) as [->|Hne].
  - by destruct (_ && _).
  - destruct a as [a|]; cbn [negb bool_decide_eq_false andb].
    + rewrite bool_decide_eq_false_2 by done. cbn [andb].
      destruct (table_or_none b) eqn:Hb, (table_or_none (Some a)) eqn:Ha; cbn [andb]; try by rewrite decide_True.
      rewrite Hdeeper by done. destruct b as [[p|m]|]; [done| |done]. cbn. by rewrite orb_true_r.
    + rewrite (bool_decide_eq_true_2 (@None value = None)), andb_false_r by done.
      destruct (table_or_none b) eqn:Hb; cbn [table_or_none andb]; [|by rewrite decide_True].
      rewrite Hdeeper by done. destruct b as [[p|m]|]; [done| |done]. cbn. by rewrite orb_true_r.
Qed.

Lemma tables_within fuel m k :
  (depth (Table m) ≤ S fuel)%nat → (depth (Table (table_of (m !! k))) ≤ fuel)%nat ∨ table_of (m !! k) = ∅.
Proof. intros Hm. destruct (depth_table_of m k) as [?|?]; [left; lia|by right]. Qed.

Lemma table_within fuel m k : (depth (Table m) ≤ S (S fuel))%nat → (depth (Table (table_of (m !! k))) ≤ S fuel)%nat.
Proof. intros Hm. destruct (depth_table_of m k) as [?|Hk]; [lia|]. rewrite Hk. change (depth (Table ∅)) with 1%nat. lia. Qed.

Lemma depth_positive m : (1 ≤ depth (Table m))%nat.
Proof. cbn. lia. Qed.

Lemma depth_empty : depth (Table ∅) = 1%nat.
Proof. done. Qed.

Lemma deeper_undo fuel before after path k :
  (∀ path b a, (depth (Table b) ≤ fuel)%nat → (depth (Table a) ≤ fuel)%nat → restoreCodexFieldsAt fuel path a b a = b) →
  (depth (Table before) ≤ S fuel)%nat → (depth (Table after) ≤ S fuel)%nat →
  restoreCodexFieldsAt fuel path (table_of (after !! k)) (table_of (before !! k)) (table_of (after !! k)) = table_of (before !! k).
Proof.
  intros Hundo Hb Ha. destruct (tables_within fuel before k Hb) as [Hbk|Hbk], (tables_within fuel after k Ha) as [Hak|Hak].
  - by apply Hundo.
  - rewrite Hak. apply Hundo; [done|]. rewrite depth_empty. cbn in Hbk. lia.
  - rewrite Hbk. apply Hundo; [|done]. rewrite depth_empty. cbn in Hak. lia.
  - rewrite Hbk, Hak. destruct fuel; [done|]. apply Hundo; rewrite depth_empty; lia.
Qed.

(** Undoing an installation that nobody has touched gives back the document before it. *)
Lemma restore_undo fuel : ∀ path before after,
  (depth (Table before) ≤ fuel)%nat → (depth (Table after) ≤ fuel)%nat →
  restoreCodexFieldsAt fuel path after before after = before.
Proof.
  induction fuel as [|fuel IH]; intros path before after Hb Ha; [cbn in Hb; lia|].
  apply map_eq. intros k. rewrite restore_lookup. cbv zeta. rewrite (bool_decide_eq_true_2 (codexAuthGroup after = codexAuthGroup after)) by done. cbn [negb].
  rewrite andb_false_r. destruct (provider_path path && bool_decide (k = "auth")) eqn:Hk.
  - apply andb_true_iff in Hk as [_ ->%bool_decide_eq_true]. done.
  - destruct (decide _) as [Hin|Hout].
    + apply field_undo. intros _ _. by apply deeper_undo.
    + apply not_elem_of_union in Hout as [Hb' Ha']. apply not_elem_of_dom in Hb', Ha'. congruence.
Qed.

(** ** The authentication group *)

Definition dotted (table name : string) : string := table +:+ "." +:+ name.

Lemma dotted_inj table n n' : dotted table n = dotted table n' → n = n'.
Proof. unfold dotted. intros [= H]%(inj (String.append table)). done. Qed.

Lemma dotted_tables n n' : dotted "http_headers" n ≠ dotted "env_http_headers" n'.
Proof. done. Qed.

Lemma dotted_field table n : table ∈ header_tables → dotted table n ∉ auth_fields.
Proof.
  unfold header_tables, auth_fields, static_fields. rewrite !elem_of_cons, elem_of_nil. cbn [app].
  intros [->|[->|[]]]; rewrite !elem_of_cons, elem_of_nil; intros H; repeat destruct H as [H|H]; discriminate H || done.
Qed.

(** The Authorization headers of a table, under their names in the group. *)
Definition holds_header (provider : document) (table name : string) (v : value) : Prop :=
  is_authorization name = true ∧ ∃ headers, provider !! table = Some (Table headers) ∧ headers !! name = Some v.

Lemma header_entries_spec provider table group :
  let result := header_entries provider table group in
  (∀ n v, holds_header provider table n v → result !! dotted table n = Some v) ∧
  (∀ key v, result !! key = Some v → (∃ n, key = dotted table n ∧ holds_header provider table n v) ∨ group !! key = Some v) ∧
  (∀ key, (∀ n, key ≠ dotted table n) → result !! key = group !! key).
Proof.
  cbv zeta. unfold header_entries, holds_header. destruct (provider !! table) as [[p|headers]|]; [naive_solver| |naive_solver].
  set (f := λ name v group, if is_authorization name then <[_ := v]> group else group).
  assert ((∀ n v, is_authorization n = true → headers !! n = Some v → map_fold f group headers !! dotted table n = Some v) ∧
    (∀ key v, map_fold f group headers !! key = Some v →
       (∃ n, key = dotted table n ∧ is_authorization n = true ∧ headers !! n = Some v) ∨ group !! key = Some v) ∧
    (∀ key, (∀ n, key ≠ dotted table n) → map_fold f group headers !! key = group !! key)) as (H1 & H2 & H3).
  { apply (map_fold_weak_ind (λ r h, (∀ n v, is_authorization n = true → h !! n = Some v → r !! dotted table n = Some v) ∧
      (∀ key v, r !! key = Some v → (∃ n, key = dotted table n ∧ is_authorization n = true ∧ h !! n = Some v) ∨ group !! key = Some v) ∧
      (∀ key, (∀ n, key ≠ dotted table n) → r !! key = group !! key)) f).
    - split_and!; [intros n v _; by rewrite lookup_empty|by right|done].
    - intros i x h r Hi (IH1 & IH2 & IH3). unfold f. fold (dotted table i). split_and!.
      + intros n v Hn Hv. destruct (decide (n = i)) as [->|Hne].
        * rewrite lookup_insert_eq in Hv. rewrite Hn, lookup_insert_eq. done.
        * rewrite lookup_insert_ne in Hv by done. destruct (is_authorization i); [|by apply IH1].
          rewrite lookup_insert_ne; [by apply IH1|]. by intros ->%dotted_inj.
      + intros key v. destruct (is_authorization i) eqn:Hauth.
        * intros [[<- <-]|[Hne Hv]]%lookup_insert_Some; [left; exists i; by rewrite lookup_insert_eq|].
          destruct (IH2 _ _ Hv) as [(n & -> & Hn & Hh)|?]; [left|by right]. exists n. split_and!; [done|done|].
          rewrite lookup_insert_ne; [done|]. congruence.
        * intros Hv. destruct (IH2 _ _ Hv) as [(n & -> & Hn & Hh)|?]; [left|by right]. exists n. split_and!; [done|done|].
          rewrite lookup_insert_ne; [done|]. congruence.
      + intros key Hkey. destruct (is_authorization i); [|by apply IH3]. rewrite lookup_insert_ne; [by apply IH3|].
        intros Heq. by apply (Hkey i). }
  split_and!; [naive_solver| |done]. intros key v Hv. destruct (H2 _ _ Hv) as [(n & -> & Hn & Hh)|?]; [|by right].
  left. exists n. split_and!; [done|done|]. by exists headers.
Qed.

Lemma group_field provider f : f ∈ auth_fields → codexAuthGroup provider !! f = provider !! f.
Proof.
  intros Hf. unfold codexAuthGroup. cbn [header_tables foldr].
  rewrite (proj2 (proj2 (header_entries_spec _ _ _))) by (intros n ->; by apply (dotted_field "http_headers" n); [left|]).
  rewrite (proj2 (proj2 (header_entries_spec _ _ _))) by (intros n ->; apply (dotted_field "env_http_headers" n); [right; by left|done]).
  rewrite map_lookup_filter. cbn. destruct (provider !! f); cbn; [|done]. by rewrite option_guard_True.
Qed.

Lemma group_header provider table n v :
  table ∈ header_tables → codexAuthGroup provider !! dotted table n = Some v ↔ holds_header provider table n v.
Proof.
  intros Ht. unfold codexAuthGroup. cbn [header_tables foldr].
  set (base := filter _ provider).
  assert (∀ t n', t ∈ header_tables → base !! dotted t n' = None) as Hbase.
  { intros t n' Htt. unfold base. apply map_lookup_filter_None. right. intros w _. cbn. by apply dotted_field. }
  destruct (header_entries_spec provider "http_headers" (header_entries provider "env_http_headers" base)) as (H1 & H2 & H3).
  destruct (header_entries_spec provider "env_http_headers" base) as (E1 & E2 & E3).
  unfold header_tables in Ht. rewrite !elem_of_cons, elem_of_nil in Ht. destruct Ht as [->|[->|[]]]; split.
  - intros Hv. destruct (H2 _ _ Hv) as [(n' & ->%dotted_inj & ?)|Hv']; [done|].
    destruct (E2 _ _ Hv') as [(n' & Heq & _)|Hv'']; [by apply dotted_tables in Heq|].
    rewrite Hbase in Hv''; [done|by left].
  - apply H1.
  - intros Hv. rewrite H3 in Hv by (intros n' Heq; symmetry in Heq; by apply dotted_tables in Heq).
    destruct (E2 _ _ Hv) as [(n' & ->%dotted_inj & ?)|Hv'']; [done|]. rewrite Hbase in Hv''; [done|right; by left].
  - intros Hv. rewrite H3 by (intros n' Heq; symmetry in Heq; by apply dotted_tables in Heq). by apply E1.
Qed.

(** Every entry of a group is a field or a header. *)
Lemma group_keys provider key v :
  codexAuthGroup provider !! key = Some v → key ∈ auth_fields ∨ ∃ table n, table ∈ header_tables ∧ key = dotted table n.
Proof.
  unfold codexAuthGroup. cbn [header_tables foldr]. intros Hv.
  destruct (proj1 (proj2 (header_entries_spec _ _ _)) _ _ Hv) as [(n & -> & _)|Hv']; [right; exists "http_headers", n; split; [by left|done]|].
  destruct (proj1 (proj2 (header_entries_spec _ _ _)) _ _ Hv') as [(n & -> & _)|Hv'']; [right; exists "env_http_headers", n; split; [right; by left|done]|].
  apply map_lookup_filter_Some in Hv'' as [_ Hf]. by left.
Qed.

Lemma group_subset p q :
  (∀ f, f ∈ auth_fields → p !! f = q !! f) →
  (∀ table n v, table ∈ header_tables → holds_header p table n v → holds_header q table n v) →
  codexAuthGroup p ⊆ codexAuthGroup q.
Proof.
  intros Hfields Hheaders. apply map_subseteq_spec. intros key v Hv.
  destruct (group_keys _ _ _ Hv) as [Hf|(table & n & Ht & ->)].
  - by rewrite group_field, <- Hfields, <- (group_field p).
  - apply group_header; [done|]. apply Hheaders; [done|]. by apply group_header.
Qed.

Definition stripped (v : option value) : option value :=
  match v with Some (Table headers) => Some (Table (without_authorization headers)) | _ => v end.

Lemma stripped_some v : is_Some (stripped v) ↔ is_Some v.
Proof. by destruct v as [[]|]. Qed.

Lemma drop_lookup p f k : drop_authorization p f !! k = if decide (k = f) then stripped (p !! f) else p !! k.
Proof.
  unfold drop_authorization. destruct (decide (k = f)) as [->|Hne]; destruct (p !! f) as [[q|headers]|] eqn:Hf; cbn [stripped];
    try done; by rewrite ?lookup_insert_eq, ?lookup_insert_ne.
Qed.

Lemma mask_lookup p k :
  mask_auth p !! k = if decide (k ∈ auth_fields) then None else if decide (k ∈ header_tables) then stripped (p !! k) else p !! k.
Proof.
  assert (∀ k, filter (λ kv : string * value, kv.1 ∉ auth_fields) p !! k = if decide (k ∈ auth_fields) then None else p !! k) as Hbase.
  { intros k'. apply option_eq. intros v. rewrite map_lookup_filter_Some. cbn [fst]. destruct (decide (k' ∈ auth_fields)); naive_solver. }
  unfold mask_auth. cbn [header_tables foldl]. rewrite !drop_lookup, !Hbase.
  rewrite !(decide_False (P := _ ∈ auth_fields)) by (apply (bool_decide_unpack _); by vm_compute).
  destruct (decide (k ∈ auth_fields)) as [Hf|Hf].
  - rewrite !decide_False; [done|..]; intros ->; revert Hf; apply (bool_decide_unpack _); by vm_compute.
  - rewrite (decide_False (P := "env_http_headers" = "http_headers")) by done.
    destruct (decide (k = "env_http_headers")) as [->|H1]; [by rewrite decide_True by (right; by left)|].
    destruct (decide (k = "http_headers")) as [->|H2]; [by rewrite decide_True by by left|].
    rewrite decide_False; [done|]. unfold header_tables. by rewrite !elem_of_cons, elem_of_nil; naive_solver.
Qed.

(** ** Doing nothing *)

Lemma authorization_hidden headers n : without_authorization headers !! n =
  if is_authorization n then None else headers !! n.
Proof.
  unfold without_authorization. apply option_eq. intros v. rewrite map_lookup_filter_Some. cbn.
  destruct (is_authorization n); naive_solver.
Qed.

(** A field that is still as it was before, perhaps but for hidden headers, stays. *)
Lemma field_idle deeper b a c :
  b = c ∨ b = stripped c →
  (∀ m m', c = Some (Table m) → b = Some (Table m') → deeper m m' (table_of a) = m) →
  restore_field deeper b a c = c.
Proof.
  intros Hbc Hdeeper. unfold restore_field. destruct c as [[p|m]|].
  - assert (b = Some (Plain p)) as -> by by destruct Hbc. cbn. repeat case_match; congruence.
  - assert (∃ m', b = Some (Table m')) as [m' ->] by (destruct Hbc as [->| ->]; eauto).
    rewrite (bool_decide_eq_false_2 (Some (Table m) = None)) by done. cbn [andb table_or_none table_of].
    destruct (decide _); [done|]. rewrite andb_true_r, (bool_decide_eq_true_2 (Some (Table m') ≠ None)), orb_true_r by done.
    destruct (table_or_none a) eqn:Ha; cbn [andb]; [by rewrite (Hdeeper m m')|]. destruct (decide (Some (Table m) = a)) as [<-|]; done.
  - assert (b = None) as -> by by destruct Hbc. rewrite (bool_decide_eq_true_2 (@None value = None)) by done. cbn [andb].
    destruct a; [by rewrite bool_decide_eq_false_2|]. by rewrite bool_decide_eq_true_2.
Qed.

Lemma restore_idle fuel : ∀ path current before after,
  (∀ k, k ∈ dom before ∪ dom after → before !! k = current !! k) →
  restoreCodexFieldsAt fuel path current before after = current.
Proof.
  induction fuel as [|fuel IH]; intros path c b a Hbc; [done|]. apply map_eq. intros k. rewrite restore_lookup. cbv zeta.
  set (same := bool_decide (codexAuthGroup c = codexAuthGroup a)). destruct (provider_path path && bool_decide (k = "auth")) eqn:Hk.
  - apply andb_true_iff in Hk as [_ ->%bool_decide_eq_true]. destruct same eqn:Hs; [|done]. apply bool_decide_eq_true in Hs.
    destruct (decide ("auth" ∈ dom b ∪ dom a)) as [Hin|Hout]; [by apply Hbc|].
    apply not_elem_of_union in Hout as [Hb Ha]. apply not_elem_of_dom in Hb, Ha. rewrite Hb.
    rewrite <- (group_field c), Hs, group_field by (right; by left). done.
  - destruct (decide _) as [Hin|]; [|done]. destruct (provider_path path && negb same) eqn:Hmask.
    + rewrite !mask_lookup. destruct (decide (k ∈ auth_fields)) as [Hf|Hf].
      * exfalso. apply elem_of_union in Hin as [[v Hv]%elem_of_dom|[v Hv]%elem_of_dom];
          rewrite mask_lookup, decide_True in Hv by done; done.
      * assert (b !! k = c !! k) as Hkc.
        { apply Hbc. rewrite elem_of_union, !elem_of_dom. rewrite elem_of_union, !elem_of_dom, !mask_lookup, !(decide_False (P := k ∈ auth_fields)) in Hin by done.
          destruct (decide (k ∈ header_tables)); by rewrite ?stripped_some in Hin. }
        rewrite Hkc. destruct (decide (k ∈ header_tables)) as [Hh|Hh]; apply field_idle; [by right| |by left|].
        -- intros m m' -> [= <-]. apply IH. intros n. rewrite elem_of_union, !elem_of_dom, authorization_hidden. intros Hn.
           destruct (is_authorization n) eqn:Hauth; [|done]. destruct Hn as [[? ?]|Hn]; [done|].
           destruct (a !! k) as [[]|]; cbn in Hn; rewrite ?authorization_hidden, ?Hauth, ?lookup_empty in Hn; by destruct Hn.
        -- intros m m' -> [= <-]. by apply IH.
    + rewrite (Hbc k Hin). apply field_idle; [by left|]. intros m m' -> [= <-]. by apply IH.
Qed.

(** ** What the user has changed *)

Fixpoint at_value (v : option value) (path : list string) : option value :=
  match path with
  | [] => v
  | k :: path => at_value (table_of v !! k) path
  end.
Definition at_path (doc : document) (path : list string) : option value := at_value (Some (Table doc)) path.

Lemma at_none path : at_value None path = None.
Proof. by induction path. Qed.

Lemma at_stripped path : ∀ v p, at_value (stripped v) path = Some (Plain p) → at_value v path = Some (Plain p).
Proof.
  intros v p. destruct v as [[q|m]|]; try done. destruct path as [|k path]; [done|]. cbn [stripped at_value table_of].
  rewrite authorization_hidden. destruct (is_authorization k); [by rewrite at_none|done].
Qed.

Lemma at_masked doc k path p : at_value (mask_auth doc !! k) path = Some (Plain p) → at_value (doc !! k) path = Some (Plain p).
Proof.
  rewrite mask_lookup. destruct (decide _); [by rewrite at_none|]. destruct (decide _); [apply at_stripped|done].
Qed.

(** A setting that differs from the installed one is the user's, and stays. *)
Lemma field_keeps deeper b a c path p :
  at_value c path = Some (Plain p) → at_value a path ≠ Some (Plain p) →
  (∀ m k rest, c = Some (Table m) → path = k :: rest → at_value (deeper m (table_of b) (table_of a) !! k) rest = Some (Plain p)) →
  at_value (restore_field deeper b a c) path = Some (Plain p).
Proof.
  intros Hc Ha Hdeeper. unfold restore_field. destruct c as [cv|]; [|by rewrite at_none in Hc].
  rewrite (bool_decide_eq_false_2 (Some cv = None)) by done. cbn [andb]. destruct (decide (b = a)); [done|].
  destruct (table_or_none b && table_or_none a && table_or_none (Some cv)) eqn:Htables; [|destruct (decide (Some cv = a)); [congruence|done]].
  destruct cv as [q|m]; [by rewrite andb_false_r in Htables|]. destruct path as [|k rest]; [done|]. cbn [table_of].
  specialize (Hdeeper m k rest eq_refl eq_refl). set (cm := deeper m (table_of b) (table_of a)) in *.
  rewrite bool_decide_eq_true_2; [exact Hdeeper|]. intros Hempty. by rewrite Hempty, lookup_empty, at_none in Hdeeper.
Qed.

Lemma restore_keeps fuel : ∀ path current before after k rest p,
  at_value (current !! k) rest = Some (Plain p) → at_value (after !! k) rest ≠ Some (Plain p) →
  at_value (restoreCodexFieldsAt fuel path current before after !! k) rest = Some (Plain p).
Proof.
  induction fuel as [|fuel IH]; intros path c b a k rest p Hc Ha; [done|]. rewrite restore_lookup. cbv zeta.
  set (same := bool_decide (codexAuthGroup c = codexAuthGroup a)). destruct (provider_path path && bool_decide (k = "auth")) eqn:Hk.
  - apply andb_true_iff in Hk as [_ ->%bool_decide_eq_true]. destruct same eqn:Hs; [|done]. apply bool_decide_eq_true in Hs.
    rewrite <- (group_field c), Hs, group_field in Hc by (right; by left). done.
  - destruct (decide _); [|done]. apply field_keeps; [done|by destruct (provider_path path && negb same); [intros ?%at_masked|]|].
    intros m k' rest' Hm ->. apply IH; [by rewrite Hm in Hc|].
    destruct (provider_path path && negb same); [|done]. by intros Hat%(at_masked a k (k' :: rest')).
Qed.

(** ** Secrets *)

Lemma holds_header_iff provider table n v :
  holds_header provider table n v ↔ is_authorization n = true ∧ table_of (provider !! table) !! n = Some v.
Proof.
  unfold holds_header. destruct (provider !! table) as [[q|m]|]; cbn [table_of]; rewrite ?lookup_empty; naive_solver.
Qed.

Lemma stripped_hidden v n : is_authorization n = true → table_of (stripped v) !! n = None.
Proof. intros Hn. destruct v as [[q|m]|]; cbn [stripped table_of]; [done| |done]. by rewrite authorization_hidden, Hn. Qed.

Lemma count_dots_app s t : count_dots (s +:+ t) = (count_dots s + count_dots t)%nat.
Proof.
  induction s as [|c s IH]; [done|]. change (String c s +:+ t) with (String c (s +:+ t)). cbn [count_dots]. rewrite IH. lia.
Qed.

Lemma provider_path_join path k : provider_path path = true → provider_path (join_path path k) = false.
Proof.
  unfold provider_path. intros [Hprefix Hdots%bool_decide_eq_true]%andb_true_iff. apply andb_false_intro2, bool_decide_eq_false.
  unfold join_path. rewrite bool_decide_eq_false_2 by (intros ->; done). rewrite !count_dots_app. change (count_dots ".") with 1%nat. lia.
Qed.

(** Below a provider, a key is restored by itself. *)
Lemma below_lookup fuel path current before after k :
  provider_path path = false →
  restoreCodexFieldsAt (S fuel) path current before after !! k =
  if decide (k ∈ dom before ∪ dom after)
  then restore_field (restoreCodexFieldsAt fuel (join_path path k)) (before !! k) (after !! k) (current !! k)
  else current !! k.
Proof. intros Hpath. rewrite restore_lookup. cbv zeta. by rewrite Hpath. Qed.

Lemma header_not_field table : table ∈ header_tables → table ∉ auth_fields.
Proof.
  unfold header_tables. rewrite !elem_of_cons, elem_of_nil. intros [->|[->|[]]]; apply (bool_decide_unpack _); by vm_compute.
Qed.

Section credentials.
Context (fuel : nat) (path : string) (current before after : document).
Hypothesis Hprovider : provider_path path = true.
Let restored := restoreCodexFieldsAt (S fuel) path current before after.

(** Hidden headers are out of reach. *)
Lemma hidden_headers_stay table b a c n :
is_authorization n = true →
table_of (restore_field (restoreCodexFieldsAt fuel (join_path path table)) (stripped b) (stripped a) c) !! n = table_of c !! n.
Proof.
intros Hn. unfold restore_field. destruct (_ && _); [done|]. destruct (decide _); [done|].
destruct (_ && _ && _); [|destruct (decide (c = _)) as [->|]; [by rewrite !stripped_hidden|done]].
set (cm := restoreCodexFieldsAt _ _ _ _ _). assert (cm !! n = table_of c !! n) as Hcm.
{ unfold cm. destruct fuel as [|fuel']; [done|]. rewrite below_lookup by by apply provider_path_join.
  rewrite decide_False; [done|]. rewrite elem_of_union, !elem_of_dom, !stripped_hidden by done. by intros [[]|[]]. }
destruct (bool_decide (cm ≠ ∅)) eqn:Hempty; [done|]. apply bool_decide_eq_false, dec_stable in Hempty.
destruct (bool_decide _); cbn [orb table_of]; [done|]. by rewrite <- Hcm, Hempty.
Qed.

(** The user has changed the authentication: all of it stays. *)
Lemma changed_group_stays :
codexAuthGroup current ≠ codexAuthGroup after → codexAuthGroup restored = codexAuthGroup current.
Proof.
intros Hne.
assert (∀ k, restored !! k = if decide (k ∈ auth_fields) then current !! k else
  if decide (k ∈ dom (mask_auth before) ∪ dom (mask_auth after))
  then restore_field (restoreCodexFieldsAt fuel (join_path path k)) (mask_auth before !! k) (mask_auth after !! k) (current !! k)
  else current !! k) as Hlookup.
{ intros k. unfold restored. rewrite restore_lookup. cbv zeta. rewrite Hprovider, (bool_decide_eq_false_2 _ Hne). cbn [andb negb].
  destruct (decide (k ∈ auth_fields)) as [Hf|Hf].
  - case_bool_decide; [by subst|]. rewrite decide_False; [done|].
    rewrite elem_of_union, !elem_of_dom, !mask_lookup, !decide_True by done. by intros [[]|[]].
  - rewrite bool_decide_eq_false_2; [done|]. intros ->. apply Hf. right. by left. }
assert (∀ table n v, table ∈ header_tables → holds_header restored table n v ↔ holds_header current table n v) as Hheaders.
{ intros table n v Ht. rewrite !holds_header_iff, Hlookup, decide_False by by apply header_not_field.
  destruct (decide _); [|done]. rewrite !mask_lookup, !(decide_False (P := table ∈ auth_fields)) by by apply header_not_field.
  rewrite !(decide_True (P := table ∈ header_tables)) by done.
  destruct (is_authorization n) eqn:Hn; [|naive_solver]. by rewrite hidden_headers_stay. }
apply map_subseteq_po; apply group_subset.
- intros f Hf. by rewrite Hlookup, decide_True.
- intros table n v Ht. by apply Hheaders.
- intros f Hf. by rewrite Hlookup, decide_True.
- intros table n v Ht. by apply Hheaders.
Qed.

(** The authentication is as installed, without a static header: what replaces it was there before. *)
Lemma installed_group_goes :
(depth (Table before) ≤ S fuel)%nat → (depth (Table after) ≤ S fuel)%nat →
(∀ table n v, table ∈ header_tables → ¬ holds_header after table n v) →
codexAuthGroup current = codexAuthGroup after → codexAuthGroup restored ⊆ codexAuthGroup before.
Proof.
intros Hb Ha Hno Hsame.
assert (∀ table n, table ∈ header_tables → is_authorization n = true →
  table_of (current !! table) !! n = None ∧ table_of (after !! table) !! n = None) as Hnone.
{ intros table n Ht Hn. split; apply eq_None_not_Some; intros [v Hv].
  - apply (Hno table n v Ht). apply group_header; [done|]. rewrite <- Hsame. apply group_header; [done|]. by apply holds_header_iff.
  - apply (Hno table n v Ht). by apply holds_header_iff. }
assert (∀ k, restored !! k = if bool_decide (k = "auth") then before !! "auth" else
  if decide (k ∈ dom before ∪ dom after)
  then restore_field (restoreCodexFieldsAt fuel (join_path path k)) (before !! k) (after !! k) (current !! k)
  else current !! k) as Hlookup.
{ intros k. unfold restored. rewrite restore_lookup. cbv zeta. by rewrite Hprovider, (bool_decide_eq_true_2 _ Hsame). }
apply group_subset.
- intros f Hf. rewrite Hlookup. case_bool_decide as Hauth; [by subst|].
  assert (current !! f = after !! f) as -> by (rewrite <- (group_field current f Hf), <- (group_field after f Hf); by rewrite Hsame).
  destruct (decide _) as [Hin|Hout].
  + apply field_undo. intros _ _. apply deeper_undo; [apply restore_undo|done|done].
  + apply not_elem_of_union in Hout as [Hb' Ha']. apply not_elem_of_dom in Hb', Ha'. congruence.
- intros table n v Ht. rewrite !holds_header_iff, Hlookup. intros [Hn Hv]. split; [done|].
  destruct (Hnone table n Ht Hn) as [Hc Hna]. rewrite bool_decide_eq_false_2 in Hv by (intros ->; revert Ht; unfold header_tables; rewrite !elem_of_cons, elem_of_nil; by intros [?|[?|[]]]).
  destruct (decide _); [|congruence]. unfold restore_field in Hv. destruct (_ && _); [congruence|].
  destruct (decide _) as [Heq|_]; [congruence|].
  destruct (_ && _ && _); [|destruct (decide _); [done|congruence]].
  set (cm := restoreCodexFieldsAt _ _ _ _ _) in Hv. destruct (_ || _); [|done]. cbn [table_of] in Hv.
  unfold cm in Hv. destruct fuel as [|fuel']; [cbn in Hv; congruence|].
  rewrite below_lookup in Hv by by apply provider_path_join. destruct (decide _); [|congruence].
  rewrite Hc, <- Hna, field_undo in Hv; [done|]. intros _ _. apply deeper_undo; [apply restore_undo|by apply table_within..].
Qed.
End credentials.

(** ** Whole documents *)

Definition provider_of (doc : document) (id : string) : document :=
  table_of (table_of (doc !! "model_providers") !! id).

(** A field stays, becomes what it was before, or is restored key by key. *)
Lemma field_cases deeper b a c :
  let r := restore_field deeper b a c in
  r = c ∨ r = b ∨ table_of r = deeper (table_of c) (table_of b) (table_of a).
Proof.
  cbv zeta. unfold restore_field. destruct (_ && _); [by left|]. destruct (decide (b = a)); [by left|].
  destruct (_ && _ && _); [|destruct (decide (c = a)); [by right; left|by left]]. right. right.
  set (cm := deeper _ _ _). destruct (bool_decide (cm ≠ ∅)) eqn:He; cbn [orb table_of]; [done|].
  apply bool_decide_eq_false, dec_stable in He. by destruct (bool_decide _).
Qed.

Lemma restored_table fuel path current before after k :
  provider_path path = false → (depth (Table before) ≤ fuel)%nat → (depth (Table after) ≤ fuel)%nat →
  let r := restoreCodexFieldsAt fuel path current before after in
  r !! k = current !! k ∨ r !! k = before !! k ∨
  ∃ fuel', (depth (Table (table_of (before !! k))) ≤ fuel')%nat ∧ (depth (Table (table_of (after !! k))) ≤ fuel')%nat ∧
    table_of (r !! k) =
    restoreCodexFieldsAt fuel' (join_path path k) (table_of (current !! k)) (table_of (before !! k)) (table_of (after !! k)).
Proof.
  intros Hpath Hb Ha. cbv zeta. destruct fuel as [|[|fuel]]; [by left| |].
  - rewrite below_lookup by done. destruct (decide _); [|by left].
    destruct (field_cases (restoreCodexFieldsAt 0 (join_path path k)) (before !! k) (after !! k) (current !! k)) as [?|[?|Ht]];
      [by left|by right; left|].
    assert (∀ m, (depth (Table m) ≤ 1)%nat → table_of (m !! k) = ∅) as Hflat
      by (intros m Hm; destruct (depth_table_of m k) as [Hlt|?]; [exfalso; pose proof (depth_positive (table_of (m !! k))); lia|done]).
    right. right. exists 1%nat. rewrite (Hflat before), (Hflat after) by done. split_and!; [done|done|].
    rewrite Ht. symmetry. etrans; [apply restore_idle|done]. intros k' [Hk'|Hk']%elem_of_union; by apply elem_of_dom in Hk' as [? ?].
  - rewrite below_lookup by done. destruct (decide _); [|by left].
    destruct (field_cases (restoreCodexFieldsAt (S fuel) (join_path path k)) (before !! k) (after !! k) (current !! k)) as [?|[?|Ht]];
      [by left|by right; left|].
    right. right. exists (S fuel). split_and!; [by apply table_within|by apply table_within|done].
Qed.

(** An old secret never meets a new address.  Whatever the user did to the file, the
    authentication of a provider after the restoration (its address, its helper, its keys and its
    Authorization headers) is either the user's, all of it, or holds nothing that was not there before
    the installation.  This is so whenever the installation left no Authorization header. *)
Theorem secrets_stay_with_their_address current before after id :
  count_dots id = 0%nat →
  (∀ table n v, table ∈ header_tables → ¬ holds_header (provider_of after id) table n v) →
  let restored := restoreCodexFields current before after in
  codexAuthGroup (provider_of restored id) = codexAuthGroup (provider_of current id) ∨
  codexAuthGroup (provider_of restored id) ⊆ codexAuthGroup (provider_of before id).
Proof.
  intros Hid Hno restored. unfold provider_of at 1 3. unfold restored, restoreCodexFields.
  destruct (restored_table (depth (Table before) `max` depth (Table after)) "" current before after "model_providers")
    as [->|[->|(f1 & Hb1 & Ha1 & ->)]]; [done|lia|lia|by left|by right|].
  destruct (restored_table f1 (join_path "" "model_providers") (table_of (current !! "model_providers")) (table_of (before !! "model_providers"))
    (table_of (after !! "model_providers")) id) as [->|[->|(f2 & Hb2 & Ha2 & ->)]]; [done|done|done|by left|by right|].
  destruct f2 as [|f2]; [by left|].
  assert (provider_path (join_path (join_path "" "model_providers") id) = true) as Hpath.
  { unfold provider_path. apply andb_true_iff. split.
    - apply bool_decide_eq_true. by eexists.
    - apply bool_decide_eq_true. change (join_path (join_path "" "model_providers") id) with ("model_providers." +:+ id).
      rewrite count_dots_app, Hid. done. }
  destruct (decide (codexAuthGroup (provider_of current id) = codexAuthGroup (provider_of after id))) as [Heq|Hne].
  - right. by apply installed_group_goes.
  - left. by apply changed_group_stays.
Qed.

(** ** Installing *)

(** What an installation leaves in the document. *)
Record installs (doc doc' : document) (profile : Profile) (auth : document) (id : string) : Prop := {
  in_selected : doc' !! "model_provider" = Some (Plain (PText id));
  in_auth : provider_of doc' id !! "auth" = Some (Table auth);
  in_url : provider_of doc' id !! "base_url" = Some (Plain (PText (trim_slashes (pf_ServerURL profile) +:+ "/v1")));
  in_static : ∀ f, f ∈ static_fields → provider_of doc' id !! f = None;
  in_headers : ∀ table n v, table ∈ header_tables → ¬ holds_header (provider_of doc' id) table n v;
  in_others : ∀ other, other ≠ id → table_of (doc' !! "model_providers") !! other = table_of (doc !! "model_providers") !! other;
  in_rest : ∀ k, k ∉ ["model_providers"; "model_provider"; "model"; "model_reasoning_effort"] → doc' !! k = doc !! k
}.

Lemma drops_headers provider table n :
  table ∈ header_tables → is_authorization n = true →
  table_of (foldl drop_authorization provider header_tables !! table) !! n = None.
Proof.
  intros Ht Hn. cbn [header_tables foldl]. rewrite !drop_lookup. unfold header_tables in Ht. rewrite !elem_of_cons, elem_of_nil in Ht.
  destruct Ht as [->|[->|[]]].
  - rewrite decide_False, decide_True by done. by apply stripped_hidden.
  - rewrite decide_True by done. by apply stripped_hidden.
Qed.

Lemma drops_other provider k :
  k ∉ header_tables → foldl drop_authorization provider header_tables !! k = provider !! k.
Proof.
  intros Hk. cbn [header_tables foldl]. unfold header_tables in Hk. rewrite !not_elem_of_cons in Hk.
  rewrite !drop_lookup, !decide_False by naive_solver. done.
Qed.

Lemma merge_provider_spec provider profile auth caps provider' :
  merge_provider provider profile auth caps = Ok provider' →
  provider' !! "auth" = Some (Table auth) ∧
  provider' !! "base_url" = Some (Plain (PText (trim_slashes (pf_ServerURL profile) +:+ "/v1"))) ∧
  (∀ f, f ∈ static_fields → provider' !! f = None) ∧
  (∀ table n, table ∈ header_tables → is_authorization n = true → table_of (provider' !! table) !! n = None).
Proof.
  unfold merge_provider. set (p0 := foldl (λ p field, delete field p) provider static_fields).
  set (p1 := foldl drop_authorization p0 header_tables). cbv zeta. set (p2 := <["supports_standalone_web_search" := _]> _ : document).
  destruct (codexTable p2 "capabilities") as [overrides|e]; [|done]. set (o := if cx_RemoteCompaction _ then _ else delete _ overrides : document). intros [= <-].
  assert (∀ k, k ∉ ["auth"; "capabilities"; "supports_standalone_web_search"; "supports_websockets"; "wire_api"; "name"] →
    <["auth" := Table auth]> (if bool_decide (o = ∅) then delete "capabilities" p2 else <["capabilities" := Table o]> p2) !! k =
    if decide (k = "base_url") then Some (Plain (PText (trim_slashes (pf_ServerURL profile) +:+ "/v1"))) else p1 !! k) as Hother.
  { intros k Hk. rewrite !not_elem_of_cons in Hk. destruct Hk as (? & ? & ? & ? & ? & ? & _). rewrite lookup_insert_ne by done.
    assert (p2 !! k = if decide (k = "base_url") then Some (Plain (PText (trim_slashes (pf_ServerURL profile) +:+ "/v1"))) else p1 !! k) as <-.
    { unfold p2. rewrite !(lookup_insert_ne _ "supports_standalone_web_search"), !(lookup_insert_ne _ "supports_websockets"),
        !(lookup_insert_ne _ "wire_api") by done.
      destruct (decide (k = "base_url")) as [->|]; [by rewrite lookup_insert_eq|by rewrite !lookup_insert_ne by done]. }
    destruct (bool_decide _); [by rewrite lookup_delete_ne|by rewrite lookup_insert_ne]. }
  assert (∀ f, f ∈ static_fields → p1 !! f = None) as Hstatic.
  { intros f. unfold p1, p0, static_fields. rewrite !elem_of_cons, elem_of_nil. intros [->|[->|[->|[->|[]]]]]; rewrite drops_other by
      (apply (bool_decide_unpack _); by vm_compute); cbn [foldl]; by rewrite ?lookup_delete_eq, ?lookup_delete_ne, ?lookup_delete_eq by done. }
  split_and!.
  - by rewrite lookup_insert_eq.
  - by rewrite Hother by (apply (bool_decide_unpack _); by vm_compute).
  - intros f Hf. rewrite Hother, decide_False, Hstatic by (done || (revert Hf; unfold static_fields; rewrite !elem_of_cons, elem_of_nil;
      intros [->|[->|[->|[->|[]]]]]; apply (bool_decide_unpack _); by vm_compute)). done.
  - intros table n Ht Hn. rewrite Hother, decide_False by (revert Ht; unfold header_tables; rewrite !elem_of_cons, elem_of_nil;
      intros [->|[->|[]]]; apply (bool_decide_unpack _); by vm_compute). by apply drops_headers.
Qed.

(** A merge that succeeds selects the provider with the helper's authentication alone, and touches nothing else. *)
Theorem merge_installs doc profile auth id caps doc' :
  mergeCodexProvider doc profile auth id caps = Ok doc' → installs doc doc' profile auth id.
Proof.
  unfold mergeCodexProvider. destruct (codexTable doc "model_providers") as [providers|] eqn:Hproviders; [|done].
  destruct (codexTable providers id) as [provider|]; [|done].
  destruct (merge_provider provider profile auth caps) as [provider'|] eqn:Hmerge; [|done]. intros [= <-].
  destruct (merge_provider_spec _ _ _ _ _ Hmerge) as (Hauth & Hurl & Hstatic & Hheaders).
  assert (table_of (doc !! "model_providers") = providers) as Hdoc.
  { unfold codexTable in Hproviders. by destruct (doc !! "model_providers") as [[p|m]|]; simplify_eq/=. }
  set (d := if bool_decide (pf_ReasoningEffort profile = "") then _ else _ : document).
  assert (∀ k, k ≠ "model" → k ≠ "model_reasoning_effort" →
    d !! k = <["model_provider" := Plain (PText id)]> (<["model_providers" := Table (<[id := Table provider']> providers)]> doc) !! k) as Hd.
  { intros k H1 H2. unfold d. destruct (bool_decide _), (bool_decide _); by rewrite ?lookup_insert_ne by done. }
  assert (table_of (d !! "model_providers") = <[id := Table provider']> providers) as Hmp
    by (rewrite Hd by done; rewrite lookup_insert_ne, lookup_insert_eq by done; done).
  assert (provider_of d id = provider') as Hp by (unfold provider_of; by rewrite Hmp, lookup_insert_eq).
  split; rewrite ?Hp; try done.
  - rewrite Hd by done. by rewrite lookup_insert_eq.
  - intros table n v Ht [Hn Hv]%holds_header_iff. by rewrite Hheaders in Hv.
  - intros other Hne. by rewrite Hmp, lookup_insert_ne, Hdoc.
  - intros k Hk. rewrite !not_elem_of_cons in Hk. destruct Hk as (? & ? & ? & ? & _). rewrite Hd by done. by rewrite !lookup_insert_ne by done.
Qed.

(** ** A name that is free *)

#[export] Instance numbered_inj : Inj (=) (=) numbered.
Proof.
  intros i j. unfold numbered. destruct (decide (i = 1%nat)) as [->|], (decide (j = 1%nat)) as [->|]; try done.
  by intros Heq%(inj (String.append _))%(inj pretty).
Qed.

(** With one attempt more than there are names in use, the search ends with an unused name. *)
Lemma free_provider_found fuel : ∀ i occupied,
  match free_provider fuel i occupied with
  | Some name => name ∉ occupied
  | None => ∀ j, (i ≤ j < i + fuel)%nat → numbered j ∈ occupied
  end.
Proof.
  induction fuel as [|fuel IH]; intros i occupied; cbn [free_provider]; [intros j Hj; lia|].
  destruct (decide _) as [Hin|Hout]; [|done]. specialize (IH (S i) occupied). destruct (free_provider _ _ _); [done|].
  intros j Hj. destruct (decide (j = i)) as [->|]; [done|]. apply IH. lia.
Qed.

Theorem free_provider_ends occupied :
  ∃ name, free_provider (S (size occupied)) 1 occupied = Some name ∧ name ∉ occupied.
Proof.
  pose proof (free_provider_found (S (size occupied)) 1 occupied) as Hf.
  destruct (free_provider _ _ _) as [name|]; [by exists name|].
  assert (list_to_set (numbered <$> seq 1 (S (size occupied))) ⊆ occupied) as Hsub%subseteq_size.
  { intros s (j & -> & Hj%elem_of_seq)%elem_of_list_to_set%list_elem_of_fmap. by apply Hf. }
  rewrite size_list_to_set, length_fmap, length_seq in Hsub by (apply NoDup_fmap; [apply _|apply NoDup_seq]). lia.
Qed.
