(* ===== verification/CodexUndo.v ===== *)
(** * Undoing a managed configuration

    However often the client has installed itself, its removal brings back the
    file as the user left it, byte for byte; and if it was killed between the
    journal and the file, the removal finds the settings of before. *)

From S2P Require Import Prelude.
From S2P Require Import Database.
From S2P Require Import Effects.
From S2P Require Import CodexConfig.
From S2P Require Import CodexConfigGuarantees.

Section undo.
Context `{LawfulTOML} (E : env).

(** ** Files *)

Lemma wp_read {A} (f : disk → A) d (Q : result A → disk → Prop) :
Q (Ok (f d)) d → (¬ quiet E → ∀ e, Q (Err e) d) → wp Direct E (read_file f) d Q.
Proof. intros Hok Herr. apply wp_bind, wp_statement; [by apply wp_gets|]. intros _ Hq detail. by apply Herr. Qed.

Lemma wp_write f d (Q : result unit → disk → Prop) :
Q (Ok ()) (f d) → (¬ quiet E → ∀ e, Q (Err e) d) → wp Direct E (write_file f) d Q.
Proof. intros Hok Herr. apply wp_bind, wp_statement; [by apply wp_modify|]. intros _ Hq detail. by apply Herr. Qed.

Lemma wp_decoded text message d (Q : result document → disk → Prop) :
(∀ doc, toml_Unmarshal text = Some doc → Q (Ok doc) d) → (toml_Unmarshal text = None → Q (Err (ErrMessage message)) d) →
wp Direct E (decoded text message) d Q.
Proof. intros Hok Herr. unfold decoded. destruct (toml_Unmarshal text); [by apply wp_ret, Hok|by apply wp_fail, Herr]. Qed.

Lemma wp_encoded doc d (Q : result string → disk → Prop) :
(∀ text, toml_Marshal doc = Some text → Q (Ok text) d) → (toml_Marshal doc = None → ∀ e, Q (Err e) d) →
wp Direct E (encoded doc) d Q.
Proof. intros Hok Herr. unfold encoded. destruct (toml_Marshal doc); [by apply wp_ret, Hok|by apply wp_fail, Herr]. Qed.

(** The document in the file; a missing file is an empty document. *)
Definition config_document (d : disk) : option document :=
match dk_config d with None => Some ∅ | Some text => toml_Unmarshal text end.

Lemma wp_load d (Q : result (option string * document) → disk → Prop) :
(∀ doc, config_document d = Some doc → Q (Ok (dk_config d, doc)) d) →
(¬ quiet E ∨ config_document d = None → ∀ e, Q (Err e) d) →
wp Direct E loadCodexConfig d Q.
Proof.
intros Hok Herr. apply wp_bind, wp_read; [|intros Hq e; apply Herr; by left].
unfold config_document in *. destruct (dk_config d) as [text|]; [|by apply wp_ret, Hok].
apply wp_bind, wp_decoded; [intros doc Hdoc; by apply wp_ret, Hok|]. intros Hnone. apply Herr. by right.
Qed.

Lemma wp_read_journal temporary d (Q : result (option (string * string)) → disk → Prop) :
match journal_of temporary d with
| None => Q (Ok None) d
| Some (Journal 1 before after) => Q (Ok (Some (before, after))) d
| _ => True
end →
(¬ quiet E ∨ (∃ j, journal_of temporary d = Some j ∧ ∀ before after, j ≠ Journal 1 before after) → ∀ e, Q (Err e) d) →
wp Direct E (readCodexJournal temporary) d Q.
Proof.
intros Hok Herr. apply wp_bind, wp_read; [|intros Hq e; apply Herr; by left].
destruct (journal_of temporary d) as [[|version before after]|] eqn:Hj.
- apply wp_fail, Herr. right. by eexists.
- apply wp_bind, wp_guard.
  + intros ->%Z.eqb_eq. by apply wp_ret.
  + intros Hv%Z.eqb_neq. apply Herr. right. eexists. split; [done|]. congruence.
- by apply wp_ret.
Qed.

(** ** Installing and removing *)

(** Nothing is installed. *)
Definition clean (d : disk) : Prop := dk_managed d = None ∧ dk_temporary d = None.

(** The client is installed over a file that held [original]. *)
Definition installed (original : string) (d : disk) : Prop :=
dk_temporary d = None ∧ is_Some (toml_Unmarshal original) ∧
∃ after, dk_managed d = Some (Journal 1 original after) ∧ dk_config d = Some after ∧ is_Some (toml_Unmarshal after).

Lemma config_contents d doc : config_document d = Some doc → toml_Unmarshal (contents (dk_config d)) = Some doc.
Proof. unfold config_document, contents. destruct (dk_config d); cbn; [done|]. by rewrite toml_empty. Qed.

(** Saving: the journal keeps the oldest content. *)
Lemma wp_save original after d :
dk_temporary d = None → is_Some (toml_Unmarshal original) → is_Some (toml_Unmarshal after) →
(dk_managed d = None ∧ contents (dk_config d) = original ∨ installed original d) →
wp Direct E (saveCodexManaged (contents (dk_config d)) after false) d (λ r d',
  match r with Ok _ => installed original d' ∧ dk_config d' = Some after | Err _ => dk_config d' = dk_config d end).
Proof.
intros Htemp Horiginal Hafter Hstate. apply wp_bind.
assert (wp Direct E (readCodexJournal false) d (λ r d', d' = d ∧ match r with
  | Ok previous => wp Direct E (baseline_of previous (contents (dk_config d)) false) d (λ r d', d' = d ∧
      match r with Ok baseline => baseline = original | Err _ => True end)
  | Err _ => True end)) as Hbaseline.
{ apply wp_read_journal; [|done]. cbn [journal_of]. destruct Hstate as [[-> <-]|(_ & _ & old & -> & Hconfig & _)].
  - split; [done|]. by apply wp_ret.
  - split; [done|]. apply wp_bind, wp_guard; [|done]. intros _. apply wp_bind, wp_decoded; [intros current _|done].
    apply wp_bind, wp_decoded; [intros oldBefore _|done]. apply wp_bind, wp_decoded; [intros oldAfter _|done].
    rewrite Hconfig. cbn [contents default from_option]. rewrite decide_True by done. by apply wp_ret. }
eapply wp_mono; [exact Hbaseline|]. intros [previous|e] d1 [-> Hprevious]; [|done].
apply wp_bind. eapply wp_mono; [exact Hprevious|]. intros [baseline|e] d1 [-> Hb]; [|done]. subst baseline.
apply wp_bind, wp_write; [|done]. apply wp_bind, wp_attempt, wp_write.
- apply wp_ret. split; [|done]. split_and!; [done|done|]. by exists after.
- intros _ e. apply wp_bind, wp_attempt, wp_write; [by apply wp_fail|]. intros _ e'. by apply wp_fail.
Qed.

(** One installation; the user may edit the file while being asked. *)
Definition install (edit : option string → option string) (i : Profile * document * string * option CodexCapabilities) : M disk unit :=
let '(profile, auth, id, capabilities) := i in
configure profile auth id capabilities false (λ d, d <| dk_config := edit (dk_config d) |>).

(** The file selects what was installed. *)
Definition selects (i : Profile * document * string * option CodexCapabilities) (before after : option document) : Prop :=
let '(profile, auth, id, _) := i in ∃ b a, before = Some b ∧ after = Some a ∧ installs b a profile auth id.

Lemma wp_merged i d doc :
let '(profile, auth, id, capabilities) := i in
wp Direct E (match mergeCodexProvider doc profile auth id capabilities with Ok doc => encoded doc | Err e => fail e end) d
  (λ r d', d' = d ∧ match r with Ok text => selects i (Some doc) (toml_Unmarshal text) | Err _ => True end).
Proof.
destruct i as [[[profile auth] id] caps]. destruct (mergeCodexProvider _ _ _ _ _) eqn:Hmerge; [|by apply wp_fail].
apply wp_encoded; [|done]. intros text Htext. split; [done|]. do 2 eexists. split_and!; [done|by apply toml_read_back|].
by eapply merge_installs.
Qed.

Lemma wp_install original edit i d :
dk_temporary d = None → is_Some (toml_Unmarshal original) →
(dk_managed d = None ∧ contents (dk_config d) = original ∨ installed original d) →
wp Direct E (install edit i) d (λ r d',
  match r with
  | Ok _ => installed original d' ∧ selects i (config_document d) (config_document d')
  | Err _ => dk_config d' = dk_config d ∨ dk_config d' = edit (dk_config d)
  end).
Proof.
intros Htemp Horiginal Hstate. destruct i as [[[profile auth] id] caps].
apply wp_bind, wp_read; [|by left]. apply wp_bind, wp_guard; [intros _|by left].
apply wp_bind, wp_load; [intros doc Hdoc|by left].
apply wp_bind. eapply wp_mono; [exact (wp_merged (profile, auth, id, caps) d doc)|].
intros [updated|e] d1 [-> Hupdated]; [|by left]. apply wp_bind, wp_modify.
apply wp_bind, wp_load; [intros doc' _|by right]. apply wp_bind, wp_guard; [|by right].
intros Hsame%bool_decide_eq_true. cbn in Hsame.
assert (d <| dk_config := edit (dk_config d) |> = d) as -> by (destruct d; cbn in *; by rewrite Hsame).
apply wp_bind. eapply (wp_mono _ _ _ _ (λ r d', dk_config d' = dk_config d ∧ match r with Ok _ =>
  dk_temporary d' = None ∧ (dk_managed d' = None ∧ contents (dk_config d') = original ∨ installed original d') | Err _ => True end)).
{ clear Hdoc. destruct (dk_config d) as [text|] eqn:Hconfig; [rewrite <- Hconfig in *|apply wp_ret; cbn; split_and!; [done|done|by rewrite Hconfig]].
  apply wp_write; [|done]. cbn. split_and!; [done|done|].
  destruct Hstate as [?|(? & ? & after & Hm & Hc & ?)]; [by left|right]. split_and!; [done|done|].
  by exists after. }
intros [[]|e] d2 [Hc Hd2]; [|by left]. destruct Hd2 as [Ht2 Hstate2]. rewrite <- Hc.
eapply wp_mono; [apply (wp_save original); [done|done| |done]|].
- destruct Hupdated as (? & ? & _ & ? & _). by eexists.
- intros [[]|e] d3 Hd3; [|by left]. destruct Hd3 as [Hinstalled Hconfig]. split; [done|].
  rewrite Hdoc. unfold config_document at 1. by rewrite Hconfig.
Qed.

(** Removing an installation, whatever the file holds by then. *)
Lemma wp_unconfigure before after b a c d :
dk_temporary d = None → dk_managed d = Some (Journal 1 before after) →
toml_Unmarshal before = Some b → toml_Unmarshal after = Some a → config_document d = Some c →
wp Direct E unconfigure d (λ r d',
  match r with
  | Ok _ => clean d' ∧ ∃ text, dk_config d' = Some text ∧ toml_Unmarshal text = Some (restoreCodexFields c b a) ∧
      (dk_config d = Some after → text = before)
  | Err _ => ¬ quiet E ∨ toml_Marshal (restoreCodexFields c b a) = None
  end).
Proof.
intros Htemp Hmanaged Hb Ha Hc. apply wp_bind, wp_read; [|by left]. rewrite Htemp, bool_decide_eq_true_2 by done. cbn [negb].
apply wp_bind, wp_read_journal; cbn [journal_of]; rewrite Hmanaged; [|intros [Hq|(j & [= <-] & Hj)]; [by left|by edestruct Hj]].
apply wp_bind, wp_load; [intros c' Hc'|intros [Hq|Hno]; [by left|congruence]].
assert (c' = c) as -> by congruence.
apply wp_bind, wp_decoded; [intros b' Hb'|congruence]. assert (b' = b) as -> by congruence.
apply wp_bind, wp_decoded; [intros a' Ha'|congruence]. assert (a' = a) as -> by congruence.
apply wp_bind, wp_encoded; [intros text Htext|by right].
apply wp_bind, wp_load; [intros _ _|intros [Hq|Hno]; [by left|congruence]].
apply wp_bind, wp_guard; [intros _|intros Hne%bool_decide_eq_false; done].
apply wp_bind, wp_write; [|by left]. apply wp_write; [|by left]. split; [done|]. eexists. split; [done|].
apply toml_read_back in Htext. case_decide as Hcase; [|split; [done|]; intros Hconfig; by rewrite Hconfig in Hcase].
split; [|done]. rewrite Hb. f_equal. symmetry.
assert (c = a) as ->.
{ apply config_contents in Hc. rewrite Hcase in Hc. congruence. }
apply restore_undo; lia.
Qed.
End undo.

Section removal.
Context `{LawfulTOML}.

(** The world goes on as the user left it: nothing is edited while a question is asked. *)
Definition undisturbed (file : option string) : option string := file.

Lemma wp_installs E original l d :
dk_temporary d = None → is_Some (toml_Unmarshal original) →
(dk_managed d = None ∧ contents (dk_config d) = original ∨ installed original d) →
wp Direct E (for_each (install undisturbed) l) d (λ r d', match r with Ok _ => l ≠ [] → installed original d' | Err _ => True end).
Proof.
intros Htemp Horiginal Hstate.
pose (I := λ (rest : list (Profile * document * string * option CodexCapabilities)) (done' : list ()) (d' : disk), dk_temporary d' = None ∧
  (dk_managed d' = None ∧ contents (dk_config d') = original ∨ installed original d') ∧ (rest = l ∨ installed original d')).
eapply wp_mono; [apply (wp_for_each Direct E (install undisturbed) l I (λ _ _, True))|].
- unfold I. split_and!; [done|done|by left].
- intros i rest done' d' (Ht & Hs & _). eapply wp_mono; [by apply wp_install|].
  intros [[]|e] d'' Hd; [|done]. destruct Hd as [Hd _]. unfold I. split_and!; [apply Hd|by right|by right].
- intros [ys|e] d' HI; [|done]. destruct HI as (_ & _ & [<-|?]); done.
Qed.

(** C25: Configuring Codex and taking the configuration out again is a round trip.  However often,
    for whatever profiles, servers and providers the client has written itself into a configuration that
    holds no managed settings, if nobody else changes the file then removing the configuration brings back
    the file's original text, byte for byte, and leaves no journal behind.  It fails only if the files
    cannot be read or written. *)
Theorem configuration_comes_undone E E' steps d d1 d2 done' r n c n' c' :
clean d → is_Some (toml_Unmarshal (contents (dk_config d))) → steps ≠ [] →
for_each (install undisturbed) steps E d n = (Ok done', d1, c) →
unconfigure E' d1 n' = (r, d2, c') →
match r with
| Ok _ => clean d2 ∧ dk_config d2 = Some (contents (dk_config d))
| Err _ => ¬ quiet E'
end.
Proof.
intros [Hmanaged Htemp] Horiginal Hsteps Hinstall Hremove.
assert (installed (contents (dk_config d)) d1) as (Ht1 & [b Hb] & after & Hm1 & Hc1 & [a Ha]).
{ refine (wp_direct _ _ _ _ _ _ _ _ (wp_installs E (contents (dk_config d)) steps d Htemp Horiginal _) Hinstall Hsteps). by left. }
assert (config_document d1 = Some a) as Hdoc by (unfold config_document; by rewrite Hc1).
pose proof (wp_direct _ _ _ _ _ _ _ _ (wp_unconfigure E' _ _ _ _ _ _ Ht1 Hm1 Hb Ha Hdoc) Hremove) as Hr.
destruct r as [[]|e].
- destruct Hr as (Hclean & text & Hc2 & _ & Htext). split; [done|]. by rewrite Hc2, (Htext Hc1).
- destruct Hr as [?|Hno]; [done|]. unfold restoreCodexFields in Hno. rewrite restore_undo in Hno by lia.
  destruct (toml_writable _ _ Hb) as [text Htext]. congruence.
Qed.

(** If the client is killed after it has written its journal and before it has written
    the configuration, the configuration can still be removed: the file then holds the settings it held
    before, and the journal is gone. *)
Theorem killed_installation_comes_undone E after d d1 d2 r n c :
clean d → is_Some (toml_Unmarshal (contents (dk_config d))) → is_Some (toml_Unmarshal after) →
d1 = set_journal false (Some (Journal 1 (contents (dk_config d)) after)) d →
unconfigure E d1 n = (r, d2, c) →
match r with
| Ok _ => clean d2 ∧ config_document d2 = config_document d
| Err _ => ¬ quiet E
end.
Proof.
intros [Hmanaged Htemp] [b Hb] [a Ha] -> Hremove.
assert (config_document d = Some b) as Hdoc.
{ unfold config_document, contents in *. destruct (dk_config d); cbn in Hb; [done|]. by rewrite toml_empty in Hb. }
assert (restoreCodexFields b b a = b) as Hidle by by apply restore_idle.
pose proof (wp_direct _ _ _ _ _ _ _ _ (wp_unconfigure E _ _ _ _ _ (set_journal false _ d) Htemp eq_refl Hb Ha Hdoc) Hremove) as Hr.
rewrite Hidle in Hr. destruct r as [[]|e].
- destruct Hr as (Hclean & text & Hc2 & Htext & _). split; [done|]. rewrite Hdoc. unfold config_document. by rewrite Hc2.
- destruct Hr as [?|Hno]; [done|]. destruct (toml_writable _ _ Hb) as [text Htext]. congruence.
Qed.

(** C26: Removing the configuration respects what the user has done to the file since.  Every plain
    setting that differs from what the client installed stays as the user wrote it, at whatever
    depth.  And the authentication of the provider - its address, its helper, its keys and its Authorization
    headers - afterwards is either the user's, all of it, or holds nothing that was not there
    before the installation: an old secret never meets a new address. *)
Theorem removal_respects_the_user E E' profile auth id capabilities d d1 d2 edited current n c n' c' :
clean d → is_Some (toml_Unmarshal (contents (dk_config d))) →
install undisturbed (profile, auth, id, capabilities) E d n = (Ok (), d1, c) →
toml_Unmarshal edited = Some current →
unconfigure E' (d1 <| dk_config := Some edited |>) n' = (Ok (), d2, c') →
∃ before after restored,
  config_document d = Some before ∧ config_document d1 = Some after ∧ config_document d2 = Some restored ∧ clean d2 ∧
  (∀ path p, at_path current path = Some (Plain p) → at_path after path ≠ Some (Plain p) → at_path restored path = Some (Plain p)) ∧
  (count_dots id = 0%nat →
     codexAuthGroup (provider_of restored id) = codexAuthGroup (provider_of current id) ∨
     codexAuthGroup (provider_of restored id) ⊆ codexAuthGroup (provider_of before id)).
Proof.
intros [Hmanaged Htemp] Horiginal Hinstall Hcurrent Hremove.
destruct (wp_direct _ _ _ _ _ _ _ _ (wp_install E (contents (dk_config d)) undisturbed _ d Htemp Horiginal (or_introl (conj Hmanaged eq_refl))) Hinstall)
  as ((Ht1 & [b Hb] & after & Hm1 & Hc1 & [a Ha]) & before & a' & Hbefore & Ha' & Hinstalls).
assert (before = b) as -> by (apply config_contents in Hbefore; congruence).
assert (a' = a) as -> by (unfold config_document in Ha'; rewrite Hc1 in Ha'; congruence).
destruct (wp_direct _ _ _ _ _ _ _ _ (wp_unconfigure E' _ _ _ _ current (d1 <| dk_config := Some edited |>) Ht1 Hm1 Hb Ha Hcurrent) Hremove)
  as (Hclean & text & Hc2 & Htext & _).
exists b, a, (restoreCodexFields current b a). split_and!; [done|done|by unfold config_document; rewrite Hc2|done| |].
- intros [|k path] p Hp Hne; [done|]. unfold at_path in *. cbn [at_value table_of] in *. by apply restore_keeps.
- intros Hid. apply secrets_stay_with_their_address; [done|]. apply Hinstalls.
Qed.
End removal.
