(* ===== verification/CodexSample.v ===== *)
(** * A configuration for the examples

    A user's configuration, with a comment that no encoder writes; two
    installations over it; and an edit by hand. *)

From S2P Require Import Prelude.
From S2P Require Import Database.
From S2P Require Import Sample.
From S2P Require Import CodexConfig.
From S2P Require Import CodexConfigGuarantees.
From S2P Require Import CodexUndo.

(** ** A table of texts *)

Section table.
Context (entries : list (string * document)).

(** The texts and documents of a table are those it lists; of several texts of a document the first is written. *)
Definition table_toml : TOML := {|
  toml_Unmarshal := λ text, (list_to_map entries : gmap string document) !! text;
  toml_Marshal := λ doc, fst <$> head (filter (λ e : string * document, e.2 = doc) entries)
|}.

Lemma table_lawful : (list_to_map entries : gmap string document) !! "" = Some ∅ → NoDup entries.*1 → @LawfulTOML table_toml.
Proof.
intros Hempty Hentries. split; cbn.
- done.
- intros doc text Htext. destruct (filter _ entries) as [|[text' doc'] rest] eqn:Hf; [done|]. injection Htext as ->.
  assert ((text, doc') ∈ filter (λ e : string * document, e.2 = doc) entries) as Hin by (rewrite Hf; by left).
  apply list_elem_of_filter in Hin as [Hdoc Hin]. cbn in Hdoc. subst. by apply elem_of_list_to_map.
- intros text doc Htext%elem_of_list_to_map_2.
  assert ((text, doc) ∈ filter (λ e : string * document, e.2 = doc) entries) as Hin by by apply list_elem_of_filter.
  destruct (filter _ entries); [by apply not_elem_of_nil in Hin|]. by eexists.
Qed.
End table.

(** ** The files *)

Definition text (s : string) : value := Plain (PText s).

(** The user's own provider, with a key in the environment. *)
Definition user_provider : document :=
  {[ "base_url" := text "https://old.example/v1"; "env_key" := text "OLD_KEY"; "http_headers" := Table {[ "X-Team" := text "blue" ]} ]}.
Definition user_document : document :=
  {[ "model" := text "gpt-5"; "model_provider" := text "relayapi_rai"; "model_providers" := Table {[ "relayapi_rai" := Table user_provider ]} ]}.
Definition user_text : string := "# my own settings".

Definition helper (token : string) : document := {[ "command" := text "rai"; "account" := text token ]}.
Definition home : Profile := {| pf_ServerURL := "https://relay.example/"; pf_DefaultModel := "gpt-5-codex"; pf_ReasoningEffort := "" |}.
Definition office : Profile := {| pf_ServerURL := "https://office.example"; pf_DefaultModel := ""; pf_ReasoningEffort := "high" |}.

Definition merged (doc : document) (profile : Profile) (account : string) : document :=
  match mergeCodexProvider doc profile (helper account) "relayapi_rai" None with Ok doc => doc | Err _ => ∅ end.

Definition home_document : document := merged user_document home "home".
Definition office_document : document := merged home_document office "office".

(** By hand: another model, another address, a new setting. *)
Definition edited_document : document :=
  <["model" := text "o4"]> (<["history" := Table {[ "persistence" := text "none" ]}]>
    (<["model_providers" := Table {[ "relayapi_rai" := Table (<["base_url" := text "https://mine.example/v1"]> (provider_of home_document "relayapi_rai")) ]}]>
      home_document)).

Definition sample_entries : list (string * document) :=
  [ ("", ∅); ("user", user_document); (user_text, user_document); ("home", home_document); ("office", office_document);
    ("edited", edited_document); ("restored", restoreCodexFields edited_document user_document home_document);
    ("stuck", restoreCodexFields home_document user_document office_document) ].

#[export] Instance sample_toml : TOML := table_toml sample_entries.
#[export] Instance sample_lawful : LawfulTOML.
Proof. apply table_lawful; vm_dec. Qed.

Definition user_disk : disk := {| dk_config := Some user_text; dk_backup := None; dk_managed := None; dk_temporary := None |}.

Definition two_installations : list (Profile * document * string * option CodexCapabilities) :=
  [ (home, helper "home", "relayapi_rai", None); (office, helper "office", "relayapi_rai", None) ].

(** ** The witnesses *)

Lemma user_decodes : config_document user_disk = Some user_document.
Proof. vm_dec. Qed.

Lemma home_decodes : toml_Unmarshal "home" = Some home_document.
Proof. vm_dec. Qed.

Lemma edited_decodes : toml_Unmarshal "edited" = Some edited_document.
Proof. vm_dec. Qed.

Lemma user_disk_decodes : is_Some (toml_Unmarshal (contents (dk_config user_disk))).
Proof. eexists. exact user_decodes. Qed.

Lemma configuration_comes_undone_witness :
  ∃ d1 d2 done' c c',
    for_each (install undisturbed) two_installations calm user_disk 0%nat = (Ok done', d1, c) ∧ dk_config d1 = Some "office" ∧
    unconfigure calm d1 0%nat = (Ok (), d2, c') ∧ clean d2 ∧ dk_config d2 = Some user_text.
Proof.
destruct (for_each (install undisturbed) two_installations calm user_disk 0%nat) as [[[done'|e] d1] c] eqn:Hrun;
  [|exfalso; by vm_compute in Hrun].
assert (dk_config d1 = Some "office") as Hoffice by (vm_compute in Hrun; by simplify_eq).
exists d1. destruct (unconfigure calm d1 0%nat) as [[r d2] c'] eqn:Hremove. exists d2, done', c, c'.
pose proof (configuration_comes_undone calm calm two_installations user_disk d1 d2 done' r 0%nat c 0%nat c'
  (conj eq_refl eq_refl) user_disk_decodes ltac:(done) Hrun Hremove) as Hr.
destruct r as [[]|e]; [|destruct (Hr calm_quiet)]. destruct Hr as [Hclean Hconfig]. by split_and!.
Defined.

Lemma killed_installation_comes_undone_witness :
  ∃ d2 c, unconfigure calm (set_journal false (Some (Journal 1 user_text "home")) user_disk) 0%nat = (Ok (), d2, c) ∧
    clean d2 ∧ config_document d2 = Some user_document.
Proof.
destruct (unconfigure calm (set_journal false (Some (Journal 1 user_text "home")) user_disk) 0%nat) as [[r d2] c] eqn:Hremove.
pose proof (killed_installation_comes_undone calm "home" user_disk _ d2 r 0%nat c
  (conj eq_refl eq_refl) user_disk_decodes (ex_intro _ _ home_decodes) eq_refl Hremove) as Hr.
destruct r as [[]|e]; [|destruct (Hr calm_quiet)]. destruct Hr as [Hclean Hdoc].
exists d2, c. split_and!; [done|apply Hclean..|]. rewrite Hdoc. exact user_decodes.
Defined.

Definition home_disk : disk :=
  {| dk_config := Some "home"; dk_backup := Some user_text; dk_managed := Some (Journal 1 user_text "home"); dk_temporary := None |}.

Definition restored_document : document := restoreCodexFields edited_document user_document home_document.

Lemma home_installed : config_document home_disk = Some home_document.
Proof. exact home_decodes. Qed.

Lemma restored_decodes : toml_Unmarshal "restored" = Some restored_document.
Proof. vm_dec. Qed.

Lemma model_kept : at_path edited_document ["model"] = Some (text "o4") ∧ at_path home_document ["model"] ≠ Some (text "o4").
Proof. split; [vm_dec|]. apply (bool_decide_eq_false_1 _). by vm_compute. Qed.

Lemma new_authentication : codexAuthGroup (provider_of restored_document "relayapi_rai") ⊈ codexAuthGroup user_provider.
Proof. vm_dec. Qed.

Definition removed : option string :=
  match unconfigure calm (home_disk <| dk_config := Some "edited" |>) 0%nat with (Ok _, d, _) => dk_config d | _ => None end.

Lemma removed_run : removed = Some "restored".
Proof. by vm_compute. Qed.

Lemma removal_respects_the_user_witness :
  ∃ d2 c c',
    install undisturbed (home, helper "home", "relayapi_rai", None) calm user_disk 0%nat = (Ok (), home_disk, c) ∧
    unconfigure calm (home_disk <| dk_config := Some "edited" |>) 0%nat = (Ok (), d2, c') ∧
    config_document d2 = Some restored_document ∧ at_path restored_document ["model"] = Some (text "o4") ∧
    codexAuthGroup (provider_of restored_document "relayapi_rai") ⊈ codexAuthGroup user_provider ∧
    codexAuthGroup (provider_of restored_document "relayapi_rai") = codexAuthGroup (provider_of edited_document "relayapi_rai").
Proof.
destruct (install undisturbed (home, helper "home", "relayapi_rai", None) calm user_disk 0%nat) as [[r d1] c] eqn:Hrun.
assert (r = Ok () ∧ d1 = home_disk) as [-> ->] by (revert Hrun; vm_compute; intros [= <- <- _]; done).
pose proof removed_run as Hconfig. unfold removed in Hconfig.
destruct (unconfigure calm (home_disk <| dk_config := Some "edited" |>) 0%nat) as [[[[]|e] d2] c'] eqn:Hremove; [|discriminate Hconfig].
destruct (removal_respects_the_user calm calm home (helper "home") "relayapi_rai" None user_disk home_disk d2 "edited" edited_document
  0%nat c 0%nat c' (conj eq_refl eq_refl) user_disk_decodes Hrun edited_decodes Hremove)
  as (before & after & restored & Hbefore & Hafter & Hrestored & _ & Hkeeps & Hauth).
assert (before = user_document) as -> by (rewrite user_decodes in Hbefore; congruence).
assert (after = home_document) as -> by (rewrite home_installed in Hafter; congruence).
assert (restored = restored_document) as ->.
{ unfold config_document in Hrestored. rewrite Hconfig, restored_decodes in Hrestored. congruence. }
exists d2, c, c'. split_and!; [done|done|exact Hrestored|by apply (Hkeeps ["model"]); apply model_kept|exact new_authentication|].
destruct (Hauth eq_refl) as [Hsame|Hold]; [exact Hsame|]. by destruct new_authentication.
Defined.

(** ** A second installation that is killed *)

(** Killed between its journal and the configuration: the journal knows the office, the file the home. *)
Definition killed_disk : disk := set_journal false (Some (Journal 1 user_text "office")) home_disk.

(** Only a first installation can be undone halfway.  The client of the second one is taken out,
    the journal with it, and the address and the helper of the first one stay in the file. *)
Example killed_reconfiguration_stays :
  match unconfigure calm killed_disk 0%nat with
  | (Ok _, d, _) =>
      dk_managed d = None ∧
      match config_document d with
      | Some restored =>
          provider_of restored "relayapi_rai" !! "base_url" = Some (text "https://relay.example/v1") ∧
          provider_of restored "relayapi_rai" !! "auth" = Some (Table (helper "home"))
      | None => False
      end
  | _ => False
  end.
Proof.
assert (match unconfigure calm killed_disk 0%nat with (Ok _, d, _) => (dk_managed d, dk_config d) | _ => (Some Damaged, None) end =
  (None, Some "stuck")) as Hrun by by vm_compute.
assert (toml_Unmarshal "stuck" = Some (restoreCodexFields home_document user_document office_document)) as Hstuck by vm_dec.
destruct (unconfigure calm killed_disk 0%nat) as [[[[]|e] d] c]; [|discriminate Hrun].
injection Hrun as -> Hconfig. split; [done|]. unfold config_document. rewrite Hconfig, Hstuck. split; vm_dec.
Qed.
