(* ===== verification/Routing.v ===== *)
(** * Choosing an upstream account (internal/upstream/native_runtime.go, native_credential.go, native_affinity.go)

    The runtime keeps the upstream credentials as shared objects: requests in
    flight hold on to the object that was chosen for them, while the
    registered set is replaced underneath.  A credential that keeps failing is
    isolated; after its cooldown one request may probe it.  The table of routes
    holds slices, and the choice of a credential writes into them.

    Two choices at a time hold the lock for reading only, so that Go leaves their
    writes to one slice unordered; here a choice is a single step. *)

From S2P Require Import Prelude.
From S2P Require Import Json.
From S2P Require Import Database.
From S2P Require Import Schema.
From S2P Require Import Usage.
From S2P Require Import Requests.
From S2P Require Import WebSocket.

(** ** Credentials *)

(* src/internal/upstream/runtime.go:64-71 Credential *)
Record Credential := {
  cd_ID : string;
  cd_Provider : string;
  cd_Enabled : bool;
  cd_Models : list string;
  cd_Document : string
}.

(* src/internal/upstream/runtime.go:83-89 Settings *)
Record Settings := {
  st_RoutingStrategy : string;
  st_ProxyURL : string;
  st_FailureThreshold : Z;
  st_FailureCooldown : Z
}.

(** [None] is the zero time. *)
(* src/internal/upstream/runtime.go:91-103 CredentialStatus *)
Record CredentialStatus := {
  cs_Status : string;
  cs_StatusMessage : string;
  cs_Unavailable : bool;
  cs_Success : Z;
  cs_Failed : Z;
  cs_PlanType : string;
  cs_NextRetryAfter : option Z
}.
#[export] Instance CredentialStatus_eta : Eta CredentialStatus := λ r,
  Build_CredentialStatus (cs_Status r) (cs_StatusMessage r) (cs_Unavailable r) (cs_Success r) (cs_Failed r)
    (cs_PlanType r) (cs_NextRetryAfter r).

(** What routing uses of a credential; its headers and tokens, its HTTP client and
    the expiry of its token are left out. *)
(* src/internal/upstream/native_credential.go:18-40 nativeCredential *)
Record nativeCredential := {
  nc_source : Credential;
  nc_Provider : string;
  nc_BaseURL : string;
  nc_ProxyURL : string;
  nc_WebSockets : bool;
  nc_ModelRoutes : gmap string string;
  nc_Models : list string;
  nc_Status : CredentialStatus;
  nc_consecutiveFailures : Z;
  nc_probeActive : bool;
  nc_SessionAffinity : bool;
  nc_Vendor : string
}.
#[export] Instance nativeCredential_eta : Eta nativeCredential := λ r,
  Build_nativeCredential (nc_source r) (nc_Provider r) (nc_BaseURL r) (nc_ProxyURL r) (nc_WebSockets r)
    (nc_ModelRoutes r) (nc_Models r) (nc_Status r) (nc_consecutiveFailures r) (nc_probeActive r)
    (nc_SessionAffinity r) (nc_Vendor r).

Definition nc_ID (c : nativeCredential) : string := cd_ID (nc_source c).

(* src/internal/upstream/native_credential.go:199-216 canonicalProvider *)
Definition canonicalProvider (value : string) : string :=
  let value := to_lower (trim_space value) in
  if bool_decide (value = "codex") then "codex"
  else if bool_decide (value = "kimi") then "kimi"
  else if bool_decide (value ∈ ["xai"; "x.ai"; "grok"]) then "xai"
  else if bool_decide (value = "openai") then "openai"
  else if bool_decide (value ∈ ["aliyun-bailian"; "bailian"]) then "aliyun-bailian"
  else if bool_decide (value ∈ ["openai-compatible"; "openai-compatibility"]) then "openai-compatibility"
  else "".

(* src/internal/upstream/native_credential.go:218-231 defaultBaseURL *)
Definition defaultBaseURL (provider : string) : string :=
  if bool_decide (provider = "codex") then "https://chatgpt.com/backend-api/codex"
  else if bool_decide (provider = "kimi") then "https://api.kimi.com/coding/v1"
  else if bool_decide (provider = "xai") then "https://api.x.ai/v1"
  else if bool_decide (provider = "aliyun-bailian") then "https://dashscope.aliyuncs.com/compatible-mode/v1"
  else "https://api.openai.com/v1".

(* src/internal/upstream/native_credential.go:233-244 defaultModels *)
Definition defaultModels (provider : string) : list string :=
  if bool_decide (provider = "codex") then
    ["gpt-6-sol"; "gpt-6-luna"; "gpt-6-astra"; "gpt-5.6-sol"; "gpt-5.6-terra"; "gpt-5.6-luna"; "gpt-5.4"; "gpt-5.4-mini";
     "gpt-5.3-codex"; "gpt-5.2-codex"]
  else if bool_decide (provider = "kimi") then ["kimi-for-coding"; "kimi-k2.5"; "kimi-k2-thinking"]
  else if bool_decide (provider = "xai") then
    ["grok-4.7"; "grok-4.7-build-fast"; "grok-4.6"; "grok-4.5"; "grok-code-fast-1"]
  else [].

(* src/internal/upstream/native_images.go:31-40 implicitProviderImageModels *)
Definition implicitProviderImageModels (provider : string) : list string :=
  if bool_decide (provider = "codex") then ["gpt-image-1.5"; "gpt-image-2"]
  else if bool_decide (provider = "xai") then ["grok-imagine-image"; "grok-imagine-image-quality"; "grok-imagine-image-2.0"]
  else [].

Definition model_key (model : string) : string := to_lower (trim_space model).

Definition by_lower (a b : string) : Prop := String.leb (to_lower a) (to_lower b) = true.
#[export] Instance by_lower_dec a b : Decision (by_lower a b).
Proof. unfold by_lower. apply _. Defined.

Definition by_name (a b : string) : Prop := String.leb a b = true.
#[export] Instance by_name_dec a b : Decision (by_name a b).
Proof. unfold by_name. apply _. Defined.

(** The last spelling of a name wins. *)
(* src/internal/upstream/native_credential.go:246-260 normalizedModelList *)
Definition normalizedModelList (models : list string) : list string :=
  let set := foldl (λ (set : gmap string string) model,
                      let model := trim_space model in
                      if bool_decide (model = "") then set else <[to_lower model := model]> set) ∅ models in
  merge_sort by_lower (map_to_list set).*2.

Definition text_at (values : members) (key : string) : option string :=
  match member key values with
  | Some (JString s) => if bool_decide (trim_space s = "") then None else Some (trim_space s)
  | _ => None
  end.

(* src/internal/upstream/native_credential.go:262-269 firstString *)
Definition firstString (values : members) (keys : list string) : string :=
  default "" (head (omap (text_at values) keys)).

(** net/url: the scheme and the host of an address. *)
Class URLParsing := url_Parse : string → option (string * string).

(** [None]: no proxy. *)
(* src/internal/egress/egress.go:79-93 parseProxyURL *)
Definition parseProxyURL `{URLParsing} (raw : string) : result (option (string * string)) :=
  let raw := trim_space raw in
  if bool_decide (raw = "") || equal_fold raw "direct" then Ok None else
  match url_Parse raw with
  | None => Err (ErrMessage "invalid proxy URL")
  | Some (scheme, host) =>
      if bool_decide (host = "") then Err (ErrMessage "invalid proxy URL")
      else if bool_decide (to_lower scheme ∈ ["http"; "https"; "socks5"; "socks5h"]) then Ok (Some (scheme, host))
      else Err (ErrMessage "unsupported proxy scheme")
  end.

(* src/internal/egress/egress.go:15-21 ValidateProxyURL *)
Definition ValidateProxyURL `{URLParsing} (raw : string) : bool :=
  match parseProxyURL raw with Ok (Some _) => true | _ => false end.

Definition openai_family : list string := ["openai"; "openai-compatibility"; "aliyun-bailian"].

(** Does the type that the document declares fit the provider? *)
(* src/internal/upstream/native_credential.go:137-144 compileNativeCredential *)
Definition type_fits (provider : string) (document : members) : bool :=
  let rawType := firstString document ["type"] in
  let documentProvider := canonicalProvider rawType in
  bool_decide (rawType = "") ||
  (negb (bool_decide (documentProvider = "")) &&
   (bool_decide (documentProvider = provider) ||
    (bool_decide (provider ∈ openai_family) && bool_decide (documentProvider ∈ openai_family)))).

(* src/internal/upstream/native_credential.go:154-158 compileNativeCredential *)
Definition session_affinity (provider : string) (document : members) : bool :=
  match member "session_affinity" document with
  | Some (JBool affinity) => affinity
  | _ => bool_decide (firstString document ["session_affinity"] = "true") || bool_decide (provider = "aliyun-bailian")
  end.

(* src/internal/upstream/native_credential.go:178-186 compileNativeCredential *)
Definition compiled_routes (document : members) : gmap string string :=
  match member "model_routes" document with
  | Some (JArray routes) =>
      foldl (λ (m : gmap string string) value,
               let item := match value with JObject item => item | _ => [] end in
               let public := firstString item ["public"] in
               let upstream := firstString item ["upstream"] in
               if bool_decide (public = "") || bool_decide (upstream = "") then m
               else <[to_lower public := upstream]> m) ∅ routes
  | _ => ∅
  end.

(* src/internal/upstream/native_credential.go:125-197 compileNativeCredential *)
Definition compileNativeCredential `{URLParsing} (source : Credential) (globalProxy : string) : result nativeCredential :=
  if bool_decide (trim_space (cd_ID source) = "") then Err (ErrMessage "upstream credential requires an ID") else
  match unmarshal_object (cd_Document source) with
  | None => Err (ErrMessage "decode upstream credential")
  | Some document =>
      let provider := canonicalProvider (cd_Provider source) in
      if bool_decide (provider = "") then Err (ErrMessage "unsupported upstream provider") else
      if negb (type_fits provider document) then Err (ErrMessage "upstream credential type does not match provider") else
      let vendor := firstString document ["vendor"] in
      let base := trim_right_of "/" (firstString document ["base_url"]) in
      let proxy := firstString document ["proxy_url"] in
      let proxy := if bool_decide (proxy = "") then globalProxy else proxy in
      let models := normalizedModelList (cd_Models source) in
      match parseProxyURL proxy with
      | Err e => Err e
      | Ok _ =>
          Ok {| nc_source := source; nc_Provider := provider;
                nc_BaseURL := if bool_decide (base = "") then defaultBaseURL provider else base;
                nc_ProxyURL := proxy;
                nc_WebSockets := match member "websockets" document with Some (JBool b) => b | _ => false end;
                nc_ModelRoutes := compiled_routes document;
                nc_Models := if bool_decide (length models = 0%nat) then defaultModels provider else models;
                nc_Status := {| cs_Status := "active"; cs_StatusMessage := ""; cs_Unavailable := false; cs_Success := 0;
                                cs_Failed := 0; cs_PlanType := firstString document ["plan_type"]; cs_NextRetryAfter := None |};
                nc_consecutiveFailures := 0; nc_probeActive := false;
                nc_SessionAffinity := session_affinity provider document;
                nc_Vendor := if bool_decide (provider = "aliyun-bailian") && bool_decide (vendor = "") then "aliyun-bailian"
                             else vendor |}
      end
  end.

(** ** The circuit of a credential *)

(** May a request use the credential now?  The one that finds its cooldown over is the probe. *)
(* src/internal/upstream/native_credential.go:414-427 available *)
Definition available (now : Z) (c : nativeCredential) : bool * nativeCredential :=
  let status := nc_Status c in
  if negb (cs_Unavailable status) then (true, c) else
  match cs_NextRetryAfter status with
  | None => (false, c)
  | Some retry =>
      if (now <? retry) || nc_probeActive c then (false, c)
      else (true, c <| nc_probeActive := true; nc_Status := status <| cs_Status := "recovering"; cs_StatusMessage := "" |> |>)
  end.

Definition closed_status (status : CredentialStatus) : CredentialStatus :=
  status <| cs_Status := "active"; cs_StatusMessage := ""; cs_Unavailable := false; cs_NextRetryAfter := (None : option Z) |>.

(* src/internal/upstream/native_credential.go:429-454 record *)
Definition record (now : Z) (success : bool) (message : string) (availabilityFailure : bool) (threshold cooldown : Z)
    (c : nativeCredential) : nativeCredential :=
  let status := nc_Status c in
  if success then
    c <| nc_Status := closed_status status <| cs_Success := add64 (cs_Success status) 1 |>;
         nc_consecutiveFailures := 0; nc_probeActive := false |>
  else
    let status := status <| cs_Failed := add64 (cs_Failed status) 1; cs_StatusMessage := message |> in
    if negb availabilityFailure then c <| nc_Status := status |> else
    let wasProbe := nc_probeActive c in
    let failures := add64 (nc_consecutiveFailures c) 1 in
    let status := if (0 <? cooldown) && (wasProbe || (threshold <=? failures))
                  then status <| cs_Status := "cooldown"; cs_Unavailable := true; cs_NextRetryAfter := Some (now + cooldown) |>
                  else status in
    c <| nc_Status := status; nc_consecutiveFailures := failures; nc_probeActive := false |>.

(* src/internal/upstream/native_credential.go:456-468 releaseProbe *)
Definition releaseProbe (c : nativeCredential) : nativeCredential :=
  if negb (nc_probeActive c) then c
  else c <| nc_probeActive := false; nc_consecutiveFailures := 0; nc_Status := closed_status (nc_Status c) |>.

(* src/internal/upstream/native_credential.go:397-399 providerAvailabilityStatus *)
Definition providerAvailabilityStatus (status : Z) : bool := bool_decide (status ∈ [408; 429; 502; 503; 504]).

(** ** The runtime *)

(* src/internal/upstream/native_affinity.go:11-14 affinityEntry *)
Record affinityEntry := { af_credentialID : string; af_expiresAt : Z }.

(** [rt_objects] holds every credential that was ever compiled, by address; [rt_credentials]
    and the requests in flight refer to them.  [rt_modelRoutes] holds the contents of the slices. *)
(* src/internal/upstream/native_runtime.go:18-30 nativeRuntime *)
Record nativeRuntime := {
  rt_settings : Settings;
  rt_objects : list nativeCredential;
  rt_credentials : gmap string nat;
  rt_modelRoutes : gmap string (list string);
  rt_models : list string;
  rt_next : Z;
  rt_affinity : gmap string affinityEntry
}.
#[export] Instance nativeRuntime_eta : Eta nativeRuntime := λ r,
  Build_nativeRuntime (rt_settings r) (rt_objects r) (rt_credentials r) (rt_modelRoutes r) (rt_models r) (rt_next r)
    (rt_affinity r).

Definition object (r : nativeRuntime) (a : nat) : option nativeCredential := rt_objects r !! a.
Definition registered (r : nativeRuntime) (id : string) : option (nat * nativeCredential) :=
  a ← rt_credentials r !! id; c ← object r a; Some (a, c).
Definition update_object (a : nat) (f : nativeCredential → nativeCredential) (r : nativeRuntime) : nativeRuntime :=
  r <| rt_objects := alter f a (rt_objects r) |>.

(** *** Routes *)

Notation routes_and_models := (gmap string (list string) * gmap string string)%type.

(* src/internal/upstream/native_images.go:474-481 appendUniqueRoute *)
Definition appendUniqueRoute (ids : list string) (id : string) : list string :=
  if bool_decide (id ∈ ids) then ids else ids ++ [id].

Definition add_route (key id : string) (routes : gmap string (list string)) : gmap string (list string) :=
  <[key := appendUniqueRoute (default [] (routes !! key)) id]> routes.

(* src/internal/upstream/native_credential.go:67-75 rebuildRoutesLocked *)
Definition route_model (id : string) (acc : routes_and_models) (model : string) : routes_and_models :=
  let '(routes, modelSet) := acc in
  let public := trim_space model in
  if bool_decide (public = "") then acc
  else (add_route (to_lower public) id routes, <[to_lower public := public]> modelSet).

(* src/internal/upstream/native_credential.go:76-82 rebuildRoutesLocked *)
Definition route_image (id : string) (acc : routes_and_models) (model : string) : routes_and_models :=
  let '(routes, modelSet) := acc in
  let key := to_lower model in
  (add_route key id routes, if bool_decide (is_Some (modelSet !! key)) then modelSet else <[key := model]> modelSet).

(* src/internal/upstream/native_credential.go:65-83 rebuildRoutesLocked *)
Definition route_credential (acc : routes_and_models) (entry : string * nativeCredential) : routes_and_models :=
  let '(id, credential) := entry in
  foldl (route_image id) (foldl (route_model id) acc (nc_Models credential)) (implicitProviderImageModels (nc_Provider credential)).

(** The registered credentials in the order of their names. *)
Definition by_id (r : nativeRuntime) : list (string * nativeCredential) :=
  omap (λ id, (λ ac, (id, ac.2)) <$> registered r id) (merge_sort by_name (map_to_list (rt_credentials r)).*1).

(* src/internal/upstream/native_credential.go:57-89 rebuildRoutesLocked *)
Definition rebuildRoutesLocked (r : nativeRuntime) : nativeRuntime :=
  let '(routes, modelSet) := foldl route_credential (∅, ∅) (by_id r) in
  r <| rt_modelRoutes := routes; rt_models := merge_sort by_lower (map_to_list modelSet).*2 |>.

(** *** Replacing credentials *)

(* src/internal/upstream/native_credential.go:42-55 compileNativeCredentials *)
Fixpoint compileNativeCredentials `{URLParsing} (credentials : list Credential) (globalProxy : string) : result (list nativeCredential) :=
  match credentials with
  | [] => Ok []
  | source :: rest =>
      if negb (cd_Enabled source) then compileNativeCredentials rest globalProxy else
      match compileNativeCredential source globalProxy with
      | Err e => Err e
      | Ok credential =>
          match compileNativeCredentials rest globalProxy with
          | Err e => Err e
          | Ok compiled => Ok (credential :: compiled)
          end
      end
  end.

(** New objects under their names; of two with one name the later is registered. *)
Definition install_objects (compiled : list nativeCredential) (r : nativeRuntime) : nativeRuntime :=
  let base := length (rt_objects r) in
  let registry : gmap string nat := list_to_map (reverse (imap (λ i c, (nc_ID c, (base + i)%nat)) compiled)) in
  rebuildRoutesLocked (r <| rt_objects := rt_objects r ++ compiled; rt_credentials := registry |>).

(* src/internal/upstream/native_runtime.go:127-140 ReplaceCredentials *)
Definition ReplaceCredentials `{URLParsing} (credentials : list Credential) : M nativeRuntime unit :=
  globalProxy ← gets (λ r, st_ProxyURL (rt_settings r));
  match compileNativeCredentials credentials globalProxy with
  | Err e => fail e
  | Ok compiled => modify (install_objects compiled)
  end.

(** A new object goes on with the circuit of the old one. *)
(* src/internal/upstream/native_runtime.go:166-174 ApplySettings *)
Definition inherit_circuit (previous : gmap string nativeCredential) (credential : nativeCredential) : nativeCredential :=
  match previous !! nc_ID credential with
  | Some old => credential <| nc_Status := nc_Status old; nc_consecutiveFailures := nc_consecutiveFailures old;
                              nc_probeActive := nc_probeActive old |>
  | None => credential
  end.

(** [oauth_accepts]: the proxy suits the client of the OAuth flows. *)
(* src/internal/upstream/native_runtime.go:142-183 ApplySettings *)
Definition ApplySettings `{URLParsing} (oauth_accepts : string → bool) (settings : Settings) : M nativeRuntime unit :=
  guard_that (bool_decide (st_RoutingStrategy settings ∈ [""; "round-robin"; "fill-first"])) (ErrMessage "unsupported routing strategy");;
  guard_that ((1 <=? st_FailureThreshold settings) && (0 <=? st_FailureCooldown settings))
    (ErrMessage "credential failure isolation settings are invalid");;
  current ← gets (λ r, omap (λ id, (λ ac, ac.2) <$> registered r id) (map_to_list (rt_credentials r)).*1);
  credentials ← any_order current;
  match compileNativeCredentials (nc_source <$> credentials) (st_ProxyURL settings) with
  | Err e => fail e
  | Ok compiled =>
      let previous : gmap string nativeCredential := list_to_map ((λ c, (nc_ID c, c)) <$> credentials) in
      guard_that (oauth_accepts (st_ProxyURL settings)) (ErrMessage "apply system proxy");;
      modify (λ r, install_objects (inherit_circuit previous <$> compiled) (r <| rt_settings := settings |>))
  end.

(** Does the credential need its circuit asked?  A registered one, by its object. *)
Definition ask (now : Z) (id : string) (r : nativeRuntime) : bool * nativeRuntime :=
  match registered r id with
  | None => (false, r)
  | Some (a, c) => let '(ok, c') := available now c in (ok, update_object a (λ _, c') r)
  end.

(** *** Affinity *)

Definition credentialSessionAffinityTTL : Z := 60 * minute.

(* src/internal/upstream/native_affinity.go:16-18 usesSessionAffinity *)
Definition usesSessionAffinity (c : nativeCredential) : bool :=
  bool_decide (nc_Provider c = "aliyun-bailian") || nc_SessionAffinity c.

(** [header] gives the first value of a header. *)
(* src/internal/upstream/native_affinity.go:20-39 sessionAffinityKey *)
Definition sessionAffinityKey `{GJSON} (body : string) (header : string → string) : string :=
  let text path := trim_space (g_String (gjson_get body path)) in
  if negb (bool_decide (text "prompt_cache_key" = "")) then "cache:" +:+ text "prompt_cache_key"
  else if negb (bool_decide (text "previous_response_id" = "")) then "response:" +:+ text "previous_response_id"
  else if negb (bool_decide (text "user" = "")) then "user:" +:+ text "user"
  else default "" (head (omap (λ name, let key := trim_space (header name) in
                                       if bool_decide (key = "") then None else Some ("header:" +:+ to_lower name +:+ ":" +:+ key))
                              ["X-Prompt-Cache-Key"; "X-Session-Affinity"; "X-Dashscope-Session-Id"])).

(* src/internal/upstream/native_affinity.go:41-59 rememberAffinity *)
Definition rememberAffinity (key : string) (a : nat) : M nativeRuntime unit :=
  credential ← gets (λ r, object r a);
  match credential with
  | None => mret ()
  | Some credential =>
      if bool_decide (key = "") || negb (usesSessionAffinity credential) then mret () else
      now ← time_now;
      modify (λ r, r <| rt_affinity :=
        <[key := {| af_credentialID := nc_ID credential; af_expiresAt := now + credentialSessionAffinityTTL |}]> (rt_affinity r) |>);;
      count ← gets (λ r, base.size (rt_affinity r));
      if bool_decide (4096 < count)%nat then
        now ← time_now;
        modify (λ r, r <| rt_affinity := filter (λ ke : string * affinityEntry, (af_expiresAt ke.2 <? now) = false) (rt_affinity r) |>)
      else mret ()
  end.

(* src/internal/upstream/native_affinity.go:61-92 affinityCredential *)
Definition affinityCredential (key model : string) (now : Z) : M nativeRuntime (option nat) :=
  if bool_decide (key = "") then mret None else
  entry ← gets (λ r, rt_affinity r !! key);
  match entry with
  | None => mret None
  | Some entry =>
      if af_expiresAt entry <? now then
        modify (λ r, r <| rt_affinity := delete key (rt_affinity r) |>);; mret None
      else
        credential ← gets (λ r, registered r (af_credentialID entry));
        routes ← gets (λ r, default [] (rt_modelRoutes r !! model_key model));
        match credential with
        | None => mret None
        | Some (a, c) =>
            if negb (usesSessionAffinity c) then mret None else
            let '(ok, c') := available now c in
            modify (update_object a (λ _, c'));;
            mret (if ok && bool_decide (nc_ID c ∈ routes) then Some a else None)
        end
  end.

(** *** Selection *)

(** [available := ids[:0]; for _, id := range ids { ... available = append(available, id) }]:
    the filtered list is written over the front of the route it is read from.  [i] is what the
    loop has read, [written] what it has kept, [n] what is left. *)
(* src/internal/upstream/native_credential.go:108-113 selectCredential *)
Fixpoint filter_in_place (n i written : nat) (now : Z) (ids : list string) (r : nativeRuntime) : list string * nat * nativeRuntime :=
  match n with
  | O => (ids, written, r)
  | S n =>
      match ids !! i with
      | None => (ids, written, r)
      | Some id =>
          let '(ok, r) := ask now id r in
          if ok then filter_in_place n (S i) (S written) now (<[written := id]> ids) r
          else filter_in_place n (S i) written now ids r
      end
  end.

(** [int(r.next.Add(1)-1) % n]: a counter above 2^63 makes it negative. *)
(* src/internal/upstream/native_credential.go:117-120 selectCredential *)
Definition pick_index (strategy : string) (count : nat) : M nativeRuntime Z :=
  if bool_decide (strategy = "fill-first") then mret 0 else
  next ← gets rt_next;
  modify (λ r, r <| rt_next := (next + 1) mod 2 ^ 64 |>);;
  mret (Z.rem (wrap64 next) (Z.of_nat count)).

(** The address of the credential that is to serve the request. *)
(* src/internal/upstream/native_credential.go:91-123 selectCredential *)
Definition selectCredential (model pinnedID affinityKey : string) : M nativeRuntime (option nat) :=
  now ← time_now;
  if negb (bool_decide (pinnedID = "")) then
    credential ← gets (λ r, registered r pinnedID);
    match credential with
    | None => mret None
    | Some (a, c) =>
        let '(ok, c') := available now c in
        modify (update_object a (λ _, c'));;
        mret (if ok then Some a else None)
    end
  else
  pinned ← affinityCredential affinityKey model now;
  if bool_decide (is_Some pinned) then mret pinned else
  ids ← gets (λ r, default [] (rt_modelRoutes r !! model_key model));
  if bool_decide (length ids = 0%nat) then mret None else
  scanned ← gets (filter_in_place (length ids) 0 0 now ids);
  let '(ids, count, r) := scanned in
  modify (λ _, r <| rt_modelRoutes := <[model_key model := ids]> (rt_modelRoutes r) |>);;
  if bool_decide (count = 0%nat) then mret None else
  strategy ← gets (λ r, st_RoutingStrategy (rt_settings r));
  index ← pick_index strategy count;
  guard_that (0 <=? index) (ErrMessage "runtime error: index out of range");;
  gets (λ r, match ids !! Z.to_nat index with
             | Some id => (λ ac, ac.1) <$> registered r id
             | None => None
             end).

(* src/internal/upstream/native_runtime.go:73-79 ModelProvider *)
Definition ModelProvider (model : string) : M nativeRuntime (option string) :=
  credential ← selectCredential model "" "";
  gets (λ r, a ← credential; c ← object r a; Some (nc_Provider c)).

(* src/internal/upstream/native_serve.go:35-54 ServeModels *)
Definition ServeModels (codex : bool) : M nativeRuntime (list (string * string)) :=
  models ← gets rt_models;
  if codex then mret ((λ model, (model, "")) <$> models)
  else for_each (λ model, provider ← ModelProvider model; mret (model, default "" provider)) models.

(* src/internal/upstream/native_runtime.go:81-89 CredentialModels *)
Definition CredentialModels (r : nativeRuntime) (id : string) : list string :=
  match registered r (trim_space id) with Some (_, c) => nc_Models c | None => [] end.

(* src/internal/upstream/native_runtime.go:91-101 CredentialStatus *)
Definition credential_status (r : nativeRuntime) (id : string) : option CredentialStatus :=
  (λ ac, nc_Status ac.2) <$> registered r (trim_space id).

(* src/internal/upstream/native_runtime.go:185-196 ResolveCredentialModel *)
Definition ResolveCredentialModel (r : nativeRuntime) (id model : string) : string :=
  match registered r (trim_space id) with
  | None => model
  | Some (_, c) => match nc_ModelRoutes c !! model_key model with
                   | Some target => if bool_decide (target = "") then model else target
                   | None => model
                   end
  end.

(** [answer]: the models that the provider lists, or the error of asking it, which is returned
    beside the models that are known. *)
(* src/internal/upstream/native_runtime.go:103-125 DiscoverCredentialModels *)
Definition DiscoverCredentialModels (id : string) (answer : result (list string)) : M nativeRuntime (list string * string * option error) :=
  credential ← gets (λ r, registered r (trim_space id));
  match credential with
  | None => fail (ErrMessage "upstream credential is not registered")
  | Some (a, c) =>
      if bool_decide (nc_Provider c = "kimi") then mret (nc_Models c, "native", None) else
      let err := match answer with Err e => Some e | Ok _ => None end in
      let models := match answer with Ok models => normalizedModelList models | Err _ => [] end in
      if negb (bool_decide (length models = 0%nat)) then
        modify (λ r, rebuildRoutesLocked (update_object a (λ c, c <| nc_Models := models |>) r));;
        mret (models, "upstream", None)
      else if bool_decide (length (nc_Models c) = 0%nat) then mret ([], "", err)
      else mret (nc_Models c, "configured", err)
  end.

(** ** Requests *)

(* src/internal/upstream/native_images.go:27-29 isImagesPath *)
Definition isImagesPath (path : string) : bool := bool_decide (path ∈ ["/images/generations"; "/images/edits"]).

(** What follows the last slash; [None] if there is none. *)
Fixpoint after_last_slash (s : string) : option string :=
  match s with
  | EmptyString => None
  | String c s =>
      match after_last_slash s with
      | Some rest => Some rest
      | None => if bool_decide (c = "/"%char) then Some s else None
      end
  end.

(* src/internal/upstream/native_images.go:42-48 imageModelBase *)
Definition imageModelBase (model : string) : string :=
  let model := model_key model in
  match after_last_slash model with
  | Some rest => if bool_decide (rest = "") then model else trim_space rest
  | None => model
  end.

(* src/internal/upstream/native_images.go:50-66 isDirectCodexImageModel *)
Definition is_image_model (model : string) : bool :=
  bool_decide (imageModelBase model ∈ ["gpt-image-1.5"; "gpt-image-2"]) ||
  bool_decide (imageModelBase model ∈ ["grok-imagine-image"; "grok-imagine-image-quality"; "grok-imagine-image-2.0"]).

(* src/internal/upstream/native_images.go:68-74 canonicalImageModel *)
Definition canonicalImageModel (model : string) : string :=
  let base := imageModelBase model in
  if is_image_model base then base else trim_space model.

(* src/internal/upstream/native_serve.go:293-305 canonicalInferencePath *)
Definition canonicalInferencePath (path : string) : string :=
  let path := if has_suffix path "/" then String.substring 0 (String.length path - 1) path else path in
  let path := default path (head (omap (λ prefix, strip_prefix prefix path) ["/openai/v1"; "/backend-api/codex"; "/v1"])) in
  if bool_decide (path = "") then "/responses" else path.

(** The model that a request is routed by; [requested] is what its body or form names. *)
(* src/internal/upstream/native_serve.go:61-67 serveInference *)
Definition routed_model (path requested : string) : string :=
  let model := if isImagesPath (canonicalInferencePath path) && bool_decide (requested = "") then "gpt-image-2" else requested in
  if bool_decide (canonicalImageModel model = "") then model else canonicalImageModel model.

(** How a request ends: it was refused while it was prepared, the provider was not reached, or
    the provider answered. *)
Inductive outcome := Rejected | Unreachable (message : string) | Answered (status : Z).

Section requests.
Context `{StatusText}.

(** Until the provider is asked. *)
(* src/internal/upstream/native_serve.go:68-75 serveInference *)
Definition begin_inference (path requested pinned affinityKey : string) : M nativeRuntime (option nat) :=
  credential ← selectCredential (routed_model path requested) (trim_space pinned) affinityKey;
  match credential with
  | None => mret None
  | Some a => rememberAffinity affinityKey a;; mret (Some a)
  end.

(** What the circuit of the chosen credential learns; nothing from a request that was refused. *)
(* src/internal/upstream/native_serve.go:116-136 serveInference *)
Definition finish_inference (a : nat) (o : outcome) : M nativeRuntime unit :=
  threshold ← gets (λ r, st_FailureThreshold (rt_settings r));
  cooldown ← gets (λ r, st_FailureCooldown (rt_settings r));
  now ← time_now;
  modify (update_object a (λ c,
    match o with
    | Rejected => c
    | Unreachable message => record now false message true threshold cooldown c
    | Answered status =>
        if status <? 400 then record now true "" false threshold cooldown c
        else if bool_decide (status = 401) || bool_decide (status = 403) || providerAvailabilityStatus status
        then record now false (status_text status) true threshold cooldown c
        else releaseProbe c
    end)).

(* src/internal/upstream/native_serve.go:56-136 serveInference *)
Definition serveInference (path requested pinned affinityKey : string) (o : outcome) : M nativeRuntime bool :=
  credential ← begin_inference path requested pinned affinityKey;
  match credential with
  | None => mret false
  | Some a => finish_inference a o;; mret true
  end.

(** A socket needs a credential that allows it, unless its first frame only warms up. *)
(* src/internal/upstream/native_websocket.go:35-41 serveWebSocket *)
Definition begin_websocket (model pinned affinityKey : string) (prewarm : bool) : M nativeRuntime (option nat) :=
  credential ← selectCredential model (trim_space pinned) affinityKey;
  gets (λ r, a ← credential; c ← object r a; if negb (nc_WebSockets c) && negb prewarm then None else Some a).

(** Every connection of a socket tells the circuit. *)
(* src/internal/upstream/native_websocket.go:50-72 serveWebSocket *)
Definition connect (a : nat) (dialled : option string) : M nativeRuntime unit :=
  threshold ← gets (λ r, st_FailureThreshold (rt_settings r));
  cooldown ← gets (λ r, st_FailureCooldown (rt_settings r));
  now ← time_now;
  modify (update_object a (λ c,
    match dialled with
    | Some message => record now false message true threshold cooldown c
    | None => record now true "" false threshold cooldown c
    end)).

(* src/internal/upstream/native_runtime.go:32-57 NewRuntime *)
Definition NewRuntime `{URLParsing} (options : Settings) (credentials : list Credential) : M nativeRuntime unit :=
  let settings := {| st_RoutingStrategy := st_RoutingStrategy options; st_ProxyURL := st_ProxyURL options;
                     st_FailureThreshold := if st_FailureThreshold options <=? 0 then 3 else st_FailureThreshold options;
                     st_FailureCooldown := if st_FailureCooldown options <? 0 then 0 else st_FailureCooldown options |} in
  modify (λ _, {| rt_settings := settings; rt_objects := []; rt_credentials := ∅; rt_modelRoutes := ∅; rt_models := [];
                  rt_next := 0; rt_affinity := ∅ |});;
  ReplaceCredentials credentials.
End requests.
