(* ===== verification/RoutingGuarantees.v ===== *)
(** * What the choice of an account guarantees

    The runtime as a machine of interleaved requests; its invariant; whom the
    routes lead to, and whom they forget. *)

From S2P Require Import Prelude.
From S2P Require Import Json.
From S2P Require Import Database.
From S2P Require Import Schema.
From S2P Require Import Usage.
From S2P Require Import Requests.
From S2P Require Import WebSocket.
From S2P Require Import Routing.

(** ** One credential *)

(** [available] says yes to a credential that is not isolated, or whose cooldown is over and which nobody probes. *)
Definition usable (now : Z) (c : nativeCredential) : bool :=
  negb (cs_Unavailable (nc_Status c)) ||
  match cs_NextRetryAfter (nc_Status c) with Some retry => (retry <=? now) && negb (nc_probeActive c) | None => false end.

Definition isolated (c : nativeCredential) : bool := cs_Unavailable (nc_Status c).

(** The credential after it was given to a request. *)
Definition taken (c : nativeCredential) : nativeCredential :=
  if isolated c
  then c <| nc_probeActive := true; nc_Status := (nc_Status c) <| cs_Status := "recovering"; cs_StatusMessage := "" |> |>
  else c.

Lemma available_usable now c : available now c = if usable now c then (true, taken c) else (false, c).
Proof.
  unfold available, usable, taken, isolated. destruct (cs_Unavailable (nc_Status c)); cbn [negb orb]; [|done].
  destruct (cs_NextRetryAfter (nc_Status c)) as [retry|]; [|done].
  destruct (now <? retry) eqn:Hr, (retry <=? now) eqn:Hr'; try lia; by destruct (nc_probeActive c).
Qed.

(** What no circuit ever changes. *)
Definition same_credential (c c' : nativeCredential) : Prop :=
  nc_source c' = nc_source c ∧ nc_Provider c' = nc_Provider c ∧ nc_Models c' = nc_Models c ∧
  nc_SessionAffinity c' = nc_SessionAffinity c ∧ nc_WebSockets c' = nc_WebSockets c ∧ nc_ModelRoutes c' = nc_ModelRoutes c.

#[export] Instance same_credential_preorder : PreOrder same_credential.
Proof. split; [by intros c|]. unfold same_credential. intros x y z. naive_solver congruence. Qed.

(** The circuit of a credential makes sense: what is isolated has a time to come back, and only it is probed. *)
Definition circuit_ok (c : nativeCredential) : Prop :=
  (isolated c = true → is_Some (cs_NextRetryAfter (nc_Status c))) ∧ (nc_probeActive c = true → isolated c = true).

(** An update of a credential by its circuit. *)
Definition circuit_step (f : nativeCredential → nativeCredential) : Prop :=
  ∀ c, same_credential c (f c) ∧ (circuit_ok c → circuit_ok (f c)).

Lemma step_taken : circuit_step taken.
Proof. intros c. unfold taken. destruct (isolated c) eqn:Hi; [|done]. split; [done|]. unfold circuit_ok, isolated in *. cbn. naive_solver. Qed.

Lemma step_available now : circuit_step (λ c, (available now c).2).
Proof. intros c. rewrite available_usable. destruct (usable now c); [apply step_taken|done]. Qed.

Lemma step_record now success message failure threshold cooldown : circuit_step (record now success message failure threshold cooldown).
Proof.
  intros c. unfold record. destruct success; [split; [done|]; intros _; split; cbn; [done|done]|].
  destruct failure; cbn [negb]; [|by split].
  split; [by destruct (_ && _)|]. intros [H1 H2]. unfold circuit_ok, isolated in *. cbn.
  destruct (_ && _); cbn; [by split|]. by split.
Qed.

Lemma step_release : circuit_step releaseProbe.
Proof.
  intros c. unfold releaseProbe. destruct (nc_probeActive c) eqn:Hp; cbn [negb]; [|done]. split; [done|]. intros _. by split.
Qed.

(** *** The circuit as a machine of three states

    How many failures in a row are known; while the credential is isolated, until when; and whether it is being probed. *)
Inductive circuit :=
  | Closed (failures : Z)
  | Open (failures : Z) (until : Z)
  | HalfOpen (failures : Z) (until : Z).

Definition circuit_of (c : nativeCredential) : circuit :=
  let until := default 0 (cs_NextRetryAfter (nc_Status c)) in
  if isolated c then
    if nc_probeActive c then HalfOpen (nc_consecutiveFailures c) until else Open (nc_consecutiveFailures c) until
  else Closed (nc_consecutiveFailures c).

(** A request asks to pass. *)
Definition pass (now : Z) (k : circuit) : option circuit :=
  match k with
  | Closed _ => Some k
  | Open n until => if until <=? now then Some (HalfOpen n until) else None
  | HalfOpen _ _ => None
  end.

(** A request that passed has ended: the provider answered well, was not available, or answered with an error of its own. *)
Inductive verdict := Succeeded | Failed | Blameless.

Definition learn (now threshold cooldown : Z) (v : verdict) (k : circuit) : circuit :=
  match v, k with
  | Succeeded, _ => Closed 0
  | Blameless, HalfOpen _ _ => Closed 0
  | Blameless, _ => k
  | Failed, HalfOpen n until => Open (add64 n 1) (if 0 <? cooldown then now + cooldown else until)
  | Failed, Open n until =>
      Open (add64 n 1) (if (0 <? cooldown) && (threshold <=? add64 n 1) then now + cooldown else until)
  | Failed, Closed n =>
      if (0 <? cooldown) && (threshold <=? add64 n 1) then Open (add64 n 1) (now + cooldown) else Closed (add64 n 1)
  end.

Lemma pass_implemented now c :
  circuit_ok c →
  match pass now (circuit_of c) with
  | Some k => usable now c = true ∧ circuit_of (taken c) = k
  | None => usable now c = false
  end.
Proof.
  intros [Hretry Hprobe]. unfold circuit_of, usable, taken. fold (isolated c). destruct (isolated c) eqn:Hi; cbn [negb orb pass].
  - destruct (Hretry eq_refl) as [retry Hr]. rewrite Hr. cbn [default]. destruct (nc_probeActive c) eqn:Hp; cbn [negb pass].
    + by rewrite andb_false_r.
    + rewrite andb_true_r. cbn. by destruct (retry <=? now).
  - rewrite Hi. done.
Qed.

Lemma learn_implemented now message threshold cooldown c :
  circuit_ok c →
  circuit_of (record now true "" false threshold cooldown c) = learn now threshold cooldown Succeeded (circuit_of c) ∧
  circuit_of (record now false message true threshold cooldown c) = learn now threshold cooldown Failed (circuit_of c) ∧
  circuit_of (releaseProbe c) = learn now threshold cooldown Blameless (circuit_of c).
Proof.
  intros [Hretry Hprobe]. unfold circuit_of, releaseProbe, record, isolated in *. cbn. split_and!; [done|..].
  - destruct (0 <? cooldown) eqn:Hc, (nc_probeActive c) eqn:Hp, (cs_Unavailable (nc_Status c)) eqn:Hi, (threshold <=? _) eqn:Ht; cbn;
      rewrite ?Hi; try done; by specialize (Hprobe eq_refl).
  - destruct (nc_probeActive c) eqn:Hp; cbn; [by rewrite Hprobe|]. rewrite Hp. by destruct (cs_Unavailable _).
Qed.

(** The circuit of a credential is a circuit breaker: a request passes it exactly if the breaker
    lets it, as its probe if it is half open; what the end of a request teaches it is what the
    breaker learns; and it stays well-formed. *)
Theorem circuits_are_breakers now message threshold cooldown c :
  circuit_ok c →
  let k := circuit_of c in
  let succeeded := record now true "" false threshold cooldown c in
  let failed := record now false message true threshold cooldown c in
  ((available now c).1 = true ↔ is_Some (pass now k)) ∧ circuit_of (available now c).2 = default k (pass now k) ∧
  circuit_of succeeded = learn now threshold cooldown Succeeded k ∧
  circuit_of failed = learn now threshold cooldown Failed k ∧
  circuit_of (releaseProbe c) = learn now threshold cooldown Blameless k ∧
  circuit_ok (available now c).2 ∧ circuit_ok succeeded ∧ circuit_ok failed ∧ circuit_ok (releaseProbe c).
Proof.
  intros Hok. cbv zeta. destruct (learn_implemented now message threshold cooldown c Hok) as (? & ? & ?).
  pose proof (pass_implemented now c Hok) as Hpass.
  assert (Hkeep : ∀ f, circuit_step f → circuit_ok (f c)) by (intros f Hf; by apply Hf).
  split_and!; try done.
  - rewrite available_usable. destruct (pass now (circuit_of c)); [destruct Hpass as [-> _]|rewrite Hpass]; cbn; [by split|].
    split; [done|]. by intros [? ?].
  - rewrite available_usable. destruct (pass now (circuit_of c)); [by destruct Hpass as [-> ?]|by rewrite Hpass].
  - apply (Hkeep (λ c, (available now c).2)), step_available.
  - apply (Hkeep (record now false message true threshold cooldown)), step_record.
  - apply (Hkeep releaseProbe), step_release.
Qed.

(** ** The objects of a runtime *)

Definition moved (c c' : nativeCredential) : Prop := same_credential c c' ∧ (circuit_ok c → circuit_ok c').

#[export] Instance moved_preorder : PreOrder moved.
Proof. split; [by intros c|]. intros x y z [H1 H2] [H3 H4]. split; [by etrans|tauto]. Qed.

(** The same credentials are registered, and only their circuits have changed. *)
Definition objects_moved (r r' : nativeRuntime) : Prop :=
  Forall2 moved (rt_objects r) (rt_objects r') ∧ rt_credentials r' = rt_credentials r.

#[export] Instance objects_moved_preorder : PreOrder objects_moved.
Proof.
  split; [by intros r; split; [apply reflexivity|]|]. intros x y z [H1 H2] [H3 H4]. split; [by etrans|congruence].
Qed.

Lemma update_moved a f r : circuit_step f → objects_moved r (update_object a f r).
Proof.
  intros Hf. split; [|done]. cbn. apply Forall2_same_length_lookup_2; [by rewrite length_alter|].
  intros i c c' Hc Hc'. destruct (decide (a = i)) as [->|Hne].
  - rewrite list_lookup_alter_eq, Hc in Hc'. cbn in Hc'. injection Hc' as <-. exact (Hf c).
  - rewrite list_lookup_alter_ne, Hc in Hc' by done. by injection Hc' as <-.
Qed.

Lemma object_moved r r' a c : objects_moved r r' → object r a = Some c → ∃ c', object r' a = Some c' ∧ moved c c'.
Proof. intros [Hobj _] Hc. destruct (Forall2_lookup_l _ _ _ _ _ Hobj Hc) as (c' & ? & ?). by exists c'. Qed.

Lemma object_moved_back r r' a c' : objects_moved r r' → object r' a = Some c' → ∃ c, object r a = Some c ∧ moved c c'.
Proof. intros [Hobj _] Hc. destruct (Forall2_lookup_r _ _ _ _ _ Hobj Hc) as (c & ? & ?). by exists c. Qed.

Lemma registered_spec r id a c : registered r id = Some (a, c) ↔ rt_credentials r !! id = Some a ∧ object r a = Some c.
Proof.
  unfold registered. destruct (rt_credentials r !! id) as [a'|]; cbn; [|naive_solver].
  destruct (object r a') as [c'|] eqn:Hc; cbn; split; [intros [= <- <-]|intros [[= ->] ?]|done|intros [[= ->] ?]]; congruence || done.
Qed.

Lemma registered_moved r r' id a c :
  objects_moved r r' → registered r id = Some (a, c) → ∃ c', registered r' id = Some (a, c') ∧ moved c c'.
Proof.
  intros Hm [Ha Hc]%registered_spec. destruct (object_moved _ _ _ _ Hm Hc) as (c' & Hc' & ?). exists c'. split; [|done].
  apply registered_spec. by rewrite (proj2 Hm).
Qed.

Lemma update_same r a f c : object r a = Some c → object (update_object a f r) a = Some (f c).
Proof. intros Hc. unfold object in *. cbn. by rewrite list_lookup_alter_eq, Hc. Qed.

Lemma update_other r a b f : a ≠ b → object (update_object a f r) b = object r b.
Proof. intros Hne. unfold object. cbn. by rewrite list_lookup_alter_ne. Qed.

Lemma update_id r a c : object r a = Some c → update_object a (λ _, c) r = r.
Proof.
  intros Hc. unfold update_object. destruct r as [s o cr mr ms nx af]. unfold object in Hc. cbn in *. f_equal.
  apply list_eq. intros i. destruct (decide (a = i)) as [->|Hne]; [by rewrite list_lookup_alter_eq, Hc|by rewrite list_lookup_alter_ne].
Qed.

(** ** Filtering a slice into itself *)

(** The same loop with a list of its own: what is kept, and the circuits it leaves behind. *)
Fixpoint sift (now : Z) (ids : list string) (r : nativeRuntime) : list string * nativeRuntime :=
  match ids with
  | [] => ([], r)
  | id :: ids =>
      let '(ok, r) := ask now id r in
      let '(kept, r) := sift now ids r in
      (if ok then id :: kept else kept, r)
  end.

Lemma filter_in_place_from n : ∀ i kept now ids r,
  (length kept ≤ i)%nat → (i + n)%nat = length ids →
  let '(kept', r') := sift now (drop i ids) r in
  filter_in_place n i (length kept) now (kept ++ drop (length kept) ids) r =
  ((kept ++ kept') ++ drop (length (kept ++ kept')) ids, length (kept ++ kept'), r').
Proof.
  induction n as [|n IH]; intros i kept now ids r Hi Hn.
  - rewrite drop_ge by lia. cbn. by rewrite app_nil_r.
  - destruct (ids !! i) as [id|] eqn:Hid; [|apply lookup_ge_None in Hid; lia].
    rewrite (drop_S _ _ _ Hid). cbn [sift filter_in_place].
    assert ((kept ++ drop (length kept) ids) !! i = Some id) as ->.
    { rewrite lookup_app_r, lookup_drop by done. by replace (length kept + (i - length kept))%nat with i by lia. }
    destruct (ask now id r) as [[|] r1]; specialize (IH (S i)).
    + specialize (IH (kept ++ [id]) now ids r1). rewrite length_app in IH. cbn [length] in IH.
      specialize (IH ltac:(lia) ltac:(lia)). destruct (sift now (drop (S i) ids) r1) as [kept' r2].
      assert (<[length kept:=id]> (kept ++ drop (length kept) ids) = (kept ++ [id]) ++ drop (length kept + 1) ids) as ->.
      { destruct (lookup_lt_is_Some_2 ids (length kept)) as [old Hold]; [lia|].
        rewrite (drop_S _ _ _ Hold), insert_app_r_alt, Nat.sub_diag by lia. cbn. rewrite <- app_assoc. cbn. by rewrite Nat.add_1_r. }
      replace (S (length kept)) with (length kept + 1)%nat by lia. rewrite IH. by rewrite <- (app_assoc kept [id] kept').
    + specialize (IH kept now ids r1 ltac:(lia) ltac:(lia)). by destruct (sift now (drop (S i) ids) r1).
Qed.

(** What the loop keeps it writes over the front of the slice; the rest of the slice stays. *)
Lemma filter_in_place_spec now ids r :
  let '(kept, r') := sift now ids r in
  filter_in_place (length ids) 0 0 now ids r = (kept ++ drop (length kept) ids, length kept, r').
Proof.
  pose proof (filter_in_place_from (length ids) 0 [] now ids r (Nat.le_0_l _) eq_refl) as H. cbn in H. rewrite !drop_0 in H. exact H.
Qed.

(** *** Whom the loop keeps *)

(** Only circuits have changed. *)
Definition touched (r r' : nativeRuntime) : Prop :=
  objects_moved r r' ∧ rt_settings r' = rt_settings r ∧ rt_modelRoutes r' = rt_modelRoutes r ∧ rt_models r' = rt_models r ∧
  rt_next r' = rt_next r ∧ rt_affinity r' = rt_affinity r.

#[export] Instance touched_preorder : PreOrder touched.
Proof.
  split; [by intros r; split_and!|]. intros x y z (H1 & H2 & H3 & H4 & H5 & H6) (J1 & J2 & J3 & J4 & J5 & J6).
  split_and!; [by etrans|congruence..].
Qed.

(** A registered credential carries its name. *)
Definition names_ok (r : nativeRuntime) : Prop := ∀ id a c, registered r id = Some (a, c) → nc_ID c = id.

Lemma names_moved r r' : objects_moved r r' → names_ok r → names_ok r'.
Proof.
  intros Hm Hn id a c' [Ha Hc']%registered_spec. destruct (object_moved_back _ _ _ _ Hm Hc') as (c & Hc & [(Hs & _) _]).
  unfold nc_ID. rewrite Hs. apply (Hn id a c). apply registered_spec. by rewrite <- (proj2 Hm).
Qed.

Lemma names_inj r id id' a c c' : names_ok r → registered r id = Some (a, c) → registered r id' = Some (a, c') → id = id'.
Proof.
  intros Hn H1 H2. pose proof (Hn _ _ _ H1) as <-. pose proof (Hn _ _ _ H2) as <-.
  apply registered_spec in H1 as [_ H1], H2 as [_ H2]. congruence.
Qed.

Lemma ask_spec now id r :
  match registered r id with
  | Some (a, c) => if usable now c then ask now id r = (true, update_object a (λ _, taken c) r) else ask now id r = (false, r)
  | None => ask now id r = (false, r)
  end.
Proof.
  unfold ask. destruct (registered r id) as [[a c]|] eqn:Hr; [|done]. apply registered_spec in Hr as [_ Hc].
  rewrite available_usable. destruct (usable now c); [done|]. by rewrite update_id.
Qed.

Lemma taken_moved r a c : object r a = Some c → touched r (update_object a (λ _, taken c) r).
Proof.
  intros Hc. split; [|done]. assert (update_object a (λ _, taken c) r = update_object a taken r) as ->.
  { unfold update_object. destruct r as [s o cr mr ms nx af]. unfold object in Hc. cbn in *. f_equal. apply list_eq. intros i.
    destruct (decide (a = i)) as [->|]; [by rewrite !list_lookup_alter_eq, Hc|by rewrite !list_lookup_alter_ne]. }
  apply update_moved, step_taken.
Qed.

Lemma ask_touched now id r : touched r (ask now id r).2.
Proof.
  pose proof (ask_spec now id r) as H. destruct (registered r id) as [[a c]|] eqn:Hr; [|by rewrite H].
  destruct (usable now c); rewrite H; [|done]. apply taken_moved. by apply registered_spec in Hr as [_ ?].
Qed.

(** Asking a credential of one name says nothing to the others. *)
Lemma ask_other now id id' r a c :
  names_ok r → id' ≠ id → registered r id' = Some (a, c) → registered (ask now id r).2 id' = Some (a, c).
Proof.
  intros Hn Hne Ha. pose proof (ask_spec now id r) as H. destruct (registered r id) as [[b d]|] eqn:Hr; [|by rewrite H].
  destruct (usable now d); rewrite H; [|done]. cbn [snd]. apply registered_spec in Ha as [Ha Hc]. apply registered_spec. split; [done|].
  rewrite update_other; [done|]. intros ->. apply Hne. apply (names_inj r id' id a c d); [done|by apply registered_spec|done].
Qed.

Lemma usable_taken now c : usable now c = true → if isolated c then usable now (taken c) = false else taken c = c.
Proof. unfold usable, taken. destruct (isolated c) eqn:Hi; [|done]. unfold isolated in *. cbn. rewrite Hi. destruct (cs_NextRetryAfter _); [by rewrite andb_false_r|done]. Qed.

Definition after_asking (now : Z) (c : nativeCredential) : nativeCredential := if usable now c then taken c else c.

Lemma sift_spec now ids : ∀ r kept r',
  names_ok r → sift now ids r = (kept, r') →
  touched r r' ∧ kept `sublist_of` ids ∧
  (∀ id, id ∈ kept → is_Some (registered r id)) ∧
  (∀ id a c, registered r id = Some (a, c) →
     registered r' id = Some (a, if decide (id ∈ ids) then after_asking now c else c) ∧
     (id ∈ kept ↔ id ∈ ids ∧ usable now c = true)).
Proof.
  induction ids as [|id ids IH]; intros r kept r' Hn; cbn [sift].
  { intros [= <- <-]. split_and!; [done|done|by intros ? ?%elem_of_nil|]. intros id a c Hr. rewrite decide_False by by intros ?%elem_of_nil.
    split; [done|]. split; [by intros ?%elem_of_nil|by intros [?%elem_of_nil _]]. }
  pose proof (ask_touched now id r) as Ht. pose proof (ask_spec now id r) as Hask.
  destruct (ask now id r) as [ok r1] eqn:Hasked. cbn [snd] in *. destruct (sift now ids r1) as [kept1 r2] eqn:Hsift. intros [= <- <-].
  assert (names_ok r1) as Hn1 by (eapply names_moved; [apply Ht|done]).
  destruct (IH _ _ _ Hn1 Hsift) as (Ht2 & Hsub & Hreg & Hall).
  split_and!; [by etrans|by destruct ok; [apply sublist_skip|apply sublist_cons]|..].
  - intros id' Hin. assert (id' ∈ kept1 ∨ ok = true ∧ id' = id) as [Hin1|[-> ->]] by (destruct ok; [apply elem_of_cons in Hin; naive_solver|by left]).
    + destruct (Hreg _ Hin1) as [[a c] [Ha Hc]%registered_spec]. destruct (object_moved_back _ _ _ _ (proj1 Ht) Hc) as (c0 & Hc0 & _).
      eexists. apply registered_spec. split; [|exact Hc0]. by rewrite <- (proj2 (proj1 Ht)).
    + destruct (registered r id) as [[a c]|]; [by eexists|done].
  - intros id' a c Hr. destruct (decide (id' = id)) as [->|Hne].
    + rewrite Hr in Hask. rewrite (decide_True (P := id ∈ id :: ids)) by by left.
      assert (registered r1 id = Some (a, after_asking now c) ∧ ok = usable now c) as [Hr1 ->].
      { unfold after_asking. destruct (usable now c); injection Hask as -> ->; [|done]. split; [|done].
        apply registered_spec in Hr as [Ha Hc]. apply registered_spec. split; [done|]. by eapply update_same in Hc as ->. }
      destruct (Hall _ _ _ Hr1) as [Hr2 Hk]. rewrite Hr2. unfold after_asking in *. destruct (usable now c) eqn:Hu.
      * pose proof (usable_taken now c Hu) as Hut. split.
        -- f_equal. f_equal. destruct (decide _); [|done]. destruct (isolated c); [by rewrite Hut|]. by rewrite Hut, Hu, Hut.
        -- split; [intros _; split; [by left|done]|intros _; by left].
      * rewrite Hu. split; [by destruct (decide _)|]. rewrite Hk, Hu. naive_solver.
    + assert (registered r1 id' = Some (a, c)) as Hr1
        by (pose proof (ask_other now id id' r a c Hn Hne Hr) as Ho; by rewrite Hasked in Ho).
      destruct (Hall _ _ _ Hr1) as [-> Hk]. split.
      * f_equal. f_equal. apply decide_ext. rewrite elem_of_cons. naive_solver.
      * destruct ok; rewrite ?elem_of_cons, Hk; naive_solver.
Qed.

(** ** Selection *)

Definition routes (r : nativeRuntime) (key : string) : list string := default [] (rt_modelRoutes r !! key).

(** What the circuits of the registered credentials make of being asked at [now]. *)
Definition asked (now : Z) (r r' : nativeRuntime) : Prop :=
  ∀ id a c, registered r id = Some (a, c) → registered r' id = Some (a, c) ∨ usable now c = true ∧ registered r' id = Some (a, taken c).

Lemma asked_refl now r : asked now r r.
Proof. intros id a c Hr. by left. Qed.

Lemma asked_trans now r1 r2 r3 : asked now r1 r2 → asked now r2 r3 → asked now r1 r3.
Proof.
  intros H12 H23 id a c Hr. destruct (H12 _ _ _ Hr) as [Hr2|[Hu Hr2]]; [by apply H23|].
  destruct (H23 _ _ _ Hr2) as [?|[Hu2 Hr3]]; [by right|right]. split; [done|]. pose proof (usable_taken now c Hu) as Hut.
  destruct (isolated c); [congruence|]. by rewrite Hut in Hr3.
Qed.

(** The credential at [a] was free, and is taken now. *)
Definition gives (now : Z) (r r' : nativeRuntime) (P : string → Prop) (a : nat) : Prop :=
  ∃ id c, registered r id = Some (a, c) ∧ usable now c = true ∧ registered r' id = Some (a, taken c) ∧ P id.

Lemma gives_earlier now r1 r2 r3 P a : asked now r1 r2 → gives now r2 r3 P a → objects_moved r1 r2 → gives now r1 r3 P a.
Proof.
  intros H12 (id & c2 & Hr2 & Hu2 & Hr3 & HP) Hm. apply registered_spec in Hr2 as [Ha Hc2].
  destruct (object_moved_back _ _ _ _ Hm Hc2) as (c1 & Hc1 & _).
  assert (registered r1 id = Some (a, c1)) as Hr1 by (apply registered_spec; split; [by rewrite <- (proj2 Hm)|done]).
  exists id, c1. destruct (H12 _ _ _ Hr1) as [[_ Hsame]%registered_spec|[Hu1 [_ Htaken]%registered_spec]].
  - assert (c1 = c2) as -> by congruence. done.
  - assert (c2 = taken c1) as -> by congruence. pose proof (usable_taken now c1 Hu1) as Hut. destruct (isolated c1); [congruence|].
    rewrite Hut in Hr3. by split_and!.
Qed.

(** Routes only lose entries. *)
Definition routes_shrink (r r' : nativeRuntime) : Prop := ∀ key id, id ∈ routes r' key → id ∈ routes r key.

(** What a selection at [now] leaves behind. *)
Definition selecting (now : Z) (r r' : nativeRuntime) : Prop :=
  objects_moved r r' ∧ asked now r r' ∧ routes_shrink r r' ∧ rt_settings r' = rt_settings r ∧ rt_models r' = rt_models r.

Lemma selecting_refl now r : selecting now r r.
Proof. split_and!; [done|apply asked_refl|by intros ?|done|done]. Qed.

Lemma selecting_trans now r1 r2 r3 : selecting now r1 r2 → selecting now r2 r3 → selecting now r1 r3.
Proof.
  intros (H1 & H2 & H3 & H4 & H5) (J1 & J2 & J3 & J4 & J5). split_and!; [by etrans|by eapply asked_trans|unfold routes_shrink in *; naive_solver|congruence..].
Qed.

(** The tail of [selectCredential]: by the routes. *)
Definition by_route (now : Z) (model : string) : M nativeRuntime (option nat) :=
  ids ← gets (λ r, default [] (rt_modelRoutes r !! model_key model));
  if bool_decide (length ids = 0%nat) then mret None else
  scanned ← gets (filter_in_place (length ids) 0 0 now ids);
  let '(ids, count, r) := scanned in
  modify (λ _, r <| rt_modelRoutes := <[model_key model := ids]> (rt_modelRoutes r) |>);;
  if bool_decide (count = 0%nat) then mret None else
  strategy ← gets (λ r, st_RoutingStrategy (rt_settings r));
  index ← pick_index strategy count;
  guard_that (0 <=? index) (ErrMessage "runtime error: index out of range");;
  gets (λ r, match ids !! Z.to_nat index with
             | Some id => (λ ac, ac.1) <$> registered r id
             | None => None
             end).

(** The position among the free credentials of a route. *)
Definition turn (r : nativeRuntime) (count : nat) : Z :=
  if bool_decide (st_RoutingStrategy (rt_settings r) = "fill-first") then 0 else Z.rem (wrap64 (rt_next r)) (Z.of_nat count).

Lemma turn_bound r count : 0 ≤ turn r count → (0 < count)%nat → (Z.to_nat (turn r count) < count)%nat.
Proof.
  unfold turn. destruct (bool_decide _); [lia|]. intros Hpos Hcount.
  assert (Z.rem (wrap64 (rt_next r)) (Z.of_nat count) < Z.of_nat count) by (pose proof (Z.rem_bound_abs (wrap64 (rt_next r)) (Z.of_nat count)); lia).
  lia.
Qed.

Definition counted (r r' : nativeRuntime) : nativeRuntime :=
  if bool_decide (st_RoutingStrategy (rt_settings r) = "fill-first") then r'
  else r' <| rt_next := (rt_next r' + 1) mod 2 ^ 64 |>.

(** By the routes a free credential of the model is chosen, and the route is overwritten. *)
Lemma wp_by_route x E now model r (Q : result (option nat) → nativeRuntime → Prop) :
  let ids := routes r (model_key model) in
  let '(kept, r1) := sift now ids r in
  let r2 := if bool_decide (ids = []) then r else r1 <| rt_modelRoutes := <[model_key model := kept ++ drop (length kept) ids]> (rt_modelRoutes r1) |> in
  (kept = [] → Q (Ok None) r2) →
  (kept ≠ [] → Q (if 0 <=? turn r2 (length kept)
                  then Ok (id ← kept !! Z.to_nat (turn r2 (length kept)); (λ ac, ac.1) <$> registered r2 id)
                  else Err (ErrMessage "runtime error: index out of range")) (counted r2 r2)) →
  wp x E (by_route now model) r Q.
Proof.
  cbv zeta. pose proof (filter_in_place_spec now (routes r (model_key model)) r) as Hspec.
  destruct (sift now (routes r (model_key model)) r) as [kept r1] eqn:Hsift. intros Hnone Hsome.
  apply wp_bind, wp_gets. fold (routes r (model_key model)). set (ids := routes r (model_key model)) in *.
  destruct ids as [|id ids'] eqn:Hids.
  { cbn. apply wp_ret. cbn in Hsift. injection Hsift as <- <-. by apply Hnone. }
  rewrite bool_decide_eq_false_2 in Hnone, Hsome |- * by done. rewrite <- Hids in *.
  apply wp_bind, wp_gets. rewrite Hspec. apply wp_bind, wp_modify.
  set (r2 := r1 <| rt_modelRoutes := <[model_key model := kept ++ drop (length kept) ids]> (rt_modelRoutes r1) |>) in *.
  destruct kept as [|k kept'] eqn:Hkept; [cbn; by apply wp_ret, Hnone|]. rewrite <- Hkept in *.
  rewrite (bool_decide_eq_false_2 (length kept = 0%nat)) by by rewrite Hkept.
  apply wp_bind, wp_gets. apply wp_bind. 
  eapply (wp_mono _ _ _ _ (λ i r', i = Ok (turn r2 (length kept)) ∧ r' = counted r2 r2)).
  { unfold pick_index, turn, counted. destruct (bool_decide _); [by apply wp_ret|]. apply wp_bind, wp_gets, wp_bind, wp_modify, wp_ret. done. }
  intros _ r' [-> ->]. specialize (Hsome ltac:(by rewrite Hkept)). apply wp_bind, wp_guard.
  - intros Hpos. rewrite Hpos in Hsome. apply wp_gets. rewrite lookup_app_l by (apply turn_bound; [lia|rewrite Hkept; cbn; lia]).
    assert (∀ id, registered (counted r2 r2) id = registered r2 id) as Hreg by (intros; unfold counted; by destruct (bool_decide _)).
    destruct (kept !! _); cbn in Hsome; [by rewrite Hreg|done].
  - intros Hneg. by rewrite Hneg in Hsome.
Qed.

(** What is free for [model] in the routes. *)
Definition free_for (now : Z) (model : string) (r : nativeRuntime) (id : string) : Prop :=
  id ∈ routes r (model_key model) ∧ ∃ a c, registered r id = Some (a, c) ∧ usable now c = true.

(** The runtime after the route of [key] was filtered into itself. *)
Definition sifted (key : string) (kept : list string) (r r1 : nativeRuntime) : nativeRuntime :=
  if bool_decide (routes r key = []) then r
  else r1 <| rt_modelRoutes := <[key := kept ++ drop (length kept) (routes r key)]> (rt_modelRoutes r1) |>.

Lemma sifted_objects key kept r r1 id : touched r r1 → (routes r key = [] → r1 = r) →
  registered (sifted key kept r r1) id = registered r1 id.
Proof. intros _ Hnil. unfold sifted. case_bool_decide as Hids; [by rewrite Hnil|done]. Qed.

Lemma sifted_selecting now key r kept r1 :
  names_ok r → sift now (routes r key) r = (kept, r1) → selecting now r (sifted key kept r r1).
Proof.
  intros Hn Hsift. destruct (sift_spec now _ _ _ _ Hn Hsift) as (Ht & Hsub & _ & Hall). unfold sifted.
  case_bool_decide as Hids; [apply selecting_refl|]. destruct Ht as (Hm & Hset & Hrt & Hmod & _). split_and!; [exact Hm| | |done|done].
  - intros id a c Hr. destruct (Hall _ _ _ Hr) as [Hr1 _]. unfold after_asking in Hr1.
    destruct (decide (id ∈ routes r key)), (usable now c) eqn:Hu; [by right|by left..].
  - intros key' id. unfold routes at 1. cbn. destruct (decide (key' = key)) as [->|Hne].
    + rewrite lookup_insert_eq. cbn. rewrite elem_of_app. intros [Hin|Hin].
      * exact (elem_of_submseteq _ _ _ Hin (sublist_submseteq _ _ Hsub)).
      * exact (subseteq_drop _ _ _ Hin).
    + rewrite lookup_insert_ne by done. rewrite Hrt. done.
Qed.

(** Whoever is isolated at the front of a route leaves it as soon as somebody behind is free. *)
Lemma sifted_forgets now key r kept r1 id rest a c :
  names_ok r → sift now (routes r key) r = (kept, r1) → kept ≠ [] →
  routes r key = id :: rest → id ∉ rest → registered r id = Some (a, c) → usable now c = false →
  id ∉ routes (sifted key kept r r1) key.
Proof.
  intros Hn Hsift Hkept Hids Hrest Hr Hu. destruct (sift_spec now _ _ _ _ Hn Hsift) as (Ht & Hsub & _ & Hall).
  unfold sifted. rewrite Hids. cbn [bool_decide]. rewrite bool_decide_eq_false_2 by done. unfold routes. cbn.
  rewrite lookup_insert_eq. cbn. rewrite elem_of_app. intros [Hin|Hin].
  - apply (Hall _ _ _ Hr) in Hin as [_ Hin]. congruence.
  - apply Hrest. destruct kept as [|k kept]; [done|]. exact (subseteq_drop (length kept) rest id Hin).
Qed.

(** The one that is chosen is free, and nobody is chosen only if nobody is free. *)
Lemma by_route_spec x E now model r : names_ok r →
  wp x E (by_route now model) r (λ o r', selecting now r r' ∧ match o with
    | Ok (Some a) => gives now r r' (λ id, id ∈ routes r (model_key model)) a ∧
        ∀ id rest a c, routes r (model_key model) = id :: rest → id ∉ rest →
          registered r id = Some (a, c) → usable now c = false → id ∉ routes r' (model_key model)
    | Ok None => ∀ id, ¬ free_for now model r id
    | Err _ => ¬ 0 ≤ rt_next r < 2 ^ 63
    end).
Proof.
  intros Hn. pose proof (wp_by_route x E now model r) as Hwp. cbv zeta in Hwp.
  destruct (sift now (routes r (model_key model)) r) as [kept r1] eqn:Hsift.
  destruct (sift_spec now _ _ _ _ Hn Hsift) as (Ht & Hsub & Hreg & Hall).
  assert (Hnil : routes r (model_key model) = [] → r1 = r).
  { intros Hids. rewrite Hids in Hsift. by injection Hsift. }
  pose proof (sifted_selecting now _ _ _ _ Hn Hsift) as Hsel. fold (sifted (model_key model) kept r r1) in Hwp.
  apply Hwp; clear Hwp.
  - intros ->. split; [done|]. intros id [Hin (a & c & Hr & Hu)]. destruct (Hall _ _ _ Hr) as [_ Hk].
    by apply (not_elem_of_nil id), Hk.
  - intros Hkept. set (r2 := sifted (model_key model) kept r r1) in *. split.
    { unfold counted. case_bool_decide; [done|]. exact Hsel. }
    assert (rt_next r2 = rt_next r) as Hnext.
    { unfold r2, sifted. case_bool_decide; [done|]. by destruct Ht as (_ & _ & _ & _ & ? & _). }
    destruct (0 <=? turn r2 (length kept)) eqn:Hturn.
    + assert (Hlt : (Z.to_nat (turn r2 (length kept)) < length kept)%nat).
      { apply turn_bound; [lia|]. destruct kept; [done|cbn; lia]. }
      destruct (lookup_lt_is_Some_2 kept _ Hlt) as [id Hid]. rewrite Hid. cbn.
      pose proof (list_elem_of_lookup_2 _ _ _ Hid) as Hin. destruct (Hreg id Hin) as [[a c] Hr].
      destruct (Hall _ _ _ Hr) as [Hr1 [Hk _]]. destruct (Hk Hin) as [Hroute Hu]. rewrite decide_True in Hr1 by done.
      unfold after_asking in Hr1. rewrite Hu in Hr1. assert (registered r2 id = Some (a, taken c)) as Hr2
        by (unfold r2; by rewrite sifted_objects).
      rewrite Hr2. cbn. split.
      * exists id, c. split_and!; [done|done| |done]. unfold counted. by case_bool_decide.
      * intros id' rest a' c' Hids Hrest Hr' Hu'. pose proof (sifted_forgets now _ _ _ _ _ _ _ _ Hn Hsift Hkept Hids Hrest Hr' Hu') as Hno.
        unfold counted. by case_bool_decide.
    + unfold turn in Hturn. rewrite Hnext in Hturn. intros Hrange. case_bool_decide; [done|].
      rewrite wrap64_id in Hturn by int64_lia. pose proof (Z.rem_nonneg (rt_next r) (Z.of_nat (length kept))) as Hpos.
      assert (length kept ≠ 0%nat) by by destruct kept. specialize (Hpos ltac:(lia) ltac:(lia)). lia.
Qed.

(** *** Affinity *)

Lemma available_object now r id a c :
  registered r id = Some (a, c) →
  update_object a (λ _, (available now c).2) r = if usable now c then update_object a (λ _, taken c) r else r.
Proof.
  intros [_ Hc]%registered_spec. rewrite available_usable. destruct (usable now c); [done|]. by apply update_id.
Qed.

Lemma taken_registered r id a c : registered r id = Some (a, c) → registered (update_object a (λ _, taken c) r) id = Some (a, taken c).
Proof. intros [Ha Hc]%registered_spec. apply registered_spec. split; [done|]. by apply (update_same r a (λ _, taken c) c). Qed.

Lemma taken_others r id id' a c :
  names_ok r → id' ≠ id → registered r id = Some (a, c) →
  registered (update_object a (λ _, taken c) r) id' = registered r id'.
Proof.
  intros Hn Hne Hr. destruct (registered r id') as [[b d]|] eqn:Hr'.
  - pose proof Hr' as [Hb Hd]%registered_spec. apply registered_spec. split; [done|]. rewrite update_other; [done|].
    intros <-. apply Hne. by apply (names_inj r id' id a d c).
  - unfold registered in *. cbn. destruct (rt_credentials r !! id') as [b|]; [|done]. cbn in *.
    destruct (object r b) as [d|] eqn:Hd; [done|]. destruct (object (update_object a (λ _, taken c) r) b) as [d|] eqn:Hd'; [|done].
    destruct (object_moved_back _ _ _ _ (proj1 (taken_moved r a c (proj2 (proj1 (registered_spec _ _ _ _) Hr)))) Hd') as (d0 & ? & _).
    congruence.
Qed.

(** Taking one registered credential that is free. *)
Lemma taken_selecting now r id a c :
  names_ok r → registered r id = Some (a, c) → usable now c = true → selecting now r (update_object a (λ _, taken c) r).
Proof.
  intros Hn Hr Hu. pose proof Hr as [Ha Hc]%registered_spec. destruct (taken_moved r a c Hc) as (Hm & ? & Hrt & ? & _).
  split_and!; [done| |by intros ? ?; unfold routes; rewrite Hrt|done|done]. intros id' a' c' Hr'. destruct (decide (id' = id)) as [->|Hne].
  - right. assert (a' = a ∧ c' = c) as [-> ->] by (rewrite Hr in Hr'; by injection Hr'). split; [done|]. by apply taken_registered.
  - left. rewrite <- Hr'. by apply (taken_others r id).
Qed.

Lemma affinity_spec x E key model now r : names_ok r →
  wp x E (affinityCredential key model now) r (λ o r1, selecting now r r1 ∧ rt_modelRoutes r1 = rt_modelRoutes r ∧
    rt_next r1 = rt_next r ∧ match o with
    | Ok (Some a) => gives now r r1 (λ id, id ∈ routes r (model_key model)) a
    | Ok None => ∀ id, id ∈ routes r (model_key model) → registered r1 id = registered r id
    | Err _ => False
    end).
Proof.
  intros Hn. assert (Hnone : ∀ r1, r1 = r → wp x E (mret None) r1 (λ o r1, selecting now r r1 ∧ rt_modelRoutes r1 = rt_modelRoutes r ∧
    rt_next r1 = rt_next r ∧ match o with
    | Ok (Some a) => gives now r r1 (λ id, id ∈ routes r (model_key model)) a
    | Ok None => ∀ id, id ∈ routes r (model_key model) → registered r1 id = registered r id
    | Err _ => False
    end)) by (intros r1 ->; apply wp_ret; by split_and!; [apply selecting_refl|..]).
  unfold affinityCredential. case_bool_decide; [by apply Hnone|]. apply wp_bind, wp_gets.
  destruct (rt_affinity r !! key) as [entry|]; [|by apply Hnone]. case_match.
  { apply wp_bind, wp_modify, wp_ret. by split_and!; [split_and!; [done|intros ????; by left|by intros ?|..]|..]. }
  apply wp_bind, wp_gets, wp_bind, wp_gets. destruct (registered r (af_credentialID entry)) as [[a c]|] eqn:Hr; [|by apply Hnone].
  case_match; [by apply Hnone|]. pose proof (available_object now r _ _ _ Hr) as Hav. rewrite available_usable in *.
  destruct (usable now c) eqn:Hu; cbn [snd] in Hav.
  - apply wp_bind, wp_modify, wp_ret. destruct (taken_moved r a c (proj2 (proj1 (registered_spec _ _ _ _) Hr))) as (_ & _ & Hrt & _ & Hnx & _).
    pose proof (Hn _ _ _ Hr) as Hid. split; [by apply (taken_selecting now r (af_credentialID entry))|]. split; [done|]. split; [done|].
    rewrite andb_true_l, Hid. case_bool_decide as Hin.
    + exists (af_credentialID entry), c. split_and!; [done|done|by apply taken_registered|done].
    + intros id Hid'. apply (taken_others r (af_credentialID entry)); [done|by intros ->|done].
  - apply wp_bind, wp_modify. rewrite Hav. by apply Hnone.
Qed.

(** *** The whole choice *)

Lemma wp_clock x E (r : nativeRuntime) (Q : result Z → nativeRuntime → Prop) :
  (∀ k, Q (Ok (env_now E k)) r) → wp x E time_now r Q.
Proof. intros HQ n. right. apply HQ. Qed.

(** Whom a request may be given: the one it names, or anybody on the route of its model. *)
Definition candidate (pinnedID model : string) (r : nativeRuntime) (id : string) : Prop :=
  if decide (pinnedID = "") then id ∈ routes r (model_key model) else id = pinnedID.

Lemma candidate_route model r id : candidate "" model r id ↔ id ∈ routes r (model_key model).
Proof. done. Qed.

Lemma candidate_pinned pinnedID model r id : pinnedID ≠ "" → candidate pinnedID model r id ↔ id = pinnedID.
Proof. intros Hpin. unfold candidate. by destruct (decide (pinnedID = "")). Qed.

(** The outcome of a choice at [now]: the one that is given was free and a candidate; nobody is
    given only if no candidate is free; and the panic needs a counter of 2^63. *)
Definition chosen (now : Z) (pinnedID model : string) (r r' : nativeRuntime) (o : result (option nat)) : Prop :=
  selecting now r r' ∧
  match o with
  | Ok (Some a) => gives now r r' (candidate pinnedID model r) a
  | Ok None => ∀ id a c, candidate pinnedID model r id → registered r id = Some (a, c) → usable now c = false
  | Err _ => ¬ 0 ≤ rt_next r < 2 ^ 63
  end.

Lemma gives_weaken now r r' (P Q : string → Prop) a : (∀ id, P id → Q id) → gives now r r' P a → gives now r r' Q a.
Proof. intros HPQ (id & c & ? & ? & ? & ?). exists id, c. auto. Qed.

Lemma gives_later now r1 r2 r3 P a : asked now r2 r3 → gives now r1 r2 P a → gives now r1 r3 P a.
Proof.
  intros H23 (id & c & Hr1 & Hu & Hr2 & HP). exists id, c. split_and!; try done.
  destruct (H23 _ _ _ Hr2) as [?|[Hu2 Hr3]]; [done|]. pose proof (usable_taken now c Hu) as Hut.
  destruct (isolated c); [congruence|]. by rewrite Hut in Hr3.
Qed.

Lemma selectCredential_spec x E model pinnedID key r : names_ok r →
  wp x E (selectCredential model pinnedID key) r (λ o r', ∃ k, chosen (env_now E k) pinnedID model r r' o).
Proof.
  intros Hn. apply wp_bind, wp_clock. intros k. set (now := env_now E k). destruct (decide (pinnedID = "")) as [->|Hpin].
  - cbn [negb bool_decide]. rewrite (bool_decide_eq_true_2 ("" = "")) by done. cbn [negb].
    apply wp_bind. eapply wp_mono; [by apply (affinity_spec x E key model now r)|].
    intros [[a|]|e] r1 (Hsel & Hrt & Hnx & Ho); [by apply wp_ret; exists k|cbn|done].
    assert (names_ok r1) as Hn1 by (eapply names_moved; [apply Hsel|done]).
    assert (routes r1 (model_key model) = routes r (model_key model)) as Hroutes by (unfold routes; by rewrite Hrt).
    change (wp x E (by_route now model) r1 (λ o r', ∃ k, chosen (env_now E k) "" model r r' o)).
    eapply wp_mono; [by apply by_route_spec|]. intros o r' [Hsel' Hb]. exists k. split; [by eapply selecting_trans|].
    rewrite Hroutes in Hb. destruct o as [[a|]|e].
    + destruct Hb as [Hg _]. destruct Hsel as (Hm & Hasked & _). by apply (gives_earlier now r r1 r').
    + intros id a c Hin Hr. apply not_true_is_false. intros Hu. apply (Hb id). unfold free_for. rewrite Hroutes. split; [done|].
      exists a, c. by rewrite Ho.
    + by rewrite <- Hnx.
  - rewrite (bool_decide_eq_false_2 _ Hpin). cbn [negb]. apply wp_bind, wp_gets.
    destruct (registered r pinnedID) as [[a c]|] eqn:Hr.
    2: { apply wp_ret. exists k. split; [apply selecting_refl|]. intros id a c ->%candidate_pinned Hr'; [congruence|done]. }
    pose proof (available_object now r _ _ _ Hr) as Hav. rewrite available_usable in *.
    destruct (usable now c) eqn:Hu; cbn [snd] in Hav; apply wp_bind, wp_modify, wp_ret; exists k.
    + split; [by apply (taken_selecting now r pinnedID)|]. exists pinnedID, c.
      split_and!; [done|done|by apply taken_registered|by apply candidate_pinned].
    + rewrite Hav. split; [apply selecting_refl|]. intros id a' c' ->%candidate_pinned Hr'; [|done].
      rewrite Hr in Hr'. by injection Hr' as <- <-.
Qed.

(** Without a name and without affinity the front of the route is forgotten while it is isolated. *)
Lemma selectCredential_forgets x E model r : names_ok r →
  wp x E (selectCredential model "" "") r (λ o r', ∃ k, chosen (env_now E k) "" model r r' o ∧
    ∀ b, o = Ok (Some b) → ∀ id rest a c, routes r (model_key model) = id :: rest → id ∉ rest →
      registered r id = Some (a, c) → usable (env_now E k) c = false → id ∉ routes r' (model_key model)).
Proof.
  intros Hn. apply wp_bind, wp_clock. intros k. apply wp_bind. apply wp_ret.
  change (wp x E (by_route (env_now E k) model) r (λ o r', ∃ k, chosen (env_now E k) "" model r r' o ∧
    ∀ b, o = Ok (Some b) → ∀ id rest a c, routes r (model_key model) = id :: rest → id ∉ rest →
      registered r id = Some (a, c) → usable (env_now E k) c = false → id ∉ routes r' (model_key model))).
  eapply wp_mono; [by apply by_route_spec|]. intros o r' [Hsel Hb]. exists k. split.
  - split; [done|]. destruct o as [[a|]|e]; [by destruct Hb| |done]. intros id a c Hin Hr. apply not_true_is_false.
    intros Hu. apply (Hb id). split; [done|]. eauto.
  - intros b ->. by destruct Hb as [_ Hb].
Qed.

(** ** The table of routes *)

(** The keys under which an account can be asked for. *)
Definition offers (c : nativeCredential) (key : string) : Prop :=
  (∃ model, model ∈ nc_Models c ∧ trim_space model ≠ "" ∧ key = model_key model) ∨
  (∃ model, model ∈ implicitProviderImageModels (nc_Provider c) ∧ key = to_lower model).

Definition listed (acc : routes_and_models) (key id : string) : Prop := id ∈ default [] (acc.1 !! key).

Lemma listed_add_route routes models key id key' id' :
  listed (add_route key id routes, models) key' id' ↔ id' ∈ default [] (routes !! key') ∨ key' = key ∧ id' = id.
Proof.
  unfold listed, add_route, appendUniqueRoute. cbn. destruct (decide (key' = key)) as [->|Hne].
  - rewrite lookup_insert_eq. cbn. case_bool_decide as Hin; [naive_solver|]. rewrite elem_of_app, list_elem_of_singleton. naive_solver.
  - rewrite lookup_insert_ne by done. naive_solver.
Qed.

Lemma listed_models id models : ∀ acc key id',
  listed (foldl (route_model id) acc models) key id' ↔
  listed acc key id' ∨ id' = id ∧ ∃ model, model ∈ models ∧ trim_space model ≠ "" ∧ key = model_key model.
Proof.
  induction models as [|model models IH]; intros acc key id'; cbn [foldl].
  { split; [by left|]. intros [?|(_ & ? & ?%elem_of_nil & _)]; done. }
  rewrite IH. unfold route_model at 1. destruct acc as [routes set]. case_bool_decide as Hm.
  - setoid_rewrite elem_of_cons. naive_solver.
  - rewrite listed_add_route. unfold listed. cbn. setoid_rewrite elem_of_cons. unfold model_key. naive_solver.
Qed.

Lemma listed_images id models : ∀ acc key id',
  listed (foldl (route_image id) acc models) key id' ↔
  listed acc key id' ∨ id' = id ∧ ∃ model, model ∈ models ∧ key = to_lower model.
Proof.
  induction models as [|model models IH]; intros acc key id'; cbn [foldl].
  { split; [by left|]. intros [?|(_ & ? & ?%elem_of_nil & _)]; done. }
  rewrite IH. unfold route_image at 1. destruct acc as [routes set]. rewrite listed_add_route. unfold listed. cbn.
  setoid_rewrite elem_of_cons. naive_solver.
Qed.

Lemma listed_credentials entries : ∀ acc key id,
  listed (foldl route_credential acc entries) key id ↔ listed acc key id ∨ ∃ c, (id, c) ∈ entries ∧ offers c key.
Proof.
  induction entries as [|[id0 c0] entries IH]; intros acc key id; cbn [foldl].
  { split; [by left|]. intros [?|(? & ?%elem_of_nil & _)]; done. }
  rewrite IH. unfold route_credential at 1. rewrite listed_images, listed_models. setoid_rewrite elem_of_cons. unfold offers. naive_solver.
Qed.

Lemma elem_of_by_id r id c : (id, c) ∈ by_id r ↔ ∃ a, registered r id = Some (a, c).
Proof.
  unfold by_id. rewrite list_elem_of_omap. split.
  - intros (id' & _ & Hid). destruct (registered r id') as [[a c']|] eqn:Hr; [|done]. cbn in Hid. injection Hid as -> ->. by exists a.
  - intros [a Hr]. exists id. rewrite Hr. split; [|done]. rewrite merge_sort_Permutation, list_elem_of_fmap.
    apply registered_spec in Hr as [Ha _]. exists (id, a). by rewrite elem_of_map_to_list.
Qed.

(** A rebuilt table lists under every key exactly the registered accounts that offer the model, by
    their own lists or by the images of their provider, whatever the table was before. *)
Theorem rebuilt_routes_list_the_owners r key id :
  id ∈ routes (rebuildRoutesLocked r) key ↔ ∃ a c, registered r id = Some (a, c) ∧ offers c key.
Proof.
  unfold rebuildRoutesLocked, routes. pose proof (listed_credentials (by_id r) (∅, ∅) key id) as Hl. unfold listed in Hl.
  destruct (foldl route_credential (∅, ∅) (by_id r)) as [table set]. cbn in *. rewrite Hl, lookup_empty. cbn. split.
  - intros [?%elem_of_nil|(c & [a Hr]%elem_of_by_id & Ho)]; [done|]. by exists a, c.
  - intros (a & c & Hr & Ho). right. exists c. split; [|done]. apply elem_of_by_id. by exists a.
Qed.

(** The runtime after new objects were installed files them under their names. *)
Theorem installed_names compiled r : names_ok (install_objects compiled r).
Proof.
  set (base := length (rt_objects r)).
  assert (rt_objects (install_objects compiled r) = rt_objects r ++ compiled ∧ rt_credentials (install_objects compiled r) =
    list_to_map (reverse (imap (λ i c, (nc_ID c, (base + i)%nat)) compiled))) as [Hobjects Hregistry].
  { unfold install_objects, rebuildRoutesLocked. by destruct (foldl route_credential _ _). }
  intros id a c Hr. apply registered_spec in Hr as [Ha Hc]. unfold object in Hc. rewrite Hobjects in Hc. rewrite Hregistry in Ha.
  apply elem_of_list_to_map_2, elem_of_reverse, elem_of_lookup_imap_1 in Ha as (i & c' & Heq & Hc').
  injection Heq as -> ->. rewrite lookup_app_r in Hc by (unfold base; lia).
  replace (base + i - length (rt_objects r))%nat with i in Hc by (unfold base; lia). congruence.
Qed.

(** ** The runtime at work *)

(** What requests do to the runtime, each at its own time: they begin, and end for the object
    that they were given; models are listed with their providers. *)
Inductive routing_operation :=
  | BeginInference (path requested pinned affinityKey : string)
  | EndInference (a : nat) (o : outcome)
  | BeginSocket (model pinned affinityKey : string) (prewarm : bool)
  | ConnectSocket (a : nat) (dialled : option string)
  | AskProvider (model : string)
  | ListModels (codex : bool).

Section serving.
Context `{StatusText}.

Definition run_routing (op : routing_operation) : M nativeRuntime unit :=
match op with
| BeginInference path requested pinned affinityKey => begin_inference path requested pinned affinityKey;; mret ()
| EndInference a o => finish_inference a o
| BeginSocket model pinned affinityKey prewarm => begin_websocket model pinned affinityKey prewarm;; mret ()
| ConnectSocket a dialled => connect a dialled
| AskProvider model => ModelProvider model;; mret ()
| ListModels codex => ServeModels codex;; mret ()
end.

(** Nothing but circuits, counters and affinities moves, and routes only lose entries. *)
Definition still (r r' : nativeRuntime) : Prop := objects_moved r r' ∧ routes_shrink r r'.

Lemma still_refl r : still r r.
Proof. split; [reflexivity|by intros key id]. Qed.

Lemma still_trans r1 r2 r3 : still r1 r2 → still r2 r3 → still r1 r3.
Proof. intros [H1 H2] [H3 H4]. split; [by etrans|unfold routes_shrink in *; naive_solver]. Qed.

Lemma still_same r r1 r2 : still r r1 → rt_objects r2 = rt_objects r1 → rt_credentials r2 = rt_credentials r1 →
  rt_modelRoutes r2 = rt_modelRoutes r1 → still r r2.
Proof.
intros Hs Ho Hc Hr. eapply still_trans; [exact Hs|]. split.
- split; [by rewrite Ho|done].
- intros key id. unfold routes. by rewrite Hr.
Qed.

Lemma still_update r r1 a f : still r r1 → circuit_step f → still r (update_object a f r1).
Proof. intros Hs Hf. eapply still_trans; [exact Hs|]. split; [by apply update_moved|by intros key id]. Qed.

Lemma still_names r r1 : names_ok r → still r r1 → names_ok r1.
Proof. intros Hn [Hm _]. by eapply names_moved. Qed.

Section still_run.
Context (x : mode) (E : env) (r : nativeRuntime) (Hn : names_ok r).

Lemma still_select model pinned key : preserves x E (still r) (selectCredential model pinned key).
Proof.
intros r1 Hr1. eapply wp_mono; [apply selectCredential_spec; by eapply still_names|].
intros o r2 (k & (Hm & _ & Hr & _) & _). eapply still_trans; [exact Hr1|]. by split.
Qed.

Lemma still_remember key a : preserves x E (still r) (rememberAffinity key a).
Proof. unfold rememberAffinity. preserve; apply preserves_modify; intros r1 Hr1; by eapply still_same. Qed.

Lemma still_run op : preserves x E (still r) (run_routing op).
Proof.
pose proof still_select as Hselect. pose proof still_remember as Hremember.
destruct op; cbn [run_routing].
- unfold begin_inference. preserve; auto.
- unfold finish_inference. preserve. apply preserves_modify. intros r1 Hr1. apply still_update; [done|].
  destruct o; [by intros c|apply step_record|]. repeat case_match; apply step_record || apply step_release.
- unfold begin_websocket. preserve; auto.
- unfold connect. preserve. apply preserves_modify. intros r1 Hr1. apply still_update; [done|]. destruct dialled; apply step_record.
- unfold ModelProvider. preserve; auto.
- unfold ServeModels, ModelProvider. preserve; auto.
Qed.
End still_run.

(** What any sequence of them leads to. *)
Inductive served : nativeRuntime → nativeRuntime → Prop :=
  | served_here r : served r r
  | served_by r r1 r2 op E n o c : served r r1 → run_routing op E r1 n = (o, r2, c) → served r r2.

Lemma served_still r r' : names_ok r → served r r' → still r r'.
Proof.
intros Hn Hserved. induction Hserved as [r|r r1 r2 op E n o c _ IH Hrun]; [apply still_refl|].
refine (wp_direct _ _ _ _ _ _ _ _ (still_run Direct E r Hn op r1 (IH Hn)) Hrun).
Qed.
End serving.

(** ** The theorems *)

Section theorems.
Context `{StatusText}.

(** A choice is sound and complete.  The account that a request is given is the one that it names,
  or is on the route of its model; it is registered, and it was not isolated, or its cooldown was
  over and nobody else was probing it, in which case the request is its probe.  Nobody is given
  only if no candidate was free.  The choice moves nothing but circuits, counters, affinities and
  entries of routes, and it only fails by the panic of a counter that has reached 2^63. *)
Theorem choices_are_sound E model pinned key r n o r' m :
names_ok r → selectCredential model pinned key E r n = (o, r', m) →
still r r' ∧ ∃ k, let now := env_now E k in
match o with
| Ok (Some a) => ∃ id c, candidate pinned model r id ∧ registered r id = Some (a, c) ∧
    (if isolated c
     then nc_probeActive c = false ∧ (∃ retry, cs_NextRetryAfter (nc_Status c) = Some retry ∧ retry ≤ now) ∧
          ∃ c', registered r' id = Some (a, c') ∧ nc_probeActive c' = true
     else registered r' id = Some (a, c))
| Ok None => ∀ id a c, candidate pinned model r id → registered r id = Some (a, c) →
    isolated c = true ∧ (nc_probeActive c = true ∨ ∀ retry, cs_NextRetryAfter (nc_Status c) = Some retry → now < retry)
| Err _ => ¬ 0 ≤ rt_next r < 2 ^ 63
end.
Proof.
intros Hn Hrun. destruct (wp_direct _ _ _ _ _ _ _ _ (selectCredential_spec Direct E model pinned key r Hn) Hrun) as (k & Hsel & Ho).
split; [destruct Hsel as (? & _ & ? & _); by split|]. exists k. cbv zeta. destruct o as [[a|]|e]; [| |done].
- destruct Ho as (id & c & Hr & Hu & Hr' & Hc). exists id, c. split; [done|]. split; [done|].
  unfold usable, taken in *. fold (isolated c) in Hu. destruct (isolated c); [|done]. cbn in Hu.
  destruct (cs_NextRetryAfter (nc_Status c)) as [retry|]; [|done]. apply andb_true_iff in Hu as [Hle%Z.leb_le Hp%negb_true_iff].
  split; [done|]. split; [by exists retry|]. eexists. split; [exact Hr'|done].
- intros id a c Hc Hr. specialize (Ho id a c Hc Hr). unfold usable in Ho. fold (isolated c) in Ho.
  apply orb_false_iff in Ho as [Hi%negb_false_iff Ho]. split; [done|].
  destruct (cs_NextRetryAfter (nc_Status c)) as [retry|]; [|by right].
  apply andb_false_iff in Ho as [Hlt%Z.leb_gt|Hp%negb_false_iff]; [|by left]. right. by intros ? [= <-].
Qed.

(** An account that was isolated once may never be chosen again.  The filter of a choice writes into
  the slice that the table of routes holds: when the account at the front of a route is isolated
  and another one is given instead, the account is no longer on the route, and no later request
  for the model is given it, however long ago its cooldown ended, until the routes are rebuilt. *)
Theorem isolated_accounts_are_forgotten E model r n b r1 m id rest a c :
names_ok r → routes r (model_key model) = id :: rest → id ∉ rest → registered r id = Some (a, c) →
(∀ k, usable (env_now E k) c = false) → selectCredential model "" "" E r n = (Ok (Some b), r1, m) →
∀ r2, served r1 r2 → ∀ E' key n', (selectCredential model "" key E' r2 n').1.1 ≠ Ok (Some a).
Proof.
intros Hn Hroutes Hrest Hr Hu Hrun r2 Hserved E' key n' Hagain.
destruct (wp_direct _ _ _ _ _ _ _ _ (selectCredential_forgets Direct E model r Hn) Hrun) as (k & [Hsel _] & Hforget).
specialize (Hforget b eq_refl id rest a c Hroutes Hrest Hr (Hu k)).
assert (still r r1) as Hs1 by (destruct Hsel as (? & _ & ? & _); by split).
pose proof (still_names _ _ Hn Hs1) as Hn1. pose proof (served_still _ _ Hn1 Hserved) as Hs2.
pose proof (still_names _ _ Hn1 Hs2) as Hn2.
destruct (selectCredential model "" key E' r2 n') as [[o r3] m'] eqn:Hrun'. cbn in Hagain. subst o.
destruct (wp_direct _ _ _ _ _ _ _ _ (selectCredential_spec Direct E' model "" key r2 Hn2) Hrun') as (k' & _ & id' & c' & Hr' & _ & _ & Hin).
change (id' ∈ routes r2 (model_key model)) in Hin. destruct (still_trans _ _ _ Hs1 Hs2) as [Hm _].
destruct (registered_moved _ _ _ _ _ Hm Hr) as (c2 & Hr2 & _).
assert (id' = id) as -> by (apply (names_inj r2 id' id a c' c2); done). apply Hforget. by apply (proj2 Hs2).
Qed.

(** ** Probes *)

(** The account is being probed: isolated, and nobody else may use it. *)
Definition probed (id : string) (a : nat) (r : nativeRuntime) : Prop :=
∃ c, registered r id = Some (a, c) ∧ isolated c = true ∧ nc_probeActive c = true.

Lemma probed_refused now id a r r' P b : names_ok r → probed id a r → gives now r r' P b → b ≠ a.
Proof.
intros Hn (c & Hr & Hi & Hp) (id' & c' & Hr' & Hu & _) ->.
apply registered_spec in Hr as [_ Hc], Hr' as [_ Hc']. assert (c' = c) as -> by congruence.
unfold usable in Hu. fold (isolated c) in Hu. rewrite Hi, Hp in Hu. cbn in Hu. destruct (cs_NextRetryAfter _); [|done].
by rewrite andb_false_r in Hu.
Qed.

Lemma probed_selecting now id a r r' : probed id a r → selecting now r r' → probed id a r'.
Proof.
intros (c & Hr & Hi & Hp) (_ & Hasked & _). exists c. destruct (Hasked _ _ _ Hr) as [?|[Hu _]]; [done|].
unfold usable in Hu. fold (isolated c) in Hu. rewrite Hi, Hp in Hu. cbn in Hu. destruct (cs_NextRetryAfter _); [|done].
by rewrite andb_false_r in Hu.
Qed.

(** No request for the object at [a] ends. *)
Definition spares (a : nat) (op : routing_operation) : Prop :=
match op with EndInference b _ | ConnectSocket b _ => b ≠ a | _ => True end.

Lemma probed_run x E id a r op : names_ok r → spares a op →
preserves x E (λ r', still r r' ∧ probed id a r') (run_routing op).
Proof.
intros Hn Hop. set (I := λ r', still r r' ∧ probed id a r').
assert (Hselect : ∀ model pinned key, preserves x E I (selectCredential model pinned key)).
{ intros model pinned key r1 [Hs Hp]. eapply wp_mono; [apply selectCredential_spec; by eapply still_names|].
  intros o r2 (k & Hsel & _). split; [|by eapply probed_selecting].
  destruct Hsel as (? & _ & ? & _). eapply still_trans; [exact Hs|]. by split. }
assert (Hremember : ∀ key b, preserves x E I (rememberAffinity key b)).
{ intros. unfold rememberAffinity. preserve; apply preserves_modify; intros r1 [Hs Hp]; (split; [by eapply still_same|exact Hp]). }
assert (Hupdate : ∀ b f r1, b ≠ a → circuit_step f → I r1 → I (update_object b f r1)).
{ intros b f r1 Hne Hf [Hs (c & Hr & Hp)]. split; [by apply still_update|]. exists c. split; [|done].
  apply registered_spec in Hr as [Ha Hc]. apply registered_spec. split; [done|]. by rewrite update_other. }
destruct op; cbn [run_routing spares] in *.
- unfold begin_inference. preserve; auto.
- unfold finish_inference. preserve. apply preserves_modify. intros r1 Hr1. apply Hupdate; [done| |done].
  destruct o; [by intros c|apply step_record|]. repeat case_match; apply step_record || apply step_release.
- unfold begin_websocket. preserve; auto.
- unfold connect. preserve. apply preserves_modify. intros r1 Hr1. apply Hupdate; [done| |done]. destruct dialled; apply step_record.
- unfold ModelProvider. preserve; auto.
- unfold ServeModels, ModelProvider. preserve; auto.
Qed.

(** A probe that does not end blocks its account.  Asking for the provider of a model, which no
  request follows, takes the probe of an account whose cooldown is over; from then on, whatever
  requests come and go, as long as none ends that was given the account before, it stays
  isolated and no request is given it, whatever the clock says. *)
Inductive served_sparing (a : nat) : nativeRuntime → nativeRuntime → Prop :=
  | spared_here r : served_sparing a r r
  | spared_by r r1 r2 op E n o c :
      served_sparing a r r1 → spares a op → run_routing op E r1 n = (o, r2, c) → served_sparing a r r2.

Theorem unended_probes_block_their_account E model r n o r1 m id a c :
names_ok r → 0 ≤ rt_next r < 2 ^ 63 → routes r (model_key model) = [id] → registered r id = Some (a, c) → isolated c = true →
(∀ k, usable (env_now E k) c = true) → ModelProvider model E r n = (o, r1, m) →
∀ r2, served_sparing a r1 r2 →
  probed id a r2 ∧ ∀ E' model' pinned key n', (selectCredential model' pinned key E' r2 n').1.1 ≠ Ok (Some a).
Proof.
intros Hn Hnext Hroutes Hr Hi Hu Hrun r2 Hserved.
assert (Hfirst : wp Direct E (ModelProvider model) r (λ _ r', still r r' ∧ probed id a r')).
{ apply wp_bind. eapply wp_mono; [by apply selectCredential_spec|]. intros o' r' (k & Hsel & Ho).
  assert (still r r') as Hs by (destruct Hsel as (? & _ & ? & _); by split).
  destruct o' as [[b|]|e]; [| |done].
  - apply wp_gets. split; [done|]. destruct Ho as (id' & c' & Hr' & _ & Hafter & Hin).
    change (id' ∈ routes r (model_key model)) in Hin. rewrite Hroutes in Hin. apply list_elem_of_singleton in Hin as ->. rewrite Hr in Hr'. injection Hr' as <- <-.
    unfold taken in Hafter. rewrite Hi in Hafter. eexists. split; [exact Hafter|]. split; [exact Hi|done].
  - exfalso. assert (usable (env_now E k) c = false) as Hno; [|by rewrite Hu in Hno].
    apply (Ho id a c); [|done]. apply candidate_route. rewrite Hroutes. by left. }
destruct (wp_direct _ _ _ _ _ _ _ _ Hfirst Hrun) as [Hs1 Hp1]. pose proof (still_names _ _ Hn Hs1) as Hn1.
assert (still r1 r2 ∧ probed id a r2) as [Hs2 Hp2].
{ clear Hrun Hfirst Hs1. induction Hserved as [r1|r1 r2 r3 op E2 n2 o2 c2 _ IH Hop Hrun]; [by split; [apply still_refl|]|].
  destruct (IH Hp1 Hn1) as [Hs2 Hp2]. pose proof (still_names _ _ Hn1 Hs2) as Hn2.
  destruct (wp_direct _ _ _ _ _ _ _ _ (probed_run Direct E2 id a r2 op Hn2 Hop r2 (conj (still_refl r2) Hp2)) Hrun) as [Hs3 Hp3].
  split; [by eapply still_trans|done]. }
split; [done|]. pose proof (still_names _ _ Hn1 Hs2) as Hn2. intros E' model' pinned key n' Hgiven.
destruct (selectCredential model' pinned key E' r2 n') as [[o' r3] m'] eqn:Hrun'. cbn in Hgiven. subst o'.
destruct (wp_direct _ _ _ _ _ _ _ _ (selectCredential_spec Direct E' model' pinned key r2 Hn2) Hrun') as (k' & _ & Hg).
by apply (probed_refused _ id a r2 r3 _ a Hn2 Hp2 Hg).
Qed.
End theorems.

(** ** Two accounts

    The account [first] is isolated until the instant 10, the account [second] is well.  A request at 0 is
    given the second; from then on the first is never chosen, not even at 20. *)

Definition idle_account (id : string) (status : CredentialStatus) : nativeCredential :=
  {| nc_source := Build_Credential id "openai" true ["gpt-5"] "{}"; nc_Provider := "openai"; nc_BaseURL := ""; nc_ProxyURL := "";
     nc_WebSockets := false; nc_ModelRoutes := ∅; nc_Models := ["gpt-5"]; nc_Status := status; nc_consecutiveFailures := 0;
     nc_probeActive := false; nc_SessionAffinity := false; nc_Vendor := "" |}.

Definition two_accounts : nativeRuntime :=
  install_objects [idle_account "first" (Build_CredentialStatus "cooldown" "" true 0 3 "" (Some 10));
                   idle_account "second" (Build_CredentialStatus "active" "" false 0 0 "" None)]
    {| rt_settings := Build_Settings "round-robin" "" 3 10; rt_objects := []; rt_credentials := ∅; rt_modelRoutes := ∅;
       rt_models := []; rt_next := 0; rt_affinity := ∅ |}.

Definition at_instant (z : Z) : env :=
  {| env_now _ := z; env_fault _ := None; env_id _ := ""; env_random _ := []; env_order _ := [] |}.

Definition after_first_choice : nativeRuntime := (selectCredential "gpt-5" "" "" (at_instant 0) two_accounts 0%nat).1.2.

Lemma two_accounts_choices :
  (selectCredential "gpt-5" "" "" (at_instant 0) two_accounts 0%nat).1.1 = Ok (Some 1%nat) ∧
  routes two_accounts "gpt-5" = ["first"; "second"] ∧ routes after_first_choice "gpt-5" = ["second"; "second"] ∧
  option_map (λ ac, usable 20 ac.2) (registered after_first_choice "first") = Some true.
Proof. by vm_compute. Qed.

Lemma isolated_accounts_are_forgotten_witness `{StatusText} :
  ∀ key n, (selectCredential "gpt-5" "" key (at_instant 20) after_first_choice n).1.1 ≠ Ok (Some 0%nat).
Proof.
  destruct two_accounts_choices as (Hchoice & Hroutes & _). unfold after_first_choice.
  destruct (selectCredential "gpt-5" "" "" (at_instant 0) two_accounts 0%nat) as [[o r1] m] eqn:Hrun. cbn in Hchoice. subst o.
  intros key n. cbn [fst snd].
  apply (isolated_accounts_are_forgotten (at_instant 0) "gpt-5" two_accounts 0%nat 1%nat r1 m "first" ["second"] 0%nat
    (idle_account "first" (Build_CredentialStatus "cooldown" "" true 0 3 "" (Some 10))));
    [apply installed_names|exact Hroutes| |by vm_compute|done|exact Hrun|constructor].
  by intros [=]%list_elem_of_singleton.
Defined.
